(* ===== verification/_CoqProject ===== *)
-Q . S2P
Prelude.v
GoInt.v
Stats.v
Wire.v
Kcp.v
Serial.v
Send.v
Recv.v
Ack.v
Input.v
Flush.v
Flushed.v
Timer.v
Session.v
Pool.v
Owned.v
Protocol.v
Messages.v
Progress.v
Stall.v
Buffer.v
BufConn.v
Conn.v
Calls.v
Sockets.v
Deliver.v
Threads.v
Dial.v
Listener.v
Server.v
Served.v
Gauge.v
Lossy.v
LossyConn.v
Testbed.v
