(* ===== verification/Prelude.v ===== *)
(** * A verification development for kcp-conn (Go package [kcp])

    kcp-conn is a reliable byte stream over datagrams. The package [src/go/kcp/] holds the
    protocol ([kcp.go]: one control block per connection, written by hand after the C
    implementation), the connections and the server that drive it ([kcpconn.go]), a byte
    buffer ([buffer.go]), a reader that looks ahead ([bufconn.go]), counters ([stats.go]) and
    a simulated network for its tests ([lossychan.go], [lossyconn.go]).

    ** The program and its model

    The code is a pure state machine inside a concurrent shell, and so is the model.

    - [GoInt.v] fixes the integers: [uint32], [int32], [int64] and so on are values of [Z] that
      every operation wraps as Go does; [itimediff] is the signed difference that orders sequence
      numbers and times on the circle. [Stats.v] is [stats.go].
    - [Wire.v] is the segment and the header codec of [kcp.go]; [Kcp.v] the struct [KCP] as the
      record [KCP] with its creation, setters and predicates. A function on [*KCP] is a function
      from [KCP] to [res (KCP * ...)], where [res] (of this file) is a result, a panic with its
      cause, or exhausted fuel. [Serial.v] has the lemmas on lists in serial-number order.
    - The operations of [kcp.go], a file each: [Send.v] ([send]), [Recv.v] ([recvSize], [recv],
      [parse_data]), [Ack.v] ([update_ack], [shrink_buf], [parse_ack], [parse_una],
      [parse_fastack]), [Input.v] ([input]), [Flush.v] ([flush], [sendConnectFlush],
      [sendCloseFlush]; what they leave behind is in [Flushed.v]), [Timer.v] ([update],
      [check]). Datagrams handed to the callback [output] are a result of the function.
    - [Session.v] puts the operations of one control block into sequences, and [Protocol.v] two
      control blocks onto a network; [Messages.v] follows the messages of message mode there, and
      [Progress.v] and [Stall.v] are about what happens next, for good and for bad.
    - [Pool.v] writes the operations of [kcp.go] a second time on segments that refer to buffers of
      the shared [udpPacketPool] ([newSegment] takes one, [delSegment] puts it back, whichever the
      pool then hands out), and [Owned.v] shows that they do what the operations on values do.
    - [Buffer.v] is [buffer.go]. The class [ByteQueue] of that file is the contract that the
      connection and the buffered reader of [BufConn.v] are proved against; [Buffer] is its
      instance.
    - [Conn.v] has the critical sections of [KCPConn] (what happens between taking the mutex and
      releasing it), over any packet socket and any [ByteQueue]; [Calls.v] their sequences;
      [Threads.v] the goroutines that interleave them: [run], a reader, a writer, the receiver.
      [Sockets.v] has what a call hands to the socket, and [Deliver.v] carries the guarantee of
      [Protocol.v] over to the calls of two connections.
    - [Dial.v] is [DialTimeout], [Listener.v] the type [Listener] with the loop of [server] and
      [AcceptKCP], [Server.v] that loop beside the goroutine that reads the socket, [Gauge.v] the
      atomic counters that the [run] of all connections share.
      [Served.v] has a server and any number of clients as one system.
    - [Lossy.v] is the goroutine of [LossyChannel], [LossyConn.v] the two kinds of connection
      that use it, and [Testbed.v] two connections that talk over such a pair, as the tests do.

    Methods that block are split where they wait: a round of [Read] or [Write] returns or says
    that it waits and until when. A channel is the list of what it holds, or a flag where its
    capacity is one and only the event matters; a goroutine is a program counter. Interleavings
    are sequences of steps ([tstep], [lstep], [dstep], [gstep]), and what holds of all of them
    is an invariant of the states they reach.

    ** What is proved

    - Delivery ([Deliver.connections_deliver], [Protocol.delivery_prefix], [delivery_complete]):
      over loss, delay, duplication and reordering, what is read is a prefix of what is written,
      and all of it once the sender has nothing left to send. Two connections on a lossy pair are
      an instance ([Testbed.pair_delivers]), and so are a client and the connection that a server
      makes for it, whatever other clients there are ([Served.server_delivers]), as long as the
      conversation is not opened again after its end ([Listener.ended_conversation_reopens]).
      In message mode the messages arrive whole ([Messages.messages_delivered]).
    - Progress ([Progress.exchange_retires], [everything_can_be_delivered]): an exchange of
      datagrams retires a segment that is due, and from every reachable state of a stream a run
      without further loss delivers everything. Two things stand in the way of more, and are
      theorems: [Stall.lost_ack_stalls] and [Stall.connect_strands_data].
    - Memory: sharing the buffers of the pool is not seen ([Owned.buffers_owned]), so that it is
      right to compute with values everywhere else.
    - No panic and no endless loop ([Session.session_safe], [Calls.connection_safe],
      [Input.input_total], [Send.send_total], [Flushed.flush_datagrams], [Recv.recv_message]):
      for every datagram and every sequence of calls that keeps the conditions [op_ok] and
      [call_ok]; what happens outside them are theorems of their own
      ([Calls.unopened_close_panics], [Calls.Write_returns], [Send.send_panics_above_pool],
      [Flushed.setMtu_lowered_panics]).
    - What the operations do: the wire format ([Wire.segment_roundtrip], [Input.input_decodes]),
      acknowledgements ([Ack.acks_retire]), order of arrival ([Recv.parse_data_in_order]),
      windows, timers and congestion ([Flushed.flush_window], [flush_rearms],
      [flush_congestion]), the clock ([Timer.update_when_due], [check_sound]), closing
      ([Flushed.sendCloseFlush_once], [Calls.Close_final], [Threads.close_pass_ends]).
    - Refinement: the byte buffer is a list ([Buffer.buffer_refines]), the buffered reader keeps
      the stream but for what comes with an error ([BufConn.readahead_stream],
      [ReadToBuffer_drops]), the ring of the lossy channel is a calendar within its length and
      while the clock does not go back ([Lossy.lossy_calendar]; else [take_panics]).
    - Concurrency: a waiting reader is woken ([Threads.reader_not_forgotten]), the session table
      is consistent ([Listener.sessions_consistent], [server_packet_routes],
      [server_dead_keeps_successor]), the gauges count ([Gauge.gauges_right], and what
      they can miss: [conn_max_missed]), and the places
      where a thread waits for ever ([Threads.close_strands_writer],
      [Listener.full_queue_blocks_server], [Dial.dial_timeout_leaks]) or for nothing
      ([Server.read_error_spins]).

    ** Bounds and fuel

    - [input] loops with the length of the datagram as fuel: each round takes 24 bytes or more.
      [Read] drains the control block with fuel one above the number of received segments
      ([drain_fuel]): each round takes a segment. That this is enough is part of
      [Input.input_total] and [Conn.drain_ok]. All other loops are structural.
    - A buffer of the packet pool has 2048 bytes whose content is unspecified (the class
      [BufPool]); the socket gives datagrams of at most that size.
    - [Protocol.v] and [Deliver.v] assume that an end has numbered fewer than 2^31 segments:
      beyond that a datagram delayed for long enough is ambiguous on the circle.
    - [Buffer.v] assumes less than 2^44 bytes in total are asked for, so that the doubling of the capacity
      stays an [int]. [Lossy.v] has the ring of 5000 slots of the code and, where the order of
      items is claimed, a clock that does not go back and delays below the ring ([timely]).

    ** Parameters

    What the program takes from outside is an argument: the socket ([WriteTo], any function
    from a state and a datagram to a state and a success), the current time of each call,
    the random conversation number, the name resolution and the order in which goroutines run
    (the step relations), the draws of the random generator and the answers of the [LossyTrick].
    No property is assumed of them beyond their types, the size of a received datagram and,
    where stated, a clock in range.

    ** Not modelled

    - [dump] and [debug] (logging), [SetKeepAlive] (sets a field that nothing reads), methods
      that only delegate to the socket or the wrapped connection (addresses, socket buffer sizes,
      [ConnectedUDPConn]), and methods of [lossyconn.go] that only return [nil].
    - [src/demo/]: an HTTP server that only calls [Listen] and [net/http], and a client in C++.
    - [src/c/]: an implementation of the protocol in C and C++, a program of its own.
    - The tests.
    - Slices other than those of the pool are values: the packet buffer that [flush] reuses is part
      of the control block in [Flush.v], the array of [Buffer] is inside its record, and nothing
      else is written to after it has been handed on.
    - Data races: critical sections are atomic, and the few accesses without the mutex (the state
      flags that [run] and [server] read, the counters) are steps of their own, part of the step they follow ([Conn.Write]), or
      findings.

    ** Plan

    Left for later: several readers or writers of one connection in [Threads.v], which has one of
    each, and the methods that only delegate. *)
From stdpp Require Export base tactics numbers option list strings gmap sorting.
From coqutil Require Export Byte Word.LittleEndianList.
From Stdlib Require Export Lia ZArith.
#[global] Open Scope Z_scope.

(** ** Notations *)

Create HintDb kcp.
Create Rewrite HintDb kcp.
Declare Scope kcp_scope.
Delimit Scope kcp_scope with kcp.
#[global] Open Scope kcp_scope.

(** [len s] is Go's [len(s)], an [int]. *)
Abbreviation len l := (Z.of_nat (length l)).

(** ** Record update

    [Eta R] is the identity of a record type written constructor-first; from it
    the setter of every field is derived by unification, so that
    [r <| f := v |>] is the record [r] with the one field [f] assigned. *)
Class Eta (R : Type) := eta : R -> R.
Class Setter {R T : Type} (proj : R -> T) := set : (T -> T) -> R -> R.
Arguments set {R T} proj {_} f r.

Ltac derive_setter :=
  match goal with
  | |- @Setter ?R ?T ?proj =>
    let s := constr:(fun (f : T -> T) (r : R) =>
      ltac:(let h := eval hnf in (eta : R -> R) in
            let e := eval cbv beta in (h r) in
            match eval pattern (proj r) in e with
            | ?g _ => let t := eval cbv beta in (g (f (proj r))) in exact t
            end)) in
    exact s
  end.
#[export] Hint Extern 1 (Setter _) => derive_setter : typeclass_instances.

Notation "r <| p := v |>" := (set p (fun _ => v) r)
  (at level 1, left associativity, p at level 9,
   format "r  <| p  :=  v |>") : kcp_scope.

(** ** Results of Go code

    A Go function returns or panics; the loops that are not structural carry
    fuel, and [OutOfFuel] is the value a run that needed more would have. *)
Inductive panic :=
  | PIndex            (** index out of range *)
  | PSlice            (** slice bounds out of range *)
  | PNil              (** nil pointer dereference or call of a nil func *)
  | PDivide           (** integer divide by zero *)
  | PMake             (** makeslice: len out of range *)
  | PClosed           (** close of closed channel *)
  | PSend             (** send on closed channel *)
  | PUser (msg : string) (** an explicit [panic] or [log.Panicf] *).

Inductive res (A : Type) :=
  | Ok (a : A)
  | Panic (p : panic)
  | OutOfFuel.
Arguments Ok {A} a.
Arguments Panic {A} p.
Arguments OutOfFuel {A}.

#[export] Instance panic_eq_dec : EqDecision panic.
Proof. solve_decision. Defined.
#[export] Instance res_eq_dec {A} `{EqDecision A} : EqDecision (res A).
Proof. solve_decision. Defined.
#[export] Instance byte_eq_dec : EqDecision byte := Byte.byte_eq_dec.

#[export] Instance res_ret : MRet res := fun A a => Ok a.
#[export] Instance res_bind : MBind res := fun A B f m =>
  match m with
  | Ok a => f a
  | Panic p => Panic p
  | OutOfFuel => OutOfFuel
  end.
#[export] Instance res_fmap : FMap res := fun A B f m =>
  match m with
  | Ok a => Ok (f a)
  | Panic p => Panic p
  | OutOfFuel => OutOfFuel
  end.

(** Continue when the run-time check [b] passes, panic with [p] otherwise. *)
Definition go_check (b : bool) (p : panic) : res unit :=
  if b then Ok tt else Panic p.

(** ** Slices *)

(** The bytes of [dst] after [copy(dst, src)]. *)
Definition go_copy {A} (dst src : list A) : list A :=
  take (length dst) src ++ drop (length src) dst.

(** [s[n:]] *)
Definition slice_from {A} (n : Z) (s : list A) : res (list A) :=
  if (0 <=? n) && (n <=? len s) then Ok (drop (Z.to_nat n) s) else Panic PSlice.

(** [make([]byte, n)]: the length must be neither negative nor larger than the
    address space of the 64-bit targets (2^48 bytes). *)
Definition go_make (n : Z) : res (list byte) :=
  if (0 <=? n) && (n <=? 281474976710656)
  then Ok (replicate (Z.to_nat n) Byte.x00) else Panic PMake.

(** A slice that is being filled from the front: [buf] is [cdone ++ crest], and
    the Go variable that walks through it ([ptr], [buffer]) is [crest]. *)
Record cursor := mkCursor { cdone : list byte; crest : list byte }.
#[export] Instance eta_cursor : Eta cursor :=
  fun r => mkCursor (cdone r) (crest r).

Definition cursor_of (buf : list byte) : cursor := mkCursor [] buf.
Definition cursor_buf (c : cursor) : list byte := cdone c ++ crest c.

(** [copy(ptr, bs); ptr = ptr[len(bs):]], and the [binary.PutUint] calls, which
    fail with the panic [p] when [ptr] is too short. *)
Definition cursor_write (p : panic) (c : cursor) (bs : list byte) : res cursor :=
  if len bs <=? len (crest c)
  then Ok (mkCursor (cdone c ++ bs) (drop (length bs) (crest c)))
  else Panic p.

(** ** Lemmas *)

Lemma bind_Ok_inv {A B} (m : res A) (f : A -> res B) b :
  mbind f m = Ok b -> exists a, m = Ok a /\ f a = Ok b.
Proof. destruct m; simpl; [eauto | discriminate..]. Qed.

Lemma Ok_inj {A} (a b : A) : Ok a = Ok b -> a = b.
Proof. by intros [=]. Qed.

Lemma go_check_Ok b p u : go_check b p = Ok u -> b = true.
Proof. by destruct b. Qed.

Lemma go_check_true (b : bool) p : b = true -> go_check b p = Ok tt.
Proof. by intros ->. Qed.

Lemma go_copy_length {A} (dst src : list A) :
  length (go_copy dst src) = length dst.
Proof. unfold go_copy. rewrite length_app, length_take, length_drop. lia. Qed.

Lemma go_copy_all {A} (dst src : list A) :
  length src = length dst -> go_copy dst src = src.
Proof.
  intros H. unfold go_copy.
  rewrite take_ge, drop_ge by lia. apply app_nil_r.
Qed.

(** Removing the element [k] by shifting the tail down with [copy], clearing the last slot and
    shortening; and inserting at [idx] by appending a slot and shifting the tail up. *)
Lemma copy_down {A} (z : A) buf k :
  (k < length buf)%nat ->
  let b := take k buf ++ go_copy (drop k buf) (drop (k + 1) buf) in
  take (length b - 1) (<[(length b - 1)%nat := z]> b) = delete k buf.
Proof.
  intros Hk. simpl. rewrite delete_take_drop. unfold go_copy. rewrite drop_drop.
  rewrite (take_ge (drop (k + 1) buf)) by (rewrite !length_drop; lia).
  rewrite length_drop.
  assert (exists x, drop (k + (length buf - (k + 1))) buf = [x]) as [x ->].
  { destruct (lookup_lt_is_Some_2 buf (length buf - 1)) as [x Hx]; [lia|].
    exists x. replace (k + (length buf - (k + 1)))%nat with (length buf - 1)%nat by lia.
    rewrite (drop_S _ x) by done. by rewrite drop_ge by lia. }
  rewrite app_assoc. set (l := take k buf ++ drop (k + 1) buf).
  rewrite length_app. simpl. replace (length l + 1 - 1)%nat with (length l + 0)%nat by lia.
  rewrite insert_app_r. simpl. rewrite Nat.add_0_r, take_app_length. subst l.
  by rewrite Nat.add_1_r.
Qed.

Lemma copy_up {A} (z x : A) buf idx :
  (idx < length buf)%nat ->
  let b := buf ++ [z] in
  <[idx := x]> (take (idx + 1) b ++ go_copy (drop (idx + 1) b) (drop idx b))
  = take idx buf ++ x :: drop idx buf.
Proof.
  intros Hi. simpl. rewrite take_app_le by lia.
  rewrite !drop_app_le by lia. unfold go_copy.
  rewrite (drop_ge _ (length (drop idx buf ++ [z]))), app_nil_r
    by (rewrite !length_app, !length_drop; simpl; lia).
  rewrite take_app_le by (rewrite length_app, !length_drop; simpl; lia).
  rewrite (take_ge (drop idx buf)) by (rewrite length_app, !length_drop; simpl; lia).
  rewrite insert_app_l by (rewrite length_take; lia).
  replace (take (idx + 1) buf) with (take idx buf ++ take 1 (drop idx buf))
    by (rewrite take_take_drop; f_equal; lia).
  replace idx with (length (take idx buf) + 0)%nat at 1 by (rewrite length_take; lia).
  rewrite insert_app_r. destruct (drop idx buf) as [|y l] eqn:Ed.
  - apply (f_equal length) in Ed. rewrite length_drop in Ed. simpl in Ed. lia.
  - simpl. by rewrite <- app_assoc.
Qed.

Lemma pair_eq4 {A B C D} (a a' : A) (b b' : B) (c c' : C) (d d' : D) :
  (a, b, c, d) = (a', b', c', d') -> a = a' /\ b = b' /\ c = c' /\ d = d'.
Proof. by intros [= -> -> -> ->]. Qed.

Lemma elem_of_drop {A} n (l : list A) x : x ∈ drop n l -> x ∈ l.
Proof. intros Hx. rewrite <- (take_drop n l). apply elem_of_app. by right. Qed.

Lemma elem_of_take {A} n (l : list A) x : x ∈ take n l -> x ∈ l.
Proof. intros Hx. rewrite <- (take_drop n l). apply elem_of_app. by left. Qed.

Lemma elem_of_concat {A} (ls : list (list A)) l x : l ∈ ls -> x ∈ l -> x ∈ concat ls.
Proof.
  induction ls as [|l' ls IH]; [by intros ?%elem_of_nil|]. simpl.
  intros [->|Hl]%elem_of_cons Hx; apply elem_of_app; [by left|right; auto].
Qed.

Lemma elem_of_concat_inv {A} (ls : list (list A)) x : x ∈ concat ls -> exists l, l ∈ ls /\ x ∈ l.
Proof.
  induction ls as [|l ls IH]; simpl; [by intros ?%elem_of_nil|].
  intros [Hx|Hx]%elem_of_app; [exists l; split; [by left|done]|].
  destruct (IH Hx) as (l' & Hl & Hin). exists l'. split; [by right|done].
Qed.

Lemma take_length_take {A} n (l : list A) : take (length (take n l)) l = take n l.
Proof.
  rewrite length_take. destruct (decide (n <= length l)%nat).
  - f_equal. lia.
  - by rewrite !take_ge by lia.
Qed.

Lemma drop_length_take {A} n (l : list A) : drop (length (take n l)) l = drop n l.
Proof.
  rewrite length_take. destruct (decide (n <= length l)%nat).
  - f_equal. lia.
  - by rewrite !drop_ge by lia.
Qed.

Lemma filter_all {A} (P : A -> Prop) `{!forall x, Decision (P x)} (l : list A) :
  (forall x, x ∈ l -> P x) -> filter P l = l.
Proof.
  induction l as [|x l IH]; intros Hl; [done|].
  rewrite filter_cons_True by (apply Hl; by left).
  f_equal. apply IH. intros y Hy. apply Hl. by right.
Qed.

Lemma filter_none {A} (P : A -> Prop) `{!forall x, Decision (P x)} (l : list A) :
  (forall x, x ∈ l -> ~ P x) -> filter P l = [].
Proof.
  induction l as [|x l IH]; intros Hl; [done|].
  rewrite filter_cons_False by (apply Hl; by left).
  apply IH. intros y Hy. apply Hl. by right.
Qed.

Lemma slice_from_ok {A} (n : Z) (s : list A) :
  0 <= n <= len s -> slice_from n s = Ok (drop (Z.to_nat n) s).
Proof.
  intros H. unfold slice_from.
  by rewrite (proj2 (Z.leb_le 0 n)), (proj2 (Z.leb_le n _)) by lia.
Qed.

Lemma cursor_write_ok p c bs :
  (length bs <= length (crest c))%nat ->
  cursor_write p c bs =
    Ok (mkCursor (cdone c ++ bs) (drop (length bs) (crest c))).
Proof. intros H. unfold cursor_write. by rewrite (proj2 (Z.leb_le _ _)) by lia. Qed.

Lemma cursor_write_Ok_inv p c bs c' :
  cursor_write p c bs = Ok c' ->
  (length bs <= length (crest c))%nat /\
  c' = mkCursor (cdone c ++ bs) (drop (length bs) (crest c)).
Proof.
  unfold cursor_write. destruct (Z.leb_spec (len bs) (len (crest c)));
    intros [=<-]; split; [lia | done].
Qed.

(** A mask of one bit tests that bit. *)
Lemma land_pow2 z n : 0 <= n -> Z.land z (2 ^ n) = if Z.testbit z n then 2 ^ n else 0.
Proof.
  intros Hn. apply Z.bits_inj'. intros i Hi. rewrite Z.land_spec.
  destruct (decide (i = n)) as [->|Hne].
  - destruct (Z.testbit z n); by rewrite ?Z.pow2_bits_true, ?Z.bits_0.
  - rewrite Z.pow2_bits_false by lia.
    destruct (Z.testbit z n); rewrite ?Z.pow2_bits_false, ?Z.bits_0 by lia; apply andb_false_r.
Qed.

Lemma land_pow2_eqb z n : 0 <= n -> negb (Z.land z (2 ^ n) =? 0) = Z.testbit z n.
Proof.
  intros Hn. rewrite land_pow2 by done. pose proof (Z.pow_pos_nonneg 2 n).
  destruct (Z.testbit z n); [|done]. by destruct (Z.eqb_spec (2 ^ n) 0); [lia|].
Qed.

#[global] Arguments le_split : simpl never.
#[global] Arguments le_combine : simpl never.

(** ** Tactics *)

(** Take a successful monadic run apart, one step at a time. *)
Ltac res_inv :=
  repeat match goal with
  | H : mbind _ _ = Ok _ |- _ =>
      let a := fresh "a" in let E := fresh "E" in
      apply bind_Ok_inv in H as (a & E & H)
  | H : go_check _ _ = Ok _ |- _ => apply go_check_Ok in H
  | H : Ok _ = Ok _ |- _ => injection H as H
  | H : Panic _ = Ok _ |- _ => discriminate H
  | H : OutOfFuel = Ok _ |- _ => discriminate H
  end.

(** Case analysis on the boolean tests of the code, with the arithmetic fact. *)
Ltac btest :=
  repeat match goal with
  | |- context [Z.leb ?a ?b] => destruct (Z.leb_spec a b)
  | |- context [Z.ltb ?a ?b] => destruct (Z.ltb_spec a b)
  | |- context [Z.eqb ?a ?b] => destruct (Z.eqb_spec a b)
  end.
