(* ===== verification/GoInt.v ===== *)
(** * Machine integers and serial-number arithmetic

    [uint8], [uint16], [uint32], [int32] and [int64] values are integers of [Z]
    with their wrap-around written out; [itimediff] is the signed difference by
    which the protocol orders sequence numbers and timestamps modulo 2^32. *)
From S2P Require Import Prelude.

(** ** Definitions *)

Definition u8 (z : Z) : Z := z mod 256.
Definition u16 (z : Z) : Z := z mod 65536.
Definition u32 (z : Z) : Z := z mod 4294967296.
Definition i32 (z : Z) : Z := (z + 2147483648) mod 4294967296 - 2147483648.
Definition i64 (z : Z) : Z :=
  (z + 9223372036854775808) mod 18446744073709551616 - 9223372036854775808.

Definition is_u32 (z : Z) : Prop := 0 <= z < 4294967296.
Definition is_i32 (z : Z) : Prop := -2147483648 <= z < 2147483648.
Definition is_i64 (z : Z) : Prop := -9223372036854775808 <= z < 9223372036854775808.

Definition imin (a b : Z) : Z := if a <=? b then a else b.
Definition imax (a b : Z) : Z := if a >=? b then a else b.
Definition ibound (lower middle upper : Z) : Z := imin (imax lower middle) upper.
Definition itimediff (later earlier : Z) : Z := i32 (u32 (later - earlier)).

(** The forward distance from [a] to [b] on the circle of 32-bit numbers. *)
Definition dist (a b : Z) : Z := u32 (b - a).

(** Half of the circle: distances below it are "later", the others "earlier". *)
Abbreviation half := 2147483648 (only parsing).

(** ** Lemmas *)

Ltac word_lia :=
  unfold itimediff, dist, imin, imax, ibound, is_u32, is_i32, u8, u16, u32, i32, i64 in *;
  Z.div_mod_to_equations; lia.

Lemma u32_range z : is_u32 (u32 z).
Proof. word_lia. Qed.
Lemma u32_id z : is_u32 z -> u32 z = z.
Proof. word_lia. Qed.
Lemma u32_u32 z : u32 (u32 z) = u32 z.
Proof. word_lia. Qed.
Lemma i32_range z : is_i32 (i32 z).
Proof. word_lia. Qed.
Lemma i32_id z : is_i32 z -> i32 z = z.
Proof. word_lia. Qed.
Lemma i64_id z : is_i64 z -> i64 z = z.
Proof. unfold is_i64. word_lia. Qed.
Lemma u32_add_l a b : u32 (u32 a + b) = u32 (a + b).
Proof. word_lia. Qed.
Lemma u32_add_r a b : u32 (a + u32 b) = u32 (a + b).
Proof. word_lia. Qed.
Lemma u32_sub_l a b : u32 (u32 a - b) = u32 (a - b).
Proof. word_lia. Qed.
Lemma u32_sub_r a b : u32 (a - u32 b) = u32 (a - b).
Proof. word_lia. Qed.

Lemma dist_range a b : is_u32 (dist a b).
Proof. apply u32_range. Qed.
Lemma dist_self a : dist a a = 0.
Proof. word_lia. Qed.
Lemma dist_u32_l a b : dist (u32 a) b = dist a b.
Proof. word_lia. Qed.
Lemma dist_u32_r a b : dist a (u32 b) = dist a b.
Proof. word_lia. Qed.
Lemma dist_add a d : is_u32 d -> dist a (u32 (a + d)) = d.
Proof. word_lia. Qed.
Lemma dist_back a b : is_u32 b -> u32 (a + dist a b) = b.
Proof. word_lia. Qed.
Lemma dist_add_plain a d : 0 <= d < 4294967296 -> dist a (u32 (a + d)) = d.
Proof. word_lia. Qed.
Lemma dist_le a b : 0 <= a -> a <= b -> is_u32 b -> dist a b = b - a.
Proof. word_lia. Qed.
Lemma dist_inj a b c : is_u32 b -> is_u32 c -> dist a b = dist a c -> b = c.
Proof. word_lia. Qed.
Lemma dist_0 a b : is_u32 a -> is_u32 b -> dist a b = 0 -> a = b.
Proof. word_lia. Qed.
Lemma dist_succ a b : dist a b <> 0 -> dist (u32 (a + 1)) b = dist a b - 1.
Proof. word_lia. Qed.
Lemma dist_trans a b c :
  dist a b + dist b c < 4294967296 -> dist a c = dist a b + dist b c.
Proof. word_lia. Qed.
Lemma dist_sub a b c :
  dist a b <= dist a c -> dist b c = dist a c - dist a b.
Proof. word_lia. Qed.

Lemma itimediff_range a b : is_i32 (itimediff a b).
Proof. apply i32_range. Qed.
Lemma itimediff_dist a b :
  itimediff a b = if dist b a <? half then dist b a else dist b a - 4294967296.
Proof. destruct (Z.ltb_spec (dist b a) half); word_lia. Qed.
Lemma itimediff_self a : itimediff a a = 0.
Proof. word_lia. Qed.
Lemma itimediff_nonneg a b : 0 <= itimediff a b <-> dist b a < half.
Proof. word_lia. Qed.
Lemma itimediff_neg a b : itimediff a b < 0 <-> half <= dist b a.
Proof. word_lia. Qed.
Lemma itimediff_pos a b : 0 < itimediff a b <-> 0 < dist b a < half.
Proof. word_lia. Qed.

(** Two numbers within half a circle ahead of a common origin [o] are ordered by
    [itimediff] as their distances from the origin are. *)
Lemma itimediff_origin o a b :
  dist o a < half -> dist o b < half -> itimediff a b = dist o a - dist o b.
Proof. word_lia. Qed.

Lemma itimediff_future a d : 0 <= d < half -> itimediff a (u32 (a + d)) = - d.
Proof. word_lia. Qed.

Lemma imin_min a b : imin a b = Z.min a b.
Proof. unfold imin. destruct (Z.leb_spec a b); lia. Qed.
Lemma imax_max a b : imax a b = Z.max a b.
Proof. unfold imax. destruct (Z.geb_spec a b); lia. Qed.
Lemma ibound_range lo m hi : lo <= hi -> lo <= ibound lo m hi <= hi.
Proof. unfold ibound. rewrite imin_min, imax_max. lia. Qed.

#[export] Hint Resolve u32_range i32_range dist_range : kcp.
#[export] Hint Rewrite u32_u32 u32_add_l u32_add_r u32_sub_l u32_sub_r
  dist_u32_l dist_u32_r dist_self : kcp.
