(* ===== verification/Stats.v ===== *)
(** * Counters ([stats.go])

    The per-connection counters are a record that the connection updates in
    place; the process-wide counters are updated atomically by every
    connection, so an operation of one connection only says which of them it
    adds to ([add_int64]) and the listener or the test harness accumulates. *)
From S2P Require Import Prelude GoInt.

(** ** Definitions *)

Record KcpConnStats := mkKcpConnStats {
  ErrorRead : Z; ErrorInput : Z; ErrorOutput : Z;
  ByteRx : Z; ByteTx : Z;
  PacketIn : Z; PacketOut : Z; ByteIn : Z; ByteOut : Z;
  SegRepeat : Z; SegPush : Z; SegPushResend : Z;
  SegPushResendFast : Z; SegPushResendLost : Z; SegPushResendEarly : Z;
}.
#[export] Instance eta_KcpConnStats : Eta KcpConnStats := fun s =>
  mkKcpConnStats (ErrorRead s) (ErrorInput s) (ErrorOutput s) (ByteRx s) (ByteTx s)
    (PacketIn s) (PacketOut s) (ByteIn s) (ByteOut s) (SegRepeat s) (SegPush s)
    (SegPushResend s) (SegPushResendFast s) (SegPushResendLost s)
    (SegPushResendEarly s).

Definition newKcpConnStats : KcpConnStats :=
  mkKcpConnStats 0 0 0 0 0 0 0 0 0 0 0 0 0 0 0.

Record KcpGlobalStats := mkKcpGlobalStats {
  gSegPush : Z; gSegPushResend : Z;
  gTotalAccept : Z; gTotalConnect : Z; gTotalClose : Z; gTotalCloseDangling : Z;
  gConnMax : Z; gConnCurrent : Z; gConnClosing : Z;
  gErrorRead : Z; gErrorInput : Z; gErrorOutput : Z;
  gByteRx : Z; gByteTx : Z;
  gPacketIn : Z; gPacketOut : Z; gByteIn : Z; gByteOut : Z;
}.
#[export] Instance eta_KcpGlobalStats : Eta KcpGlobalStats := fun s =>
  mkKcpGlobalStats (gSegPush s) (gSegPushResend s) (gTotalAccept s)
    (gTotalConnect s) (gTotalClose s) (gTotalCloseDangling s) (gConnMax s)
    (gConnCurrent s) (gConnClosing s) (gErrorRead s) (gErrorInput s)
    (gErrorOutput s) (gByteRx s) (gByteTx s) (gPacketIn s) (gPacketOut s)
    (gByteIn s) (gByteOut s).

(** The value of the package variable [Stats] when the program starts. *)
Definition Stats0 : KcpGlobalStats :=
  mkKcpGlobalStats 0 0 0 0 0 0 0 0 0 0 0 0 0 0 0 0 0 0.

(** The counters that code outside the connection core adds to. *)
Inductive gcounter :=
  | CSegPush | CSegPushResend
  | CTotalAccept | CTotalConnect | CTotalClose | CTotalCloseDangling
  | CConnCurrent | CConnClosing
  | CErrorRead | CErrorInput | CErrorOutput
  | CByteRx | CByteTx | CPacketIn | CPacketOut | CByteIn | CByteOut.
#[export] Instance gcounter_eq_dec : EqDecision gcounter.
Proof. solve_decision. Defined.

(** [atomic.AddInt64(&Stats.c, d)] *)
Definition add_int64 (c : gcounter) (d : Z) (s : KcpGlobalStats) : KcpGlobalStats :=
  match c with
  | CSegPush => s<|gSegPush := i64 (gSegPush s + d)|>
  | CSegPushResend => s<|gSegPushResend := i64 (gSegPushResend s + d)|>
  | CTotalAccept => s<|gTotalAccept := i64 (gTotalAccept s + d)|>
  | CTotalConnect => s<|gTotalConnect := i64 (gTotalConnect s + d)|>
  | CTotalClose => s<|gTotalClose := i64 (gTotalClose s + d)|>
  | CTotalCloseDangling => s<|gTotalCloseDangling := i64 (gTotalCloseDangling s + d)|>
  | CConnCurrent => s<|gConnCurrent := i64 (gConnCurrent s + d)|>
  | CConnClosing => s<|gConnClosing := i64 (gConnClosing s + d)|>
  | CErrorRead => s<|gErrorRead := i64 (gErrorRead s + d)|>
  | CErrorInput => s<|gErrorInput := i64 (gErrorInput s + d)|>
  | CErrorOutput => s<|gErrorOutput := i64 (gErrorOutput s + d)|>
  | CByteRx => s<|gByteRx := i64 (gByteRx s + d)|>
  | CByteTx => s<|gByteTx := i64 (gByteTx s + d)|>
  | CPacketIn => s<|gPacketIn := i64 (gPacketIn s + d)|>
  | CPacketOut => s<|gPacketOut := i64 (gPacketOut s + d)|>
  | CByteIn => s<|gByteIn := i64 (gByteIn s + d)|>
  | CByteOut => s<|gByteOut := i64 (gByteOut s + d)|>
  end.

(** What an operation of a connection does outside the connection, in order:
    hand a datagram to the [Output] callback, or add to a global counter. *)
Inductive event :=
  | EOutput (pkt : list byte)
  | EAdd (c : gcounter) (d : Z).
#[export] Instance event_eq_dec : EqDecision event.
Proof. solve_decision. Defined.

(** The datagrams among the events. *)
Fixpoint packets_of (tr : list event) : list (list byte) :=
  match tr with
  | [] => []
  | EOutput p :: tr => p :: packets_of tr
  | EAdd _ _ :: tr => packets_of tr
  end.

(** ** Lemmas *)

Lemma packets_of_app t1 t2 : packets_of (t1 ++ t2) = packets_of t1 ++ packets_of t2.
Proof. induction t1 as [|[] t1 IH]; simpl; congruence. Qed.
