(* ===== verification/Wire.v ===== *)
(** * Segments and their wire format ([kcp.go], lines 9 to 131)

    The constants of the protocol, the [segment] record, and the little-endian
    codec of the 24-byte segment header. *)
From S2P Require Import Prelude GoInt.

(** ** Definitions *)

Definition IKCP_RTO_NDL := 30.
Definition IKCP_RTO_MIN := 100.
Definition IKCP_RTO_DEF := 200.
Definition IKCP_RTO_MAX := 60000.

Definition IKCP_CMD_CONNECT := 80.
Definition IKCP_CMD_PUSH := 81.
Definition IKCP_CMD_ACK := 82.
Definition IKCP_CMD_WASK := 83.
Definition IKCP_CMD_WINS := 84.

Definition IKCP_ASK_SEND := 1.
Definition IKCP_ASK_TELL := 2.
Definition IKCP_WND_SND := 32.
Definition IKCP_WND_RCV := 32.

Definition IKCP_MTU_DEF := 1400.
Definition IKCP_INTERVAL := 100.
Definition IKCP_OVERHEAD := 24.
Definition IKCP_DEADLINK := 20.
Definition IKCP_THRESH_INIT := 2.
Definition IKCP_THRESH_MIN := 2.
Definition IKCP_PROBE_INIT := 7000.
Definition IKCP_PROBE_LIMIT := 120000.

Definition IKCP_STATE_CONNECTED := 1.
Definition IKCP_STATE_REMOTE_CLOSED := 2.
Definition IKCP_STATE_LOCAL_CLOSED := 4.
Definition IKCP_STATE_DEAD := 8.

Record segment := mkSegment {
  seg_conv : Z; seg_cmd : Z; seg_frg : Z; seg_wnd : Z; seg_ts : Z; seg_sn : Z;
  seg_una : Z; seg_resendts : Z; seg_rto : Z; seg_fastack : Z; seg_xmit : Z;
  seg_data : list byte;
}.
#[export] Instance eta_segment : Eta segment := fun s =>
  mkSegment (seg_conv s) (seg_cmd s) (seg_frg s) (seg_wnd s) (seg_ts s) (seg_sn s)
    (seg_una s) (seg_resendts s) (seg_rto s) (seg_fastack s) (seg_xmit s) (seg_data s).

(** The zero value [segment{}]. *)
Definition segment0 : segment := mkSegment 0 0 0 0 0 0 0 0 0 0 0 [].

#[export] Instance segment_eq_dec : EqDecision segment.
Proof. solve_decision. Defined.

(** Writing an integer of [n] bytes through the write cursor. The single-byte
    case is an index expression, as is the bounds check of [PutUint16/32]. *)
Definition ikcp_encode8u (p : cursor) (c : Z) : res cursor :=
  cursor_write PIndex p (le_split 1 c).
Definition ikcp_encode16u (p : cursor) (w : Z) : res cursor :=
  cursor_write PIndex p (le_split 2 w).
Definition ikcp_encode32u (p : cursor) (l : Z) : res cursor :=
  cursor_write PIndex p (le_split 4 l).

(** Reading an integer of [n] bytes: the value and the rest of the slice. *)
Definition decode_le (n : nat) (p : list byte) : res (Z * list byte) :=
  if (n <=? length p)%nat then Ok (le_combine (take n p), drop n p) else Panic PIndex.
Definition ikcp_decode8u (p : list byte) : res (Z * list byte) := decode_le 1 p.
Definition ikcp_decode16u (p : list byte) : res (Z * list byte) := decode_le 2 p.
Definition ikcp_decode32u (p : list byte) : res (Z * list byte) := decode_le 4 p.

(** [seg.encode(ptr)]: the header only; the data is copied by [flush]. *)
Definition segment_encode (seg : segment) (ptr : cursor) : res cursor :=
  ptr ← ikcp_encode32u ptr (seg_conv seg);
  ptr ← ikcp_encode8u ptr (u8 (seg_cmd seg));
  ptr ← ikcp_encode8u ptr (u8 (seg_frg seg));
  ptr ← ikcp_encode16u ptr (u16 (seg_wnd seg));
  ptr ← ikcp_encode32u ptr (seg_ts seg);
  ptr ← ikcp_encode32u ptr (seg_sn seg);
  ptr ← ikcp_encode32u ptr (seg_una seg);
  ikcp_encode32u ptr (u32 (len (seg_data seg))).

(** The header fields as [input] reads them. *)
Record header := mkHeader {
  h_conv : Z; h_cmd : Z; h_frg : Z; h_wnd : Z; h_ts : Z; h_sn : Z; h_una : Z; h_len : Z;
}.

(** The fields after [conv], in the order [input] reads them: it compares
    [conv] before it goes on. *)
Definition decode_rest (conv : Z) (data : list byte) : res (header * list byte) :=
  '(cmd, data) ← ikcp_decode8u data;
  '(frg, data) ← ikcp_decode8u data;
  '(wnd, data) ← ikcp_decode16u data;
  '(ts, data) ← ikcp_decode32u data;
  '(sn, data) ← ikcp_decode32u data;
  '(una, data) ← ikcp_decode32u data;
  '(length, data) ← ikcp_decode32u data;
  Ok (mkHeader conv cmd frg wnd ts sn una length, data).

(** ** Reference description of the format *)

(** The 24 bytes of a header, and the header and the data of a segment. *)
Definition header_bytes (s : segment) : list byte :=
  le_split 4 (seg_conv s) ++ le_split 1 (u8 (seg_cmd s)) ++ le_split 1 (u8 (seg_frg s)) ++
  le_split 2 (u16 (seg_wnd s)) ++ le_split 4 (seg_ts s) ++ le_split 4 (seg_sn s) ++
  le_split 4 (seg_una s) ++ le_split 4 (u32 (len (seg_data s))).
Definition wire (s : segment) : list byte := header_bytes s ++ seg_data s.

(** The bytes of a list of segments on the wire. *)
Definition seg_stream (l : list segment) : list byte := concat (map wire l).

(** What survives the trip: the fields at the width the wire gives them. *)
Definition header_of (s : segment) : header :=
  mkHeader (u32 (seg_conv s)) (u8 (seg_cmd s)) (u8 (seg_frg s)) (u16 (seg_wnd s))
    (u32 (seg_ts s)) (u32 (seg_sn s)) (u32 (seg_una s)) (u32 (len (seg_data s))).

(** ** Lemmas *)

Lemma header_bytes_length s : length (header_bytes s) = 24%nat.
Proof. unfold header_bytes. by rewrite !length_app, !length_le_split. Qed.

Lemma wire_length s : length (wire s) = (24 + length (seg_data s))%nat.
Proof. unfold wire. by rewrite length_app, header_bytes_length. Qed.

Lemma seg_stream_app l1 l2 : seg_stream (l1 ++ l2) = seg_stream l1 ++ seg_stream l2.
Proof. unfold seg_stream. by rewrite map_app, concat_app. Qed.

Lemma seg_stream_cons s l : seg_stream (s :: l) = wire s ++ seg_stream l.
Proof. done. Qed.

Lemma decode_le_app n z p : decode_le n (le_split n z ++ p) = Ok (z mod 2 ^ (Z.of_nat n * 8), p).
Proof.
  unfold decode_le. rewrite length_app, length_le_split.
  rewrite (proj2 (Nat.leb_le n (n + length p))) by lia.
  rewrite take_app_length', drop_app_length' by (by rewrite length_le_split).
  by rewrite le_combine_split.
Qed.

Lemma decode_le_range n p z p' :
  decode_le n p = Ok (z, p') -> 0 <= z < 2 ^ (8 * Z.of_nat n) /\ p' = drop n p.
Proof.
  unfold decode_le. destruct (Nat.leb_spec n (length p)); [|discriminate].
  intros [= <- <-]. split; [|done].
  pose proof (le_combine_bound (take n p)) as Hb.
  rewrite length_take, Nat.min_l in Hb by lia. exact Hb.
Qed.

Lemma decode_le_total n p :
  (n <= length p)%nat -> exists z, decode_le n p = Ok (z, drop n p).
Proof.
  intros H. unfold decode_le. rewrite (proj2 (Nat.leb_le _ _)) by lia. eauto.
Qed.

(** The eight writes of [encode] are one write of the header. *)
Lemma segment_encode_ok s ptr :
  (24 <= length (crest ptr))%nat ->
  segment_encode s ptr =
    Ok (mkCursor (cdone ptr ++ header_bytes s) (drop 24 (crest ptr))).
Proof.
  intros H. unfold segment_encode, ikcp_encode32u, ikcp_encode16u, ikcp_encode8u.
  repeat (rewrite cursor_write_ok
            by (simpl; rewrite ?length_drop, ?length_le_split; simpl; lia); simpl).
  unfold header_bytes.
  by rewrite !drop_drop, <- !app_assoc.
Qed.

Lemma segment_encode_Ok_inv s ptr ptr' :
  segment_encode s ptr = Ok ptr' -> (24 <= length (crest ptr))%nat.
Proof.
  unfold segment_encode, ikcp_encode32u, ikcp_encode16u, ikcp_encode8u.
  intros H. res_inv.
  repeat match goal with
  | H : cursor_write _ _ _ = Ok _ |- _ =>
      apply cursor_write_Ok_inv in H as [? ->]; simpl in *
  end.
  rewrite ?length_drop, ?length_le_split in *. lia.
Qed.

(** Decoding [conv], whatever follows. *)
Lemma decode_conv_wire s p :
  ikcp_decode32u (header_bytes s ++ p) = Ok (u32 (seg_conv s), drop 4 (header_bytes s) ++ p).
Proof.
  unfold ikcp_decode32u, header_bytes.
  rewrite drop_app_length' by (by rewrite length_le_split).
  by rewrite <- !app_assoc, decode_le_app.
Qed.

(** Decoding the fields after [conv] of an encoded segment, whatever follows. *)
Lemma decode_rest_wire s conv p :
  decode_rest conv (drop 4 (header_bytes s) ++ p) =
    Ok (mkHeader conv (u8 (seg_cmd s)) (u8 (seg_frg s)) (u16 (seg_wnd s))
          (u32 (seg_ts s)) (u32 (seg_sn s)) (u32 (seg_una s)) (u32 (len (seg_data s))), p).
Proof.
  unfold header_bytes.
  rewrite drop_app_length' by (by rewrite length_le_split).
  unfold decode_rest, ikcp_decode8u, ikcp_decode16u, ikcp_decode32u.
  rewrite <- !app_assoc.
  do 7 (rewrite decode_le_app; cbn [mbind res_bind]).
  change (2 ^ (1 * 8)) with 256. change (2 ^ (2 * 8)) with 65536.
  change (2 ^ (4 * 8)) with 4294967296.
  unfold u8, u16, u32. by rewrite !Z.mod_mod by lia.
Qed.

(** ** Properties *)

(** Encoding then decoding a segment header is lossless: [encode] writes
    exactly 24 bytes at the write pointer, and the decoders read back every field at
    its wire width and leave whatever follows; on a segment whose fields have the
    widths of the format nothing is lost at all. *)
Theorem segment_roundtrip s ptr :
  24 <= len (crest ptr) ->
  exists hb ptr',
    segment_encode s ptr = Ok ptr' /\
    length hb = 24%nat /\ cdone ptr' = cdone ptr ++ hb /\ crest ptr' = drop 24 (crest ptr) /\
    (forall rest, ('(cv, data) ← ikcp_decode32u (hb ++ rest); decode_rest cv data)
                  = Ok (header_of s, rest)) /\
    (is_u32 (seg_conv s) -> 0 <= seg_cmd s < 256 -> 0 <= seg_frg s < 256 ->
     0 <= seg_wnd s < 65536 -> is_u32 (seg_ts s) -> is_u32 (seg_sn s) -> is_u32 (seg_una s) ->
     len (seg_data s) < 4294967296 ->
     header_of s = mkHeader (seg_conv s) (seg_cmd s) (seg_frg s) (seg_wnd s) (seg_ts s)
                     (seg_sn s) (seg_una s) (len (seg_data s))).
Proof.
  intros Hl. exists (header_bytes s). rewrite segment_encode_ok by lia.
  eexists. split; [done|]. split_and!; [apply header_bytes_length|done|done| |].
  - intros rest. rewrite decode_conv_wire. cbn [mbind res_bind]. apply decode_rest_wire.
  - intros. unfold header_of, is_u32, u8, u16, u32 in *. by rewrite !Z.mod_small by lia.
Qed.

Lemma segment_roundtrip_witness :
  24 <= len (crest (cursor_of (replicate 30 Byte.x00))) /\
  exists hb ptr',
    segment_encode segment0 (cursor_of (replicate 30 Byte.x00)) = Ok ptr' /\
    cdone ptr' = hb.
Proof.
  split; [vm_compute; discriminate|].
  destruct (segment_roundtrip segment0 (cursor_of (replicate 30 Byte.x00)))
    as (hb & ptr' & H1 & _ & H2 & _); [vm_compute; discriminate|].
  exists hb, ptr'. split; [exact H1|exact H2].
Defined.
