(* ===== verification/Kcp.v ===== *)
(** * The control block of a connection ([kcp.go], lines 133 to 195 and 939 to 1028)

    The [KCP] record with the fields of the Go struct, its creation, its
    setters, its state predicates, and the packet-buffer pool it draws from. *)
From S2P Require Import Prelude GoInt Stats Wire.

(** ** Definitions *)

Record ackItem := mkAckItem { ack_sn : Z; ack_ts : Z }.
#[export] Instance ackItem_eq_dec : EqDecision ackItem.
Proof. solve_decision. Defined.

(** The fields of [KCP]. [output] says whether the callback is set: calling it
    is an [EOutput] event. [stats] is the pointer to the counters. *)
Record KCP := mkKCP {
  conv : Z; state : Z;
  mtu : Z; mss : Z;
  snd_una : Z; snd_nxt : Z; rcv_nxt : Z;
  ssthresh : Z;
  rx_rttval : Z; rx_srtt : Z; rx_rto : Z; rx_minrto : Z;
  snd_wnd : Z; rcv_wnd : Z; rmt_wnd : Z; cwnd : Z; probe : Z;
  interval : Z; ts_flush : Z; xmit : Z;
  nodelay : Z; updated : Z;
  ts_probe : Z; probe_wait : Z;
  dead_link : Z; incr : Z;
  fastresend : Z;
  nocwnd : Z; stream : Z;
  snd_queue : list segment;
  rcv_queue : list segment;
  snd_buf : list segment;
  rcv_buf : list segment;
  acklist : list ackItem;
  buffer : list byte;
  output : bool;
  stats : option KcpConnStats;
}.
#[export] Instance eta_KCP : Eta KCP := fun k =>
  mkKCP (conv k) (state k) (mtu k) (mss k) (snd_una k) (snd_nxt k) (rcv_nxt k)
    (ssthresh k) (rx_rttval k) (rx_srtt k) (rx_rto k) (rx_minrto k) (snd_wnd k)
    (rcv_wnd k) (rmt_wnd k) (cwnd k) (probe k) (interval k) (ts_flush k) (xmit k)
    (nodelay k) (updated k) (ts_probe k) (probe_wait k) (dead_link k) (incr k)
    (fastresend k) (nocwnd k) (stream k) (snd_queue k) (rcv_queue k) (snd_buf k)
    (rcv_buf k) (acklist k) (buffer k) (output k) (stats k).

(** [new(KCP)] *)
Definition KCP0 : KCP :=
  mkKCP 0 0 0 0 0 0 0 0 0 0 0 0 0 0 0 0 0 0 0 0 0 0 0 0 0 0 0 0 0
    [] [] [] [] [] [] false None.

Definition newKCP : KCP :=
  let kcp := KCP0 in
  let kcp := kcp<|snd_wnd := IKCP_WND_SND|> in
  let kcp := kcp<|rcv_wnd := IKCP_WND_RCV|> in
  let kcp := kcp<|rmt_wnd := IKCP_WND_RCV|> in
  let kcp := kcp<|mtu := IKCP_MTU_DEF|> in
  let kcp := kcp<|mss := mtu kcp - IKCP_OVERHEAD|> in
  let kcp := kcp<|buffer :=
    replicate (Z.to_nat ((mtu kcp + IKCP_OVERHEAD) * 3)) Byte.x00|> in
  let kcp := kcp<|rx_rto := IKCP_RTO_DEF|> in
  let kcp := kcp<|rx_minrto := IKCP_RTO_MIN|> in
  let kcp := kcp<|interval := IKCP_INTERVAL|> in
  let kcp := kcp<|ts_flush := IKCP_INTERVAL|> in
  let kcp := kcp<|ssthresh := IKCP_THRESH_INIT|> in
  kcp<|dead_link := IKCP_DEADLINK|>.

(** [udpPacketPool]: a buffer taken from the pool has [udpPacketSizeLimit] bytes
    of unspecified content, what an earlier packet left there or zeros. *)
Definition udpPacketSizeLimit := 2048.

Class BufPool := {
  pool_bytes : list byte;
  pool_bytes_length : length pool_bytes = 2048%nat;
}.

(** The pool of a process that has recycled nothing yet. *)
#[global] Instance zero_pool : BufPool.
Proof. exists (replicate 2048 Byte.x00). by rewrite length_replicate. Defined.
#[global] Remove Hints zero_pool : typeclass_instances.

Section Pool.
Context `{BufPool}.

(** [kcp.newSegment(size)]: the data is the first [size] bytes of the buffer. *)
Definition newSegment (size : Z) : res segment :=
  if (0 <=? size) && (size <=? udpPacketSizeLimit)
  then Ok (segment0<|seg_data := take (Z.to_nat size) pool_bytes|>)
  else Panic PSlice.

(** [data[:n]] for [n] not below [len(data)], where [data] is the front of a pool
    buffer: the bytes past the old length are whatever the buffer holds there. *)
Definition reslice (data : list byte) (n : Z) : res (list byte) :=
  if (len data <=? n) && (n <=? udpPacketSizeLimit)
  then Ok (data ++ take (Z.to_nat (n - len data)) (drop (length data) pool_bytes))
  else Panic PSlice.
End Pool.

(** Update the counters of the connection: the pointer must not be nil. *)
Definition with_stats (f : KcpConnStats -> KcpConnStats) (kcp : KCP) : res KCP :=
  match stats kcp with
  | Some s => Ok (kcp<|stats := Some (f s)|>)
  | None => Panic PNil
  end.

Definition setMtu (m : Z) (kcp : KCP) : res (KCP * Z) :=
  if (m <? 50) || (m <? IKCP_OVERHEAD) then Ok (kcp, -1) else
  buf ← go_make (i64 (i64 (m + IKCP_OVERHEAD) * 3));
  let kcp := kcp<|mtu := m|> in
  let kcp := kcp<|mss := mtu kcp - IKCP_OVERHEAD|> in
  Ok (kcp<|buffer := buf|>, 0).

Definition setNoDelay (nd itv resend nc : Z) (kcp : KCP) : KCP * Z :=
  let kcp := if nd >=? 0 then
    let kcp := kcp<|nodelay := u32 nd|> in
    if nd =? 0 then kcp<|rx_minrto := IKCP_RTO_MIN|>
    else kcp<|rx_minrto := IKCP_RTO_NDL|>
  else kcp in
  let kcp := if itv >=? 0 then
    let itv := if itv >? 5000 then 5000 else if itv <? 10 then 10 else itv in
    kcp<|interval := u32 itv|>
  else kcp in
  let kcp := if resend >=? 0 then kcp<|fastresend := i32 resend|> else kcp in
  let kcp := if nc >=? 0 then kcp<|nocwnd := i32 nc|> else kcp in
  (kcp, 0).

Definition setWndSize (sndwnd rcvwnd : Z) (kcp : KCP) : KCP * Z :=
  let kcp := if sndwnd >? 0 then kcp<|snd_wnd := u32 sndwnd|> else kcp in
  let kcp := if rcvwnd >? 0 then kcp<|rcv_wnd := u32 rcvwnd|> else kcp in
  (kcp, 0).

Definition waitSnd (kcp : KCP) : Z := len (snd_buf kcp) + len (snd_queue kcp).

Definition isStateConnected (kcp : KCP) : bool :=
  negb (Z.land (state kcp) IKCP_STATE_CONNECTED =? 0).
Definition isStateRemoteClosed (kcp : KCP) : bool :=
  negb (Z.land (state kcp) IKCP_STATE_REMOTE_CLOSED =? 0).
Definition isStateLocalClosed (kcp : KCP) : bool :=
  negb (Z.land (state kcp) IKCP_STATE_LOCAL_CLOSED =? 0).
Definition isStateDead (kcp : KCP) : bool :=
  negb (Z.land (state kcp) IKCP_STATE_DEAD =? 0).
Definition isRemoteOpen (kcp : KCP) : bool :=
  Z.land (state kcp) (Z.lor IKCP_STATE_REMOTE_CLOSED IKCP_STATE_DEAD) =? 0.
Definition isAllOpen (kcp : KCP) : bool :=
  Z.land (state kcp)
    (Z.lor (Z.lor IKCP_STATE_REMOTE_CLOSED IKCP_STATE_LOCAL_CLOSED) IKCP_STATE_DEAD) =? 0.
Definition shouldClose (kcp : KCP) : bool :=
  Z.land (state kcp) (Z.lor IKCP_STATE_REMOTE_CLOSED IKCP_STATE_LOCAL_CLOSED)
    =? IKCP_STATE_REMOTE_CLOSED.

Definition wnd_unused (kcp : KCP) : Z :=
  if len (rcv_queue kcp) <? rcv_wnd kcp
  then i32 (rcv_wnd kcp - len (rcv_queue kcp)) else 0.

Definition calc_cwnd (kcp : KCP) : Z :=
  let w := imin (snd_wnd kcp) (rmt_wnd kcp) in
  if nocwnd kcp =? 0 then imin (cwnd kcp) w else w.

Definition sndBufAvail (kcp : KCP) : Z :=
  let w := calc_cwnd kcp in
  itimediff (u32 (snd_una kcp + w)) (snd_nxt kcp).

(** ** What an operation leaves alone *)

(** The settings: fields that only creation and the setters write. *)
Definition settings (kcp : KCP) :=
  (conv kcp, mtu kcp, mss kcp, snd_wnd kcp, rcv_wnd kcp, rx_minrto kcp, interval kcp,
   nodelay kcp, fastresend kcp, nocwnd kcp, stream kcp, dead_link kcp, output kcp).

(** The state of the two directions of the connection. *)
Definition snd_side (kcp : KCP) := (snd_una kcp, snd_nxt kcp, snd_queue kcp, snd_buf kcp).
Definition rcv_side (kcp : KCP) := (rcv_nxt kcp, rcv_queue kcp, rcv_buf kcp).

Lemma settings_eq k k' : settings k = settings k' ->
  conv k = conv k' /\ mtu k = mtu k' /\ mss k = mss k' /\ snd_wnd k = snd_wnd k' /\
  rcv_wnd k = rcv_wnd k' /\ rx_minrto k = rx_minrto k' /\ interval k = interval k' /\
  nodelay k = nodelay k' /\ fastresend k = fastresend k' /\ nocwnd k = nocwnd k' /\
  stream k = stream k' /\ dead_link k = dead_link k' /\ output k = output k'.
Proof. unfold settings. intros [= -> -> -> -> -> -> -> -> -> -> -> -> ->]. by split_and!. Qed.

Lemma snd_side_eq k k' : snd_side k = snd_side k' ->
  snd_una k = snd_una k' /\ snd_nxt k = snd_nxt k' /\ snd_queue k = snd_queue k' /\
  snd_buf k = snd_buf k'.
Proof. unfold snd_side. intros [= -> -> -> ->]. by split_and!. Qed.

Lemma rcv_side_eq k k' : rcv_side k = rcv_side k' ->
  rcv_nxt k = rcv_nxt k' /\ rcv_queue k = rcv_queue k' /\ rcv_buf k = rcv_buf k'.
Proof. unfold rcv_side. intros [= -> -> ->]. by split_and!. Qed.

Definition has_stats (kcp : KCP) : Prop := is_Some (stats kcp).

Lemma with_stats_ok f kcp :
  has_stats kcp -> exists s, with_stats f kcp = Ok (kcp<|stats := Some s|>).
Proof. intros [s Hs]. unfold with_stats. rewrite Hs. eauto. Qed.

Lemma with_stats_Ok_inv f kcp kcp' :
  with_stats f kcp = Ok kcp' -> exists s, kcp' = kcp<|stats := Some s|>.
Proof. unfold with_stats. destruct (stats kcp); intros [=<-]. eauto. Qed.

(** ** The state flags *)

Lemma isStateConnected_bit kcp : isStateConnected kcp = Z.testbit (state kcp) 0.
Proof. exact (land_pow2_eqb (state kcp) 0 ltac:(lia)). Qed.
Lemma isStateRemoteClosed_bit kcp : isStateRemoteClosed kcp = Z.testbit (state kcp) 1.
Proof. exact (land_pow2_eqb (state kcp) 1 ltac:(lia)). Qed.
Lemma isStateLocalClosed_bit kcp : isStateLocalClosed kcp = Z.testbit (state kcp) 2.
Proof. exact (land_pow2_eqb (state kcp) 2 ltac:(lia)). Qed.
Lemma isStateDead_bit kcp : isStateDead kcp = Z.testbit (state kcp) 3.
Proof. exact (land_pow2_eqb (state kcp) 3 ltac:(lia)). Qed.

(** The combined tests in terms of the single flags. *)
Lemma shouldClose_flags kcp :
  shouldClose kcp = isStateRemoteClosed kcp && negb (isStateLocalClosed kcp).
Proof.
  rewrite isStateRemoteClosed_bit, isStateLocalClosed_bit. unfold shouldClose.
  unfold IKCP_STATE_REMOTE_CLOSED, IKCP_STATE_LOCAL_CLOSED.
  rewrite Z.land_lor_distr_r, (land_pow2 _ 1), (land_pow2 _ 2) by lia.
  by destruct (Z.testbit (state kcp) 1), (Z.testbit (state kcp) 2).
Qed.

Lemma isAllOpen_flags kcp :
  isAllOpen kcp = negb (isStateRemoteClosed kcp) && negb (isStateLocalClosed kcp)
                  && negb (isStateDead kcp).
Proof.
  rewrite isStateRemoteClosed_bit, isStateLocalClosed_bit, isStateDead_bit. unfold isAllOpen.
  unfold IKCP_STATE_REMOTE_CLOSED, IKCP_STATE_LOCAL_CLOSED, IKCP_STATE_DEAD.
  rewrite !Z.land_lor_distr_r, (land_pow2 _ 1), (land_pow2 _ 2), (land_pow2 _ 3) by lia.
  by destruct (Z.testbit (state kcp) 1), (Z.testbit (state kcp) 2), (Z.testbit (state kcp) 3).
Qed.

Lemma isRemoteOpen_flags kcp :
  isRemoteOpen kcp = negb (isStateRemoteClosed kcp) && negb (isStateDead kcp).
Proof.
  rewrite isStateRemoteClosed_bit, isStateDead_bit. unfold isRemoteOpen.
  unfold IKCP_STATE_REMOTE_CLOSED, IKCP_STATE_DEAD.
  rewrite Z.land_lor_distr_r, (land_pow2 _ 1), (land_pow2 _ 3) by lia.
  by destruct (Z.testbit (state kcp) 1), (Z.testbit (state kcp) 3).
Qed.
