(* ===== verification/Serial.v ===== *)
(** * Segment lists in serial-number order

    The two buffers of the ARQ, [snd_buf] and [rcv_buf], are lists of segments
    whose sequence numbers increase on the circle of 32-bit numbers: seen from an
    origin (the oldest unacknowledged number, or the next expected one) their
    forward distances increase and stay below half the circle. The loops of the
    code only ever look at [itimediff]; this file turns that into the order. *)
From S2P Require Import Prelude GoInt Wire.

(** ** Definitions *)

(** [s] comes before [t] seen from the origin [o]. *)
Definition before (o : Z) (s t : segment) : Prop :=
  dist o (seg_sn s) < dist o (seg_sn t).

(** [s] is a 32-bit number less than half the circle ahead of [o]. *)
Definition ahead (o : Z) (s : segment) : Prop :=
  is_u32 (seg_sn s) /\ dist o (seg_sn s) < half.

Definition serial (o : Z) (l : list segment) : Prop :=
  StronglySorted (before o) l /\ Forall (ahead o) l.

(** The numbers of [l] are [n], [n + 1], ... *)
Fixpoint numbered (n : Z) (l : list segment) : Prop :=
  match l with
  | [] => True
  | s :: l => seg_sn s = u32 n /\ numbered (n + 1) l
  end.

(** ** Lemmas *)

#[export] Instance before_trans o : Transitive (before o).
Proof. intros s t u. unfold before. lia. Qed.

Lemma serial_nil o : serial o [].
Proof. split; constructor. Qed.

Lemma serial_cons o s l :
  serial o (s :: l) <-> Forall (before o s) l /\ ahead o s /\ serial o l.
Proof. unfold serial. rewrite StronglySorted_cons, Forall_cons. tauto. Qed.

Lemma serial_app o l1 l2 :
  serial o (l1 ++ l2) <->
  (forall s t, s ∈ l1 -> t ∈ l2 -> before o s t) /\ serial o l1 /\ serial o l2.
Proof. unfold serial. rewrite StronglySorted_app, Forall_app. tauto. Qed.

Lemma serial_elem o l s : serial o l -> s ∈ l -> ahead o s.
Proof. intros [_ Hf] Hs. rewrite Forall_forall in Hf. by apply Hf. Qed.

Lemma serial_take o n l : serial o l -> serial o (take n l).
Proof. intros Hl. rewrite <- (take_drop n l) in Hl. by apply serial_app in Hl as (? & ? & ?). Qed.

Lemma serial_drop o n l : serial o l -> serial o (drop n l).
Proof. intros Hl. rewrite <- (take_drop n l) in Hl. by apply serial_app in Hl as (? & ? & ?). Qed.

(** Leaving out an element keeps the order. *)
Lemma serial_delete o i l : serial o l -> serial o (delete i l).
Proof.
  intros Hl. rewrite delete_take_drop. apply serial_app.
  destruct (decide (i < length l)%nat) as [Hi|Hi].
  - destruct (lookup_lt_is_Some_2 l i Hi) as [x Hx].
    rewrite <- (take_drop_middle l i x Hx) in Hl.
    apply serial_app in Hl as (H1 & H2 & H3).
    rewrite serial_cons in H3. destruct H3 as (H3 & H4 & H5).
    split; [|done]. intros s t Hs Ht. apply H1; [done|]. by right.
  - rewrite drop_ge, take_ge by lia. split; [|split; [done|apply serial_nil]].
    intros s t _ Ht. by apply not_elem_of_nil in Ht.
Qed.

(** An update that does not touch the numbers keeps the order. *)
Lemma serial_map_sn o (l l' : list segment) :
  map seg_sn l' = map seg_sn l -> serial o l -> serial o l'.
Proof.
  revert l. induction l' as [|s' l' IH]; intros [|s l]; simpl; try discriminate; [done|].
  intros [= Hs Hl] Hser. apply serial_cons in Hser as (H1 & H2 & H3).
  apply serial_cons. unfold ahead, before in *. rewrite Hs.
  split; [|split; [done|by apply (IH l)]].
  rewrite Forall_forall in H1 |- *. intros t' Ht'.
  assert (seg_sn t' ∈ map seg_sn l) as (t & Ht & Hin)%list_elem_of_fmap.
  { rewrite <- Hl. by apply list_elem_of_fmap_2. }
  rewrite Ht. by apply H1.
Qed.

(** The origin may advance as long as it passes no segment. *)
Lemma ahead_advance o d s :
  0 <= d -> d <= dist o (seg_sn s) -> ahead o s ->
  ahead (u32 (o + d)) s /\ dist (u32 (o + d)) (seg_sn s) = dist o (seg_sn s) - d.
Proof. unfold ahead. word_lia. Qed.

Lemma serial_advance o d l :
  0 <= d -> Forall (fun s => d <= dist o (seg_sn s)) l ->
  serial o l -> serial (u32 (o + d)) l.
Proof.
  intros Hd. induction 1 as [|s l Hs Hl IH]; [intros _; apply serial_nil|].
  rewrite !serial_cons. intros (H1 & H2 & H3).
  destruct (ahead_advance o d s Hd Hs H2) as [Ha He].
  split; [|split; [done|by apply IH]].
  rewrite Forall_forall in H1, Hl |- *. intros t Ht. specialize (H1 t Ht).
  destruct (ahead_advance o d t Hd (Hl t Ht) (serial_elem _ _ _ H3 Ht)) as [_ He'].
  unfold before in *. lia.
Qed.

(** The first of a sorted list is the nearest. *)
Lemma serial_head o s l t : serial o (s :: l) -> t ∈ s :: l ->
  dist o (seg_sn s) <= dist o (seg_sn t).
Proof.
  rewrite serial_cons. intros (H1 & _) Ht. apply elem_of_cons in Ht as [->|Ht]; [done|].
  rewrite Forall_forall in H1. specialize (H1 t Ht). unfold before in H1. lia.
Qed.

(** The elements of a sorted list have different numbers. *)
Lemma serial_NoDup o l : serial o l -> NoDup (map seg_sn l).
Proof.
  induction l as [|s l IH]; simpl; [constructor|].
  rewrite serial_cons. intros (H1 & H2 & H3). constructor; [|by apply IH].
  intros (t & Ht & Hin)%list_elem_of_fmap. rewrite Forall_forall in H1.
  specialize (H1 t Hin). unfold before in H1. rewrite Ht in H1. lia.
Qed.

(** In a sorted list the [i]-th element is at least [i] ahead of the first. *)
Lemma serial_lookup o l i s :
  serial o l -> l !! i = Some s -> Z.of_nat i <= dist o (seg_sn s).
Proof.
  revert i s. induction l as [|x l IH] using rev_ind; intros i s Hl Hi; [done|].
  apply serial_app in Hl as (H1 & H2 & H3).
  destruct (decide (i < length l)%nat) as [Hlt|Hge].
  - rewrite lookup_app_l in Hi by done. by apply IH.
  - rewrite lookup_app_r in Hi by lia.
    apply list_lookup_singleton_Some in Hi as [Hi <-].
    destruct (i) as [|j]; [unfold dist; word_lia|].
    destruct (lookup_lt_is_Some_2 l j) as [y Hy]; [lia|].
    assert (Z.of_nat j <= dist o (seg_sn y)) by by apply IH.
    assert (before o y x) as Hb.
    { apply H1; [by eapply list_elem_of_lookup_2|by left]. }
    unfold before in Hb. lia.
Qed.

Lemma numbered_app n l1 l2 :
  numbered n (l1 ++ l2) <-> numbered n l1 /\ numbered (n + len l1) l2.
Proof.
  revert n. induction l1 as [|s l1 IH]; intros n; simpl.
  - rewrite Z.add_0_r. tauto.
  - rewrite IH. replace (n + 1 + len l1) with (n + Z.pos (Pos.of_succ_nat (length l1))) by lia.
    tauto.
Qed.

Lemma numbered_u32 n l : numbered (u32 n) l <-> numbered n l.
Proof.
  assert (forall l a b, u32 a = u32 b -> numbered a l -> numbered b l) as H.
  { clear. induction l as [|s l IH]; intros a b Hab; simpl; [done|].
    intros [-> Hl]. split; [done|]. apply (IH (a + 1)); [|done].
    rewrite <- (u32_add_l a), <- (u32_add_l b). by rewrite Hab. }
  split; apply H; by rewrite u32_u32.
Qed.

(** Consecutive numbers from [n] on, seen from an origin less than half a circle
    before them. *)
Lemma numbered_elem o n l s :
  numbered n l -> dist o n + len l < half -> s ∈ l ->
  ahead o s /\ dist o n <= dist o (seg_sn s) < dist o n + len l.
Proof.
  revert n. induction l as [|x l IH]; intros n Hn Hl Hs; [by apply elem_of_nil in Hs|].
  destruct Hn as [Hx Hn]. cbn [length] in *. apply elem_of_cons in Hs as [->|Hs].
  - unfold ahead. rewrite Hx. split; [split; [apply u32_range|]|]; rewrite dist_u32_r; lia.
  - assert (dist o (n + 1) = dist o n + 1) as E by (clear -Hl; word_lia).
    destruct (IH (n + 1) Hn) as [H1 H2]; [lia|done|]. split; [done|lia].
Qed.

Lemma numbered_serial o n l :
  numbered n l -> dist o n + len l < half -> serial o l.
Proof.
  revert n. induction l as [|x l IH]; intros n Hn Hl; [apply serial_nil|].
  pose proof Hn as [Hx Hn']. cbn [length] in *.
  assert (dist o (n + 1) = dist o n + 1) as E by (clear -Hl; word_lia).
  apply serial_cons. split_and!; [|apply (numbered_elem o n (x :: l)); [done|done|by left]|].
  - apply Forall_forall. intros t Ht.
    destruct (numbered_elem o (n + 1) l t Hn') as (_ & H2); [lia|done|].
    unfold before. rewrite Hx, dist_u32_r. lia.
  - apply (IH (n + 1)); [done|lia].
Qed.

Lemma numbered_lookup n l i s :
  numbered n l -> l !! i = Some s -> seg_sn s = u32 (n + Z.of_nat i).
Proof.
  revert n i. induction l as [|x l IH]; intros n [|i]; simpl; try done.
  - intros [Hx _] [= <-]. by rewrite Z.add_0_r.
  - intros [_ Hn] Hi. rewrite (IH (n + 1) i Hn Hi). f_equal. lia.
Qed.

(** A sorted list spans less than half the circle. *)
Lemma serial_length o l : serial o l -> len l <= half.
Proof.
  intros Hl. destruct (decide (length l = 0%nat)) as [->|Hne]; [simpl; lia|].
  destruct (lookup_lt_is_Some_2 l (length l - 1)) as [s Hs]; [lia|].
  pose proof (serial_lookup o l _ s Hl Hs).
  apply list_elem_of_lookup_2 in Hs. destruct (serial_elem o l s Hl Hs). lia.
Qed.
