(* ===== verification/Send.v ===== *)
(** * Queueing user data ([kcp.go], [send], lines 272 to 330)

    [send] cuts the user's bytes into segments of at most [mss] bytes. In stream
    mode it first fills up the last queued segment; in message mode it numbers
    the fragments downwards so that the receiver can put the message together. *)
From S2P Require Import Prelude GoInt Stats Wire Kcp.

(** ** Definitions *)

Section Send.
Context `{BufPool}.

(** Stream mode: append to the last queued segment what fits in it. The result
    is the control block and the bytes that are left. *)
Definition send_merge (kcp : KCP) (buf : list byte) : res (KCP * list byte) :=
  let n := length (snd_queue kcp) in
  match last (snd_queue kcp) with
  | None => Ok (kcp, buf)
  | Some old =>
    let oldDataLen := len (seg_data old) in
    if (oldDataLen <? mss kcp) && (seg_cmd old =? IKCP_CMD_PUSH) then
      let capacity := mss kcp - oldDataLen in
      let extend := if len buf <? capacity then len buf else capacity in
      data ← reslice (seg_data old) (oldDataLen + extend);
      let data := take (length (seg_data old)) data
                    ++ go_copy (drop (length (seg_data old)) data) buf in
      let seg := old<|seg_data := data|> in
      buf ← slice_from extend buf;
      Ok (kcp<|snd_queue := <[(n - 1)%nat := seg]> (snd_queue kcp)|>, buf)
    else Ok (kcp, buf)
  end.

(** The loop [for i := 0; i < count; i++]; [n] is the number of rounds left. *)
Fixpoint send_fragments (n : nat) (count i : Z) (kcp : KCP) (buf : list byte) : res KCP :=
  match n with
  | O => Ok kcp
  | S n =>
    let size := if len buf >? mss kcp then mss kcp else len buf in
    seg ← newSegment size;
    let seg := seg<|seg_cmd := IKCP_CMD_PUSH|> in
    let seg := seg<|seg_data := go_copy (seg_data seg) (take (Z.to_nat size) buf)|> in
    let seg := if stream kcp =? 0 then seg<|seg_frg := u32 (count - i - 1)|>
               else seg<|seg_frg := 0|> in
    let kcp := kcp<|snd_queue := snd_queue kcp ++ [seg]|> in
    buf ← slice_from size buf;
    send_fragments n count (i + 1) kcp buf
  end.

Definition send (kcp : KCP) (buf : list byte) : res (KCP * Z) :=
  if len buf =? 0 then Ok (kcp, -1) else
  '(kcp, buf) ← (if negb (stream kcp =? 0) then send_merge kcp buf else Ok (kcp, buf));
  if negb (stream kcp =? 0) && (len buf =? 0) then Ok (kcp, 0) else
  _ ← go_check (negb (mss kcp =? 0)) PDivide;
  let count := Z.quot (len buf + mss kcp - 1) (mss kcp) in
  if (stream kcp =? 0) && (count >? 255) then Ok (kcp, -2) else
  kcp ← send_fragments (Z.to_nat count) count 0 kcp buf;
  Ok (kcp, 0).
End Send.

(** ** Reference description *)

(** A list cut into pieces of [m] elements, the last one possibly shorter. *)
Fixpoint chunks_fuel {A} (fuel m : nat) (l : list A) : list (list A) :=
  match fuel, l with
  | S fuel, _ :: _ => take m l :: chunks_fuel fuel m (drop m l)
  | _, _ => []
  end.
Definition chunks {A} (m : nat) (l : list A) : list (list A) :=
  chunks_fuel (length l) m l.

(** The queued segment of a piece that [frg] more pieces follow. *)
Definition push_segment (frg : Z) (d : list byte) : segment :=
  segment0<|seg_cmd := IKCP_CMD_PUSH|><|seg_data := d|><|seg_frg := frg|>.

(** The segments of a message cut into pieces: the numbers count down to 0. *)
Fixpoint message_segments (ds : list (list byte)) : list segment :=
  match ds with
  | [] => []
  | d :: ds => push_segment (len ds) d :: message_segments ds
  end.

(** The bytes of a list of segments. *)
Definition seg_bytes (l : list segment) : list byte := concat (map seg_data l).

(** What stream mode does to the queue: the filled-up last segment and the
    bytes left over. *)
Definition merged (kcp : KCP) (buf : list byte) : list segment * list byte :=
  match last (snd_queue kcp) with
  | Some old =>
    if (len (seg_data old) <? mss kcp) && (seg_cmd old =? IKCP_CMD_PUSH) then
      let ext := Z.to_nat (mss kcp - len (seg_data old)) in
      (<[(length (snd_queue kcp) - 1)%nat :=
          old<|seg_data := seg_data old ++ take ext buf|>]> (snd_queue kcp), drop ext buf)
    else (snd_queue kcp, buf)
  | None => (snd_queue kcp, buf)
  end.

(** Every queued segment is at most [mss] bytes long. *)
Definition fits (kcp : KCP) (l : list segment) : Prop :=
  Forall (fun s => len (seg_data s) <= mss kcp) l.

(** ** Lemmas *)

Lemma seg_bytes_app l1 l2 : seg_bytes (l1 ++ l2) = seg_bytes l1 ++ seg_bytes l2.
Proof. unfold seg_bytes. by rewrite map_app, concat_app. Qed.

Lemma chunks_fuel_stable {A} m f1 f2 (l : list A) :
  (0 < m)%nat -> (length l <= f1)%nat -> (length l <= f2)%nat ->
  chunks_fuel f1 m l = chunks_fuel f2 m l.
Proof.
  intros Hm. revert f2 l. induction f1 as [|f1 IH]; intros [|f2] [|x l] H1 H2;
    simpl in *; try lia; try done.
  f_equal. apply IH; rewrite length_drop; simpl; lia.
Qed.

Lemma chunks_cons {A} m (l : list A) :
  (0 < m)%nat -> l <> [] -> chunks m l = take m l :: chunks m (drop m l).
Proof.
  intros Hm Hl. unfold chunks. destruct l as [|x l]; [done|].
  simpl length. cbn [chunks_fuel]. f_equal.
  apply chunks_fuel_stable; [done|rewrite length_drop; simpl; lia|done].
Qed.

Lemma chunks_nil {A} m : chunks m (@nil A) = [].
Proof. done. Qed.

(** Induction along the cutting of a list. *)
Lemma chunks_ind {A} (m : nat) (P : list A -> Prop) :
  (0 < m)%nat -> P [] -> (forall l, l <> [] -> P (drop m l) -> P l) -> forall l, P l.
Proof.
  intros Hm H0 HS l. remember (length l) as n eqn:Hn.
  revert l Hn. induction (lt_wf n) as [n _ IH]. intros [|x l] ->; [done|].
  apply HS; [done|]. eapply IH; [|done]. rewrite length_drop. simpl. lia.
Qed.

Lemma chunks_concat {A} m (l : list A) : (0 < m)%nat -> concat (chunks m l) = l.
Proof.
  intros Hm. revert l. apply (chunks_ind m); [done..|intros l Hl IH].
  rewrite chunks_cons by done. simpl. by rewrite IH, take_drop.
Qed.

Lemma chunks_sizes {A} m (l : list A) :
  (0 < m)%nat -> Forall (fun c => 0 < length c <= m)%nat (chunks m l).
Proof.
  intros Hm. revert l. apply (chunks_ind m); [done|constructor|intros l Hl IH].
  rewrite chunks_cons by done. constructor; [|done].
  rewrite length_take. destruct l; [done|simpl; lia].
Qed.

Lemma chunks_length {A} m (l : list A) :
  (0 < m)%nat -> len (chunks m l) = (len l + Z.of_nat m - 1) / Z.of_nat m.
Proof.
  intros Hm. revert l. apply (chunks_ind m); [done| |intros l Hl IH].
  - rewrite chunks_nil. simpl. rewrite Z.div_small; lia.
  - rewrite chunks_cons by done. cbn [length].
    rewrite Nat2Z.inj_succ, IH, length_drop.
    destruct (decide (m <= length l)%nat) as [Hle|Hgt].
    + replace (len l + Z.of_nat m - 1)
        with (Z.of_nat (length l - m) + Z.of_nat m - 1 + 1 * Z.of_nat m) by lia.
      rewrite Z.div_add by lia. lia.
    + destruct l; [done|]. simpl in *.
      replace (S (length l) - m)%nat with 0%nat by lia.
      rewrite Z.div_small by lia.
      apply Z.div_unique with (Z.of_nat (length l)); lia.
Qed.

Lemma message_segments_data ds : map seg_data (message_segments ds) = ds.
Proof. induction ds; simpl; congruence. Qed.

Lemma seg_bytes_message m (l : list byte) :
  (0 < m)%nat -> seg_bytes (message_segments (chunks m l)) = l.
Proof. intros. unfold seg_bytes. by rewrite message_segments_data, chunks_concat. Qed.

Lemma seg_bytes_push ds : seg_bytes (map (push_segment 0) ds) = concat ds.
Proof. unfold seg_bytes. rewrite map_map. simpl. by rewrite map_id. Qed.

Lemma message_segments_length ds : length (message_segments ds) = length ds.
Proof. induction ds; simpl; congruence. Qed.

Lemma message_segments_lookup ds : forall i s,
  message_segments ds !! i = Some s ->
  exists d, ds !! i = Some d /\ s = push_segment (len ds - 1 - Z.of_nat i) d.
Proof.
  induction ds as [|d ds IH]; intros [|i] s; simpl; try discriminate.
  - intros [= <-]. exists d. split; [done|]. f_equal. lia.
  - intros (d' & Hd & ->)%IH. exists d'. split; [done|]. f_equal. lia.
Qed.

(** Every piece is full, but for the last one. *)
Lemma chunks_lookup {A} m (l : list A) i d :
  (0 < m)%nat -> chunks m l !! i = Some d ->
  (0 < length d <= m)%nat /\ (Z.of_nat i < len (chunks m l) - 1 -> length d = m).
Proof.
  intros Hm. revert i. pattern l. revert l. apply (chunks_ind m); [done..|].
  intros l Hl IH i. rewrite chunks_cons by done. cbn [length].
  destruct i as [|i]; simpl.
  - intros [= <-]. rewrite length_take. split; [destruct l; [done|simpl; lia]|].
    intros Hlt. destruct (chunks m (drop m l)) as [|c cs] eqn:E; [simpl in Hlt; lia|].
    destruct (drop m l) as [|x xs] eqn:Ed; [done|].
    apply (f_equal length) in Ed. rewrite length_drop in Ed. simpl in Ed. lia.
  - intros Hi. destruct (IH i Hi) as [H1 H2]. split; [done|]. intros Hlt. apply H2. lia.
Qed.

(** The number of fragments is at most 255 exactly when the message is short. *)
Lemma send_count kcp (buf : list byte) :
  0 < mss kcp <= 2048 ->
  len (chunks (Z.to_nat (mss kcp)) buf) <= 255 <-> len buf <= 255 * mss kcp.
Proof.
  intros Hm. rewrite chunks_length, Z2Nat.id by lia. split; intros Hle.
  - pose proof (Z.mul_succ_div_gt (len buf + mss kcp - 1) (mss kcp)). nia.
  - apply Z.lt_succ_r, Z.div_lt_upper_bound; nia.
Qed.

Section SendLemmas.
Context `{BufPool}.

Lemma newSegment_ok n :
  0 <= n <= 2048 ->
  exists d, newSegment n = Ok (segment0<|seg_data := d|>) /\ len d = n.
Proof.
  intros Hn. unfold newSegment, udpPacketSizeLimit.
  rewrite (proj2 (Z.leb_le 0 n)), (proj2 (Z.leb_le n 2048)) by lia. simpl.
  eexists; split; [done|]. rewrite length_take, pool_bytes_length. lia.
Qed.

Lemma newSegment_panic n : ~ 0 <= n <= 2048 -> newSegment n = Panic PSlice.
Proof.
  intros Hn. unfold newSegment, udpPacketSizeLimit.
  destruct (Z.leb_spec 0 n), (Z.leb_spec n 2048); simpl; [lia|done..].
Qed.

Lemma reslice_ok d n :
  len d <= n <= 2048 ->
  exists ext, reslice d n = Ok (d ++ ext) /\ len ext = n - len d.
Proof.
  intros Hn. unfold reslice, udpPacketSizeLimit.
  rewrite (proj2 (Z.leb_le _ n)), (proj2 (Z.leb_le n 2048)) by lia. simpl.
  eexists; split; [done|].
  rewrite length_take, length_drop, pool_bytes_length. lia.
Qed.

(** The pieces [send_fragments] appends, whatever the pool holds. *)
Lemma send_fragments_ok m ds : forall kcp i buf,
  mss kcp = Z.of_nat m -> (0 < m <= 2048)%nat -> ds = chunks m buf ->
  i + len ds < 4294967296 -> 0 <= i ->
  send_fragments (length ds) (i + len ds) i kcp buf =
    Ok (kcp<|snd_queue := snd_queue kcp ++
      (if stream kcp =? 0 then message_segments ds else map (push_segment 0) ds)|>).
Proof.
  induction ds as [|d ds IH]; intros kcp i buf Hmss Hm Hds Hi Hi0.
  - simpl. destruct (stream kcp =? 0); by rewrite app_nil_r; destruct kcp.
  - assert (buf <> []) as Hb by (intros ->; discriminate).
    rewrite chunks_cons in Hds by (done || lia). injection Hds as -> Hds.
    cbn [length send_fragments].
    assert ((if len buf >? mss kcp then mss kcp else len buf)
              = len (take m buf)) as ->.
    { rewrite length_take, Hmss. destruct (Z.gtb_spec (len buf) (Z.of_nat m)); lia. }
    destruct (newSegment_ok (len (take m buf))) as (g & -> & Hg).
    { rewrite length_take. lia. }
    cbn [mbind res_bind].
    rewrite slice_from_ok by (rewrite length_take; lia).
    cbn [mbind res_bind]. rewrite Nat2Z.id, take_length_take, drop_length_take.
    set (seg := if stream kcp =? 0 then _ else _).
    assert (seg = push_segment (if stream kcp =? 0 then len ds else 0) (take m buf)) as ->.
    { subst seg. simpl. rewrite go_copy_all by lia.
      destruct (stream kcp =? 0); unfold push_segment; simpl; [|done].
      cbn [length] in *.
      replace (u32 _) with (len ds); [done|]. rewrite u32_id; unfold is_u32; lia. }
    replace (i + Z.of_nat (S (length ds))) with (i + 1 + len ds) by lia.
    rewrite IH; [|done|done|done|cbn [length] in *; lia|lia].
    simpl. f_equal. rewrite <- app_assoc. subst ds.
    by destruct (stream kcp =? 0).
Qed.

Lemma send_merge_ok kcp buf :
  mss kcp <= 2048 ->
  send_merge kcp buf = Ok (kcp<|snd_queue := (merged kcp buf).1|>, (merged kcp buf).2).
Proof.
  intros Hm. unfold send_merge, merged.
  destruct (last (snd_queue kcp)) as [old|] eqn:Hl; [|by destruct kcp].
  destruct (Z.ltb_spec (len (seg_data old)) (mss kcp)); [|by destruct kcp].
  destruct (seg_cmd old =? IKCP_CMD_PUSH); [|by destruct kcp]. simpl.
  set (ext := if _ <? _ then _ else _).
  set (cap := Z.to_nat (mss kcp - len (seg_data old))).
  assert (ext = len (take cap buf)) as ->.
  { subst ext cap. rewrite length_take.
    destruct (Z.ltb_spec (len buf) (mss kcp - len (seg_data old))); lia. }
  destruct (reslice_ok (seg_data old) (len (seg_data old) + len (take cap buf)))
    as (e & -> & He); [rewrite length_take; lia|].
  cbn [mbind res_bind].
  rewrite slice_from_ok by (rewrite length_take; lia).
  cbn [mbind res_bind]. rewrite Nat2Z.id, drop_length_take, take_app_length, drop_app_length.
  unfold go_copy.
  assert (length e = length (take cap buf)) as Hel by lia.
  rewrite Hel, take_length_take, drop_ge, app_nil_r by (rewrite Hel, length_take; lia).
  done.
Qed.

(** [send] as one equation: an empty buffer and a message of more than 255
    fragments are refused, otherwise the bytes are queued. *)
Lemma send_ok kcp buf :
  0 < mss kcp <= 2048 -> len buf < 4294967296 ->
  send kcp buf = Ok (
    if len buf =? 0 then (kcp, -1)
    else if stream kcp =? 0 then
      let ds := chunks (Z.to_nat (mss kcp)) buf in
      if len ds >? 255 then (kcp, -2)
      else (kcp<|snd_queue := snd_queue kcp ++ message_segments ds|>, 0)
    else (kcp<|snd_queue := (merged kcp buf).1 ++
            map (push_segment 0) (chunks (Z.to_nat (mss kcp)) (merged kcp buf).2)|>, 0)).
Proof.
  intros Hm Hb. unfold send. cbv zeta.
  destruct (Z.eqb_spec (len buf) 0) as [|Hne]; [done|].
  set (m := Z.to_nat (mss kcp)).
  assert (Hmz : mss kcp = Z.of_nat m) by lia.
  assert (Hcount : forall l : list byte, len l < 4294967296 ->
    Z.quot (len l + mss kcp - 1) (mss kcp) = len (chunks m l) /\
    len (chunks m l) < 4294967296).
  { intros l Hl. rewrite Z.quot_div_nonneg, Hmz, chunks_length by lia.
    split; [done|]. apply Z.div_lt_upper_bound; nia. }
  destruct (Z.eqb_spec (stream kcp) 0) as [Hs|Hs]; cbn [negb mbind res_bind andb].
  - rewrite (proj2 (Z.eqb_neq (mss kcp) 0)), (proj2 (Z.eqb_eq (stream kcp) 0)) by lia.
    cbn [negb go_check mbind res_bind andb].
    destruct (Hcount buf Hb) as [-> Hc].
    destruct (len (chunks m buf) >? 255); [done|].
    rewrite Nat2Z.id.
    change (len (chunks m buf)) with (0 + len (chunks m buf)).
    rewrite (send_fragments_ok m) by (done || lia).
    by rewrite Hs.
  - rewrite send_merge_ok by lia. cbn [mbind res_bind].
    set (rest := (merged kcp buf).2).
    assert (len rest <= len buf) as Hrest.
    { subst rest. unfold merged. destruct (last (snd_queue kcp)) as [old|]; simpl; [|lia].
      destruct ((len (seg_data old) <? mss kcp) && (seg_cmd old =? IKCP_CMD_PUSH));
        simpl; rewrite ?length_drop; lia. }
    change (stream (kcp<|snd_queue := (merged kcp buf).1|>)) with (stream kcp).
    rewrite (proj2 (Z.eqb_neq (stream kcp) 0)) by lia. cbn [negb andb].
    destruct (Z.eqb_spec (len rest) 0) as [Hr|Hr].
    { replace rest with (@nil byte) by (destruct rest; done).
      by rewrite chunks_nil, app_nil_r. }
    change (mss (kcp<|snd_queue := (merged kcp buf).1|>)) with (mss kcp).
    rewrite (proj2 (Z.eqb_neq (mss kcp) 0)) by lia. cbn [negb go_check mbind res_bind].
    destruct (Hcount rest) as [-> Hc]; [lia|]. rewrite Nat2Z.id.
    change (len (chunks m rest)) with (0 + len (chunks m rest)).
    rewrite (send_fragments_ok m) by (simpl; done || lia). simpl.
    by rewrite (proj2 (Z.eqb_neq (stream kcp) 0)).
Qed.

(** The merged queue holds the old bytes, then the first bytes of the buffer. *)
Lemma merged_bytes kcp buf :
  seg_bytes (merged kcp buf).1 ++ (merged kcp buf).2 = seg_bytes (snd_queue kcp) ++ buf.
Proof.
  unfold merged. destruct (last (snd_queue kcp)) as [old|] eqn:Hl; [|done].
  destruct (_ && _); [|done]. simpl.
  apply last_Some in Hl as [q ->].
  rewrite length_app. simpl. replace (length q + 1 - 1)%nat with (length q + 0)%nat by lia.
  rewrite insert_app_r, !seg_bytes_app. simpl. unfold seg_bytes at 2 4. simpl.
  by rewrite !app_nil_r, <- !app_assoc, take_drop.
Qed.

Lemma merged_fits kcp buf :
  fits kcp (snd_queue kcp) -> fits kcp (merged kcp buf).1.
Proof.
  unfold merged, fits. intros Hf.
  destruct (last (snd_queue kcp)) as [old|] eqn:Hl; [|done].
  destruct (Z.ltb_spec (len (seg_data old)) (mss kcp)); [|done].
  destruct (seg_cmd old =? IKCP_CMD_PUSH); [|done]. simpl.
  apply Forall_insert; [done|]. simpl. rewrite length_app, length_take. lia.
Qed.

Lemma push_segments_fit kcp f ds :
  0 < mss kcp -> Forall (fun d => 0 < length d <= Z.to_nat (mss kcp))%nat ds ->
  fits kcp (map (fun d => push_segment (f d) d) ds).
Proof.
  intros Hm. unfold fits. induction 1; simpl; constructor; [simpl; lia|done].
Qed.

Lemma message_segments_fit kcp ds :
  0 < mss kcp -> Forall (fun d => 0 < length d <= Z.to_nat (mss kcp))%nat ds ->
  fits kcp (message_segments ds).
Proof.
  intros Hm. unfold fits. induction 1; simpl; constructor; [simpl; lia|done].
Qed.

(** What a successful [send] leaves: only the queue has changed, it holds the
    old bytes followed by the buffer, and every segment fits. *)
Lemma send_queue kcp buf kcp' :
  0 < mss kcp <= 2048 -> len buf < 4294967296 ->
  send kcp buf = Ok (kcp', 0) ->
  kcp' = kcp<|snd_queue := snd_queue kcp'|> /\
  seg_bytes (snd_queue kcp') = seg_bytes (snd_queue kcp) ++ buf /\
  (fits kcp (snd_queue kcp) -> fits kcp (snd_queue kcp')).
Proof.
  intros Hm Hb. rewrite send_ok by done. cbv zeta. intros Heq.
  pose proof (@chunks_sizes byte (Z.to_nat (mss kcp))) as Hc.
  destruct (len buf =? 0); [discriminate|].
  destruct (stream kcp =? 0).
  - destruct (_ >? 255); [discriminate|]. injection Heq as <-. simpl.
    split; [done|]. rewrite seg_bytes_app, seg_bytes_message by lia. split; [done|].
    intros Hf. apply Forall_app; split; [done|].
    apply message_segments_fit; [lia|]. apply Hc. lia.
  - injection Heq as <-. simpl. split; [done|].
    rewrite seg_bytes_app, seg_bytes_push, chunks_concat by lia.
    split; [apply merged_bytes|]. intros Hf. apply Forall_app; split.
    + by apply merged_fits.
    + apply (push_segments_fit kcp (fun _ => 0)); [lia|]. apply Hc. lia.
Qed.
End SendLemmas.

(** ** Properties *)

Section SendProperties.
Context `{BufPool}.

(** C16. [send] is total and loses nothing: with an MSS that a packet buffer can hold,
    it refuses an empty buffer (-1) and, in message mode, one of more than 255
    fragments (-2), both without any change; otherwise it returns 0, the queue holds
    the old bytes followed by the whole buffer in order, nothing but the queue has
    changed, and no queued segment exceeds the MSS. *)
Theorem send_total kcp buf :
  0 < mss kcp <= 2048 -> len buf < 4294967296 -> fits kcp (snd_queue kcp) ->
  exists kcp' code,
    send kcp buf = Ok (kcp', code) /\ kcp' = kcp<|snd_queue := snd_queue kcp'|> /\
    fits kcp (snd_queue kcp') /\
    ((buf = [] /\ code = -1 /\ kcp' = kcp) \/
     (buf <> [] /\ stream kcp = 0 /\ 255 * mss kcp < len buf /\ code = -2 /\ kcp' = kcp) \/
     (buf <> [] /\ (stream kcp = 0 -> len buf <= 255 * mss kcp) /\ code = 0 /\
      seg_bytes (snd_queue kcp') = seg_bytes (snd_queue kcp) ++ buf)).
Proof.
  intros Hm Hb Hf. pose proof (send_ok kcp buf Hm Hb) as E. cbv zeta in E.
  assert (Hkk : kcp = kcp<|snd_queue := snd_queue kcp|>) by by destruct kcp.
  destruct (Z.eqb_spec (len buf) 0) as [H0|H0].
  { exists kcp, (-1). split_and!; [done|done|done|]. left. by destruct buf. }
  assert (buf <> []) as Hne by by intros ->.
  pose proof (send_count kcp buf Hm) as Hcount.
  destruct (Z.eqb_spec (stream kcp) 0) as [Hs|Hs].
  - destruct (Z.gtb_spec (len (chunks (Z.to_nat (mss kcp)) buf)) 255) as [Hgt|Hle].
    + exists kcp, (-2). split_and!; [done|done|done|]. right. left. split_and!; [done|done|lia|done..].
    + rewrite E. eexists _, 0. split; [done|].
      destruct (send_queue kcp buf _ Hm Hb E) as (E1 & E2 & E3).
      split_and!; [done|by apply E3|]. right. right. split_and!; [done|lia|done|done].
  - rewrite E. eexists _, 0. split; [done|].
    destruct (send_queue kcp buf _ Hm Hb E) as (E1 & E2 & E3).
    split_and!; [done|by apply E3|]. right. right. by split_and!.
Qed.

(** Message mode cuts a message into the fewest fragments that fit the MSS and
    numbers them downwards to 0: fragment [i] of [n] has [frg = n - 1 - i], all carry
    the PUSH command, all but the last are full, and together they are the message. *)
Theorem send_fragments_message kcp buf :
  0 < mss kcp <= 2048 -> stream kcp = 0 -> 0 < len buf <= 255 * mss kcp ->
  exists segs,
    send kcp buf = Ok (kcp<|snd_queue := snd_queue kcp ++ segs|>, 0) /\
    len segs = (len buf + mss kcp - 1) / mss kcp /\ seg_bytes segs = buf /\
    forall i s, segs !! i = Some s ->
      seg_cmd s = IKCP_CMD_PUSH /\ seg_frg s = len segs - 1 - Z.of_nat i /\
      0 < len (seg_data s) <= mss kcp /\ (0 < seg_frg s -> len (seg_data s) = mss kcp).
Proof.
  intros Hm Hs Hb. exists (message_segments (chunks (Z.to_nat (mss kcp)) buf)).
  rewrite send_ok by lia. cbv zeta.
  pose proof (send_count kcp buf Hm) as Hcount.
  rewrite (proj2 (Z.eqb_neq (len buf) 0)), Hs by lia. cbn [Z.eqb].
  destruct (Z.gtb_spec (len (chunks (Z.to_nat (mss kcp)) buf)) 255); [lia|].
  split; [done|]. rewrite message_segments_length, chunks_length by lia.
  rewrite Z2Nat.id by lia. split; [done|].
  split; [apply seg_bytes_message; lia|]. intros i s Hi.
  destruct (message_segments_lookup _ _ _ Hi) as (d & Hd & ->).
  pose proof (chunks_lookup (Z.to_nat (mss kcp)) buf i d ltac:(lia) Hd) as (H1 & H2).
  rewrite chunks_length, Z2Nat.id in * by lia. simpl.
  split_and!; [done|done|lia|lia|lia].
Qed.

(** The limit the code relies on ("the cap is enough for udp packet") is not
    enforced: once [setMtu] has raised the MSS above the 2048 bytes of a packet buffer
    (it accepts every MTU from 50 on), sending a message longer than a packet buffer
    panics. *)
Theorem send_panics_above_pool kcp m buf :
  stream kcp = 0 -> 2072 < m <= 65536 -> 2048 < len buf <= 255 * (m - 24) ->
  exists kcp', setMtu m kcp = Ok (kcp', 0) /\ send kcp' buf = Panic PSlice.
Proof.
  intros Hs Hm Hb. unfold setMtu, IKCP_OVERHEAD.
  rewrite (proj2 (Z.ltb_ge m 50)), (proj2 (Z.ltb_ge m 24)) by lia. cbn [orb].
  unfold go_make. replace (i64 (i64 (m + 24) * 3)) with ((m + 24) * 3) by (unfold i64; word_lia).
  rewrite (proj2 (Z.leb_le 0 _)), (proj2 (Z.leb_le _ 281474976710656)) by lia.
  cbn [mbind res_bind andb]. eexists. split; [done|].
  set (k := set buffer _ _).
  assert (mss k = m - 24 /\ stream k = 0) as [Em Es] by (split; [done|exact Hs]).
  unfold send. rewrite (proj2 (Z.eqb_neq (len buf) 0)), Es by lia.
  cbn [Z.eqb negb mbind res_bind andb]. rewrite Em, Es.
  rewrite (proj2 (Z.eqb_neq (m - 24) 0)) by lia. cbn [negb go_check mbind res_bind].
  set (count := Z.quot _ _).
  assert (0 < count <= 255) as Hc.
  { subst count. rewrite Z.quot_div_nonneg by lia. split.
    - apply Z.div_str_pos. lia.
    - apply Z.lt_succ_r, Z.div_lt_upper_bound; nia. }
  destruct (Z.gtb_spec count 255); [lia|]. cbn [Z.eqb andb].
  destruct (Z.to_nat count) as [|n] eqn:En; [lia|]. cbn [send_fragments].
  rewrite Em. rewrite newSegment_panic; [done|].
  destruct (Z.gtb_spec (len buf) (m - 24)); lia.
Qed.
End SendProperties.

Definition send_example : KCP := newKCP<|mss := 50|>.

Lemma send_total_witness :
  fits send_example (snd_queue send_example) /\
  exists kcp' code,
    @send zero_pool send_example (replicate 120 Byte.x41) = Ok (kcp', code).
Proof.
  split; [constructor|].
  destruct (@send_total zero_pool send_example (replicate 120 Byte.x41))
    as (k & c & E & _); [vm_compute; split; [done|discriminate]|done|constructor|].
  exists k, c. exact E.
Defined.

Lemma send_fragments_message_witness :
  stream send_example = 0 /\
  exists segs,
    @send zero_pool send_example (replicate 120 Byte.x41) =
      Ok (send_example<|snd_queue := snd_queue send_example ++ segs|>, 0) /\ len segs = 3.
Proof.
  split; [done|].
  destruct (@send_fragments_message zero_pool send_example (replicate 120 Byte.x41))
    as (segs & E & L & _);
    [vm_compute; split; [done|discriminate]|done|vm_compute; split; [done|discriminate]|].
  exists segs. split; [exact E|]. rewrite L. reflexivity.
Defined.

Lemma send_panics_above_pool_witness :
  2048 < len (replicate 2100 Byte.x41) /\
  exists kcp', setMtu 4000 newKCP = Ok (kcp', 0) /\
    @send zero_pool kcp' (replicate 2100 Byte.x41) = Panic PSlice.
Proof.
  split; [vm_compute; done|].
  apply (@send_panics_above_pool zero_pool newKCP 4000 (replicate 2100 Byte.x41));
    [done|done|vm_compute; split; [done|discriminate]].
Defined.
