(* ===== verification/Recv.v ===== *)
(** * The receive side ([kcp.go], [recvSize], [recv], [parse_data])

    Incoming data segments are kept in [rcv_buf] in serial order until the next
    expected number [rcv_nxt] is there; the consecutive ones then move to
    [rcv_queue], from which the user reads whole messages. *)
From S2P Require Import Prelude GoInt Stats Wire Kcp Serial.

(** ** Definitions *)

(** The sum in [recvSize]: the lengths up to the first fragment 0. *)
Fixpoint message_size (q : list segment) : Z :=
  match q with
  | [] => 0
  | seg :: q => len (seg_data seg) + (if seg_frg seg =? 0 then 0 else message_size q)
  end.

Definition recvSize (kcp : KCP) : KCP * Z :=
  match rcv_queue kcp with
  | [] => (kcp, 0)
  | seg :: _ =>
    if seg_frg seg =? 0 then
      let length := len (seg_data seg) in
      (if length =? 0
       then kcp<|state := Z.lor (state kcp) IKCP_STATE_REMOTE_CLOSED|> else kcp, length)
    else if len (rcv_queue kcp) <? u32 (seg_frg seg + 1) then (kcp, -1)
    else (kcp, message_size (rcv_queue kcp))
  end.

(** The copying loop of [recv]: the walk over the user's buffer, the bytes
    counted so far and the segments used up. *)
Fixpoint recv_merge (q : list segment) (c : cursor) (n : Z) (count : nat)
    : res (cursor * Z * nat) :=
  match q with
  | [] => Ok (c, n, count)
  | seg :: q =>
    c ← cursor_write PSlice c (seg_data seg);
    let n := n + len (seg_data seg) in
    let count := S count in
    if seg_frg seg =? 0 then Ok (c, n, count) else recv_merge q c n count
  end.

(** The loop that counts the segments ready to move: the length of the queue is
    tested in every round, but it does not change inside the loop. *)
Fixpoint ready (buf : list segment) (nxt qlen wnd : Z) (count : nat) : Z * nat :=
  match buf with
  | seg :: buf =>
    if (seg_sn seg =? nxt) && (qlen <? wnd)
    then ready buf (u32 (nxt + 1)) qlen wnd (S count)
    else (nxt, count)
  | [] => (nxt, count)
  end.

(** Move available data from [rcv_buf] to [rcv_queue]. *)
Definition move_ready (kcp : KCP) : KCP :=
  let '(nxt, count) := ready (rcv_buf kcp) (rcv_nxt kcp) (len (rcv_queue kcp)) (rcv_wnd kcp) 0 in
  let kcp := kcp<|rcv_nxt := nxt|> in
  let kcp := kcp<|rcv_queue := rcv_queue kcp ++ take count (rcv_buf kcp)|> in
  kcp<|rcv_buf := drop count (rcv_buf kcp)|>.

(** [recv(buffer)]: the control block, the contents of the buffer after the
    call, and the number of bytes. *)
Definition recv (kcp : KCP) (buf : list byte) : res (KCP * list byte * Z) :=
  let fast_recover := len (rcv_queue kcp) >=? rcv_wnd kcp in
  '(c, n, count) ← recv_merge (rcv_queue kcp) (cursor_of buf) 0 0;
  let kcp := kcp<|rcv_queue := drop count (rcv_queue kcp)|> in
  let kcp := move_ready kcp in
  let kcp := if (len (rcv_queue kcp) <? rcv_wnd kcp) && fast_recover
             then kcp<|probe := Z.lor (probe kcp) IKCP_ASK_TELL|> else kcp in
  Ok (kcp, cursor_buf c, n).

(** The search of [parse_data] from the back of [rcv_buf] (given reversed):
    [None] for a repeated number, or the index to insert at. *)
Fixpoint find_slot (rbuf : list segment) (sn : Z) : option nat :=
  match rbuf with
  | [] => Some 0%nat
  | seg :: rbuf =>
    if seg_sn seg =? sn then None
    else if itimediff sn (seg_sn seg) >? 0 then Some (S (length rbuf))
    else find_slot rbuf sn
  end.

(** Insertion by appending a zero segment and shifting the tail up by [copy]. *)
Definition insert_segment (buf : list segment) (idx : nat) (newseg : segment) : list segment :=
  if (idx =? length buf)%nat then buf ++ [newseg]
  else
    let buf := buf ++ [segment0] in
    let buf := take (idx + 1) buf ++ go_copy (drop (idx + 1) buf) (drop idx buf) in
    <[idx := newseg]> buf.

Definition parse_data (kcp : KCP) (newseg : segment) : res KCP :=
  let sn := seg_sn newseg in
  if (itimediff sn (u32 (rcv_nxt kcp + rcv_wnd kcp)) >=? 0)
     || (itimediff sn (rcv_nxt kcp) <? 0) then Ok kcp
  else
    kcp ← match find_slot (reverse (rcv_buf kcp)) sn with
          | None => with_stats (fun s => s<|SegRepeat := i64 (SegRepeat s + 1)|>) kcp
          | Some idx => Ok (kcp<|rcv_buf := insert_segment (rcv_buf kcp) idx newseg|>)
          end;
    Ok (move_ready kcp).

(** ** Invariant and reference description *)

(** The receive buffer is in serial order from the next expected number. *)
Definition rcv_inv (kcp : KCP) : Prop :=
  is_u32 (rcv_nxt kcp) /\ serial (rcv_nxt kcp) (rcv_buf kcp).

(** The number of segments of the first message of the queue. *)
Fixpoint message_count (q : list segment) : nat :=
  match q with
  | [] => 0
  | seg :: q => S (if seg_frg seg =? 0 then 0 else message_count q)
  end.

Definition message_bytes (q : list segment) : list byte :=
  concat (map seg_data (take (message_count q) q)).

(** A segment in a list that is in serial order from [o]: after those with smaller numbers and
    before those with larger ones, unless its number is there already. *)
Definition inserted (o : Z) (buf : list segment) (newseg : segment) : list segment :=
  if bool_decide (seg_sn newseg ∈ map seg_sn buf) then buf
  else filter (fun s => dist o (seg_sn s) < dist o (seg_sn newseg)) buf ++ newseg ::
       filter (fun s => dist o (seg_sn newseg) < dist o (seg_sn s)) buf.

(** ** Lemmas: moving ready segments *)

Lemma ready_spec buf : forall nxt qlen wnd count nxt' count',
  is_u32 nxt -> ready buf nxt qlen wnd count = (nxt', count') ->
  exists c, count' = (count + c)%nat /\ (c <= length buf)%nat /\
    nxt' = u32 (nxt + Z.of_nat c) /\ numbered nxt (take c buf) /\
    (qlen < wnd -> forall s, buf !! c = Some s -> seg_sn s <> nxt') /\
    (wnd <= qlen -> c = 0%nat).
Proof.
  induction buf as [|seg buf IH]; intros nxt qlen wnd count nxt' count' Hu; simpl.
  - intros [= <- <-]. exists 0%nat. rewrite Z.add_0_r, u32_id by done.
    split_and!; [lia|lia|done|done|done|done].
  - destruct (Z.eqb_spec (seg_sn seg) nxt) as [He|He];
      destruct (Z.ltb_spec qlen wnd) as [Hq|Hq]; simpl.
    1: { intros (c & -> & Hc & -> & Hn & Hf & Hz)%IH; [|apply u32_range].
         exists (S c). split_and!; [lia|simpl; lia| |simpl|by simpl|lia].
         - rewrite u32_add_l. f_equal. lia.
         - split; [by rewrite u32_id|]. by apply numbered_u32. }
    all: intros [= <- <-]; exists 0%nat; rewrite Z.add_0_r, u32_id by done;
      split_and!; [lia|simpl; lia|done|done| |done].
    + lia.
    + intros _ s [= <-]. done.
    + lia.
Qed.

(** What [move_ready] does: the segments moved are numbered from [rcv_nxt], and
    afterwards the buffer does not start with the next number, unless the queue
    was full. *)
Lemma move_ready_spec kcp :
  is_u32 (rcv_nxt kcp) ->
  exists c, (c <= length (rcv_buf kcp))%nat /\
    move_ready kcp =
      kcp<|rcv_nxt := u32 (rcv_nxt kcp + Z.of_nat c)|>
         <|rcv_queue := rcv_queue kcp ++ take c (rcv_buf kcp)|>
         <|rcv_buf := drop c (rcv_buf kcp)|> /\
    numbered (rcv_nxt kcp) (take c (rcv_buf kcp)) /\
    (len (rcv_queue kcp) < rcv_wnd kcp -> forall s, head (drop c (rcv_buf kcp)) = Some s ->
       seg_sn s <> u32 (rcv_nxt kcp + Z.of_nat c)) /\
    (rcv_wnd kcp <= len (rcv_queue kcp) -> c = 0%nat).
Proof.
  intros Hu. unfold move_ready.
  destruct (ready _ _ _ _ 0) as [nxt' count'] eqn:Hr.
  destruct (ready_spec _ _ _ _ _ _ _ Hu Hr) as (c & -> & Hc & -> & Hn & Hf & Hz).
  exists c. simpl. split_and!; [done|done|done| |done].
  intros Hq s Hs. apply Hf; [done|].
  by rewrite head_lookup, lookup_drop, Nat.add_0_r in Hs.
Qed.

(** The invariant survives the move: the segments moved were the first ones. *)
Lemma numbered_dist o c (l : list segment) s :
  serial o l -> numbered o (take c l) -> (c <= length l)%nat -> s ∈ drop c l ->
  Z.of_nat c <= dist o (seg_sn s).
Proof.
  intros Hl _ Hc (i & Hi)%list_elem_of_lookup. rewrite lookup_drop in Hi.
  apply (serial_lookup o) in Hi; [lia|done].
Qed.

Lemma move_ready_inv kcp : rcv_inv kcp -> rcv_inv (move_ready kcp).
Proof.
  intros [Hu Hs]. destruct (move_ready_spec kcp Hu) as (c & Hc & -> & Hn & _).
  split; simpl; [apply u32_range|].
  apply serial_advance; [lia| |by apply serial_drop].
  apply Forall_forall. intros s. by apply numbered_dist.
Qed.

(** ** Lemmas: inserting a segment *)

Lemma insert_segment_spec buf idx newseg :
  (idx <= length buf)%nat ->
  insert_segment buf idx newseg = take idx buf ++ newseg :: drop idx buf.
Proof.
  intros Hi. unfold insert_segment.
  destruct (Nat.eqb_spec idx (length buf)) as [->|Hne].
  - by rewrite take_ge, drop_ge by lia.
  - apply (copy_up segment0 newseg buf idx). lia.
Qed.

Lemma find_slot_spec o (buf : list segment) sn :
  serial o buf -> is_u32 sn -> dist o sn < half ->
  match find_slot (reverse buf) sn with
  | None => exists s, s ∈ buf /\ seg_sn s = sn
  | Some idx => (idx <= length buf)%nat /\
      (forall s, s ∈ take idx buf -> dist o (seg_sn s) < dist o sn) /\
      (forall s, s ∈ drop idx buf -> dist o sn < dist o (seg_sn s))
  end.
Proof.
  intros Hs Hu Hd. induction buf as [|x buf IH] using rev_ind.
  - simpl. split_and!; [lia|intros s Hin; by apply elem_of_nil in Hin..].
  - apply serial_app in Hs as (Hb & Hs & Hx).
    assert (ahead o x) as [Hxu Hxd] by (eapply serial_elem; [done|by left]).
    rewrite reverse_snoc. simpl.
    destruct (Z.eqb_spec (seg_sn x) sn) as [He|He].
    { exists x. split; [|done]. apply elem_of_app. right. by left. }
    rewrite (itimediff_origin o) by done.
    destruct (Z.gtb_spec (dist o sn - dist o (seg_sn x)) 0) as [Hgt|Hle].
    + rewrite length_reverse, length_app. simpl.
      rewrite take_ge, drop_ge by (rewrite length_app; simpl; lia).
      split_and!; [lia| |intros s Hin; by apply elem_of_nil in Hin].
      intros s [Hin|Hin%list_elem_of_singleton]%elem_of_app; [|subst; lia].
      assert (before o s x) as Hsx by (apply Hb; [done|by left]).
      unfold before in Hsx. lia.
    + specialize (IH Hs). destruct (find_slot (reverse buf) sn) as [idx|].
      * destruct IH as (Hi & Ht & Hdr). rewrite length_app, take_app_le, drop_app_le by done.
        split_and!; [simpl; lia|done|].
        intros s [Hin|Hin%list_elem_of_singleton]%elem_of_app; [by apply Hdr|subst].
        assert (dist o (seg_sn x) <> dist o sn); [|lia].
        intros E. apply He. by apply (dist_inj o).
      * destruct IH as (s & Hin & Hsn). exists s. split; [|done]. apply elem_of_app. by left.
Qed.

Lemma insert_segment_serial o buf idx newseg :
  serial o buf -> ahead o newseg ->
  (idx <= length buf)%nat ->
  (forall s, s ∈ take idx buf -> dist o (seg_sn s) < dist o (seg_sn newseg)) ->
  (forall s, s ∈ drop idx buf -> dist o (seg_sn newseg) < dist o (seg_sn s)) ->
  serial o (insert_segment buf idx newseg).
Proof.
  intros Hs Ha Hi Ht Hd. rewrite insert_segment_spec by done.
  rewrite <- (take_drop idx buf) in Hs. apply serial_app in Hs as (H1 & H2 & H3).
  apply serial_app. split_and!; [|done|].
  - intros s t Hin [->|Hin']%elem_of_cons; [by apply Ht|by apply H1].
  - apply serial_cons. split_and!; [|done|done].
    apply Forall_forall. intros s Hin. by apply Hd.
Qed.

(** The window test of [parse_data] and [input] in terms of distances. *)
Lemma in_window kcp sn :
  is_u32 (rcv_nxt kcp) -> 0 < rcv_wnd kcp < half ->
  (itimediff sn (u32 (rcv_nxt kcp + rcv_wnd kcp)) <? 0) &&
  (itimediff sn (rcv_nxt kcp) >=? 0) = (dist (rcv_nxt kcp) sn <? rcv_wnd kcp).
Proof.
  intros Hu Hw.
  destruct (Z.ltb_spec (itimediff sn (u32 (rcv_nxt kcp + rcv_wnd kcp))) 0);
  destruct (Z.geb_spec (itimediff sn (rcv_nxt kcp)) 0);
  destruct (Z.ltb_spec (dist (rcv_nxt kcp) sn) (rcv_wnd kcp)); simpl; try done; word_lia.
Qed.

(** ** [parse_data] *)

(** The segments of a buffer after [newseg] has been offered to it. *)
Definition accept (buf : list segment) (newseg : segment) : list segment :=
  match find_slot (reverse buf) (seg_sn newseg) with
  | None => buf
  | Some idx => take idx buf ++ newseg :: drop idx buf
  end.

Lemma accept_elem buf newseg s :
  s ∈ accept buf newseg -> s = newseg \/ s ∈ buf.
Proof.
  unfold accept. destruct (find_slot _ _) as [idx|]; [|by right].
  rewrite elem_of_app, elem_of_cons. intros [Hs|[->|Hs]]; [right|by left|right].
  - rewrite <- (take_drop idx buf). apply elem_of_app. by left.
  - rewrite <- (take_drop idx buf). apply elem_of_app. by right.
Qed.

(** Nothing is lost: what was there stays, and the new number is there. *)
Lemma accept_complete o buf newseg :
  serial o buf -> ahead o newseg ->
  (forall s, s ∈ buf -> s ∈ accept buf newseg) /\
  exists s, s ∈ accept buf newseg /\ seg_sn s = seg_sn newseg.
Proof.
  intros Hs [Hu Hd]. pose proof (find_slot_spec o buf (seg_sn newseg) Hs Hu Hd) as Hf.
  unfold accept. destruct (find_slot _ _) as [idx|]; [|by split].
  split.
  - intros s Hin. rewrite <- (take_drop idx buf) in Hin.
    rewrite elem_of_app, elem_of_cons. apply elem_of_app in Hin as [?|?]; tauto.
  - exists newseg. split; [|done]. rewrite elem_of_app, elem_of_cons. tauto.
Qed.

Lemma accept_serial o buf newseg :
  serial o buf -> ahead o newseg -> serial o (accept buf newseg).
Proof.
  intros Hs Ha. pose proof Ha as [Hu Hd].
  pose proof (find_slot_spec o buf (seg_sn newseg) Hs Hu Hd) as Hf.
  unfold accept. destruct (find_slot _ _) as [idx|]; [|done].
  destruct Hf as (Hi & Ht & Hdr).
  rewrite <- insert_segment_spec by done. by apply insert_segment_serial.
Qed.

(** It is the insertion into the sorted list. *)
Lemma accept_inserted o buf newseg :
  serial o buf -> ahead o newseg -> accept buf newseg = inserted o buf newseg.
Proof.
  intros Hs [Hu Hd]. pose proof (find_slot_spec o buf (seg_sn newseg) Hs Hu Hd) as Hf.
  unfold accept, inserted. destruct (find_slot _ _) as [idx|].
  - destruct Hf as (_ & Ht & Hdr). rewrite bool_decide_eq_false_2.
    + rewrite <- (take_drop idx buf) at 3 4. rewrite !filter_app.
      rewrite (filter_all _ (take idx buf)), (filter_none _ (drop idx buf)), app_nil_r; [|..].
      * rewrite (filter_none _ (take idx buf)), (filter_all _ (drop idx buf)); [done|done|].
        intros s Hin. specialize (Ht s Hin). lia.
      * intros s Hin. specialize (Hdr s Hin). lia.
      * done.
    + intros (s & E & Hin)%list_elem_of_fmap. rewrite <- (take_drop idx buf) in Hin.
      apply elem_of_app in Hin as [Hin|Hin]; [specialize (Ht s Hin)|specialize (Hdr s Hin)];
        rewrite E in *; lia.
  - destruct Hf as (s & Hin & E). rewrite bool_decide_eq_true_2; [done|].
    rewrite <- E. by apply list_elem_of_fmap_2.
Qed.

(** Inside the window the segment is accepted and the ready segments move; a
    repeated segment is counted, which needs the counters. *)
Lemma parse_data_accepts kcp newseg kcp' :
  rcv_inv kcp -> is_u32 (seg_sn newseg) ->
  itimediff (seg_sn newseg) (u32 (rcv_nxt kcp + rcv_wnd kcp)) < 0 ->
  0 <= itimediff (seg_sn newseg) (rcv_nxt kcp) ->
  parse_data kcp newseg = Ok kcp' ->
  exists st,
    kcp' = move_ready (kcp<|rcv_buf := accept (rcv_buf kcp) newseg|><|stats := st|>) /\
    (st = stats kcp \/ exists s, stats kcp = Some s /\
       st = Some (s<|SegRepeat := i64 (SegRepeat s + 1)|>)).
Proof.
  intros [Hu Hs] Hsn Hw1 Hw2. unfold parse_data.
  destruct (Z.geb_spec (itimediff (seg_sn newseg) (u32 (rcv_nxt kcp + rcv_wnd kcp))) 0); [lia|].
  destruct (Z.ltb_spec (itimediff (seg_sn newseg) (rcv_nxt kcp)) 0); [lia|]. simpl.
  apply itimediff_nonneg in Hw2.
  pose proof (find_slot_spec _ _ _ Hs Hsn Hw2) as Hf.
  intros Heq. unfold accept.
  destruct (find_slot _ _) as [idx|].
  - simpl in Heq. injection Heq as <-. exists (stats kcp).
    rewrite insert_segment_spec by apply Hf. split; [|by left]. by destruct kcp.
  - unfold with_stats in Heq. destruct (stats kcp) as [s|] eqn:Hst; [|discriminate].
    simpl in Heq. injection Heq as <-.
    eexists. split; [|right; by exists s]. by destruct kcp.
Qed.

(** The two branches of [parse_data]: outside the window the segment is dropped. *)
Lemma parse_data_spec kcp newseg kcp' :
  rcv_inv kcp -> is_u32 (seg_sn newseg) ->
  parse_data kcp newseg = Ok kcp' ->
  kcp' = kcp \/
  ahead (rcv_nxt kcp) newseg /\ exists st,
    kcp' = move_ready (kcp<|rcv_buf := accept (rcv_buf kcp) newseg|><|stats := st|>) /\
    (st = stats kcp \/ exists s, stats kcp = Some s /\
       st = Some (s<|SegRepeat := i64 (SegRepeat s + 1)|>)).
Proof.
  intros Hi Hsn Heq. pose proof Heq as Heq'. unfold parse_data in Heq'.
  destruct (Z.geb_spec (itimediff (seg_sn newseg) (u32 (rcv_nxt kcp + rcv_wnd kcp))) 0)
    as [|W1]; [injection Heq' as <-; by left|].
  destruct (Z.ltb_spec (itimediff (seg_sn newseg) (rcv_nxt kcp)) 0) as [|W2];
    [injection Heq' as <-; by left|].
  right. split; [split; [done|by apply itimediff_nonneg]|].
  apply parse_data_accepts; try done; lia.
Qed.

(** With counters, [parse_data] returns. *)
Lemma parse_data_total kcp seg :
  has_stats kcp -> exists kcp', parse_data kcp seg = Ok kcp'.
Proof.
  intros Hst. unfold parse_data. destruct (_ || _); [eauto|].
  destruct (find_slot _ _) as [idx|]; [simpl; eauto|].
  destruct (with_stats_ok (fun s => s<|SegRepeat := i64 (SegRepeat s + 1)|>) kcp Hst)
    as [st ->]. simpl. eauto.
Qed.

Lemma parse_data_keeps_inv kcp newseg kcp' :
  rcv_inv kcp -> is_u32 (seg_sn newseg) ->
  parse_data kcp newseg = Ok kcp' -> rcv_inv kcp'.
Proof.
  intros Hi Hsn Heq.
  destruct (parse_data_spec _ _ _ Hi Hsn Heq) as [->|(Ha & st & -> & _)]; [done|].
  apply move_ready_inv. split; [apply Hi|]. apply accept_serial; [apply Hi|done].
Qed.

(** ** [recvSize] and [recv] *)

Lemma message_size_bytes q : message_size q = len (message_bytes q).
Proof.
  unfold message_bytes. induction q as [|s q IH]; simpl; [done|].
  rewrite length_app. destruct (seg_frg s =? 0); simpl; [lia|]. rewrite IH. lia.
Qed.

(** The merging loop writes the bytes of the first message, if they fit. *)
Lemma recv_merge_ok q : forall c n count,
  (length (message_bytes q) <= length (crest c))%nat ->
  recv_merge q c n count =
    Ok (mkCursor (cdone c ++ message_bytes q) (drop (length (message_bytes q)) (crest c)),
        n + len (message_bytes q), (count + message_count q)%nat).
Proof.
  unfold message_bytes. induction q as [|s q IH]; intros c n count Hl; simpl.
  - rewrite app_nil_r, Z.add_0_r, Nat.add_0_r. by destruct c.
  - simpl in Hl. rewrite length_app in Hl |- *.
    rewrite cursor_write_ok by lia. cbn [mbind res_bind].
    destruct (seg_frg s =? 0); simpl.
    + by rewrite app_nil_r, !Nat.add_0_r, Nat.add_1_r.
    + rewrite IH by (simpl in *; rewrite length_drop; lia). simpl.
      rewrite <- app_assoc, drop_drop, Nat2Z.inj_add, Z.add_assoc.
      by rewrite Nat.add_succ_r.
Qed.

(** [recv] as one equation. *)
Lemma recv_ok kcp buf :
  (length (message_bytes (rcv_queue kcp)) <= length buf)%nat ->
  recv kcp buf =
    let kcp' := move_ready (kcp<|rcv_queue :=
                  drop (message_count (rcv_queue kcp)) (rcv_queue kcp)|>) in
    Ok (if (len (rcv_queue kcp') <? rcv_wnd kcp') && (len (rcv_queue kcp) >=? rcv_wnd kcp)
        then kcp'<|probe := Z.lor (probe kcp') IKCP_ASK_TELL|> else kcp',
        message_bytes (rcv_queue kcp) ++ drop (length (message_bytes (rcv_queue kcp))) buf,
        len (message_bytes (rcv_queue kcp))).
Proof. intros Hl. unfold recv. rewrite recv_merge_ok by done. done. Qed.

Lemma recv_panics kcp buf :
  (length buf < length (message_bytes (rcv_queue kcp)))%nat ->
  recv kcp buf = Panic PSlice.
Proof.
  intros Hl. unfold recv.
  enough (forall q c n count, (length (crest c) < length (message_bytes q))%nat ->
    recv_merge q c n count = Panic PSlice) as -> by done.
  clear. unfold message_bytes. induction q as [|s q IH]; intros c n count Hl; simpl in *; [lia|].
  rewrite length_app in Hl. unfold cursor_write.
  destruct (Z.leb_spec (len (seg_data s)) (len (crest c))); [|done]. cbn [mbind res_bind].
  destruct (seg_frg s =? 0); simpl in *; [lia|]. apply IH. simpl. rewrite length_drop. lia.
Qed.

(** [recvSize] by cases. *)
Lemma recvSize_cases kcp kcp' n :
  recvSize kcp = (kcp', n) ->
  (n = -1 /\ kcp' = kcp /\
   exists s q, rcv_queue kcp = s :: q /\ len (rcv_queue kcp) < u32 (seg_frg s + 1)) \/
  (n = len (message_bytes (rcv_queue kcp)) /\
   kcp' = (match rcv_queue kcp with
           | s :: _ => if (seg_frg s =? 0) && (len (seg_data s) =? 0)
                       then kcp<|state := Z.lor (state kcp) IKCP_STATE_REMOTE_CLOSED|> else kcp
           | [] => kcp
           end)).
Proof.
  unfold recvSize. rewrite <- message_size_bytes.
  destruct (rcv_queue kcp) as [|s q] eqn:Hq; [intros [= <- <-]; by right|].
  cbn [message_size]. destruct (Z.eqb_spec (seg_frg s) 0) as [Hf|Hf]; cbn [andb].
  - intros [= <- <-]. right. split; [lia|done].
  - destruct (Z.ltb_spec (len (s :: q)) (u32 (seg_frg s + 1))) as [Hl|Hl].
    + intros [= <- <-]. left. split_and!; [done|done|]. by exists s, q.
    + intros [= <- <-]. by right.
Qed.

(** The loop does not stop at a full queue. *)
Lemma ready_numbered buf : forall nxt qlen wnd count,
  is_u32 nxt -> qlen < wnd -> numbered nxt buf ->
  ready buf nxt qlen wnd count = (u32 (nxt + len buf), (count + length buf)%nat).
Proof.
  induction buf as [|s buf IH]; intros nxt qlen wnd count Hu Hq; simpl.
  - intros _. by rewrite Z.add_0_r, u32_id, Nat.add_0_r.
  - intros [-> Hn]. rewrite u32_id, Z.eqb_refl, (proj2 (Z.ltb_lt qlen wnd)) by done.
    cbn [andb]. rewrite IH; [|apply u32_range|done|by apply numbered_u32].
    rewrite u32_add_l. f_equal; [f_equal; lia|lia].
Qed.

(** The invariant speaks of the receive side only. *)
Lemma rcv_inv_side kcp kcp' : rcv_side kcp' = rcv_side kcp -> rcv_inv kcp -> rcv_inv kcp'.
Proof.
  destruct kcp, kcp'. unfold rcv_side, rcv_inv. simpl. by intros [= -> -> ->].
Qed.

(** ** Properties *)


(** C15. [recv] hands out exactly the first message of the receive queue, byte for byte,
    and nothing is lost: the queue and the buffer together then hold what they held but
    for that message, the segments that moved are the consecutive ones from [rcv_nxt].
    It panics exactly when the caller's buffer is shorter than the message. *)
Theorem recv_message kcp buf :
  rcv_inv kcp ->
  let msg := message_bytes (rcv_queue kcp) in
  if len msg <=? len buf then
    exists kcp' moved,
      recv kcp buf = Ok (kcp', msg ++ drop (length msg) buf, len msg) /\ rcv_inv kcp' /\
      rcv_queue kcp' = drop (message_count (rcv_queue kcp)) (rcv_queue kcp) ++ moved /\
      moved ++ rcv_buf kcp' = rcv_buf kcp /\
      numbered (rcv_nxt kcp) moved /\ rcv_nxt kcp' = u32 (rcv_nxt kcp + len moved) /\
      probe kcp' = (if (len (rcv_queue kcp') <? rcv_wnd kcp)
                        && (len (rcv_queue kcp) >=? rcv_wnd kcp)
                    then Z.lor (probe kcp) IKCP_ASK_TELL else probe kcp)
  else recv kcp buf = Panic PSlice.
Proof.
  intros Hi msg. destruct (Z.leb_spec (len msg) (len buf)); [|apply recv_panics; fold msg; lia].
  rewrite recv_ok by (fold msg; lia). cbv zeta. fold msg.
  set (k := kcp<|rcv_queue := _|>).
  destruct (move_ready_spec k (proj1 Hi)) as (c & Hc & Hk & Hn & _).
  assert (rcv_inv (move_ready k)) as Hinv by by apply move_ready_inv.
  exists (if (len (rcv_queue (move_ready k)) <? rcv_wnd (move_ready k))
             && (len (rcv_queue kcp) >=? rcv_wnd kcp)
          then (move_ready k)<|probe := Z.lor (probe (move_ready k)) IKCP_ASK_TELL|>
          else move_ready k), (take c (rcv_buf kcp)).
  split; [done|]. split; [by destruct (_ && _)|].
  rewrite Hk. simpl. simpl in Hn.
  assert (len (take c (rcv_buf kcp)) = Z.of_nat c) as ->
    by (change (rcv_buf k) with (rcv_buf kcp) in Hc; rewrite length_take; lia).
  destruct ((_ <? rcv_wnd kcp) && _) eqn:E; simpl; (split_and!; [done|apply take_drop|done|done|]);
    by rewrite E.
Qed.

(** [recvSize] tells the truth: a size of 0 or more is the length of the message
    that the next [recv] returns, so a buffer of that size is enough; only the empty
    segment, the end-of-stream mark, changes the state; and -1 means that the queue has
    fewer segments than the first fragment announces. *)
Theorem recvSize_recv kcp kcp' n :
  recvSize kcp = (kcp', n) ->
  (n = -1 /\ kcp' = kcp /\
   exists s q, rcv_queue kcp = s :: q /\ len (rcv_queue kcp) < u32 (seg_frg s + 1)) \/
  (n = len (message_bytes (rcv_queue kcp)) /\
   kcp' = (match rcv_queue kcp with
           | s :: _ => if (seg_frg s =? 0) && (len (seg_data s) =? 0)
                       then kcp<|state := Z.lor (state kcp) IKCP_STATE_REMOTE_CLOSED|> else kcp
           | [] => kcp
           end) /\
   exists k, recv kcp' (replicate (Z.to_nat n) Byte.x00) =
               Ok (k, message_bytes (rcv_queue kcp), n)).
Proof.
  intros E. destruct (recvSize_cases kcp kcp' n E) as [?|(-> & Hk)]; [by left|right].
  split; [done|]. split; [done|].
  assert (rcv_queue kcp' = rcv_queue kcp) as Hq.
  { subst kcp'. destruct (rcv_queue kcp) as [|s q] eqn:Hq; [done|]. by destruct (_ && _). }
  rewrite Nat2Z.id, recv_ok by (rewrite Hq, length_replicate; done). cbv zeta.
  eexists. f_equal. f_equal; [f_equal|by rewrite Hq].
  rewrite Hq, drop_ge by (rewrite length_replicate; lia). apply app_nil_r.
Qed.

(** The receive window bounds the queue only at the start of a move: the loop
    compares [len(rcv_queue)], which it does not change, so one segment that fills a gap
    moves the whole run behind it, past [rcv_wnd]. *)
Theorem move_ready_overshoots kcp :
  is_u32 (rcv_nxt kcp) -> len (rcv_queue kcp) < rcv_wnd kcp ->
  numbered (rcv_nxt kcp) (rcv_buf kcp) ->
  move_ready kcp =
    kcp<|rcv_nxt := u32 (rcv_nxt kcp + len (rcv_buf kcp))|>
       <|rcv_queue := rcv_queue kcp ++ rcv_buf kcp|><|rcv_buf := []|>.
Proof.
  intros Hu Hq Hn. unfold move_ready. rewrite ready_numbered by done. simpl.
  by rewrite take_ge, drop_ge by lia.
Qed.

Definition rcv_example (n : nat) : KCP :=
  newKCP<|stats := Some newKcpConnStats|><|rcv_wnd := 2|>
    <|rcv_queue := [segment0<|seg_data := [Byte.x41]|>]|>
    <|rcv_buf := map (fun i => segment0<|seg_sn := Z.of_nat i|>) (seq 1 n)|><|rcv_nxt := 1|>.

Lemma rcv_example_inv : rcv_inv (rcv_example 3).
Proof.
  split; [vm_compute; split; [discriminate|done]|].
  split; [repeat constructor; vm_compute; done|].
  repeat constructor; vm_compute; try discriminate; done.
Qed.

(** Segments 2 and 4 wait for 1. *)
Definition rcv_gap : KCP :=
  (rcv_example 0)<|rcv_wnd := 8|><|rcv_buf := [segment0<|seg_sn := 2|>; segment0<|seg_sn := 4|>]|>.

Lemma rcv_gap_inv : rcv_inv rcv_gap.
Proof.
  split; [vm_compute; split; [discriminate|done]|].
  split; [repeat constructor; vm_compute; done|].
  repeat constructor; vm_compute; try discriminate; done.
Qed.


Lemma recv_message_witness :
  rcv_inv (rcv_example 3) /\
  exists k, recv (rcv_example 3) [Byte.x00; Byte.x42] = Ok (k, [Byte.x41; Byte.x42], 1).
Proof.
  split; [exact rcv_example_inv|].
  destruct (recv_message (rcv_example 3) [Byte.x00; Byte.x42] rcv_example_inv)
    as (k & m & E & _). exists k. exact E.
Defined.

Lemma recvSize_recv_witness :
  exists kcp', recvSize (rcv_example 3) = (kcp', 1) /\
    1 = len (message_bytes (rcv_queue (rcv_example 3))).
Proof.
  exists (rcv_example 3). split; [reflexivity|].
  destruct (recvSize_recv (rcv_example 3) (rcv_example 3) 1 eq_refl) as [(E & _)|(E & _)];
    [discriminate E|exact E].
Defined.

Lemma move_ready_overshoots_witness :
  len (rcv_queue (move_ready (rcv_example 3))) = 4 /\ rcv_wnd (rcv_example 3) = 2.
Proof.
  rewrite (move_ready_overshoots (rcv_example 3));
    [split; reflexivity|vm_compute; split; [discriminate|done]|reflexivity|].
  vm_compute. auto.
Defined.
