(* ===== verification/Ack.v ===== *)
(** * Acknowledgements ([kcp.go], [update_ack] to [ack_push], lines 355 to 437)

    The round-trip estimator, and what an acknowledgement, a duplicate
    acknowledgement and the cumulative [una] field do to the send buffer. *)
From S2P Require Import Prelude GoInt Stats Wire Kcp Serial.

(** ** Definitions *)

Definition update_ack (rtt : Z) (kcp : KCP) : KCP :=
  let kcp :=
    if rx_srtt kcp =? 0 then
      let kcp := kcp<|rx_srtt := u32 rtt|> in
      kcp<|rx_rttval := u32 rtt / 2|>
    else
      let delta := i32 (rtt - i32 (rx_srtt kcp)) in
      let delta := if delta <? 0 then i32 (- delta) else delta in
      let kcp := kcp<|rx_rttval := u32 (u32 (3 * rx_rttval kcp) + u32 delta) / 4|> in
      let kcp := kcp<|rx_srtt := u32 (u32 (7 * rx_srtt kcp) + u32 rtt) / 8|> in
      if rx_srtt kcp <? 1 then kcp<|rx_srtt := 1|> else kcp in
  let rto := u32 (rx_srtt kcp + imax (interval kcp) (u32 (4 * rx_rttval kcp))) in
  kcp<|rx_rto := ibound (rx_minrto kcp) rto IKCP_RTO_MAX|>.

Definition shrink_buf (kcp : KCP) : KCP :=
  match snd_buf kcp with
  | seg :: _ => kcp<|snd_una := seg_sn seg|>
  | [] => kcp<|snd_una := snd_nxt kcp|>
  end.

(** The search of [parse_ack]: it gives up at the first later segment. *)
Fixpoint ack_index (buf : list segment) (sn : Z) (k : nat) : option nat :=
  match buf with
  | [] => None
  | seg :: buf =>
    if sn =? seg_sn seg then Some k
    else if itimediff sn (seg_sn seg) <? 0 then None
    else ack_index buf sn (S k)
  end.

(** Removal by shifting the tail down, clearing the last slot and shortening. *)
Definition remove_segment (buf : list segment) (k : nat) : list segment :=
  let buf := take k buf ++ go_copy (drop k buf) (drop (k + 1) buf) in
  let buf := <[(length buf - 1)%nat := segment0]> buf in
  take (length buf - 1) buf.

Definition parse_ack (sn : Z) (kcp : KCP) : KCP :=
  if (itimediff sn (snd_una kcp) <? 0) || (itimediff sn (snd_nxt kcp) >=? 0) then kcp
  else match ack_index (snd_buf kcp) sn 0 with
       | Some k => kcp<|snd_buf := remove_segment (snd_buf kcp) k|>
       | None => kcp
       end.

(** The loop of [parse_fastack]. *)
Fixpoint bump_fastack (buf : list segment) (sn : Z) : list segment :=
  match buf with
  | [] => []
  | seg :: rest =>
    if itimediff sn (seg_sn seg) <? 0 then buf
    else (if negb (sn =? seg_sn seg)
          then seg<|seg_fastack := u32 (seg_fastack seg + 1)|> else seg)
         :: bump_fastack rest sn
  end.

Definition parse_fastack (sn : Z) (kcp : KCP) : KCP :=
  if (itimediff sn (snd_una kcp) <? 0) || (itimediff sn (snd_nxt kcp) >=? 0) then kcp
  else kcp<|snd_buf := bump_fastack (snd_buf kcp) sn|>.

(** The counting loop of [parse_una]. *)
Fixpoint una_count (buf : list segment) (una : Z) : nat :=
  match buf with
  | seg :: buf => if itimediff una (seg_sn seg) >? 0 then S (una_count buf una) else 0
  | [] => 0
  end.

Definition parse_una (una : Z) (kcp : KCP) : KCP :=
  kcp<|snd_buf := drop (una_count (snd_buf kcp) una) (snd_buf kcp)|>.

Definition ack_push (sn ts : Z) (kcp : KCP) : KCP :=
  kcp<|acklist := acklist kcp ++ [mkAckItem sn ts]|>.

(** ** Invariant *)

(** The send buffer is in serial order between the oldest unacknowledged number
    and the next one to use, and less than half a circle is in flight. *)
Record snd_inv (kcp : KCP) : Prop := {
  snd_una_u32 : is_u32 (snd_una kcp);
  snd_nxt_u32 : is_u32 (snd_nxt kcp);
  snd_serial : serial (snd_una kcp) (snd_buf kcp);
  snd_inflight : dist (snd_una kcp) (snd_nxt kcp) < half;
  snd_below : Forall (fun s => dist (snd_una kcp) (seg_sn s)
                               < dist (snd_una kcp) (snd_nxt kcp)) (snd_buf kcp);
}.

(** After [shrink_buf], [snd_una] is the number of the first buffered segment. *)
Definition snd_tight (kcp : KCP) : Prop :=
  snd_una kcp = match snd_buf kcp with s :: _ => seg_sn s | [] => snd_nxt kcp end.

(** ** Lemmas *)

Lemma update_ack_rto rtt kcp :
  rx_minrto kcp <= IKCP_RTO_MAX ->
  rx_minrto kcp <= rx_rto (update_ack rtt kcp) <= IKCP_RTO_MAX.
Proof.
  intros Hm. unfold update_ack.
  set (k := if rx_srtt kcp =? 0 then _ else _).
  assert (rx_minrto k = rx_minrto kcp) as Hk.
  { subst k. destruct (rx_srtt kcp =? 0); [done|]. by destruct (_ <? 1). }
  simpl. rewrite Hk. by apply ibound_range.
Qed.

Lemma remove_segment_delete buf k :
  (k < length buf)%nat -> remove_segment buf k = delete k buf.
Proof. intros Hk. unfold remove_segment. rewrite length_insert. by apply copy_down. Qed.

Lemma ack_index_spec o buf sn : forall k,
  serial o buf -> dist o sn < half ->
  match ack_index buf sn k with
  | Some i => exists s, buf !! (i - k)%nat = Some s /\ seg_sn s = sn /\ (k <= i)%nat
  | None => forall s, s ∈ buf -> seg_sn s <> sn
  end.
Proof.
  induction buf as [|x buf IH]; intros k Hs Hd; simpl.
  { intros s Hin. by apply elem_of_nil in Hin. }
  destruct (Z.eqb_spec sn (seg_sn x)) as [->|Hne].
  { exists x. by rewrite Nat.sub_diag. }
  pose proof Hs as (Hall & [Hu Hx] & Hs')%serial_cons.
  rewrite (itimediff_origin o) by done.
  destruct (Z.ltb_spec (dist o sn - dist o (seg_sn x)) 0) as [Hlt|Hge].
  - intros s [->|Hin]%elem_of_cons E; [by symmetry in E|].
    rewrite Forall_forall in Hall. specialize (Hall s Hin).
    unfold before in Hall. rewrite E in Hall. lia.
  - specialize (IH (S k) Hs' Hd). destruct (ack_index buf sn (S k)) as [i|].
    + destruct IH as (s & Hl & Hsn & Hk). exists s. split_and!; [|done|lia].
      by replace (i - k)%nat with (S (i - S k)) by lia.
    + intros s [->|Hin]%elem_of_cons E; [by symmetry in E|]. by apply (IH s).
Qed.

(** The smoothed round-trip time, as long as the 32-bit sums do not wrap. *)
Lemma update_ack_srtt rtt kcp :
  0 <= rtt < 268435456 -> 0 <= rx_srtt kcp < 268435456 ->
  if rx_srtt kcp =? 0
  then rx_srtt (update_ack rtt kcp) = rtt /\ rx_rttval (update_ack rtt kcp) = rtt / 2
  else rx_srtt (update_ack rtt kcp) = Z.max 1 ((7 * rx_srtt kcp + rtt) / 8).
Proof.
  intros Hr Hs. unfold update_ack. destruct (Z.eqb_spec (rx_srtt kcp) 0); simpl.
  - rewrite u32_id by (unfold is_u32; lia). done.
  - rewrite (u32_id (7 * rx_srtt kcp)), (u32_id rtt), u32_id by (unfold is_u32; lia).
    destruct (Z.ltb_spec ((7 * rx_srtt kcp + rtt) / 8) 1); simpl; lia.
Qed.

(** The window test of [parse_ack] and [parse_fastack] in terms of distances. *)
Lemma ack_window sn kcp :
  snd_inv kcp ->
  (itimediff sn (snd_una kcp) <? 0) || (itimediff sn (snd_nxt kcp) >=? 0) =
    negb (dist (snd_una kcp) sn <? dist (snd_una kcp) (snd_nxt kcp)).
Proof.
  intros [Hu Hn Hs Hf Hb].
  destruct (Z.ltb_spec (itimediff sn (snd_una kcp)) 0) as [Hlt|Hge].
  - apply itimediff_neg in Hlt. rewrite (proj2 (Z.ltb_ge _ _)) by lia. done.
  - apply itimediff_nonneg in Hge. rewrite (itimediff_origin (snd_una kcp)) by done. simpl.
    destruct (Z.geb_spec (dist (snd_una kcp) sn - dist (snd_una kcp) (snd_nxt kcp)) 0),
      (Z.ltb_spec (dist (snd_una kcp) sn) (dist (snd_una kcp) (snd_nxt kcp))); done || lia.
Qed.

(** Keep the segments with another number. *)
Definition not_sn (sn : Z) (s : segment) : Prop := seg_sn s <> sn.
#[export] Instance not_sn_dec sn s : Decision (not_sn sn s).
Proof. unfold not_sn. apply _. Defined.

Lemma filter_delete_unique sn (buf : list segment) i s :
  NoDup (map seg_sn buf) -> buf !! i = Some s -> seg_sn s = sn ->
  filter (not_sn sn) buf = delete i buf.
Proof.
  intros Hnd Hi Hsn. revert i Hi. induction buf as [|x buf IH]; intros i Hi; [done|].
  simpl in Hnd. apply NoDup_cons in Hnd as [Hx Hnd].
  destruct i as [|i]; simpl in Hi |- *.
  - injection Hi as ->. rewrite filter_cons_False by (unfold not_sn; tauto).
    apply filter_all. intros t Ht E. apply Hx.
    change (seg_sn s ∈ seg_sn <$> buf). rewrite Hsn, <- E.
    by apply list_elem_of_fmap_2.
  - rewrite filter_cons_True.
    + f_equal. by apply IH.
    + intros E. apply Hx. change (seg_sn x ∈ seg_sn <$> buf). rewrite E, <- Hsn.
      apply list_elem_of_fmap_2. by eapply list_elem_of_lookup_2.
Qed.

(** Within the window, [parse_ack] removes the segment with the acknowledged
    number and nothing else; outside it does nothing. *)
Lemma parse_ack_spec sn kcp :
  snd_inv kcp ->
  parse_ack sn kcp =
    if dist (snd_una kcp) sn <? dist (snd_una kcp) (snd_nxt kcp)
    then kcp<|snd_buf := filter (not_sn sn) (snd_buf kcp)|> else kcp.
Proof.
  intros Hi. unfold parse_ack. rewrite (ack_window sn kcp Hi).
  destruct Hi as [Hu Hn Hs Hf Hb].
  destruct (Z.ltb_spec (dist (snd_una kcp) sn) (dist (snd_una kcp) (snd_nxt kcp))) as [Hd|Hd];
    simpl; [|done].
  pose proof (ack_index_spec _ _ sn 0 Hs ltac:(lia)) as Hi.
  destruct (ack_index (snd_buf kcp) sn 0) as [i|].
  - destruct Hi as (s & Hl & Hsn & _). rewrite Nat.sub_0_r in Hl.
    rewrite remove_segment_delete by (by eapply lookup_lt_Some).
    by rewrite (filter_delete_unique sn _ i s (serial_NoDup _ _ Hs) Hl Hsn).
  - rewrite filter_all by exact Hi. by destruct kcp.
Qed.

(** A number outside the window is not in the buffer, so the filter says it all. *)
Lemma parse_ack_filter sn kcp :
  snd_inv kcp -> is_u32 sn ->
  parse_ack sn kcp = kcp<|snd_buf := filter (not_sn sn) (snd_buf kcp)|>.
Proof.
  intros Hi Hsn. rewrite parse_ack_spec by done.
  destruct (Z.ltb_spec (dist (snd_una kcp) sn) (dist (snd_una kcp) (snd_nxt kcp))); [done|].
  rewrite filter_all; [by destruct kcp|]. intros s Hs E.
  pose proof (snd_below kcp Hi) as Hb. rewrite Forall_forall in Hb.
  specialize (Hb s Hs). rewrite E in Hb. lia.
Qed.

(** Keep the segments not before [una], seen from [o]. *)
Definition not_before (o una : Z) (s : segment) : Prop := dist o una <= dist o (seg_sn s).
#[export] Instance not_before_dec o una s : Decision (not_before o una s).
Proof. unfold not_before. apply _. Defined.

Lemma una_count_filter o una buf :
  serial o buf -> dist o una < half ->
  drop (una_count buf una) buf = filter (not_before o una) buf.
Proof.
  intros Hs Hd. induction buf as [|s buf IH]; [done|].
  pose proof Hs as (Hall & [Hu Hx] & Hs')%serial_cons. simpl.
  rewrite (itimediff_origin o) by done.
  destruct (Z.gtb_spec (dist o una - dist o (seg_sn s)) 0) as [Hgt|Hle].
  - rewrite filter_cons_False by (unfold not_before; lia). by apply IH.
  - simpl. symmetry. apply filter_all. intros t Ht. unfold not_before.
    pose proof (serial_head _ _ _ _ Hs Ht). lia.
Qed.

(** A cumulative acknowledgement within the window removes the segments before
    it and no other. *)
Lemma parse_una_spec una kcp :
  snd_inv kcp -> dist (snd_una kcp) una < half ->
  parse_una una kcp = kcp<|snd_buf := filter (not_before (snd_una kcp) una) (snd_buf kcp)|>.
Proof.
  intros [Hu Hn Hs Hf Hb] Hd. unfold parse_una. by rewrite (una_count_filter (snd_una kcp)).
Qed.

(** A stale one, from before the window, removes nothing. *)
Lemma parse_una_stale una kcp :
  snd_inv kcp -> dist una (snd_una kcp) + dist (snd_una kcp) (snd_nxt kcp) <= half ->
  parse_una una kcp = kcp.
Proof.
  intros [Hu Hn Hs Hf Hb] Hd. unfold parse_una.
  enough (una_count (snd_buf kcp) una = 0%nat) as -> by by destruct kcp.
  destruct (snd_buf kcp) as [|s buf]; simpl; [done|].
  apply Forall_cons in Hb as [Hb _].
  destruct (Z.gtb_spec (itimediff una (seg_sn s)) 0) as [Hgt|]; [|done].
  assert (0 < itimediff una (seg_sn s)) as H%itimediff_pos by lia.
  exfalso. clear -H Hd Hb Hf. word_lia.
Qed.

(** Any part of the buffer taken out in order keeps the invariant. *)
Lemma snd_inv_sub kcp buf :
  snd_inv kcp -> serial (snd_una kcp) buf -> (forall s, s ∈ buf -> s ∈ snd_buf kcp) ->
  snd_inv (kcp<|snd_buf := buf|>).
Proof.
  intros [Hu Hn Hs Hf Hb] Hbuf Hsub. split; simpl; try done.
  rewrite Forall_forall in Hb |- *. auto.
Qed.

Lemma serial_filter o P `{!forall s : segment, Decision (P s)} l :
  serial o l -> serial o (filter P l).
Proof.
  induction l as [|s l IH]; [done|]. rewrite serial_cons. intros (H1 & H2 & H3).
  destruct (decide (P s)).
  - rewrite filter_cons_True by done. apply serial_cons. split_and!; [|done|by apply IH].
    rewrite Forall_forall in H1 |- *. intros t [_ Ht]%list_elem_of_filter. by apply H1.
  - rewrite filter_cons_False by done. by apply IH.
Qed.

Lemma parse_una_inv una kcp : snd_inv kcp -> snd_inv (parse_una una kcp).
Proof.
  intros Hi. apply snd_inv_sub; [done| |].
  - apply serial_drop, Hi.
  - intros s Hs. rewrite <- (take_drop (una_count (snd_buf kcp) una)).
    apply elem_of_app. by right.
Qed.

Lemma parse_ack_inv sn kcp : snd_inv kcp -> snd_inv (parse_ack sn kcp).
Proof.
  intros Hi. rewrite parse_ack_spec by done. destruct (_ <? _); [|done].
  apply snd_inv_sub; [done| |].
  - apply serial_filter, Hi.
  - by intros s [_ Hs]%list_elem_of_filter.
Qed.

Lemma bump_fastack_sn buf sn : map seg_sn (bump_fastack buf sn) = map seg_sn buf.
Proof.
  induction buf as [|s buf IH]; simpl; [done|].
  destruct (_ <? 0); [done|]. destruct (negb _); simpl; by rewrite IH.
Qed.

Lemma bump_fastack_data buf sn : map seg_data (bump_fastack buf sn) = map seg_data buf.
Proof.
  induction buf as [|s buf IH]; simpl; [done|].
  destruct (_ <? 0); [done|]. destruct (negb _); simpl; by rewrite IH.
Qed.

(** The loop stops at the first later segment: the rest would not be counted. *)
Lemma bump_fastack_map o buf sn :
  serial o buf -> is_u32 sn -> dist o sn < half ->
  bump_fastack buf sn = map (fun s =>
    if dist o (seg_sn s) <? dist o sn
    then s<|seg_fastack := u32 (seg_fastack s + 1)|> else s) buf.
Proof.
  intros Hs Hn Hd. induction buf as [|s buf IH]; [done|].
  pose proof Hs as (Hall & [Hu Hx] & Hs')%serial_cons. simpl.
  rewrite (itimediff_origin o) by done.
  destruct (Z.ltb_spec (dist o sn - dist o (seg_sn s)) 0) as [Hlt|Hge].
  - rewrite (proj2 (Z.ltb_ge _ _)) by lia. f_equal. symmetry.
    rewrite <- (map_id buf) at 2. apply map_ext_Forall.
    eapply Forall_impl; [exact Hall|]. intros t Ht. unfold before in Ht. simpl.
    by rewrite (proj2 (Z.ltb_ge _ _)) by lia.
  - rewrite IH by done. f_equal.
    destruct (Z.eqb_spec sn (seg_sn s)) as [->|Hne]; simpl.
    + by rewrite Z.ltb_irrefl.
    + destruct (Z.ltb_spec (dist o (seg_sn s)) (dist o sn)) as [|Hle]; [done|].
      exfalso. clear -Hge Hle Hne Hu Hn Hd. word_lia.
Qed.

(** Replacing the buffer by one with the same numbers keeps the invariant. *)
Lemma snd_inv_same_sn kcp buf :
  snd_inv kcp -> map seg_sn buf = map seg_sn (snd_buf kcp) ->
  snd_inv (kcp<|snd_buf := buf|>).
Proof.
  intros [Hu Hn Hs Hf Hb] Hm. split; simpl; try done.
  - by eapply serial_map_sn.
  - rewrite Forall_forall in Hb |- *. intros s Hin.
    assert (seg_sn s ∈ map seg_sn (snd_buf kcp)) as (t & -> & Ht)%list_elem_of_fmap.
    { rewrite <- Hm. by apply list_elem_of_fmap_2. }
    by apply Hb.
Qed.

Lemma parse_fastack_inv sn kcp : snd_inv kcp -> snd_inv (parse_fastack sn kcp).
Proof.
  intros Hi. unfold parse_fastack. destruct (_ || _); [done|].
  apply snd_inv_same_sn; [done|]. apply bump_fastack_sn.
Qed.

(** [shrink_buf] moves [snd_una] forward, never past [snd_nxt], up to the first
    buffered segment. *)
Lemma shrink_buf_spec kcp :
  snd_inv kcp ->
  exists d, 0 <= d <= dist (snd_una kcp) (snd_nxt kcp) /\
    shrink_buf kcp = kcp<|snd_una := u32 (snd_una kcp + d)|> /\
    Forall (fun s => d <= dist (snd_una kcp) (seg_sn s)) (snd_buf kcp).
Proof.
  intros [Hu Hn Hs Hf Hb]. unfold shrink_buf. destruct (snd_buf kcp) as [|s buf] eqn:Hbuf.
  - exists (dist (snd_una kcp) (snd_nxt kcp)). rewrite dist_back by done.
    split_and!; [apply dist_range|done|done|constructor].
  - exists (dist (snd_una kcp) (seg_sn s)). 
    rewrite dist_back by (apply (serial_elem _ _ s Hs); by left).
    apply Forall_cons in Hb as [Hb _].
    split_and!; [apply dist_range|lia|done|].
    apply Forall_forall. intros t Ht. by eapply serial_head.
Qed.

Lemma shrink_buf_inv kcp : snd_inv kcp -> snd_inv (shrink_buf kcp).
Proof.
  intros Hi. destruct (shrink_buf_spec kcp Hi) as (d & Hd & -> & Hall).
  destruct Hi as [Hu Hn Hs Hf Hb]. split; simpl.
  - apply u32_range.
  - done.
  - apply serial_advance; [lia|done|done].
  - clear -Hd Hf. word_lia.
  - rewrite Forall_forall in Hall, Hb |- *. intros s Hin.
    specialize (Hall s Hin). specialize (Hb s Hin). clear -Hall Hb Hd. word_lia.
Qed.

Lemma shrink_buf_tight kcp : snd_tight (shrink_buf kcp).
Proof. unfold snd_tight, shrink_buf. by destruct (snd_buf kcp) eqn:E; simpl; rewrite E. Qed.

(** The invariant speaks of the send side only. *)
Lemma snd_inv_side kcp kcp' : snd_side kcp' = snd_side kcp -> snd_inv kcp -> snd_inv kcp'.
Proof.
  destruct kcp, kcp'. unfold snd_side. simpl. intros [= -> -> -> ->] [? ? ? ? ?].
  by split.
Qed.

(** ** Properties *)

(** C18. An acknowledgement retires exactly what it acknowledges. In a send buffer in
    order, [parse_ack] removes the segment of that number and no other, whether the number
    is in the window, stale or forged; a cumulative [una] from the half circle ahead
    removes exactly the segments before it; both keep the order of the rest, the
    invariant, and everything outside the buffer. *)
Theorem acks_retire kcp :
  snd_inv kcp ->
  (forall sn, is_u32 sn ->
     parse_ack sn kcp = kcp<|snd_buf := filter (not_sn sn) (snd_buf kcp)|> /\
     snd_inv (parse_ack sn kcp)) /\
  (forall una, dist (snd_una kcp) una < half ->
     parse_una una kcp = kcp<|snd_buf := filter (not_before (snd_una kcp) una) (snd_buf kcp)|> /\
     snd_inv (parse_una una kcp)) /\
  (forall una, dist una (snd_una kcp) + dist (snd_una kcp) (snd_nxt kcp) <= half ->
     parse_una una kcp = kcp).
Proof.
  intros Hi. split_and!; intros.
  - split; [by apply parse_ack_filter|by apply parse_ack_inv].
  - split; [by apply parse_una_spec|by apply parse_una_inv].
  - by apply parse_una_stale.
Qed.

(** Duplicate acknowledgements are counted where they should be: for a number in
    the window, [parse_fastack] adds one to the skip counter of every buffered segment
    before it, leaves the acknowledged segment and the later ones alone, and changes
    nothing else; outside the window it does nothing. *)
Theorem fastack_counts sn kcp :
  snd_inv kcp -> is_u32 sn ->
  parse_fastack sn kcp =
    if dist (snd_una kcp) sn <? dist (snd_una kcp) (snd_nxt kcp)
    then kcp<|snd_buf := map (fun s =>
           if dist (snd_una kcp) (seg_sn s) <? dist (snd_una kcp) sn
           then s<|seg_fastack := u32 (seg_fastack s + 1)|> else s) (snd_buf kcp)|>
    else kcp.
Proof.
  intros Hi Hsn. unfold parse_fastack. rewrite (ack_window sn kcp Hi).
  destruct (Z.ltb_spec (dist (snd_una kcp) sn) (dist (snd_una kcp) (snd_nxt kcp))) as [Hd|Hd];
    simpl; [|done].
  rewrite (bump_fastack_map (snd_una kcp)); [done|apply Hi|done|].
  pose proof (snd_inflight kcp Hi). lia.
Qed.

(** [shrink_buf] moves [snd_una] forward only, up to the first segment still in
    flight or to [snd_nxt] when there is none, never past a buffered segment, and keeps
    the invariant. *)
Theorem shrink_advances kcp :
  snd_inv kcp ->
  snd_inv (shrink_buf kcp) /\ snd_tight (shrink_buf kcp) /\
  exists d, 0 <= d <= dist (snd_una kcp) (snd_nxt kcp) /\
    shrink_buf kcp = kcp<|snd_una := u32 (snd_una kcp + d)|> /\
    Forall (fun s => d <= dist (snd_una kcp) (seg_sn s)) (snd_buf kcp).
Proof.
  intros Hi. split; [by apply shrink_buf_inv|]. split; [apply shrink_buf_tight|].
  by apply shrink_buf_spec.
Qed.

(** The retransmission timeout stays between the configured minimum and 60 seconds
    for every sample, and below 2^28 milliseconds, where the 32-bit arithmetic cannot
    wrap, the smoothed round-trip time is the weighted mean: it stays between the old
    value and the sample. *)
Theorem update_ack_bounds rtt kcp :
  rx_minrto kcp <= IKCP_RTO_MAX ->
  let kcp' := update_ack rtt kcp in
  rx_minrto kcp <= rx_rto kcp' <= IKCP_RTO_MAX /\
  (0 <= rtt < 268435456 -> 0 <= rx_srtt kcp < 268435456 ->
   if rx_srtt kcp =? 0 then rx_srtt kcp' = rtt /\ rx_rttval kcp' = rtt / 2
   else rx_srtt kcp' = Z.max 1 ((7 * rx_srtt kcp + rtt) / 8) /\
        Z.min (rx_srtt kcp) rtt <= rx_srtt kcp' <= Z.max (rx_srtt kcp) rtt).
Proof.
  intros Hm kcp'. split; [by apply update_ack_rto|]. intros Hr Hs. subst kcp'.
  pose proof (update_ack_srtt rtt kcp Hr Hs) as E.
  destruct (Z.eqb_spec (rx_srtt kcp) 0) as [|Hne]; [done|].
  split; [done|]. rewrite E. Z.div_mod_to_equations; lia.
Qed.

Definition snd_example : KCP :=
  newKCP<|stats := Some newKcpConnStats|><|snd_una := 4294967295|><|snd_nxt := 2|>
    <|snd_buf := [segment0<|seg_sn := 4294967295|>; segment0<|seg_sn := 0|>;
                  segment0<|seg_sn := 1|>]|>.

Lemma snd_example_inv : snd_inv snd_example.
Proof.
  split.
  1, 2: vm_compute; split; [discriminate|done].
  2: reflexivity.
  - split; [repeat constructor; vm_compute; done|].
    repeat constructor; vm_compute; try discriminate; done.
  - repeat constructor; vm_compute; done.
Qed.

Lemma acks_retire_witness :
  snd_inv snd_example /\
  map seg_sn (snd_buf (parse_ack 0 snd_example)) = [4294967295; 1] /\
  parse_una 4294967290 snd_example = snd_example.
Proof.
  split; [exact snd_example_inv|].
  destruct (acks_retire snd_example snd_example_inv) as (H1 & _ & H3). split.
  - destruct (H1 0) as [E _]; [vm_compute; split; [discriminate|done]|].
    rewrite E. reflexivity.
  - apply H3. vm_compute. discriminate.
Defined.

Lemma fastack_counts_witness :
  snd_inv snd_example /\
  map seg_fastack (snd_buf (parse_fastack 1 snd_example)) = [1; 1; 0].
Proof.
  split; [exact snd_example_inv|].
  rewrite (fastack_counts 1 snd_example snd_example_inv);
    [reflexivity|vm_compute; split; [discriminate|done]].
Defined.

Lemma shrink_advances_witness :
  snd_inv snd_example /\ snd_tight (shrink_buf snd_example).
Proof.
  split; [exact snd_example_inv|].
  destruct (shrink_advances snd_example snd_example_inv) as (_ & H & _). exact H.
Defined.

Lemma update_ack_bounds_witness :
  rx_minrto newKCP <= IKCP_RTO_MAX /\
  rx_minrto newKCP <= rx_rto (update_ack 70000 newKCP) <= IKCP_RTO_MAX.
Proof.
  split; [vm_compute; discriminate|].
  destruct (update_ack_bounds 70000 newKCP) as [H _]; [vm_compute; discriminate|exact H].
Defined.
