(* ===== verification/Input.v ===== *)
(** * Incoming datagrams ([kcp.go], [input], lines 490 to 615)

    A datagram is a sequence of segments. [input_round] is one round of the loop,
    [input_segment] what it does once the header is decoded and checked, and
    [input_cwnd] the growth of the congestion window at the end. *)
From S2P Require Import Prelude GoInt Stats Wire Kcp Serial Recv Ack.

(** ** Definitions *)

(** The variables [flag], [maxack] and [recentack] of the loop. *)
Record acksum := mkAcksum { flag : Z; maxack : Z; recentack : Z }.
#[export] Instance eta_acksum : Eta acksum :=
  fun a => mkAcksum (flag a) (maxack a) (recentack a).

Section Input.
Context `{BufPool}.

(** [kcp.stats.SegRepeat++] *)
Definition seg_repeat : KCP -> res KCP :=
  with_stats (fun s => s<|SegRepeat := i64 (SegRepeat s + 1)|>).

(** The branches on the command. [data] is [data[:length]]. [inr code] is a
    [return code] of [input]. *)
Definition input_segment (kcp : KCP) (a : acksum) (h : header) (data : list byte)
    : res (KCP * (acksum + Z)) :=
  let kcp := kcp<|rmt_wnd := h_wnd h|> in
  let kcp := parse_una (h_una h) kcp in
  let kcp := shrink_buf kcp in
  if h_cmd h =? IKCP_CMD_CONNECT then
    if rcv_nxt kcp =? 0 then
      let kcp := ack_push (h_sn h) (h_ts h) kcp in
      let kcp := kcp<|rcv_nxt := u32 (rcv_nxt kcp + 1)|> in
      Ok (kcp<|state := Z.lor (state kcp) IKCP_STATE_CONNECTED|>, inl a)
    else Ok (kcp, inl a)
  else if h_cmd h =? IKCP_CMD_ACK then
    let kcp := parse_ack (h_sn h) kcp in
    let kcp := shrink_buf kcp in
    let a := if flag a =? 0 then a<|flag := 1|><|maxack := h_sn h|>
             else if itimediff (h_sn h) (maxack a) >? 0 then a<|maxack := h_sn h|>
             else a in
    Ok (kcp, inl (a<|recentack := h_ts h|>))
  else if h_cmd h =? IKCP_CMD_PUSH then
    if itimediff (h_sn h) (u32 (rcv_nxt kcp + rcv_wnd kcp)) <? 0 then
      let kcp := ack_push (h_sn h) (h_ts h) kcp in
      if itimediff (h_sn h) (rcv_nxt kcp) >=? 0 then
        seg ← newSegment (h_len h);
        let seg := seg<|seg_conv := h_conv h|><|seg_cmd := h_cmd h|>
                      <|seg_frg := h_frg h|><|seg_wnd := h_wnd h|><|seg_ts := h_ts h|>
                      <|seg_sn := h_sn h|><|seg_una := h_una h|> in
        let seg := seg<|seg_data := go_copy (seg_data seg) data|> in
        kcp ← parse_data kcp seg;
        Ok (kcp, inl a)
      else kcp ← seg_repeat kcp; Ok (kcp, inl a)
    else kcp ← seg_repeat kcp; Ok (kcp, inl a)
  else if h_cmd h =? IKCP_CMD_WASK then
    Ok (kcp<|probe := Z.lor (probe kcp) IKCP_ASK_TELL|>, inl a)
  else if h_cmd h =? IKCP_CMD_WINS then Ok (kcp, inl a)
  else Ok (kcp, inr (-3)).

Definition known_cmd (cmd : Z) : bool :=
  negb (negb (cmd =? IKCP_CMD_PUSH) && negb (cmd =? IKCP_CMD_ACK) &&
        negb (cmd =? IKCP_CMD_WASK) && negb (cmd =? IKCP_CMD_WINS) &&
        negb (cmd =? IKCP_CMD_CONNECT)).

(** One round of the loop, for at least [IKCP_OVERHEAD] bytes: either go on with
    the rest of the data or return. *)
Definition input_round (kcp : KCP) (a : acksum) (data : list byte)
    : res (KCP * (acksum * list byte + Z)) :=
  '(cv, data) ← ikcp_decode32u data;
  if negb (cv =? conv kcp) then Ok (kcp, inr (-1)) else
  '(h, data) ← decode_rest cv data;
  if len data <? h_len h then Ok (kcp, inr (-2)) else
  if negb (known_cmd (h_cmd h)) then Ok (kcp, inr (-3)) else
  '(kcp, r) ← input_segment kcp a h (take (Z.to_nat (h_len h)) data);
  match r with
  | inr code => Ok (kcp, inr code)
  | inl a => data ← slice_from (h_len h) data; Ok (kcp, inl (a, data))
  end.

Fixpoint input_loop (fuel : nat) (kcp : KCP) (a : acksum) (data : list byte)
    : res (KCP * (acksum + Z)) :=
  if len data <? IKCP_OVERHEAD then Ok (kcp, inl a) else
  match fuel with
  | O => OutOfFuel
  | S fuel =>
    '(kcp, r) ← input_round kcp a data;
    match r with
    | inr code => Ok (kcp, inr code)
    | inl (a, data) => input_loop fuel kcp a data
    end
  end.

(** The growth of the congestion window when [snd_una] has moved past [una]. *)
Definition input_cwnd (una : Z) (kcp : KCP) : res KCP :=
  if (itimediff (snd_una kcp) una >? 0) && (cwnd kcp <? rmt_wnd kcp) then
    let m := u32 (mss kcp) in
    kcp ← (if cwnd kcp <? ssthresh kcp then
             let kcp := kcp<|cwnd := u32 (cwnd kcp + 1)|> in
             Ok (kcp<|incr := u32 (incr kcp + m)|>)
           else
             let kcp := if incr kcp <? m then kcp<|incr := m|> else kcp in
             _ ← go_check (negb (incr kcp =? 0)) PDivide;
             let kcp := kcp<|incr := u32 (incr kcp + u32 (u32 (m * m) / incr kcp + m / 16))|> in
             if u32 (u32 (cwnd kcp + 1) * m) <=? incr kcp
             then Ok (kcp<|cwnd := u32 (cwnd kcp + 1)|>) else Ok kcp);
    if cwnd kcp >? rmt_wnd kcp then
      let kcp := kcp<|cwnd := rmt_wnd kcp|> in
      Ok (kcp<|incr := u32 (rmt_wnd kcp * m)|>)
    else Ok kcp
  else Ok kcp.

(** [input(current, data, update_ack)]. The fuel bounds the number of segments:
    each takes at least [IKCP_OVERHEAD] bytes of the data. *)
Definition input (kcp : KCP) (current : Z) (data : list byte) (do_update_ack : bool)
    : res (KCP * Z) :=
  let una := snd_una kcp in
  if len data <? IKCP_OVERHEAD then Ok (kcp, -1) else
  '(kcp, r) ← input_loop (length data) kcp (mkAcksum 0 0 0) data;
  match r with
  | inr code => Ok (kcp, code)
  | inl a =>
    let kcp :=
      if negb (flag a =? 0) && do_update_ack then
        let kcp := parse_fastack (maxack a) kcp in
        if itimediff current (recentack a) >=? 0
        then update_ack (itimediff current (recentack a)) kcp else kcp
      else kcp in
    kcp ← input_cwnd una kcp;
    Ok (kcp, 0)
  end.
End Input.

(** A header as the wire can carry it. *)
Definition hdr_ok (h : header) : Prop :=
  is_u32 (h_conv h) /\ 0 <= h_cmd h < 256 /\ 0 <= h_frg h < 256 /\ 0 <= h_wnd h < 65536 /\
  is_u32 (h_ts h) /\ is_u32 (h_sn h) /\ is_u32 (h_una h) /\ is_u32 (h_len h).

(** ** Lemmas: what the pieces leave alone *)

Lemma move_ready_frame kcp :
  settings (move_ready kcp) = settings kcp /\ snd_side (move_ready kcp) = snd_side kcp /\
  stats (move_ready kcp) = stats kcp.
Proof. unfold move_ready. by destruct (ready _ _ _ _ _). Qed.

Lemma parse_data_frame kcp seg kcp' :
  parse_data kcp seg = Ok kcp' ->
  settings kcp' = settings kcp /\ snd_side kcp' = snd_side kcp /\
  (has_stats kcp -> has_stats kcp').
Proof.
  unfold parse_data, has_stats. destruct (_ || _); [by intros [= <-]|].
  destruct (find_slot _ _); intros H; res_inv; subst.
  - by rewrite !(proj1 (move_ready_frame _)), !(proj1 (proj2 (move_ready_frame _))),
      !(proj2 (proj2 (move_ready_frame _))).
  - apply with_stats_Ok_inv in E as [st ->].
    rewrite !(proj1 (move_ready_frame _)), !(proj1 (proj2 (move_ready_frame _))),
      !(proj2 (proj2 (move_ready_frame _))). by split_and!.
Qed.

Lemma parse_ack_frame sn kcp :
  settings (parse_ack sn kcp) = settings kcp /\ rcv_side (parse_ack sn kcp) = rcv_side kcp /\
  stats (parse_ack sn kcp) = stats kcp.
Proof.
  unfold parse_ack. destruct (_ || _); [done|]. by destruct (ack_index _ _ _).
Qed.

Lemma shrink_buf_frame kcp :
  settings (shrink_buf kcp) = settings kcp /\ rcv_side (shrink_buf kcp) = rcv_side kcp /\
  stats (shrink_buf kcp) = stats kcp.
Proof. unfold shrink_buf. by destruct (snd_buf kcp). Qed.

Lemma parse_fastack_frame sn kcp :
  settings (parse_fastack sn kcp) = settings kcp /\
  rcv_side (parse_fastack sn kcp) = rcv_side kcp /\
  stats (parse_fastack sn kcp) = stats kcp.
Proof. unfold parse_fastack. by destruct (_ || _). Qed.

Lemma update_ack_frame rtt kcp :
  settings (update_ack rtt kcp) = settings kcp /\ rcv_side (update_ack rtt kcp) = rcv_side kcp /\
  snd_side (update_ack rtt kcp) = snd_side kcp /\ stats (update_ack rtt kcp) = stats kcp.
Proof.
  unfold update_ack. destruct (rx_srtt kcp =? 0); [done|]. simpl. by destruct (_ <? 1).
Qed.

Section InputLemmas.
Context `{BufPool}.

(** The part of [input_segment] before the command is looked at. *)
Definition input_ack_part (kcp : KCP) (h : header) : KCP :=
  shrink_buf (parse_una (h_una h) (kcp<|rmt_wnd := h_wnd h|>)).

Lemma input_ack_part_frame kcp h :
  settings (input_ack_part kcp h) = settings kcp /\
  rcv_side (input_ack_part kcp h) = rcv_side kcp /\
  stats (input_ack_part kcp h) = stats kcp.
Proof.
  unfold input_ack_part.
  rewrite !(proj1 (shrink_buf_frame _)), !(proj1 (proj2 (shrink_buf_frame _))),
    !(proj2 (proj2 (shrink_buf_frame _))). done.
Qed.

Lemma input_ack_part_control kcp h :
  acklist (input_ack_part kcp h) = acklist kcp /\ state (input_ack_part kcp h) = state kcp.
Proof.
  unfold input_ack_part, shrink_buf. by destruct (snd_buf _).
Qed.

(** The segment that [input] builds from a header and its data. *)
Definition received (h : header) (data : list byte) : segment :=
  mkSegment (h_conv h) (h_cmd h) (h_frg h) (h_wnd h) (h_ts h) (h_sn h) (h_una h)
    0 0 0 0 data.

Lemma newSegment_received h data :
  len data = h_len h -> len data <= 2048 ->
  exists g, newSegment (h_len h) = Ok (segment0<|seg_data := g|>) /\ go_copy g data = data.
Proof.
  intros Hl Hle. unfold newSegment, udpPacketSizeLimit.
  rewrite (proj2 (Z.leb_le 0 _)), (proj2 (Z.leb_le _ 2048)) by lia. simpl.
  eexists; split; [done|]. apply go_copy_all. rewrite length_take, pool_bytes_length. lia.
Qed.

(** [input_segment] by command, with the pool out of the picture. *)
Lemma input_segment_eq kcp a h data :
  len data = h_len h -> len data <= 2048 ->
  input_segment kcp a h data =
    let k := input_ack_part kcp h in
    if h_cmd h =? IKCP_CMD_CONNECT then
      if rcv_nxt k =? 0 then
        Ok (k<|acklist := acklist k ++ [mkAckItem (h_sn h) (h_ts h)]|>
             <|rcv_nxt := u32 (rcv_nxt k + 1)|>
             <|state := Z.lor (state k) IKCP_STATE_CONNECTED|>, inl a)
      else Ok (k, inl a)
    else if h_cmd h =? IKCP_CMD_ACK then
      Ok (shrink_buf (parse_ack (h_sn h) k),
          inl ((if flag a =? 0 then a<|flag := 1|><|maxack := h_sn h|>
                else if itimediff (h_sn h) (maxack a) >? 0 then a<|maxack := h_sn h|>
                else a)<|recentack := h_ts h|>))
    else if h_cmd h =? IKCP_CMD_PUSH then
      if itimediff (h_sn h) (u32 (rcv_nxt k + rcv_wnd k)) <? 0 then
        let k := ack_push (h_sn h) (h_ts h) k in
        kcp ← (if itimediff (h_sn h) (rcv_nxt k) >=? 0
               then parse_data k (received h data) else seg_repeat k);
        Ok (kcp, inl a)
      else kcp ← seg_repeat k; Ok (kcp, inl a)
    else if h_cmd h =? IKCP_CMD_WASK then
      Ok (k<|probe := Z.lor (probe k) IKCP_ASK_TELL|>, inl a)
    else if h_cmd h =? IKCP_CMD_WINS then Ok (k, inl a)
    else Ok (k, inr (-3)).
Proof.
  intros Hl Hle. unfold input_segment. cbv zeta. fold (input_ack_part kcp h).
  set (k := input_ack_part kcp h).
  destruct (h_cmd h =? IKCP_CMD_CONNECT); [done|].
  destruct (h_cmd h =? IKCP_CMD_ACK); [done|].
  destruct (h_cmd h =? IKCP_CMD_PUSH); [|done].
  destruct (_ <? 0); [|done].
  destruct (_ >=? 0); [|done].
  destruct (newSegment_received h data Hl Hle) as (g & -> & Hg).
  replace (received h data) with (received h (go_copy g data)) by (by rewrite Hg). done.
Qed.

Lemma known_cmd_spec c :
  known_cmd c = true <->
  c = IKCP_CMD_PUSH \/ c = IKCP_CMD_ACK \/ c = IKCP_CMD_WASK \/ c = IKCP_CMD_WINS \/
  c = IKCP_CMD_CONNECT.
Proof.
  unfold known_cmd, IKCP_CMD_PUSH, IKCP_CMD_ACK, IKCP_CMD_WASK, IKCP_CMD_WINS,
    IKCP_CMD_CONNECT. btest; simpl; lia || (split; [lia|done]).
Qed.

Lemma seg_repeat_frame kcp kcp' :
  seg_repeat kcp = Ok kcp' ->
  settings kcp' = settings kcp /\ snd_side kcp' = snd_side kcp /\
  rcv_side kcp' = rcv_side kcp /\ has_stats kcp'.
Proof.
  intros [s ->]%with_stats_Ok_inv. split_and!; [done..|]. by exists s.
Qed.

(** With counters and a command of the protocol, a segment is always processed. *)
Lemma input_segment_ok kcp a h data :
  has_stats kcp -> len data = h_len h -> len data <= 2048 -> known_cmd (h_cmd h) = true ->
  exists kcp' a', input_segment kcp a h data = Ok (kcp', inl a') /\
    settings kcp' = settings kcp /\ has_stats kcp'.
Proof.
  intros Hst Hl Hle Hc. rewrite input_segment_eq by done. cbv zeta.
  destruct (input_ack_part_frame kcp h) as (Hs1 & Hs2 & Hs3).
  set (k := input_ack_part kcp h) in *.
  assert (Hk : has_stats k) by (unfold has_stats; by rewrite Hs3).
  assert (Hrep : exists k', seg_repeat k = Ok k') by
    (destruct (with_stats_ok (fun s => s<|SegRepeat := i64 (SegRepeat s + 1)|>) k Hk); eauto).
  destruct Hrep as [kr Hr]. pose proof (seg_repeat_frame _ _ Hr) as (Hr1 & _ & _ & Hr2).
  apply known_cmd_spec in Hc as [-> | [-> | [-> | [-> | ->]]]]; simpl.
  - destruct (_ <? 0).
    + destruct (_ >=? 0).
      * destruct (parse_data_total (ack_push (h_sn h) (h_ts h) k) (received h data)) as [k' Hp];
          [done|]. rewrite Hp. apply parse_data_frame in Hp as (Hp1 & _ & Hp2).
        simpl. do 2 eexists. split; [done|]. rewrite Hp1. auto.
      * destruct (with_stats_ok (fun s => s<|SegRepeat := i64 (SegRepeat s + 1)|>)
                    (ack_push (h_sn h) (h_ts h) k) Hk) as [st Hw].
        unfold seg_repeat. rewrite Hw. simpl. do 2 eexists. split; [done|].
        split; [done|]. by exists st.
    + rewrite Hr. simpl. do 2 eexists. split; [done|]. by rewrite Hr1.
  - do 2 eexists. split; [done|].
    unfold has_stats. rewrite !(proj1 (shrink_buf_frame _)), !(proj2 (proj2 (shrink_buf_frame _))).
    by rewrite !(proj1 (parse_ack_frame _ _)), !(proj2 (proj2 (parse_ack_frame _ _))).
  - eauto 10.
  - eauto 10.
  - destruct (rcv_nxt k =? 0); eauto 10.
Qed.

(** Decoding the rest of the header of at least 24 bytes. *)
Lemma decode_rest_ok cv data :
  (20 <= length data)%nat -> is_u32 cv ->
  exists h, decode_rest cv data = Ok (h, drop 20 data) /\ hdr_ok h /\ h_conv h = cv.
Proof.
  intros Hl Hcv. unfold decode_rest, ikcp_decode8u, ikcp_decode16u, ikcp_decode32u.
  repeat match goal with
  | |- context [mbind _ (decode_le ?n ?d)] =>
      let v := fresh "v" in let E := fresh "E" in let R := fresh "R" in
      destruct (decode_le_total n d) as [v E]; [rewrite ?length_drop; lia|];
      pose proof (proj1 (decode_le_range _ _ _ _ E)) as R;
      rewrite E; cbn [mbind res_bind]; clear E
  end.
  rewrite !drop_drop. eexists. split; [done|]. split; [|done].
  unfold hdr_ok, is_u32 in *. simpl in *. lia.
Qed.

Lemma decode32_ok data :
  (4 <= length data)%nat ->
  exists cv, ikcp_decode32u data = Ok (cv, drop 4 data) /\ is_u32 cv.
Proof.
  intros Hl. destruct (decode_le_total 4 data Hl) as [v E]. exists v.
  split; [done|]. by apply (decode_le_range 4 data v (drop 4 data)).
Qed.

(** What a round can do on at least 24 bytes: an error code before anything has
    changed, or one segment processed. *)
Lemma input_round_cases kcp a data :
  24 <= len data -> len data <= 2048 ->
  (exists code, input_round kcp a data = Ok (kcp, inr code) /\ -3 <= code < 0) \/
  (exists h, hdr_ok h /\ h_conv h = conv kcp /\ known_cmd (h_cmd h) = true /\
     len (take (Z.to_nat (h_len h)) (drop 24 data)) = h_len h /\
     h_len h <= len (drop 24 data) /\
     input_round kcp a data =
       '(kcp, r) ← input_segment kcp a h (take (Z.to_nat (h_len h)) (drop 24 data));
       match r with
       | inr code => Ok (kcp, inr code)
       | inl a => Ok (kcp, inl (a, drop (24 + Z.to_nat (h_len h)) data))
       end).
Proof.
  intros Hge Hle. unfold input_round.
  destruct (decode32_ok data) as (cv & -> & Hcv); [lia|]. cbn [mbind res_bind].
  destruct (Z.eqb_spec cv (conv kcp)) as [->|Hne]; simpl; [|left; eexists; split; [done|lia]].
  destruct (decode_rest_ok (conv kcp) (drop 4 data)) as (h & -> & Hh & Hc);
    [rewrite length_drop; lia|done|].
  cbn [mbind res_bind]. rewrite drop_drop. simpl.
  destruct (Z.ltb_spec (len (drop 24 data)) (h_len h)); [left; eexists; split; [done|lia]|].
  destruct (known_cmd (h_cmd h)) eqn:Hk; simpl; [|left; eexists; split; [done|lia]].
  right. exists h. assert (is_u32 (h_len h)) as Hlen by apply Hh. unfold is_u32 in Hlen.
  split_and!; [done|done|done| |lia|].
  { rewrite length_take. lia. }
  destruct (input_segment _ _ _ _) as [[k [a'|code]]| |]; [|done..].
  cbn [mbind res_bind]. rewrite slice_from_ok by lia. cbn [mbind res_bind].
  by rewrite drop_drop.
Qed.

Lemma input_round_ok kcp a data :
  has_stats kcp -> 24 <= len data -> len data <= 2048 ->
  exists kcp' r, input_round kcp a data = Ok (kcp', r) /\
    settings kcp' = settings kcp /\ has_stats kcp' /\
    match r with
    | inr code => -3 <= code < 0
    | inl (_, rest) => len rest <= len data - 24
    end.
Proof.
  intros Hst Hge Hle.
  destruct (input_round_cases kcp a data Hge Hle)
    as [(code & -> & Hc)|(h & Hh & _ & Hk & Ht & Hl & ->)]; [eauto 10|].
  destruct (input_segment_ok kcp a h _ Hst Ht) as (kcp' & a' & -> & Hs & Hst');
    [rewrite length_take, length_drop; lia|done|].
  cbn [mbind res_bind]. do 2 eexists. split; [done|]. split_and!; [done|done|].
  rewrite length_drop. lia.
Qed.

(** The loop ends within its fuel and never panics. *)
Lemma input_loop_ok fuel : forall kcp a data,
  has_stats kcp -> len data <= 2048 -> (length data <= fuel)%nat ->
  exists kcp' r, input_loop fuel kcp a data = Ok (kcp', r) /\
    settings kcp' = settings kcp /\ has_stats kcp' /\
    match r with inr code => -3 <= code < 0 | inl _ => True end.
Proof.
  induction fuel as [|fuel IH]; intros kcp a data Hst Hle Hf; simpl;
    destruct (Z.ltb_spec (len data) IKCP_OVERHEAD) as [|Hge]; [eauto 10| |eauto 10|];
    unfold IKCP_OVERHEAD in Hge; [lia|].
  destruct (input_round_ok kcp a data Hst Hge Hle) as (k1 & r & -> & Hs & Hst1 & Hr).
  cbn [mbind res_bind]. destruct r as [[a1 rest]|code]; [|eauto 10].
  destruct (IH k1 a1 rest) as (k2 & r2 & -> & Hs2 & Hst2 & Hr2); [done|lia|lia|].
  do 2 eexists. split; [done|]. split_and!; [congruence|done|done].
Qed.

Lemma input_cwnd_ok una kcp :
  u32 (mss kcp) <> 0 ->
  exists k, input_cwnd una kcp = Ok k /\ settings k = settings kcp /\ stats k = stats kcp /\
    snd_side k = snd_side kcp /\ rcv_side k = rcv_side kcp.
Proof.
  intros Hm. unfold input_cwnd. destruct (_ && _); [|eauto 10]. cbv zeta.
  assert (Hend : forall c i, exists k,
    (let k0 := kcp<|cwnd := c|><|incr := i|> in
     if cwnd k0 >? rmt_wnd k0 then
       Ok (k0<|cwnd := rmt_wnd k0|><|incr := u32 (rmt_wnd k0 * u32 (mss kcp))|>)
     else Ok k0) = Ok k /\ settings k = settings kcp /\ stats k = stats kcp /\
    snd_side k = snd_side kcp /\ rcv_side k = rcv_side kcp).
  { intros c i. cbv zeta. destruct (_ >? _); eauto 10. }
  destruct (cwnd kcp <? ssthresh kcp); [apply Hend|].
  set (i0 := if incr kcp <? u32 (mss kcp) then u32 (mss kcp) else incr kcp).
  assert ((if incr kcp <? u32 (mss kcp) then kcp<|incr := u32 (mss kcp)|> else kcp)
          = kcp<|incr := i0|>) as ->.
  { subst i0. destruct (_ <? _); [done|by destruct kcp]. }
  assert (incr (kcp<|incr := i0|>) <> 0) as Hi.
  { simpl. subst i0. pose proof (u32_range (mss kcp)) as Hr. unfold is_u32 in Hr.
    destruct (Z.ltb_spec (incr kcp) (u32 (mss kcp))); lia. }
  rewrite (proj2 (Z.eqb_neq _ 0) Hi). cbn [negb go_check mbind res_bind].
  destruct (_ <=? _); cbn [mbind res_bind]; [apply Hend|].
  exact (Hend (cwnd kcp) _).
Qed.

(** [input] returns for every datagram the connection can receive. *)
Lemma input_ok kcp current data upd :
  has_stats kcp -> u32 (mss kcp) <> 0 -> len data <= 2048 ->
  exists kcp' code, input kcp current data upd = Ok (kcp', code) /\
    settings kcp' = settings kcp /\ has_stats kcp' /\ -3 <= code <= 0.
Proof.
  intros Hst Hm Hle. unfold input.
  destruct (Z.ltb_spec (len data) IKCP_OVERHEAD); [do 2 eexists; split; [done|]; split_and!; done|].
  destruct (input_loop_ok (length data) kcp (mkAcksum 0 0 0) data)
    as (k1 & r & -> & Hs1 & Hst1 & Hr); [done|done|done|].
  cbn [mbind res_bind]. destruct r as [a|code]; [|do 2 eexists; split; [done|]; split_and!; done || lia].
  cbv zeta. set (k2 := if negb (flag a =? 0) && upd then _ else _).
  assert (settings k2 = settings k1 /\ stats k2 = stats k1) as [Hs2 Hst2].
  { subst k2. destruct (negb _ && upd); [|done].
    destruct (_ >=? 0); [|split; apply parse_fastack_frame].
    split; [rewrite (proj1 (update_ack_frame _ _))|
            rewrite (proj2 (proj2 (proj2 (update_ack_frame _ _))))]; apply parse_fastack_frame. }
  destruct (input_cwnd_ok (snd_una kcp) k2) as (k3 & -> & Hs3 & Hst3 & _).
  { assert (mss k2 = mss kcp) as ->; [|done].
    assert (settings k2 = settings kcp) as E by congruence. by injection E. }
  cbn [mbind res_bind]. do 2 eexists. split; [done|]. split_and!; [congruence| |lia|lia].
  unfold has_stats in *. congruence.
Qed.

(** Induction along the segments of a datagram: what every processed segment and
    the steps at the end preserve, [input] preserves. *)
Lemma input_loop_ind (P : KCP -> Prop) :
  (forall k a h d k' r, P k -> hdr_ok h -> h_conv h = conv k -> known_cmd (h_cmd h) = true ->
     len d = h_len h -> len d <= 2048 -> input_segment k a h d = Ok (k', r) -> P k') ->
  forall fuel kcp a data kcp' r, P kcp -> len data <= 2048 ->
  input_loop fuel kcp a data = Ok (kcp', r) -> P kcp'.
Proof.
  intros Hseg. induction fuel as [|fuel IH]; intros kcp a data kcp' r HP Hle; simpl;
    destruct (Z.ltb_spec (len data) IKCP_OVERHEAD) as [|Hge]; [by intros [= <- _]|done|
    by intros [= <- _]|]; unfold IKCP_OVERHEAD in Hge.
  destruct (input_round_cases kcp a data Hge Hle)
    as [(code & -> & _)|(h & Hh & Hc & Hk & Ht & Hl & ->)]; [by intros [= <- _]|].
  assert (len (take (Z.to_nat (h_len h)) (drop 24 data)) <= 2048) as Hlt
    by (rewrite length_take, length_drop; lia).
  destruct (input_segment _ _ _ _) as [[k1 [a1|code]]| |] eqn:E; cbn [mbind res_bind];
    [|intros [= <- _]; by eapply Hseg|done..].
  apply IH; [by eapply Hseg|]. rewrite length_drop. lia.
Qed.

Lemma input_ind (P : KCP -> Prop) kcp current data upd kcp' code :
  (forall k a h d k' r, P k -> hdr_ok h -> h_conv h = conv k -> known_cmd (h_cmd h) = true ->
     len d = h_len h -> len d <= 2048 -> input_segment k a h d = Ok (k', r) -> P k') ->
  (forall k sn, P k -> P (parse_fastack sn k)) ->
  (forall k rtt, P k -> P (update_ack rtt k)) ->
  (forall k una k', P k -> input_cwnd una k = Ok k' -> P k') ->
  P kcp -> len data <= 2048 -> input kcp current data upd = Ok (kcp', code) -> P kcp'.
Proof.
  intros Hseg Hfast Hack Hcwnd HP Hle. unfold input.
  destruct (_ <? IKCP_OVERHEAD); [by intros [= <- _]|].
  destruct (input_loop _ _ _ _) as [[k1 [a|c]]| |] eqn:E; cbn [mbind res_bind];
    [|intros [= <- _]; by eapply (input_loop_ind P)|done..].
  assert (P k1) as HP1 by by eapply (input_loop_ind P).
  destruct (input_cwnd _ _) as [k2| |] eqn:E2; cbn [mbind res_bind]; [|done..].
  intros [= <- _]. eapply Hcwnd; [|exact E2].
  destruct (negb _ && upd); [|done]. destruct (_ >=? 0); auto.
Qed.

Lemma input_ack_part_inv kcp h : snd_inv kcp -> snd_inv (input_ack_part kcp h).
Proof.
  intros Hi. apply shrink_buf_inv, parse_una_inv. by apply (snd_inv_side kcp).
Qed.

Lemma input_cwnd_sides una kcp kcp' :
  input_cwnd una kcp = Ok kcp' -> snd_side kcp' = snd_side kcp /\ rcv_side kcp' = rcv_side kcp.
Proof.
  unfold input_cwnd. destruct (_ && _); [|by intros [= <-]].
  destruct (_ <? ssthresh kcp); cbn [mbind res_bind]; cbv zeta.
  - destruct (_ >? _); by intros [= <-].
  - destruct (_ <? u32 (mss kcp)); destruct (negb _); cbn [mbind res_bind go_check]; try done;
      destruct (_ <=? _); cbn [mbind res_bind]; destruct (_ >? _); by intros [= <-].
Qed.

(** Whatever arrives, the send side stays in order. *)
Lemma input_segment_snd_inv kcp a h data kcp' r :
  snd_inv kcp -> len data = h_len h -> len data <= 2048 ->
  input_segment kcp a h data = Ok (kcp', r) -> snd_inv kcp'.
Proof.
  intros Hs Hl Hle. rewrite input_segment_eq by done. cbv zeta.
  assert (snd_inv (input_ack_part kcp h)) as Hs1 by by apply input_ack_part_inv.
  set (k := input_ack_part kcp h) in *. clearbody k.
  destruct (h_cmd h =? IKCP_CMD_CONNECT).
  { destruct (rcv_nxt k =? 0); intros [= <- _]; [by apply (snd_inv_side k)|done]. }
  destruct (h_cmd h =? IKCP_CMD_ACK).
  { intros [= <- _]. by apply shrink_buf_inv, parse_ack_inv. }
  destruct (h_cmd h =? IKCP_CMD_PUSH).
  { destruct (_ <? 0); intros Heq; res_inv; subst.
    - destruct (_ >=? 0).
      + apply parse_data_frame in E as (_ & E & _). by apply (snd_inv_side k).
      + apply seg_repeat_frame in E as (_ & E & _). by apply (snd_inv_side k).
    - apply seg_repeat_frame in E as (_ & E & _). by apply (snd_inv_side k). }
  destruct (h_cmd h =? IKCP_CMD_WASK); [intros [= <- _]; by apply (snd_inv_side k)|].
  destruct (h_cmd h =? IKCP_CMD_WINS); by intros [= <- _].
Qed.

Lemma input_snd_inv_gen kcp current data upd kcp' code :
  snd_inv kcp -> len data <= 2048 ->
  input kcp current data upd = Ok (kcp', code) -> snd_inv kcp'.
Proof.
  apply input_ind.
  - intros. by eapply input_segment_snd_inv.
  - intros. by apply parse_fastack_inv.
  - intros k rtt Hk. apply (snd_inv_side k); [exact (proj1 (proj2 (proj2 (update_ack_frame rtt k))))|done].
  - intros k una k' Hk E. apply input_cwnd_sides in E as [E _]. by apply (snd_inv_side k).
Qed.
(** ** Datagrams of whole segments *)

(** A segment that the other end of conversation [c] may have encoded. *)
Definition wire_ok (c : Z) (s : segment) : Prop :=
  u32 (seg_conv s) = c /\ known_cmd (u8 (seg_cmd s)) = true.

(** The segments one after the other, without the wire format. *)
Fixpoint input_segments (kcp : KCP) (a : acksum) (ss : list segment)
    : res (KCP * (acksum + Z)) :=
  match ss with
  | [] => Ok (kcp, inl a)
  | s :: ss =>
    '(kcp, r) ← input_segment kcp a (header_of s) (seg_data s);
    match r with
    | inr code => Ok (kcp, inr code)
    | inl a => input_segments kcp a ss
    end
  end.

(** The segments of a datagram as [flush] writes them: the header by [encode], then the data. *)
Fixpoint write_segments (ss : list segment) (ptr : cursor) : res cursor :=
  match ss with
  | [] => Ok ptr
  | s :: ss => ptr ← segment_encode s ptr; ptr ← cursor_write PSlice ptr (seg_data s); write_segments ss ptr
  end.

(** A segment of conversation [c] whose fields have the widths of the format. *)
Definition fits_wire (c : Z) (s : segment) : Prop :=
  seg_conv s = c /\ is_u32 c /\ known_cmd (seg_cmd s) = true /\ 0 <= seg_frg s < 256 /\
  0 <= seg_wnd s < 65536 /\ is_u32 (seg_ts s) /\ is_u32 (seg_sn s) /\ is_u32 (seg_una s).

Definition wire_size (ss : list segment) : Z := foldr (fun s n => 24 + len (seg_data s) + n) 0 ss.

(** What the segments themselves ask for, one after the other. *)
Fixpoint receive_segments (kcp : KCP) (a : acksum) (ss : list segment) : res (KCP * (acksum + Z)) :=
  match ss with
  | [] => Ok (kcp, inl a)
  | s :: ss =>
    '(kcp, r) ← input_segment kcp a
      (mkHeader (seg_conv s) (seg_cmd s) (seg_frg s) (seg_wnd s) (seg_ts s) (seg_sn s) (seg_una s)
        (len (seg_data s))) (seg_data s);
    match r with
    | inr code => Ok (kcp, inr code)
    | inl a => receive_segments kcp a ss
    end
  end.

Lemma wire_size_stream ss : len (seg_stream ss) = wire_size ss.
Proof.
  induction ss as [|s ss IH]; [done|]. rewrite seg_stream_cons, length_app, wire_length. simpl. lia.
Qed.

Lemma write_segments_ok ss : forall ptr,
  wire_size ss <= len (crest ptr) ->
  exists ptr', write_segments ss ptr = Ok ptr' /\ cdone ptr' = cdone ptr ++ seg_stream ss.
Proof.
  induction ss as [|s ss IH]; intros ptr Hl; [exists ptr; by rewrite app_nil_r|].
  pose proof (wire_size_stream ss) as Hs. simpl in Hl. cbn [write_segments].
  rewrite segment_encode_ok by lia. cbn [mbind res_bind].
  rewrite cursor_write_ok by (simpl; rewrite length_drop; lia). cbn [mbind res_bind].
  set (c := mkCursor _ _). destruct (IH c) as (ptr' & E & Ec); [simpl; rewrite !length_drop; lia|].
  exists ptr'. split; [exact E|]. rewrite Ec, seg_stream_cons. simpl. unfold wire. by rewrite <- !app_assoc.
Qed.

Lemma fits_wire_header c s :
  fits_wire c s -> len (seg_data s) < 4294967296 -> wire_ok c s /\
  header_of s = mkHeader (seg_conv s) (seg_cmd s) (seg_frg s) (seg_wnd s) (seg_ts s) (seg_sn s)
    (seg_una s) (len (seg_data s)).
Proof.
  intros (<- & Hc & Hk & Hf & Hw & Ht & Hsn & Hu) Hl.
  assert (0 <= seg_cmd s < 256) as Hcmd.
  { apply known_cmd_spec in Hk. unfold IKCP_CMD_PUSH, IKCP_CMD_ACK, IKCP_CMD_WASK, IKCP_CMD_WINS,
      IKCP_CMD_CONNECT in Hk. lia. }
  assert (u8 (seg_cmd s) = seg_cmd s) as Eu by (unfold u8; by rewrite Z.mod_small).
  split; [split; [by apply u32_id|by rewrite Eu]|].
  unfold header_of. rewrite Eu. unfold is_u32, u8, u16, u32 in *. by rewrite !Z.mod_small by lia.
Qed.

Lemma receive_segments_wire ss : forall kcp a c,
  Forall (fits_wire c) ss -> wire_size ss < 4294967296 ->
  receive_segments kcp a ss = input_segments kcp a ss /\ Forall (wire_ok c) ss.
Proof.
  induction ss as [|s ss IH]; intros kcp a c Hf Hl; [by split|].
  apply Forall_cons in Hf as [Hs Hf]. simpl in Hl.
  pose proof (wire_size_stream ss) as Hss.
  destruct (fits_wire_header c s Hs) as [Hok Eh]; [lia|].
  split; [|constructor; [done|apply (IH kcp a); [done|lia]]].
  cbn [receive_segments input_segments]. rewrite Eh.
  destruct (input_segment _ _ _ _) as [[k [a'|code]]| |]; [|done..].
  cbn [mbind res_bind]. apply (IH k a' c Hf). lia.
Qed.

(** One round on an encoded segment, whatever follows it. *)
Lemma input_round_wire kcp a s rest :
  wire_ok (conv kcp) s -> len (seg_data s) < 4294967296 ->
  input_round kcp a (wire s ++ rest) =
    '(kcp, r) ← input_segment kcp a (header_of s) (seg_data s);
    match r with
    | inr code => Ok (kcp, inr code)
    | inl a => Ok (kcp, inl (a, rest))
    end.
Proof.
  intros [Hc Hk] Hl. unfold input_round, wire. rewrite <- app_assoc, decode_conv_wire.
  cbn [mbind res_bind]. rewrite Hc, Z.eqb_refl. cbn [negb].
  rewrite decode_rest_wire. cbn [mbind res_bind].
  fold (header_of s). rewrite <- Hc. fold (header_of s).
  change (h_len (header_of s)) with (u32 (len (seg_data s))).
  rewrite (u32_id (len (seg_data s))) by (unfold is_u32; lia).
  rewrite length_app, Nat2Z.inj_add, (proj2 (Z.ltb_ge _ _)) by lia.
  change (h_cmd (header_of s)) with (u8 (seg_cmd s)). rewrite Hk. cbn [negb].
  rewrite Nat2Z.id, take_app_length.
  destruct (input_segment _ _ _ _) as [[k [a'|code]]| |]; [|done..].
  cbn [mbind res_bind].
  rewrite slice_from_ok by (rewrite length_app; lia). by rewrite Nat2Z.id, drop_app_length.
Qed.

Lemma input_loop_stream ss : forall fuel kcp a,
  has_stats kcp -> Forall (wire_ok (conv kcp)) ss -> (length (seg_stream ss) <= fuel)%nat ->
  len (seg_stream ss) <= 2048 ->
  input_loop fuel kcp a (seg_stream ss) = input_segments kcp a ss.
Proof.
  induction ss as [|s ss IH]; intros fuel kcp a Hst Hok Hf Hl; [by destruct fuel|].
  apply Forall_cons in Hok as [Hs Hok].
  rewrite seg_stream_cons, length_app, wire_length in Hf, Hl.
  destruct fuel as [|fuel]; [lia|]. cbn [input_loop input_segments].
  rewrite (proj2 (Z.ltb_ge _ _)), seg_stream_cons
    by (rewrite seg_stream_cons, length_app, wire_length; unfold IKCP_OVERHEAD; lia).
  rewrite input_round_wire by (done || lia).
  destruct (input_segment_ok kcp a (header_of s) (seg_data s)) as (k & a' & -> & Hset & Hst');
    [done| |lia|apply Hs|].
  { simpl. rewrite u32_id; [done|unfold is_u32; lia]. }
  cbn [mbind res_bind]. apply settings_eq in Hset as (Ec & _). apply IH; [done| |lia|lia].
  by rewrite Ec.
Qed.
End InputLemmas.

(** ** Properties *)

Section InputProperties.
Context `{BufPool}.

(** C12. No datagram can break a connection: whatever bytes arrive, up to the size of a
    packet buffer, [input] returns (no panic, and its loop ends), its code is one of 0, -1,
    -2, -3, the settings are untouched, and the send buffer stays in serial order with less
    than half the circle in flight. *)
Theorem input_total kcp current data upd :
  has_stats kcp -> u32 (mss kcp) <> 0 -> snd_inv kcp -> len data <= 2048 ->
  exists kcp' code, input kcp current data upd = Ok (kcp', code) /\ -3 <= code <= 0 /\
    settings kcp' = settings kcp /\ has_stats kcp' /\ snd_inv kcp'.
Proof.
  intros Hst Hm Hi Hl. destruct (input_ok kcp current data upd Hst Hm Hl) as (k & c & E & H1 & H2 & H3).
  exists k, c. split_and!; [done|lia|lia|done|done|]. by eapply input_snd_inv_gen.
Qed.

(** C17. The loop of [input] inverts [encode]: when the segments of a datagram, of this
    conversation and with fields of the widths of the format, are written the way [flush] writes
    them, with [encode] and a copy of the data, into a buffer with room for them, then no write
    fails, 24 bytes and the data of each are written, and the loop on what was written does,
    segment by segment and in order, what the segments ask for: every field, and the data byte
    for byte, is what it was, and nothing is left over. *)
Theorem input_decodes kcp a ss buf :
  has_stats kcp -> Forall (fits_wire (conv kcp)) ss -> wire_size ss <= 2048 -> wire_size ss <= len buf ->
  exists ptr, write_segments ss (cursor_of buf) = Ok ptr /\ len (cdone ptr) = wire_size ss /\
    input_loop (length (cdone ptr)) kcp a (cdone ptr) = receive_segments kcp a ss.
Proof.
  intros Hst Hf Hl Hb. destruct (write_segments_ok ss (cursor_of buf) Hb) as (ptr & E & Ec).
  simpl in Ec. exists ptr. rewrite Ec, wire_size_stream. split; [done|]. split; [done|].
  destruct (receive_segments_wire ss kcp a (conv kcp) Hf) as [-> Hok]; [lia|].
  apply input_loop_stream; [done|done|done|]. by rewrite wire_size_stream.
Qed.

(** Segments of another conversation are refused before they change anything: a
    datagram that is too short or starts with another conversation number gives -1 and
    leaves the control block as it was. *)
Theorem input_foreign kcp current data upd :
  len data < IKCP_OVERHEAD \/ le_combine (take 4 data) <> conv kcp ->
  input kcp current data upd = Ok (kcp, -1).
Proof.
  intros Hd. unfold input. destruct (Z.ltb_spec (len data) IKCP_OVERHEAD) as [|Hge]; [done|].
  destruct Hd as [Hd|Hd]; [lia|]. unfold IKCP_OVERHEAD in Hge.
  destruct (length data) as [|n] eqn:Hn; [lia|]. cbn [input_loop].
  unfold IKCP_OVERHEAD. rewrite Hn, (proj2 (Z.ltb_ge _ _)) by lia.
  unfold input_round, ikcp_decode32u, decode_le.
  rewrite (proj2 (Nat.leb_le 4 (length data))) by lia. cbn [mbind res_bind].
  by rewrite (proj2 (Z.eqb_neq _ _) Hd).
Qed.

(** A repeated CONNECT is not acknowledged again: once [rcv_nxt] has left 0, a CONNECT
    (whose first acknowledgement may have been lost) leaves the acknowledgement list, the
    state flags and the receive side as they are, while a repeated PUSH below [rcv_nxt] does
    get a new acknowledgement; only a later cumulative [una] can retire the CONNECT. *)
Theorem connect_not_reacked kcp a h data kcp' r :
  len data = h_len h -> len data <= 2048 -> rcv_nxt kcp <> 0 ->
  input_segment kcp a h data = Ok (kcp', r) ->
  (h_cmd h = IKCP_CMD_CONNECT ->
   acklist kcp' = acklist kcp /\ state kcp' = state kcp /\ rcv_side kcp' = rcv_side kcp) /\
  (h_cmd h = IKCP_CMD_PUSH -> itimediff (h_sn h) (rcv_nxt kcp) < 0 ->
   itimediff (h_sn h) (u32 (rcv_nxt kcp + rcv_wnd kcp)) < 0 ->
   acklist kcp' = acklist kcp ++ [mkAckItem (h_sn h) (h_ts h)] /\
   state kcp' = state kcp /\ rcv_side kcp' = rcv_side kcp).
Proof.
  intros Hl Hle Hn. rewrite input_segment_eq by done. cbv zeta.
  destruct (input_ack_part_frame kcp h) as (Hset & Hr & _).
  destruct (input_ack_part_control kcp h) as (Ha & Hs).
  set (k := input_ack_part kcp h) in *. clearbody k.
  pose proof (rcv_side_eq _ _ Hr) as (Hnx & _).
  apply settings_eq in Hset as (_ & _ & _ & _ & Hw & _).
  intros E. split; intros Hc; rewrite Hc in E; cbn -[input_segment] in E.
  - rewrite Hnx, (proj2 (Z.eqb_neq _ _) Hn) in E. by injection E as <- _.
  - intros H1 H2. rewrite Hnx, Hw, (proj2 (Z.ltb_lt _ _) H2) in E.
    destruct (Z.geb_spec (itimediff (h_sn h) (rcv_nxt kcp)) 0); [lia|].
    apply bind_Ok_inv in E as (k2 & E2 & E). injection E as <- _.
    unfold seg_repeat in E2. apply with_stats_Ok_inv in E2 as [st ->].
    cbn. by rewrite Ha, Hs.
Qed.
End InputProperties.

Definition segments_example : list segment := [segment0<|seg_cmd := IKCP_CMD_CONNECT|>;
  segment0<|seg_cmd := IKCP_CMD_PUSH|><|seg_sn := 1|><|seg_data := [Byte.x41]|>;
  segment0<|seg_cmd := IKCP_CMD_ACK|><|seg_sn := 0|>].
Definition input_example : list byte := seg_stream segments_example.

Lemma input_total_witness :
  snd_inv snd_example /\
  exists k code, @input zero_pool snd_example 5 input_example true = Ok (k, code) /\ snd_inv k.
Proof.
  split; [exact snd_example_inv|].
  destruct (@input_total zero_pool snd_example 5 input_example true)
    as (k & c & E & _ & _ & _ & Hi);
    [by eexists|vm_compute; discriminate|exact snd_example_inv|vm_compute; discriminate|].
  exists k, c. split; [exact E|exact Hi].
Defined.

Lemma input_decodes_witness :
  exists ptr k r, write_segments segments_example (cursor_of (replicate 80 Byte.x00)) = Ok ptr /\
    len (cdone ptr) = 73 /\
    @input_loop zero_pool (length (cdone ptr)) snd_example (mkAcksum 0 0 0) (cdone ptr) = Ok (k, r) /\
    map seg_data (rcv_queue k) = [[Byte.x41]].
Proof.
  destruct (@input_decodes zero_pool snd_example (mkAcksum 0 0 0) segments_example (replicate 80 Byte.x00))
    as (ptr & E1 & E2 & E3); [by eexists| |vm_compute; discriminate|vm_compute; discriminate|].
  - repeat constructor; vm_compute; discriminate.
  - exists ptr. eexists _, _. split; [exact E1|]. split; [exact E2|]. split; [rewrite E3|]; vm_compute; reflexivity.
Defined.

Lemma input_foreign_witness :
  @input zero_pool (newKCP<|conv := 7|>) 5 input_example true = Ok (newKCP<|conv := 7|>, -1).
Proof. apply (@input_foreign zero_pool). right. vm_compute. discriminate. Defined.

Definition connected_example : KCP := newKCP<|stats := Some newKcpConnStats|><|rcv_nxt := 3|>.

Lemma connect_not_reacked_witness :
  exists kcp' r,
    @input_segment zero_pool connected_example (mkAcksum 0 0 0)
      (mkHeader 0 IKCP_CMD_CONNECT 0 32 9 0 0 0) [] = Ok (kcp', r) /\ acklist kcp' = [].
Proof.
  eexists _, _. split; [reflexivity|].
  refine (proj1 (proj1 (@connect_not_reacked zero_pool connected_example (mkAcksum 0 0 0)
    (mkHeader 0 IKCP_CMD_CONNECT 0 32 9 0 0 0) [] _ (inl (mkAcksum 0 0 0)) _ _ _ _) _));
    reflexivity || (vm_compute; discriminate).
Defined.
