(* ===== verification/Flush.v ===== *)
(** * Sending ([kcp.go], [flush], lines 638 to 861, and the two [send...Flush])

    [flush] writes acknowledgements, window probes and due data segments into the
    packet buffer and hands the buffer to [output] whenever the next segment
    would not fit into the MTU. The phases of the Go function are one definition
    each, composed in [flush]. *)
From S2P Require Import Prelude GoInt Stats Wire Kcp Serial Send Ack.

(** ** Definitions *)

(** The state of a running [flush]: the control block, the write pointer into
    [kcp.buffer], and the events so far. *)
Record flushing := mkFlushing { fkcp : KCP; fptr : cursor; fevents : list event }.
#[export] Instance eta_flushing : Eta flushing :=
  fun f => mkFlushing (fkcp f) (fptr f) (fevents f).

(** [kcp.output(buffer, size); ptr = buffer] with [size = len(buffer) - len(ptr)]. *)
Definition flush_output (f : flushing) : res flushing :=
  _ ← go_check (output (fkcp f)) PNil;
  Ok (f<|fevents := fevents f ++ [EOutput (cdone (fptr f))]|>
       <|fptr := cursor_of (cursor_buf (fptr f))|>).

(** Output first when [need] more bytes would exceed the MTU. *)
Definition make_room (need : Z) (f : flushing) : res flushing :=
  if len (cdone (fptr f)) + need >? mtu (fkcp f) then flush_output f else Ok f.

Definition flush_encode (seg : segment) (f : flushing) : res flushing :=
  ptr ← segment_encode seg (fptr f);
  Ok (f<|fptr := ptr|>).

(** Flush acknowledges: [i] and [n] are the index and the length of [acklist];
    [seg] is the header that the loop fills in and that the probes reuse. *)
Fixpoint flush_acks (acks : list ackItem) (i n : Z) (seg : segment) (f : flushing)
    : res (segment * flushing) :=
  match acks with
  | [] => Ok (seg, f)
  | ack :: acks =>
    f ← make_room IKCP_OVERHEAD f;
    if (ack_sn ack >=? rcv_nxt (fkcp f)) || (n - 1 =? i) then
      let seg := seg<|seg_sn := ack_sn ack|><|seg_ts := ack_ts ack|> in
      f ← flush_encode seg f;
      flush_acks acks (i + 1) n seg f
    else flush_acks acks (i + 1) n seg f
  end.

(** Probe window size (if remote window size equals zero). *)
Definition flush_probe (current : Z) (kcp : KCP) : KCP :=
  if rmt_wnd kcp =? 0 then
    if probe_wait kcp =? 0 then
      let kcp := kcp<|probe_wait := IKCP_PROBE_INIT|> in
      kcp<|ts_probe := u32 (current + probe_wait kcp)|>
    else if itimediff current (ts_probe kcp) >=? 0 then
      let kcp := if probe_wait kcp <? IKCP_PROBE_INIT
                 then kcp<|probe_wait := IKCP_PROBE_INIT|> else kcp in
      let kcp := kcp<|probe_wait := u32 (probe_wait kcp + probe_wait kcp / 2)|> in
      let kcp := if probe_wait kcp >? IKCP_PROBE_LIMIT
                 then kcp<|probe_wait := IKCP_PROBE_LIMIT|> else kcp in
      let kcp := kcp<|ts_probe := u32 (current + probe_wait kcp)|> in
      kcp<|probe := Z.lor (probe kcp) IKCP_ASK_SEND|>
    else kcp
  else
    let kcp := kcp<|ts_probe := 0|> in
    kcp<|probe_wait := 0|>.

(** Flush a window probing command when its bit is set. *)
Definition flush_command (bit cmd : Z) (seg : segment) (f : flushing)
    : res (segment * flushing) :=
  if negb (Z.land (probe (fkcp f)) bit =? 0) then
    let seg := seg<|seg_cmd := cmd|> in
    f ← make_room IKCP_OVERHEAD f;
    f ← flush_encode seg f;
    Ok (seg, f)
  else Ok (seg, f).

(** Sliding window: move segments from the queue [q] to [snd_buf] while the window
    has room; the number moved. *)
Fixpoint flush_move (q : list segment) (cw wnd current : Z) (kcp : KCP) (count : nat)
    : KCP * nat :=
  match q with
  | [] => (kcp, count)
  | newseg :: q =>
    if itimediff (snd_nxt kcp) (u32 (snd_una kcp + cw)) >=? 0 then (kcp, count)
    else
      let newseg := newseg<|seg_conv := conv kcp|><|seg_wnd := wnd|><|seg_ts := current|>
                          <|seg_sn := snd_nxt kcp|><|seg_una := rcv_nxt kcp|> in
      let newseg := newseg<|seg_resendts := seg_ts newseg|><|seg_rto := rx_rto kcp|> in
      let kcp := kcp<|snd_buf := snd_buf kcp ++ [newseg]|> in
      let kcp := kcp<|snd_nxt := u32 (snd_nxt kcp + 1)|> in
      flush_move q cw wnd current kcp (S count)
  end.

(** Why a segment of [snd_buf] is sent in this flush, if it is. *)
Inductive sending := SNone | SFirst | SLost | SFast | SEarly.
#[export] Instance sending_eq_dec : EqDecision sending.
Proof. solve_decision. Defined.

(** The retransmission both fast and early retransmit do, unless the segment was
    sent less than a quarter of the timeout ago. *)
Definition retransmit (kcp : KCP) (current : Z) (kind : sending) (s : segment)
    : segment * sending :=
  let lastsend := u32 (seg_resendts s - seg_rto s) in
  if itimediff current lastsend >=? i32 (rx_rto kcp / 4) then
    let s := s<|seg_xmit := u32 (seg_xmit s + 1)|> in
    let s := s<|seg_fastack := 0|> in
    (s<|seg_resendts := u32 (current + seg_rto s)|>, kind)
  else (s, SNone).

Definition flush_segment (kcp : KCP) (current resent : Z) (hasPending : bool) (s : segment)
    : segment * sending :=
  if seg_xmit s =? 0 then
    let s := s<|seg_xmit := u32 (seg_xmit s + 1)|> in
    let s := s<|seg_rto := rx_rto kcp|> in
    (s<|seg_resendts := u32 (current + seg_rto s)|>, SFirst)
  else if itimediff current (seg_resendts s) >=? 0 then
    let s := s<|seg_xmit := u32 (seg_xmit s + 1)|> in
    let s := if nodelay kcp =? 0 then s<|seg_rto := u32 (seg_rto s + rx_rto kcp)|>
             else s<|seg_rto := u32 (seg_rto s + rx_rto kcp / 2)|> in
    (s<|seg_resendts := u32 (current + seg_rto s)|>, SLost)
  else if seg_fastack s >=? resent then retransmit kcp current SFast s
  else if (seg_fastack s >? 0) && negb hasPending then retransmit kcp current SEarly s
  else (s, SNone).

(** The variables [change], [lost] and the counters of the data loop. *)
Record counts := mkCounts {
  change : Z; lost : bool; lostSegs : Z; fastRetransSegs : Z; earlyRetransSegs : Z;
}.
#[export] Instance eta_counts : Eta counts := fun c =>
  mkCounts (change c) (lost c) (lostSegs c) (fastRetransSegs c) (earlyRetransSegs c).

Definition count_sending (kind : sending) (c : counts) : counts :=
  match kind with
  | SLost => c<|lost := true|><|lostSegs := i64 (lostSegs c + 1)|>
  | SFast => c<|change := i64 (change c + 1)|>
              <|fastRetransSegs := i64 (fastRetransSegs c + 1)|>
  | SEarly => c<|change := i64 (change c + 1)|>
               <|earlyRetransSegs := i64 (earlyRetransSegs c + 1)|>
  | SNone | SFirst => c
  end.

(** Stamp a segment that is being sent and write it out. *)
Definition flush_write (s : segment) (f : flushing) : res flushing :=
  f ← make_room (IKCP_OVERHEAD + len (seg_data s)) f;
  let f :=
    match stats (fkcp f) with
    | Some st =>
      if seg_cmd s =? IKCP_CMD_PUSH
      then f<|fkcp := (fkcp f)<|stats := Some (st<|SegPush := i64 (SegPush st + 1)|>)|> |>
            <|fevents := fevents f ++ [EAdd CSegPush 1]|>
      else f
    | None => f
    end in
  f ← flush_encode s f;
  ptr ← cursor_write PSlice (fptr f) (seg_data s);
  Ok (f<|fptr := ptr|>).

(** The variable [needsend]. *)
Definition needsend (kind : sending) : bool :=
  match kind with SNone => false | _ => true end.

(** One round of the data loop. *)
Definition flush_one (current resent wnd : Z) (hasPending : bool) (s : segment)
    (c : counts) (f : flushing) : res (segment * counts * flushing) :=
  let '(s, kind) := flush_segment (fkcp f) current resent hasPending s in
  let f := match kind with
           | SLost => f<|fkcp := (fkcp f)<|xmit := u32 (xmit (fkcp f) + 1)|> |>
           | _ => f
           end in
  let c := count_sending kind c in
  if needsend kind then
    let s := s<|seg_ts := current|><|seg_wnd := wnd|><|seg_una := rcv_nxt (fkcp f)|> in
    f ← flush_write s f;
    Ok (s, c, f)
  else Ok (s, c, f).

(** Flush data segments: the loop over [snd_buf], with the updated segments. *)
Fixpoint flush_data (buf : list segment) (current resent wnd : Z) (hasPending : bool)
    (c : counts) (f : flushing) : res (list segment * counts * flushing) :=
  match buf with
  | [] => Ok ([], c, f)
  | s :: buf =>
    '(s, c, f) ← flush_one current resent wnd hasPending s c f;
    '(buf, c, f) ← flush_data buf current resent wnd hasPending c f;
    Ok (s :: buf, c, f)
  end.

(** Update ssthresh and the congestion window. *)
Definition flush_cwnd (cw resent : Z) (c : counts) (kcp : KCP) : KCP :=
  let kcp :=
    if negb (change c =? 0) then
      let inflight := u32 (snd_nxt kcp - snd_una kcp) in
      let kcp := kcp<|ssthresh := inflight / 2|> in
      let kcp := if ssthresh kcp <? IKCP_THRESH_MIN
                 then kcp<|ssthresh := IKCP_THRESH_MIN|> else kcp in
      let kcp := kcp<|cwnd := u32 (ssthresh kcp + resent)|> in
      kcp<|incr := u32 (cwnd kcp * u32 (mss kcp))|>
    else kcp in
  let kcp :=
    if lost c then
      let kcp := kcp<|ssthresh := cw / 2|> in
      let kcp := if ssthresh kcp <? IKCP_THRESH_MIN
                 then kcp<|ssthresh := IKCP_THRESH_MIN|> else kcp in
      let kcp := kcp<|cwnd := 1|> in
      kcp<|incr := u32 (mss kcp)|>
    else kcp in
  if cwnd kcp <? 1 then
    let kcp := kcp<|cwnd := 1|> in
    kcp<|incr := u32 (mss kcp)|>
  else kcp.

(** The threshold of duplicate acknowledgements. *)
Definition flush_resent (kcp : KCP) : Z :=
  if fastresend kcp <=? 0 then 4294967295 else u32 (fastresend kcp).

(** The header shared by acknowledgements and probes. *)
Definition flush_header (kcp : KCP) : segment :=
  segment0<|seg_conv := conv kcp|><|seg_cmd := IKCP_CMD_ACK|>
          <|seg_wnd := u32 (wnd_unused kcp)|><|seg_una := rcv_nxt kcp|>.

(** Add the retransmission counters of this flush to the connection's. *)
Definition flush_stats (c : counts) (s : KcpConnStats) : KcpConnStats :=
  let n := i64 (i64 (lostSegs c + fastRetransSegs c) + earlyRetransSegs c) in
  s<|SegPushResend := i64 (SegPushResend s + n)|>
   <|SegPushResendLost := i64 (SegPushResendLost s + lostSegs c)|>
   <|SegPushResendFast := i64 (SegPushResendFast s + fastRetransSegs c)|>
   <|SegPushResendEarly := i64 (SegPushResendEarly s + earlyRetransSegs c)|>.

(** Phase 1: acknowledgements and probes. *)
Definition flush_control (current : Z) (f : flushing) : res (segment * flushing) :=
  let kcp := fkcp f in
  '(seg, f) ← flush_acks (acklist kcp) 0 (len (acklist kcp)) (flush_header kcp) f;
  let f := f<|fkcp := flush_probe current ((fkcp f)<|acklist := []|>)|> in
  '(seg, f) ← flush_command IKCP_ASK_SEND IKCP_CMD_WASK seg f;
  '(seg, f) ← flush_command IKCP_ASK_TELL IKCP_CMD_WINS seg f;
  Ok (seg, f<|fkcp := (fkcp f)<|probe := 0|> |>).

(** Phase 2: the data segments; the events include the remaining buffer. *)
Definition flush_segments (current wnd resent : Z) (hasPending : bool) (f : flushing)
    : res (counts * flushing) :=
  '(buf, c, f) ← flush_data (snd_buf (fkcp f)) current resent wnd hasPending
                   (mkCounts 0 false 0 0 0) f;
  kcp ← with_stats (flush_stats c) ((fkcp f)<|snd_buf := buf|>);
  let n := i64 (i64 (lostSegs c + fastRetransSegs c) + earlyRetransSegs c) in
  let f := f<|fkcp := kcp|><|fevents := fevents f ++ [EAdd CSegPushResend n]|> in
  f ← (if len (cdone (fptr f)) >? 0 then flush_output f else Ok f);
  Ok (c, f<|fkcp := (fkcp f)<|buffer := cursor_buf (fptr f)|> |>).

Definition flush (kcp : KCP) (current : Z) : res (KCP * list event) :=
  let f := mkFlushing kcp (cursor_of (buffer kcp)) [] in
  '(seg, f) ← flush_control current f;
  let cw := calc_cwnd (fkcp f) in
  let '(kcp, count) := flush_move (snd_queue (fkcp f)) cw (seg_wnd seg) current (fkcp f) 0 in
  let kcp := kcp<|snd_queue := drop count (snd_queue kcp)|> in
  let hasPending := (0 <? count)%nat in
  let resent := flush_resent kcp in
  '(c, f) ← flush_segments current (seg_wnd seg) resent hasPending (f<|fkcp := kcp|>);
  Ok (flush_cwnd cw resent c (fkcp f), fevents f).

Section Commands.
Context `{BufPool}.

Definition sendConnectFlush (kcp : KCP) (current : Z) : res (KCP * list event) :=
  if (waitSnd kcp =? 0) && (snd_nxt kcp =? 0) then
    seg ← newSegment 0;
    let seg := seg<|seg_cmd := IKCP_CMD_CONNECT|> in
    flush (kcp<|snd_queue := snd_queue kcp ++ [seg]|>) current
  else Ok (kcp, []).

Definition sendCloseFlush (kcp : KCP) (current : Z) : res (KCP * list event) :=
  if isStateConnected kcp && negb (isStateLocalClosed kcp) then
    let kcp := kcp<|state := Z.lor (state kcp) IKCP_STATE_LOCAL_CLOSED|> in
    let kcp := kcp<|state := Z.land (state kcp) (u32 (Z.lnot IKCP_STATE_CONNECTED))|> in
    seg ← newSegment 0;
    let seg := seg<|seg_cmd := IKCP_CMD_PUSH|> in
    flush (kcp<|snd_queue := snd_queue kcp ++ [seg]|>) current
  else Ok (kcp, []).
End Commands.

(** ** Reference description: the segments that leave *)

(** The acknowledgements that are not filtered out, in the shared header. *)
Fixpoint ack_segments (nxt : Z) (acks : list ackItem) (seg : segment) : list segment :=
  match acks with
  | [] => []
  | ack :: acks =>
    let seg' := seg<|seg_sn := ack_sn ack|><|seg_ts := ack_ts ack|> in
    if (ack_sn ack >=? nxt) || bool_decide (acks = []) then seg' :: ack_segments nxt acks seg'
    else ack_segments nxt acks seg
  end.

(** The header as the acknowledgement loop leaves it. *)
Definition probe_header (kcp : KCP) : segment :=
  default (flush_header kcp) (last (ack_segments (rcv_nxt kcp) (acklist kcp) (flush_header kcp))).

Definition probe_segments (kcp : KCP) (pr : Z) : list segment :=
  (if negb (Z.land pr IKCP_ASK_SEND =? 0)
   then [(probe_header kcp)<|seg_cmd := IKCP_CMD_WASK|>] else []) ++
  (if negb (Z.land pr IKCP_ASK_TELL =? 0)
   then [(probe_header kcp)<|seg_cmd := IKCP_CMD_WINS|>] else []).

(** A segment of the send buffer after the flush, and why it was sent. *)
Definition flushed (kcp : KCP) (current resent wnd : Z) (hasPending : bool) (s : segment)
    : segment * sending :=
  let p := flush_segment kcp current resent hasPending s in
  (if needsend p.2
   then p.1<|seg_ts := current|><|seg_wnd := wnd|><|seg_una := rcv_nxt kcp|> else p.1, p.2).

(** The segments that are sent, in order. *)
Definition sent_segments (l : list (segment * sending)) : list segment :=
  omap (fun p => if needsend p.2 then Some p.1 else None) l.

(** ** The write buffer

    [writes f l]: the segments written so far are [l]; those that do not fit into
    one MTU are already in datagrams, each of whole segments and within the MTU;
    the rest is at the front of the buffer. *)
Record writes (f : flushing) (l : list segment) : Prop := {
  w_output : output (fkcp f) = true;
  w_room : mtu (fkcp f) <= len (cursor_buf (fptr f));
  w_fit : len (cdone (fptr f)) <= mtu (fkcp f);
  w_split : exists gs cur,
    packets_of (fevents f) = map seg_stream gs /\ cdone (fptr f) = seg_stream cur /\
    concat gs ++ cur = l /\
    Forall (fun g => g <> [] /\ len (seg_stream g) <= mtu (fkcp f)) gs;
}.

(** The writing functions leave the control block alone. *)
Lemma flush_output_kcp f f' : flush_output f = Ok f' -> fkcp f' = fkcp f.
Proof. unfold flush_output. intros E. apply bind_Ok_inv in E as (u & _ & E). by injection E as <-. Qed.
Lemma make_room_kcp n f f' : make_room n f = Ok f' -> fkcp f' = fkcp f.
Proof. unfold make_room. destruct (_ >? _); [apply flush_output_kcp|by intros [= <-]]. Qed.
Lemma flush_encode_kcp s f f' : flush_encode s f = Ok f' -> fkcp f' = fkcp f.
Proof. unfold flush_encode. intros E. apply bind_Ok_inv in E as (u & _ & E). by injection E as <-. Qed.

(** Changes of the control block that keep the MTU and the callback. *)
Lemma writes_kcp f l kcp :
  writes f l -> output kcp = output (fkcp f) -> mtu kcp = mtu (fkcp f) ->
  writes (f<|fkcp := kcp|>) l.
Proof. intros [H1 H2 H3 H4] Ho Hm. split; simpl; by rewrite ?Ho, ?Hm. Qed.

(** Other events do not matter. *)
Lemma writes_event f l c d :
  writes f l -> writes (f<|fevents := fevents f ++ [EAdd c d]|>) l.
Proof.
  intros [H1 H2 H3 (gs & cur & E1 & E2 & E3 & E4)]. split; simpl; try done.
  exists gs, cur. rewrite packets_of_app, E1. simpl. by rewrite app_nil_r.
Qed.

Lemma flush_output_ok f l :
  writes f l -> cdone (fptr f) <> [] ->
  exists f', flush_output f = Ok f' /\ fkcp f' = fkcp f /\ writes f' l /\
    cdone (fptr f') = [] /\ len (cursor_buf (fptr f')) = len (cursor_buf (fptr f)).
Proof.
  intros [H1 H2 H3 (gs & cur & E1 & E2 & E3 & E4)] Hne.
  unfold flush_output. rewrite H1. cbn [go_check mbind res_bind].
  eexists. split; [done|]. simpl. split_and!; [done| |done|done].
  split; simpl; [done|done|lia|].
  exists (gs ++ [cur]), []. split_and!; [|done| |].
  - rewrite packets_of_app, E1, map_app. simpl. by rewrite E2.
  - rewrite concat_app. simpl. by rewrite !app_nil_r.
  - apply Forall_app; split; [done|]. constructor; [|constructor].
    split; [intros ->; by rewrite E2 in Hne|by rewrite <- E2].
Qed.

Lemma make_room_ok need f l :
  writes f l -> need <= mtu (fkcp f) ->
  exists f', make_room need f = Ok f' /\ fkcp f' = fkcp f /\ writes f' l /\
    len (cdone (fptr f')) + need <= mtu (fkcp f) /\
    len (cursor_buf (fptr f')) = len (cursor_buf (fptr f)).
Proof.
  intros Hw Hn. unfold make_room.
  destruct (Z.gtb_spec (len (cdone (fptr f)) + need) (mtu (fkcp f))) as [Hgt|Hle].
  - destruct (flush_output_ok f l Hw) as (f' & -> & Hk & Hw' & Hd & Hl).
    { intros E. rewrite E in Hgt. simpl in Hgt. lia. }
    exists f'. rewrite Hd. split_and!; [done|done|done|simpl; lia|done].
  - exists f. by split_and!.
Qed.

(** Writing a header and then data, when there is room. *)
Lemma write_ok f l s (p : panic) :
  writes f l -> len (cdone (fptr f)) + 24 + len (seg_data s) <= mtu (fkcp f) ->
  exists c, segment_encode s (fptr f) = Ok c /\
    exists c', cursor_write p c (seg_data s) = Ok c' /\
      writes (f<|fptr := c'|>) (l ++ [s]) /\
      len (cursor_buf c') = len (cursor_buf (fptr f)) /\ (seg_data s = [] -> c' = c).
Proof.
  intros [H1 H2 H3 (gs & cur & E1 & E2 & E3 & E4)] Hl.
  unfold cursor_buf in H2. rewrite length_app in H2.
  rewrite segment_encode_ok by lia. eexists; split; [done|].
  rewrite cursor_write_ok by (simpl; rewrite length_drop; lia). simpl.
  eexists; split; [done|].
  assert (length ((cdone (fptr f) ++ header_bytes s) ++ seg_data s)
          = (length (cdone (fptr f)) + 24 + length (seg_data s))%nat) as Hlen
    by (rewrite !length_app, header_bytes_length; lia).
  split_and!.
  - split; simpl; [done| | |].
    + unfold cursor_buf. simpl. rewrite length_app, Hlen, !length_drop. lia.
    + rewrite Hlen. lia.
    + exists gs, (cur ++ [s]). split_and!; [done| | |done].
      * rewrite seg_stream_app, seg_stream_cons, E2. unfold wire. simpl.
        by rewrite app_nil_r, <- app_assoc.
      * by rewrite app_assoc, E3.
  - unfold cursor_buf. simpl. rewrite !length_app, header_bytes_length, !length_drop. lia.
  - intros ->. simpl. by rewrite app_nil_r.
Qed.

(** ** Acknowledgements and probes *)

Lemma make_room_header_ok f l :
  writes f l -> 50 <= mtu (fkcp f) ->
  exists f', make_room IKCP_OVERHEAD f = Ok f' /\ fkcp f' = fkcp f /\ writes f' l /\
    forall s, seg_data s = [] ->
    exists f'', flush_encode s f' = Ok f'' /\ fkcp f'' = fkcp f /\ writes f'' (l ++ [s]).
Proof.
  intros Hw Hm.
  destruct (make_room_ok IKCP_OVERHEAD f l Hw) as (f' & -> & Hk & Hw' & Hl & _);
    [unfold IKCP_OVERHEAD; lia|]. unfold IKCP_OVERHEAD in Hl.
  exists f'. split_and!; [done|done|done|]. intros s Hs.
  destruct (write_ok f' l s PSlice Hw') as (c & E & c' & _ & Hw'' & _ & Hc);
    [rewrite Hs, Hk; simpl; lia|].
  unfold flush_encode. rewrite E. cbn [mbind res_bind].
  rewrite (Hc Hs) in Hw''. eexists. by split_and!.
Qed.

Lemma flush_acks_ok acks : forall i n seg f l,
  writes f l -> 50 <= mtu (fkcp f) -> seg_data seg = [] -> i + len acks = n ->
  exists f', flush_acks acks i n seg f =
      Ok (default seg (last (ack_segments (rcv_nxt (fkcp f)) acks seg)), f') /\
    fkcp f' = fkcp f /\ writes f' (l ++ ack_segments (rcv_nxt (fkcp f)) acks seg).
Proof.
  induction acks as [|ack acks IH]; intros i n seg f l Hw Hm Hs Hn.
  - exists f. simpl. by rewrite app_nil_r.
  - cbn [flush_acks ack_segments].
    destruct (make_room_header_ok f l Hw Hm) as (f1 & -> & Hk1 & Hw1 & Henc).
    cbn [mbind res_bind]. rewrite Hk1.
    assert ((n - 1 =? i) = bool_decide (acks = [])) as ->.
    { destruct acks; simpl in *; [apply Z.eqb_eq; lia|apply Z.eqb_neq; lia]. }
    set (seg' := seg<|seg_sn := ack_sn ack|><|seg_ts := ack_ts ack|>).
    destruct (_ || _).
    + destruct (Henc seg' Hs) as (f2 & -> & Hk2 & Hw2). cbn [mbind res_bind].
      destruct (IH (i + 1) n seg' f2 (l ++ [seg'])) as (f3 & E & Hk3 & Hw3);
        [done|by rewrite Hk2|done|simpl in Hn; lia|].
      rewrite Hk2 in E, Hw3, Hk3. exists f3. split_and!; [|done|by rewrite <- app_assoc in Hw3].
      rewrite E. by rewrite last_cons; destruct (last _).
    + destruct (IH (i + 1) n seg f1 l) as (f3 & E & Hk3 & Hw3);
        [done|by rewrite Hk1|done|simpl in Hn; lia|].
      rewrite Hk1 in E, Hw3, Hk3. exists f3. split_and!; [done|done|done].
Qed.

Lemma ack_segments_header nxt acks : forall seg,
  Forall (fun s => seg_wnd s = seg_wnd seg /\ seg_data s = seg_data seg /\
                   seg_conv s = seg_conv seg /\ seg_una s = seg_una seg /\
                   seg_cmd s = seg_cmd seg)
    (ack_segments nxt acks seg).
Proof.
  induction acks as [|ack acks IH]; intros seg; cbn [ack_segments]; [constructor|].
  set (seg' := seg<|seg_sn := ack_sn ack|><|seg_ts := ack_ts ack|>).
  destruct (_ || _); [|done]. constructor; [done|]. exact (IH seg').
Qed.

Lemma ack_segments_frg nxt acks : forall seg,
  Forall (fun s => seg_frg s = seg_frg seg) (ack_segments nxt acks seg).
Proof.
  induction acks as [|ack acks IH]; intros seg; cbn [ack_segments]; [constructor|].
  set (seg' := seg<|seg_sn := ack_sn ack|><|seg_ts := ack_ts ack|>).
  destruct (_ || _); [|done]. constructor; [done|]. exact (IH seg').
Qed.

Lemma probe_header_frg kcp : seg_frg (probe_header kcp) = 0.
Proof.
  unfold probe_header. destruct (last _) as [s|] eqn:Hl; [|done]. simpl.
  pose proof (ack_segments_frg (rcv_nxt kcp) (acklist kcp) (flush_header kcp)) as Hf.
  apply last_Some_elem_of in Hl. rewrite Forall_forall in Hf. by apply Hf.
Qed.

Lemma probe_header_fields kcp :
  seg_wnd (probe_header kcp) = u32 (wnd_unused kcp) /\ seg_data (probe_header kcp) = [] /\
  seg_una (probe_header kcp) = rcv_nxt kcp /\ seg_conv (probe_header kcp) = conv kcp.
Proof.
  unfold probe_header. destruct (last _) as [s|] eqn:Hl; [|done]. simpl.
  pose proof (ack_segments_header (rcv_nxt kcp) (acklist kcp) (flush_header kcp)) as Hf.
  apply last_Some_elem_of in Hl. rewrite Forall_forall in Hf.
  destruct (Hf s Hl) as (-> & -> & -> & -> & _). done.
Qed.

Lemma flush_command_ok bit cmd seg f l :
  writes f l -> 50 <= mtu (fkcp f) -> seg_data seg = [] ->
  exists f', flush_command bit cmd seg f =
      Ok (if negb (Z.land (probe (fkcp f)) bit =? 0) then seg<|seg_cmd := cmd|> else seg, f') /\
    fkcp f' = fkcp f /\
    writes f' (l ++ if negb (Z.land (probe (fkcp f)) bit =? 0)
                    then [seg<|seg_cmd := cmd|>] else []).
Proof.
  intros Hw Hm Hs. unfold flush_command. destruct (negb _).
  - destruct (make_room_header_ok f l Hw Hm) as (f1 & -> & Hk1 & Hw1 & Henc).
    cbn [mbind res_bind].
    destruct (Henc (seg<|seg_cmd := cmd|>)) as (f2 & -> & Hk2 & Hw2); [exact Hs|].
    cbn [mbind res_bind].
    by exists f2.
  - exists f. by rewrite app_nil_r.
Qed.

Lemma flush_probe_frame current kcp :
  settings (flush_probe current kcp) = settings kcp /\
  snd_side (flush_probe current kcp) = snd_side kcp /\
  rcv_side (flush_probe current kcp) = rcv_side kcp /\
  stats (flush_probe current kcp) = stats kcp /\
  buffer (flush_probe current kcp) = buffer kcp.
Proof.
  unfold flush_probe. destruct (rmt_wnd kcp =? 0); [|done].
  destruct (probe_wait kcp =? 0); [done|]. destruct (_ >=? 0); [|done].
  destruct (_ <? IKCP_PROBE_INIT); destruct (_ >? IKCP_PROBE_LIMIT); done.
Qed.

(** The control block after phase 1. *)
Definition controlled (current : Z) (kcp : KCP) : KCP :=
  (flush_probe current (kcp<|acklist := []|>))<|probe := 0|>.

(** The segments of phase 1. *)
Definition control_segments (current : Z) (kcp : KCP) : list segment :=
  ack_segments (rcv_nxt kcp) (acklist kcp) (flush_header kcp) ++
  probe_segments kcp (probe (flush_probe current (kcp<|acklist := []|>))).

Lemma flush_control_ok current f l :
  writes f l -> 50 <= mtu (fkcp f) ->
  exists seg f', flush_control current f = Ok (seg, f') /\
    fkcp f' = controlled current (fkcp f) /\
    writes f' (l ++ control_segments current (fkcp f)) /\
    seg_wnd seg = u32 (wnd_unused (fkcp f)).
Proof.
  intros Hw Hm. unfold flush_control. set (kcp := fkcp f) in *.
  destruct (flush_acks_ok (acklist kcp) 0 (len (acklist kcp)) (flush_header kcp) f l)
    as (f1 & -> & Hk1 & Hw1); [done..|].
  cbn [mbind res_bind]. fold kcp in Hw1, Hk1 |- *. fold (probe_header kcp).
  destruct (probe_header_fields kcp) as (Hwnd & Hdata & _).
  set (k2 := flush_probe current ((fkcp f1)<|acklist := []|>)).
  assert (k2 = flush_probe current (kcp<|acklist := []|>)) as Hk2
    by (subst k2; by rewrite Hk1).
  destruct (flush_probe_frame current (kcp<|acklist := []|>)) as (Hset & _).
  assert (output k2 = output (fkcp f1) /\ mtu k2 = mtu (fkcp f1)) as [Ho2 Hm2].
  { rewrite Hk2, Hk1. injection Hset. intros. split; congruence. }
  apply (writes_kcp _ _ k2) in Hw1; [|done..].
  set (f2 := f1<|fkcp := k2|>) in *.
  destruct (flush_command_ok IKCP_ASK_SEND IKCP_CMD_WASK (probe_header kcp) f2 _ Hw1)
    as (f3 & -> & Hk3 & Hw3); [change (50 <= mtu k2); rewrite Hm2, Hk1; done|done|].
  cbn [mbind res_bind]. change (fkcp f2) with k2 in *.
  set (seg3 := if negb (Z.land (probe k2) IKCP_ASK_SEND =? 0) then _ else _).
  destruct (flush_command_ok IKCP_ASK_TELL IKCP_CMD_WINS seg3 f3 _ Hw3)
    as (f4 & E4 & Hk4 & Hw4).
  { rewrite Hk3, Hm2, Hk1. done. }
  { subst seg3. by destruct (negb _). }
  simpl (probe _). rewrite E4. cbn [mbind res_bind].
  do 2 eexists. split; [done|]. split_and!.
  - simpl. rewrite Hk4, Hk3, Hk2. done.
  - unfold control_segments, probe_segments. rewrite <- Hk2.
    rewrite !app_assoc in *. rewrite <- !app_assoc in Hw4.
    assert ((if negb (Z.land (probe (fkcp f3)) IKCP_ASK_TELL =? 0)
             then [seg3<|seg_cmd := IKCP_CMD_WINS|>] else []) =
            (if negb (Z.land (probe k2) IKCP_ASK_TELL =? 0)
             then [(probe_header kcp)<|seg_cmd := IKCP_CMD_WINS|>] else [])) as E.
    { rewrite Hk3. subst seg3. by destruct (negb (Z.land (probe k2) IKCP_ASK_SEND =? 0)). }
    rewrite E in Hw4. rewrite <- !app_assoc. by apply writes_kcp.
  - subst seg3. by destruct (negb (Z.land (probe (fkcp f3)) _ =? 0)),
      (negb (Z.land (probe k2) _ =? 0)).
Qed.

(** ** Data segments *)

Lemma flush_write_ok f l s :
  writes f l -> 24 + len (seg_data s) <= mtu (fkcp f) ->
  exists f' st, flush_write s f = Ok f' /\ writes f' (l ++ [s]) /\
    fkcp f' = (fkcp f)<|stats := st|> /\ (has_stats (fkcp f) -> is_Some st) /\
    len (cursor_buf (fptr f')) = len (cursor_buf (fptr f)).
Proof.
  intros Hw Hm. unfold flush_write.
  destruct (make_room_ok (IKCP_OVERHEAD + len (seg_data s)) f l Hw)
    as (f1 & -> & Hk1 & Hw1 & Hl1 & Hc1); [unfold IKCP_OVERHEAD; lia|].
  unfold IKCP_OVERHEAD in Hl1. cbn [mbind res_bind].
  set (f2 := match stats (fkcp f1) with Some _ => _ | None => _ end).
  assert (writes f2 l /\ fptr f2 = fptr f1 /\ exists st,
    fkcp f2 = (fkcp f)<|stats := st|> /\ (has_stats (fkcp f) -> is_Some st))
    as (Hw2 & Hp2 & st & Hk2 & Hst).
  { subst f2. rewrite Hk1. unfold has_stats. destruct (stats (fkcp f)) as [st|] eqn:Est.
    - destruct (seg_cmd s =? IKCP_CMD_PUSH).
      + split_and!; [|done|eexists; split; [done|eauto]].
        apply (writes_event _ _ CSegPush 1) in Hw1.
        eapply (writes_kcp _ _ ((fkcp f)<|stats := Some (st<|SegPush := i64 (SegPush st + 1)|>)|>))
          in Hw1; [exact Hw1|simpl; by rewrite Hk1..].
      + split_and!; [done|done|]. exists (Some st). split; [|eauto].
        rewrite Hk1. destruct (fkcp f); simpl in *; by subst.
    - split_and!; [done|done|]. exists None. split; [|by intros []].
      rewrite Hk1. destruct (fkcp f); simpl in *; by subst. }
  destruct (write_ok f2 l s PSlice Hw2) as (c & Ec & c' & Ec' & Hw3 & Hlen & _).
  { rewrite Hp2, Hk2. simpl. lia. }
  unfold flush_encode. rewrite Ec. cbn [mbind res_bind]. simpl. rewrite Ec'. simpl.
  eexists _, st. split; [done|]. split_and!; [exact Hw3|exact Hk2|done|].
  simpl. by rewrite Hlen, Hp2, Hc1.
Qed.

(** The segments of a buffer fit the MTU of the block. *)
Definition fit_mtu (kcp : KCP) (l : list segment) : Prop :=
  Forall (fun s => 24 + len (seg_data s) <= mtu kcp) l.

Lemma flush_segment_data kcp current resent hp s :
  seg_data (flush_segment kcp current resent hp s).1 = seg_data s /\
  seg_sn (flush_segment kcp current resent hp s).1 = seg_sn s /\
  seg_cmd (flush_segment kcp current resent hp s).1 = seg_cmd s /\
  seg_frg (flush_segment kcp current resent hp s).1 = seg_frg s /\
  seg_conv (flush_segment kcp current resent hp s).1 = seg_conv s.
Proof.
  unfold flush_segment, retransmit.
  repeat (case_match; simpl; try by split_and!).
Qed.

(** What a part of the data loop may do to the state besides writing: count. *)
Definition only_counts (f f' : flushing) : Prop :=
  exists x st, fkcp f' = (fkcp f)<|xmit := x|><|stats := st|> /\
    (has_stats (fkcp f) -> is_Some st) /\
    len (cursor_buf (fptr f')) = len (cursor_buf (fptr f)).

Lemma only_counts_refl f : only_counts f f.
Proof.
  exists (xmit (fkcp f)), (stats (fkcp f)). split_and!; [by destruct (fkcp f)|done|done].
Qed.

Lemma only_counts_trans f1 f2 f3 :
  only_counts f1 f2 -> only_counts f2 f3 -> only_counts f1 f3.
Proof.
  intros (x & st & E & Hs & Hc) (x' & st' & E' & Hs' & Hc'). exists x', st'.
  rewrite E in E', Hs'. split_and!; [by rewrite E'| |by rewrite Hc'].
  intros H. by apply Hs', Hs.
Qed.

Lemma flush_one_ok current resent wnd hp s c f l :
  writes f l -> 24 + len (seg_data s) <= mtu (fkcp f) ->
  let p := flushed (fkcp f) current resent wnd hp s in
  exists f', flush_one current resent wnd hp s c f = Ok (p.1, count_sending p.2 c, f') /\
    writes f' (l ++ sent_segments [p]) /\ only_counts f f'.
Proof.
  intros Hw Hs. cbv zeta. unfold flush_one, flushed.
  destruct (flush_segment_data (fkcp f) current resent hp s) as (Hd & _).
  destruct (flush_segment (fkcp f) current resent hp s) as [s1 kind]. simpl in Hd |- *.
  set (f1 := match kind with SLost => _ | _ => f end).
  assert (writes f1 l /\ fptr f1 = fptr f /\ exists x, fkcp f1 = (fkcp f)<|xmit := x|>)
    as (Hw1 & Hp1 & x1 & Hk1).
  { subst f1. destruct kind; try (split_and!; [done|done|exists (xmit (fkcp f)); by destruct (fkcp f)]).
    split_and!; [by apply writes_kcp|done|by eexists]. }
  assert (Hc1 : only_counts f f1).
  { exists x1, (stats (fkcp f)). rewrite Hk1, Hp1. by destruct (fkcp f). }
  unfold sent_segments. simpl.
  destruct (needsend kind); [|exists f1; by rewrite app_nil_r].
  assert (rcv_nxt (fkcp f1) = rcv_nxt (fkcp f)) as -> by by rewrite Hk1.
  set (s2 := s1<|seg_ts := current|><|seg_wnd := wnd|><|seg_una := rcv_nxt (fkcp f)|>).
  destruct (flush_write_ok f1 l s2 Hw1) as (f2 & st & -> & Hw2 & Hk2 & Hst & Hc2).
  { rewrite Hk1. simpl. by rewrite Hd. }
  exists f2. cbn [mbind res_bind]. split_and!; [done|done|].
  apply (only_counts_trans _ f1); [done|]. exists (xmit (fkcp f1)), st.
  split_and!; [|done|done]. rewrite Hk2. by destruct (fkcp f1).
Qed.

Lemma flush_data_ok buf : forall current resent wnd hp c f l,
  writes f l -> fit_mtu (fkcp f) buf ->
  let ps := map (flushed (fkcp f) current resent wnd hp) buf in
  exists f',
    flush_data buf current resent wnd hp c f =
      Ok (map fst ps, foldl (fun c p => count_sending p.2 c) c ps, f') /\
    writes f' (l ++ sent_segments ps) /\ only_counts f f'.
Proof.
  induction buf as [|s buf IH]; intros current resent wnd hp c f l Hw Hfit; cbv zeta.
  - exists f. simpl. rewrite app_nil_r. split_and!; [done|done|apply only_counts_refl].
  - apply Forall_cons in Hfit as [Hs Hfit].
    destruct (flush_one_ok current resent wnd hp s c f l Hw Hs) as (f1 & E1 & Hw1 & Hc1).
    cbn [flush_data map foldl fst]. rewrite E1. cbn [mbind res_bind].
    pose proof Hc1 as (x & st & Hk1 & _ & _).
    assert (flushed (fkcp f1) current resent wnd hp = flushed (fkcp f) current resent wnd hp)
      as Hfl by by rewrite Hk1.
    destruct (IH current resent wnd hp
                (count_sending (flushed (fkcp f) current resent wnd hp s).2 c) f1 _ Hw1)
      as (f2 & E2 & Hw2 & Hc2); [unfold fit_mtu in *; by rewrite Hk1|].
    rewrite Hfl in E2, Hw2. rewrite E2. cbn [mbind res_bind].
    exists f2. split_and!; [done| |by eapply only_counts_trans].
    rewrite <- app_assoc in Hw2. unfold sent_segments in *. simpl in Hw2 |- *.
    by destruct (needsend _).
Qed.

Lemma seg_stream_nil_inv l : seg_stream l = [] -> l = [].
Proof.
  destruct l as [|s l]; [done|]. rewrite seg_stream_cons. intros E.
  apply (f_equal length) in E. rewrite length_app, wire_length in E. simpl in E. lia.
Qed.

(** Flash remain segments: afterwards everything written is in datagrams. *)
Lemma flush_rest_ok f l :
  writes f l ->
  exists f' gs, (if len (cdone (fptr f)) >? 0 then flush_output f else Ok f) = Ok f' /\
    fkcp f' = fkcp f /\ packets_of (fevents f') = map seg_stream gs /\ concat gs = l /\
    Forall (fun g => g <> [] /\ len (seg_stream g) <= mtu (fkcp f)) gs /\
    len (cursor_buf (fptr f')) = len (cursor_buf (fptr f)).
Proof.
  intros Hw. destruct (Z.gtb_spec (len (cdone (fptr f))) 0) as [Hpos|Hzero].
  - destruct (flush_output_ok f l Hw) as (f' & E & Hk & [_ _ _ (gs & cur & G1 & G2 & G3 & G4)]
        & Hd & Hl); [intros E; by rewrite E in Hpos|].
    rewrite Hd in G2. symmetry in G2. apply seg_stream_nil_inv in G2 as ->.
    rewrite app_nil_r in G3. rewrite Hk in G4. by exists f', gs.
  - destruct Hw as [_ _ _ (gs & cur & G1 & G2 & G3 & G4)].
    assert (cur = []) as ->.
    { apply seg_stream_nil_inv. rewrite <- G2. apply length_zero_iff_nil. lia. }
    rewrite app_nil_r in G3. by exists f, gs.
Qed.

Lemma flush_segments_ok current wnd resent hp f l :
  writes f l -> fit_mtu (fkcp f) (snd_buf (fkcp f)) -> has_stats (fkcp f) ->
  let ps := map (flushed (fkcp f) current resent wnd hp) (snd_buf (fkcp f)) in
  let c := foldl (fun c p => count_sending p.2 c) (mkCounts 0 false 0 0 0) ps in
  exists f' x st b gs,
    flush_segments current wnd resent hp f = Ok (c, f') /\
    fkcp f' = (fkcp f)<|snd_buf := map fst ps|><|xmit := x|><|stats := Some st|><|buffer := b|> /\
    packets_of (fevents f') = map seg_stream gs /\
    concat gs = l ++ sent_segments ps /\
    Forall (fun g => g <> [] /\ len (seg_stream g) <= mtu (fkcp f)) gs /\
    len b = len (cursor_buf (fptr f)).
Proof.
  intros Hw Hfit Hst ps c. unfold flush_segments.
  destruct (flush_data_ok _ current resent wnd hp (mkCounts 0 false 0 0 0) f l Hw Hfit)
    as (f1 & -> & Hw1 & x & st & Hk1 & Hst1 & Hc1).
  fold ps in Hw1 |- *. fold c. cbn [mbind res_bind].
  destruct (Hst1 Hst) as [s1 ->].
  assert (has_stats ((fkcp f1)<|snd_buf := map fst ps|>)) as Hh.
  { exists s1. by rewrite Hk1. }
  destruct (with_stats_ok (flush_stats c) _ Hh) as [s2 ->]. cbn [mbind res_bind].
  set (f2 := f1<|fkcp := _|>).
  assert (writes (f2<|fevents := fevents f2 ++
            [EAdd CSegPushResend (i64 (i64 (lostSegs c + fastRetransSegs c) + earlyRetransSegs c))]|>)
            (l ++ sent_segments ps)) as Hw2.
  { apply writes_event, writes_kcp; [done|by rewrite Hk1..]. }
  change (fevents f2) with (fevents f1) in Hw2.
  set (f3 := f2<|fevents := _|>) in *.
  destruct (flush_rest_ok f3 _ Hw2) as (f4 & gs & -> & Hk4 & Hp4 & Hg4 & Hf4 & Hc4).
  cbn [mbind res_bind].
  exists (f4<|fkcp := (fkcp f4)<|buffer := cursor_buf (fptr f4)|> |>), x, s2,
    (cursor_buf (fptr f4)), gs.
  split_and!; [done| |done|done| |].
  - simpl. rewrite Hk4. subst f3 f2. simpl. by rewrite Hk1.
  - subst f3 f2. simpl in Hf4. by rewrite Hk1 in Hf4.
  - by rewrite Hc4.
Qed.

(** ** The sliding window *)

(** A queued segment as it enters the send buffer under number [nxt]. *)
Definition admit_segment (kcp : KCP) (wnd current nxt : Z) (s : segment) : segment :=
  s<|seg_conv := conv kcp|><|seg_wnd := wnd|><|seg_ts := current|><|seg_sn := nxt|>
   <|seg_una := rcv_nxt kcp|><|seg_resendts := current|><|seg_rto := rx_rto kcp|>.

Fixpoint admit_segments (kcp : KCP) (wnd current nxt : Z) (q : list segment) : list segment :=
  match q with
  | [] => []
  | s :: q => admit_segment kcp wnd current nxt s
              :: admit_segments kcp wnd current (u32 (nxt + 1)) q
  end.

(** They depend on the conversation, [rcv_nxt] and the timeout only. *)
Lemma admit_segments_ext kcp kcp' wnd current q : forall nxt,
  conv kcp' = conv kcp -> rcv_nxt kcp' = rcv_nxt kcp -> rx_rto kcp' = rx_rto kcp ->
  admit_segments kcp' wnd current nxt q = admit_segments kcp wnd current nxt q.
Proof.
  induction q as [|s q IH]; intros nxt Hc Hr Ho; simpl; [done|].
  unfold admit_segment. rewrite Hc, Hr, Ho. f_equal. by apply IH.
Qed.

(** How many segments the window admits: the distance to its right edge. *)
Definition window_room (kcp : KCP) (cw : Z) : nat :=
  Z.to_nat (cw - dist (snd_una kcp) (snd_nxt kcp)).

Lemma flush_move_spec q : forall cw wnd current kcp count,
  is_u32 (snd_nxt kcp) -> 0 <= cw < half -> dist (snd_una kcp) (snd_nxt kcp) < half ->
  let n := (length q `min` window_room kcp cw)%nat in
  flush_move q cw wnd current kcp count =
    (kcp<|snd_buf := snd_buf kcp ++ admit_segments kcp wnd current (snd_nxt kcp) (take n q)|>
        <|snd_nxt := u32 (snd_nxt kcp + Z.of_nat n)|>, (count + n)%nat).
Proof.
  induction q as [|s q IH]; intros cw wnd current kcp count Hu Hcw Hd; cbv zeta.
  - simpl. rewrite Nat.add_0_r, Z.add_0_r, app_nil_r, u32_id by done. by destruct kcp.
  - set (k1 := kcp<|snd_buf := snd_buf kcp ++ [admit_segment kcp wnd current (snd_nxt kcp) s]|>
                  <|snd_nxt := u32 (snd_nxt kcp + 1)|>).
    change (flush_move (s :: q) cw wnd current kcp count) with
      (if itimediff (snd_nxt kcp) (u32 (snd_una kcp + cw)) >=? 0 then (kcp, count)
       else flush_move q cw wnd current k1 (S count)).
    rewrite (itimediff_origin (snd_una kcp)) by (rewrite ?dist_add; word_lia).
    rewrite dist_add by (unfold is_u32; lia).
    destruct (Z.geb_spec (dist (snd_una kcp) (snd_nxt kcp) - cw) 0) as [Hge|Hlt].
    + unfold window_room. replace (Z.to_nat _) with 0%nat by lia.
      rewrite Nat.min_0_r, Nat.add_0_r, Z.add_0_r, u32_id by done. simpl.
      rewrite app_nil_r. by destruct kcp.
    + assert (dist (snd_una kcp) (u32 (snd_nxt kcp + 1)) = dist (snd_una kcp) (snd_nxt kcp) + 1)
        as Hd1 by (clear -Hlt Hcw; word_lia).
      rewrite IH; [|apply u32_range|done|simpl; lia].
      assert (window_room kcp cw = S (window_room k1 cw)) as ->.
      { unfold window_room. simpl. rewrite Hd1. lia. }
      simpl (length (s :: q)). rewrite <- Nat.succ_min_distr.
      set (n := (length q `min` _)%nat).
      rewrite (admit_segments_ext kcp k1) by done.
      rewrite <- Nat.add_succ_comm. simpl. rewrite <- app_assoc, u32_add_l.
      replace (snd_nxt kcp + 1 + Z.of_nat n) with (snd_nxt kcp + Z.pos (Pos.of_succ_nat n)) by lia.
      done.
Qed.

(** ** The whole [flush] *)

(** What [flush] needs so as not to panic: counters, the callback, a buffer of at
    least one MTU, and segments that fit into it; and windows below half the
    circle of sequence numbers. *)
Record flush_ready (kcp : KCP) : Prop := {
  fr_stats : has_stats kcp;
  fr_output : output kcp = true;
  fr_mtu : 50 <= mtu kcp;
  fr_buffer : mtu kcp <= len (buffer kcp);
  fr_fit : fit_mtu kcp (snd_buf kcp ++ snd_queue kcp);
  fr_inv : snd_inv kcp;
  fr_cwnd : 0 <= cwnd kcp;
  fr_snd_wnd : 0 <= snd_wnd kcp;
  fr_rmt_wnd : 0 <= rmt_wnd kcp < half;
}.

Definition admitted_count (kcp : KCP) : nat :=
  (length (snd_queue kcp) `min` window_room kcp (calc_cwnd kcp))%nat.

(** The control block between the sliding window and the data loop. *)
Definition admitted (current : Z) (kcp : KCP) : KCP :=
  let n := admitted_count kcp in
  (controlled current kcp)
    <|snd_buf := snd_buf kcp ++ admit_segments kcp (u32 (wnd_unused kcp)) current
                                  (snd_nxt kcp) (take n (snd_queue kcp))|>
    <|snd_nxt := u32 (snd_nxt kcp + Z.of_nat n)|>
    <|snd_queue := drop n (snd_queue kcp)|>.

(** The fate of every segment of the send buffer in this flush. *)
Definition flush_fates (current : Z) (kcp : KCP) : list (segment * sending) :=
  map (flushed (admitted current kcp) current (flush_resent kcp) (u32 (wnd_unused kcp))
         (0 <? admitted_count kcp)%nat) (snd_buf (admitted current kcp)).

Definition flush_counts (current : Z) (kcp : KCP) : counts :=
  foldl (fun c p => count_sending p.2 c) (mkCounts 0 false 0 0 0) (flush_fates current kcp).

Lemma calc_cwnd_range kcp :
  0 <= cwnd kcp -> 0 <= snd_wnd kcp -> 0 <= rmt_wnd kcp ->
  0 <= calc_cwnd kcp <= rmt_wnd kcp.
Proof.
  intros. unfold calc_cwnd. rewrite !imin_min. destruct (nocwnd kcp =? 0); lia.
Qed.

Lemma admit_segments_data kcp wnd current q : forall nxt,
  map seg_data (admit_segments kcp wnd current nxt q) = map seg_data q.
Proof. induction q as [|s q IH]; intros nxt; simpl; [done|]. by rewrite IH. Qed.

Lemma fit_mtu_data kcp l l' :
  map seg_data l' = map seg_data l -> fit_mtu kcp l -> fit_mtu kcp l'.
Proof.
  unfold fit_mtu. revert l. induction l' as [|s' l' IH]; intros [|s l]; simpl;
    try discriminate; [done|]. intros [= E El] [Hs Hl]%Forall_cons.
  constructor; [by rewrite E|by apply (IH l)].
Qed.

Lemma controlled_frame current kcp :
  settings (controlled current kcp) = settings kcp /\
  snd_side (controlled current kcp) = snd_side kcp /\
  rcv_side (controlled current kcp) = rcv_side kcp /\
  stats (controlled current kcp) = stats kcp /\ buffer (controlled current kcp) = buffer kcp.
Proof. exact (flush_probe_frame current (kcp<|acklist := []|>)). Qed.

(** Probing does not touch the windows either. *)
Lemma controlled_windows current kcp :
  calc_cwnd (controlled current kcp) = calc_cwnd kcp /\
  rx_rto (controlled current kcp) = rx_rto kcp /\
  cwnd (controlled current kcp) = cwnd kcp /\ ssthresh (controlled current kcp) = ssthresh kcp /\
  rmt_wnd (controlled current kcp) = rmt_wnd kcp /\ state (controlled current kcp) = state kcp.
Proof.
  unfold controlled, flush_probe, calc_cwnd. simpl. destruct (rmt_wnd kcp =? 0); [|done].
  destruct (probe_wait kcp =? 0); [done|]. destruct (_ >=? 0); [|done].
  destruct (_ <? IKCP_PROBE_INIT); destruct (_ >? IKCP_PROBE_LIMIT); done.
Qed.

Lemma controlled_acklist current kcp : acklist (controlled current kcp) = [].
Proof.
  unfold controlled, flush_probe. simpl. destruct (rmt_wnd kcp =? 0); [|done].
  destruct (probe_wait kcp =? 0); [done|]. destruct (_ >=? 0); [|done].
  destruct (_ <? IKCP_PROBE_INIT); destruct (_ >? IKCP_PROBE_LIMIT); done.
Qed.

Lemma admitted_eq current kcp wnd :
  flush_ready kcp -> wnd = u32 (wnd_unused kcp) ->
  let k1 := controlled current kcp in
  let '(k, n) := flush_move (snd_queue k1) (calc_cwnd k1) wnd current k1 0 in
  n = admitted_count kcp /\ k<|snd_queue := drop n (snd_queue k)|> = admitted current kcp.
Proof.
  intros [Hst Ho Hm Hb Hfit Hinv Hc Hsw Hrw] ->. cbv zeta.
  destruct (controlled_frame current kcp) as (Hset & Hsnd & Hrcv & _ & _).
  destruct (controlled_windows current kcp) as (Hcw & Hrto & _).
  apply snd_side_eq in Hsnd as (E1 & E2 & E3 & E4). apply rcv_side_eq in Hrcv as (R1 & R2 & R3).
  apply settings_eq in Hset as (S1 & S2 & _).
  pose proof (calc_cwnd_range kcp Hc Hsw (proj1 Hrw)).
  rewrite (flush_move_spec (snd_queue (controlled current kcp)));
    [|rewrite E2; apply Hinv|rewrite Hcw; lia|rewrite E1, E2; apply Hinv].
  rewrite (admit_segments_ext kcp (controlled current kcp)) by done.
  unfold admitted, admitted_count, window_room. rewrite Hcw, E1, E2, E3, E4.
  split; [done|]. cbv zeta. match goal with |- context [drop _ (snd_queue ?k)] =>
    assert (snd_queue k = snd_queue kcp) as -> by exact E3 end. done.
Qed.

(** Moving segments and stamping them keeps the data in order. *)
Lemma admitted_data current kcp :
  map seg_data (snd_buf (admitted current kcp) ++ snd_queue (admitted current kcp)) =
  map seg_data (snd_buf kcp ++ snd_queue kcp).
Proof.
  unfold admitted. simpl. rewrite !map_app, admit_segments_data, <- app_assoc.
  by rewrite <- map_app, take_drop.
Qed.

Lemma admitted_fit current kcp :
  fit_mtu kcp (snd_buf kcp ++ snd_queue kcp) ->
  fit_mtu kcp (snd_buf (admitted current kcp)).
Proof.
  intros Hf. apply (fit_mtu_data _ _ _ (admitted_data current kcp)) in Hf.
  by apply Forall_app in Hf as [? _].
Qed.

Lemma flush_ok kcp current :
  flush_ready kcp ->
  exists x st b tr gs,
    flush kcp current =
      Ok (flush_cwnd (calc_cwnd kcp) (flush_resent kcp) (flush_counts current kcp)
            ((admitted current kcp)<|snd_buf := map fst (flush_fates current kcp)|>
               <|xmit := x|><|stats := Some st|><|buffer := b|>), tr) /\
    packets_of tr = map seg_stream gs /\
    concat gs = control_segments current kcp ++ sent_segments (flush_fates current kcp) /\
    Forall (fun g => g <> [] /\ len (seg_stream g) <= mtu kcp) gs /\
    mtu kcp <= len b.
Proof.
  intros Hr. pose proof Hr as [Hst Ho Hm Hb Hfit Hinv Hc Hsw Hrw]. unfold flush.
  set (f := mkFlushing kcp (cursor_of (buffer kcp)) []).
  assert (writes f []) as Hw.
  { split; simpl; [done|done|lia|]. by exists [], []. }
  destruct (flush_control_ok current f [] Hw Hm) as (seg & f1 & -> & Hk1 & Hw1 & Hwnd).
  cbn [mbind res_bind]. rewrite Hk1. change (fkcp f) with kcp in *.
  pose proof (admitted_eq current kcp _ Hr Hwnd) as Hadm. cbv zeta in Hadm.
  destruct (flush_move _ _ _ _ _ _) as [k n]. destruct Hadm as [-> Hk]. rewrite Hk.
  destruct (controlled_frame current kcp) as (Hset & Hsnd & Hrcv & Hstats & Hbuf).
  assert (settings (admitted current kcp) = settings kcp) as Hset' by exact Hset.
  apply settings_eq in Hset' as (_ & Hmtu & _ & _ & _ & _ & _ & _ & Hfr & _ & _ & _ & Hout).
  assert (flush_resent (admitted current kcp) = flush_resent kcp) as ->.
  { unfold flush_resent. by rewrite Hfr. }
  rewrite Hwnd, (proj1 (controlled_windows current kcp)).
  assert (Hw2 : writes (f1<|fkcp := admitted current kcp|>) (control_segments current kcp)).
  { apply settings_eq in Hset as (_ & Hmtu1 & _ & _ & _ & _ & _ & _ & _ & _ & _ & _ & Hout1).
    apply writes_kcp; [done|rewrite Hk1..]; congruence. }
  set (f2 := f1<|fkcp := admitted current kcp|>) in *.
  destruct (flush_segments_ok current (u32 (wnd_unused kcp)) (flush_resent kcp)
    (0 <? admitted_count kcp)%nat f2 _ Hw2)
    as (f3 & x & st & b & gs & E3 & Hk3 & Hp3 & Hg3 & Hf3 & Hb3).
  - change (fkcp f2) with (admitted current kcp). unfold fit_mtu. rewrite Hmtu.
    by apply admitted_fit.
  - change (is_Some (stats (controlled current kcp))). by rewrite Hstats.
  - change (u32 (wnd_unused (fkcp f))) with (u32 (wnd_unused kcp)). rewrite E3.
    cbn [mbind res_bind]. exists x, st, b, (fevents f3), gs. rewrite Hk3.
    split_and!; [done|done|done| |].
    + change (fkcp f2) with (admitted current kcp) in Hf3. by rewrite Hmtu in Hf3.
    + rewrite Hb3. rewrite <- Hmtu. apply Hw2.
Qed.
