(* ===== verification/Flushed.v ===== *)
(** * What a flush leaves behind, and the properties of sending

    [flush_ok] of Flush.v gives the result of [flush] as one expression; this file
    reads off it what the two directions, the windows and the timers look like
    afterwards, and states the properties of [flush], [sendConnectFlush] and
    [sendCloseFlush]. *)
From S2P Require Import Prelude GoInt Stats Wire Kcp Serial Send Ack Flush.

(** ** What [flush] leaves behind *)

(** The result of [flush] with its unspecified parts named: before and after the
    update of the congestion window. *)
Definition flushed_base (current : Z) (kcp : KCP) (x : Z) (st : KcpConnStats) (b : list byte) : KCP :=
  (admitted current kcp)<|snd_buf := map fst (flush_fates current kcp)|>
    <|xmit := x|><|stats := Some st|><|buffer := b|>.

Definition flushed_kcp (current : Z) (kcp : KCP) (x : Z) (st : KcpConnStats) (b : list byte) : KCP :=
  flush_cwnd (calc_cwnd kcp) (flush_resent kcp) (flush_counts current kcp)
    (flushed_base current kcp x st b).

(** The congestion control writes three fields. *)
Lemma flush_cwnd_fields cw resent c kcp :
  exists t w i, flush_cwnd cw resent c kcp = kcp<|ssthresh := t|><|cwnd := w|><|incr := i|>.
Proof.
  assert (Hself : exists t w i, kcp = kcp<|ssthresh := t|><|cwnd := w|><|incr := i|>)
    by (exists (ssthresh kcp), (cwnd kcp), (incr kcp); by destruct kcp).
  unfold flush_cwnd. set (k1 := if negb _ then _ else _).
  assert (exists t w i, k1 = kcp<|ssthresh := t|><|cwnd := w|><|incr := i|>)
    as (t1 & w1 & i1 & ->).
  { subst k1. destruct (negb _); [|done]. cbv zeta. destruct (_ <? IKCP_THRESH_MIN); by do 3 eexists. }
  set (k2 := if lost c then _ else _).
  assert (exists t w i, k2 = kcp<|ssthresh := t|><|cwnd := w|><|incr := i|>)
    as (t2 & w2 & i2 & ->).
  { subst k2. destruct (lost c); [|by do 3 eexists]. cbv zeta.
    destruct (_ <? IKCP_THRESH_MIN); by do 3 eexists. }
  destruct (_ <? 1); by do 3 eexists.
Qed.

Lemma flush_cwnd_frame cw resent c kcp :
  let k := flush_cwnd cw resent c kcp in
  settings k = settings kcp /\ snd_side k = snd_side kcp /\ rcv_side k = rcv_side kcp /\
  stats k = stats kcp /\ buffer k = buffer kcp /\ acklist k = acklist kcp /\
  probe k = probe kcp /\ state k = state kcp /\ rx_rto k = rx_rto kcp /\ rmt_wnd k = rmt_wnd kcp.
Proof. cbv zeta. by destruct (flush_cwnd_fields cw resent c kcp) as (t & w & i & ->). Qed.

Lemma flushed_data kcp current resent wnd hp s :
  let s' := (flushed kcp current resent wnd hp s).1 in
  seg_data s' = seg_data s /\ seg_sn s' = seg_sn s /\ seg_cmd s' = seg_cmd s /\
  seg_frg s' = seg_frg s /\ seg_conv s' = seg_conv s.
Proof.
  unfold flushed. pose proof (flush_segment_data kcp current resent hp s).
  by destruct (needsend _).
Qed.

(** What the application's bytes are carried in: command, fragment number, data. *)
Definition payload (s : segment) : Z * Z * list byte := (seg_cmd s, seg_frg s, seg_data s).

Lemma flush_fates_sn current kcp :
  map seg_sn (map fst (flush_fates current kcp)) = map seg_sn (snd_buf (admitted current kcp)).
Proof.
  unfold flush_fates. rewrite !map_map. apply map_ext. intros s. apply flushed_data.
Qed.

Lemma flush_fates_payload current kcp :
  map payload (map fst (flush_fates current kcp)) =
  map payload (snd_buf (admitted current kcp)).
Proof.
  unfold flush_fates. rewrite !map_map. apply map_ext. intros s. unfold payload.
  by destruct (flushed_data (admitted current kcp) current (flush_resent kcp)
    (u32 (wnd_unused kcp)) (0 <? admitted_count kcp)%nat s) as (-> & _ & -> & -> & _).
Qed.

Lemma admit_segments_payload kcp wnd current q : forall nxt,
  map payload (admit_segments kcp wnd current nxt q) = map payload q.
Proof. induction q as [|s q IH]; intros nxt; simpl; [done|]. by rewrite IH. Qed.

Lemma admit_segments_numbered kcp wnd current q : forall nxt,
  is_u32 nxt -> numbered nxt (admit_segments kcp wnd current nxt q).
Proof.
  induction q as [|s q IH]; intros nxt Hu; simpl; [done|].
  split; [by rewrite u32_id|]. apply numbered_u32, IH, u32_range.
Qed.

Lemma admit_segments_length kcp wnd current q : forall nxt,
  length (admit_segments kcp wnd current nxt q) = length q.
Proof. induction q as [|s q IH]; intros nxt; simpl; [done|]. by rewrite IH. Qed.

Lemma admitted_payload current kcp :
  map payload (snd_buf (admitted current kcp) ++ snd_queue (admitted current kcp)) =
  map payload (snd_buf kcp ++ snd_queue kcp).
Proof.
  unfold admitted. simpl. rewrite !map_app, admit_segments_payload, <- app_assoc.
  by rewrite <- map_app, take_drop.
Qed.

Lemma admitted_count_bound kcp :
  snd_inv kcp -> 0 <= calc_cwnd kcp < half ->
  dist (snd_una kcp) (snd_nxt kcp) + Z.of_nat (admitted_count kcp)
    <= Z.max (dist (snd_una kcp) (snd_nxt kcp)) (calc_cwnd kcp).
Proof. intros Hi Hc. unfold admitted_count, window_room. lia. Qed.

(** The new segments are numbered on, so the send buffer stays in order. *)
Lemma admitted_inv current kcp :
  snd_inv kcp -> 0 <= calc_cwnd kcp < half -> snd_inv (admitted current kcp).
Proof.
  intros Hi Hc. pose proof (admitted_count_bound kcp Hi Hc) as Hn.
  destruct Hi as [Hu Hx Hs Hf Hb].
  destruct (controlled_frame current kcp) as (_ & Hsnd & _).
  apply snd_side_eq in Hsnd as (E1 & _ & _ & _).
  set (new := admit_segments kcp (u32 (wnd_unused kcp)) current (snd_nxt kcp)
                (take (admitted_count kcp) (snd_queue kcp))).
  assert (numbered (snd_nxt kcp) new) as Hnum by by apply admit_segments_numbered.
  assert (len new = Z.of_nat (admitted_count kcp)) as Hlen.
  { subst new. rewrite admit_segments_length, length_take. unfold admitted_count. lia. }
  assert (Hd : dist (snd_una kcp) (u32 (snd_nxt kcp + Z.of_nat (admitted_count kcp)))
          = dist (snd_una kcp) (snd_nxt kcp) + Z.of_nat (admitted_count kcp)).
  { clear -Hn Hf Hc. set (n := Z.of_nat (admitted_count kcp)) in *.
    assert (0 <= n) by lia. word_lia. }
  assert (Hnew : forall s, s ∈ new -> ahead (snd_una kcp) s /\
    dist (snd_una kcp) (snd_nxt kcp) <= dist (snd_una kcp) (seg_sn s)
      < dist (snd_una kcp) (snd_nxt kcp) + Z.of_nat (admitted_count kcp)).
  { intros s Hin. rewrite <- Hlen. apply (numbered_elem (snd_una kcp) (snd_nxt kcp) new); [done|lia|done]. }
  split; simpl; change (snd_una (flush_probe _ _)) with (snd_una (controlled current kcp));
    rewrite ?E1; fold new.
  - done.
  - apply u32_range.
  - apply serial_app. split_and!; [|done|].
    + intros s t Hin (_ & Ht)%Hnew. rewrite Forall_forall in Hb. specialize (Hb s Hin).
      unfold before. lia.
    + apply (numbered_serial (snd_una kcp) (snd_nxt kcp)); [done|lia].
  - rewrite Hd. lia.
  - rewrite Hd. apply Forall_app; split.
    + eapply Forall_impl; [exact Hb|]. simpl. lia.
    + apply Forall_forall. intros s (_ & Hs2)%Hnew. lia.
Qed.

Lemma flush_result kcp current :
  flush_ready kcp ->
  exists x st b tr gs,
    flush kcp current = Ok (flushed_kcp current kcp x st b, tr) /\
    packets_of tr = map seg_stream gs /\
    concat gs = control_segments current kcp ++ sent_segments (flush_fates current kcp) /\
    Forall (fun g => g <> [] /\ len (seg_stream g) <= mtu kcp) gs /\
    mtu kcp <= len b.
Proof. exact (flush_ok kcp current). Qed.

Lemma snd_side_rest k x st b :
  snd_side (k<|xmit := x|><|stats := st|><|buffer := b|>) = snd_side k.
Proof. done. Qed.

Lemma flush_cwnd_pos cw resent c kcp :
  1 <= cwnd (flush_cwnd cw resent c kcp) /\ ts_flush (flush_cwnd cw resent c kcp) = ts_flush kcp.
Proof.
  split; [|by destruct (flush_cwnd_fields cw resent c kcp) as (t & w & i & ->)].
  unfold flush_cwnd. set (k := if lost c then _ else _). clearbody k.
  by destruct (Z.ltb_spec (cwnd k) 1).
Qed.

Lemma controlled_ts_flush current kcp : ts_flush (controlled current kcp) = ts_flush kcp.
Proof.
  unfold controlled, flush_probe. simpl. destruct (rmt_wnd kcp =? 0); [|done].
  destruct (probe_wait kcp =? 0); [done|]. destruct (_ >=? 0); [|done].
  destruct (_ <? IKCP_PROBE_INIT); destruct (_ >? IKCP_PROBE_LIMIT); done.
Qed.

Section Flushed.
Context (current : Z) (kcp : KCP) (x : Z) (st : KcpConnStats) (b : list byte).
Let base := flushed_base current kcp x st b.
Let kcp' := flushed_kcp current kcp x st b.

Lemma flushed_frame :
  settings kcp' = settings base /\ snd_side kcp' = snd_side base /\
  rcv_side kcp' = rcv_side base /\
  stats kcp' = stats base /\ buffer kcp' = buffer base /\ acklist kcp' = acklist base /\
  probe kcp' = probe base /\ state kcp' = state base /\ rx_rto kcp' = rx_rto base /\
  rmt_wnd kcp' = rmt_wnd base.
Proof. apply flush_cwnd_frame. Qed.

Lemma flushed_settings : settings kcp' = settings kcp.
Proof. etrans; [apply flushed_frame|]. exact (proj1 (controlled_frame current kcp)). Qed.

Lemma flushed_rcv_side : rcv_side kcp' = rcv_side kcp.
Proof.
  etrans; [apply flushed_frame|]. exact (proj1 (proj2 (proj2 (controlled_frame current kcp)))).
Qed.

Lemma flushed_snd_side :
  snd_una kcp' = snd_una kcp /\
  snd_nxt kcp' = u32 (snd_nxt kcp + Z.of_nat (admitted_count kcp)) /\
  snd_queue kcp' = drop (admitted_count kcp) (snd_queue kcp) /\
  snd_buf kcp' = map fst (flush_fates current kcp).
Proof.
  destruct flushed_frame as (_ & E & _). apply snd_side_eq in E as (E1 & E2 & E3 & E4).
  destruct (controlled_frame current kcp) as (_ & Hsnd & _).
  apply snd_side_eq in Hsnd as (E & _).
  split_and!; [etrans; [exact E1|exact E]|exact E2|exact E3|exact E4].
Qed.

Lemma flushed_payload :
  map payload (snd_buf kcp' ++ snd_queue kcp') = map payload (snd_buf kcp ++ snd_queue kcp).
Proof.
  destruct flushed_snd_side as (_ & _ & -> & ->).
  rewrite <- (admitted_payload current kcp), !map_app, flush_fates_payload. done.
Qed.

Lemma flushed_inv :
  snd_inv kcp -> 0 <= calc_cwnd kcp < half -> snd_inv kcp'.
Proof.
  intros Hi Hc. pose proof (admitted_inv current kcp Hi Hc) as Ha.
  pose proof (snd_inv_same_sn _ _ Ha (flush_fates_sn current kcp)) as Hf.
  refine (snd_inv_side base kcp' (proj1 (proj2 flushed_frame)) _).
  refine (snd_inv_side _ base _ Hf). apply snd_side_rest.
Qed.

Lemma flushed_control :
  acklist kcp' = [] /\ probe kcp' = 0 /\ state kcp' = state kcp /\
  stats kcp' = Some st /\ buffer kcp' = b /\ rx_rto kcp' = rx_rto kcp /\
  rmt_wnd kcp' = rmt_wnd kcp.
Proof.
  destruct flushed_frame as (_ & _ & _ & E1 & E2 & E3 & E4 & E5 & E6 & E7).
  destruct (controlled_windows current kcp) as (_ & Hr & _ & _ & Hw & Hs).
  split_and!; [etrans; [exact E3|exact (controlled_acklist current kcp)]|exact E4|
    etrans; [exact E5|exact Hs]|exact E1|exact E2|etrans; [exact E6|exact Hr]|
    etrans; [exact E7|exact Hw]].
Qed.

Lemma flushed_clock : ts_flush kcp' = ts_flush kcp /\ 1 <= cwnd kcp'.
Proof.
  destruct (flush_cwnd_pos (calc_cwnd kcp) (flush_resent kcp) (flush_counts current kcp) base)
    as (H1 & H2).
  split; [etrans; [exact H2|exact (controlled_ts_flush current kcp)]|exact H1].
Qed.
End Flushed.

(** ** What happens to one segment *)

(** The retransmission timer of a segment is in the future. *)
Definition timer_armed (current : Z) (s : segment) : Prop :=
  itimediff current (seg_resendts s) < 0.

Definition timer_sane (kcp : KCP) (s : segment) : Prop :=
  0 < seg_rto s /\ seg_rto s + rx_rto kcp < half.

Lemma armed_future current d s :
  0 < d < half -> seg_resendts s = u32 (current + d) -> timer_armed current s.
Proof. unfold timer_armed. intros Hd ->. rewrite itimediff_future by lia. lia. Qed.

Lemma flushed_armed kcp current resent wnd hp s :
  0 < rx_rto kcp < half -> timer_sane kcp s ->
  let s' := (flushed kcp current resent wnd hp s).1 in
  timer_armed current s' /\ (is_u32 (seg_xmit s) -> seg_xmit s < 4294967295 -> 0 < seg_xmit s').
Proof.
  intros Hr [Hs1 Hs2]. unfold flushed. cbv zeta.
  assert (Hid : forall t, timer_armed current t ->
    timer_armed current (t<|seg_ts := current|><|seg_wnd := wnd|><|seg_una := rcv_nxt kcp|>))
    by done.
  unfold flush_segment, retransmit.
  destruct (Z.eqb_spec (seg_xmit s) 0) as [Hx|Hx].
  { simpl. split; [by apply (armed_future current (rx_rto kcp))|].
    intros ??. rewrite Hx. done. }
  destruct (Z.geb_spec (itimediff current (seg_resendts s)) 0) as [Ht|Ht].
  { simpl. split.
    - destruct (nodelay kcp =? 0);
        [apply (armed_future current (seg_rto s + rx_rto kcp))|
         apply (armed_future current (seg_rto s + rx_rto kcp / 2))];
        simpl; try (rewrite u32_add_r; f_equal; lia); try lia;
        Z.div_mod_to_equations; lia.
    - destruct (nodelay kcp =? 0); simpl; intros; rewrite u32_id; unfold is_u32 in *; lia. }
  repeat match goal with |- context [if ?b then _ else _] => destruct b; simpl end;
    split; try done; try (by apply (armed_future current (seg_rto s)); [lia|]);
    intros; rewrite ?u32_id; unfold is_u32 in *; lia.
Qed.

(** ** The counters of the data loop *)

Definition is_lost (k : sending) : bool := match k with SLost => true | _ => false end.
Definition is_change (k : sending) : bool :=
  match k with SFast | SEarly => true | _ => false end.

Lemma count_sending_lost ps : forall c : counts,
  lost (foldl (fun c p => count_sending p.2 c) c ps) =
    lost c || existsb (fun p : segment * sending => is_lost p.2) ps.
Proof.
  induction ps as [|[s k] ps IH]; intros c; simpl; [by rewrite orb_false_r|].
  rewrite IH. destruct k; simpl; rewrite ?orb_true_r; try done; by destruct (lost c).
Qed.

Lemma count_sending_change ps : forall c : counts,
  0 <= change c -> change c + len ps < 9223372036854775808 ->
  change (foldl (fun c p => count_sending p.2 c) c ps) =
    change c + len (List.filter (fun p : segment * sending => is_change p.2) ps).
Proof.
  induction ps as [|[s k] ps IH]; intros c H0 Hc; simpl; [lia|]. cbn [length] in Hc.
  destruct k; simpl; rewrite IH; simpl; try lia;
    rewrite ?i64_id by (unfold is_i64; lia); simpl; lia.
Qed.

Lemma flush_counts_spec current kcp :
  len (snd_buf (admitted current kcp)) < 9223372036854775808 ->
  lost (flush_counts current kcp)
    = existsb (fun p => is_lost p.2) (flush_fates current kcp) /\
  change (flush_counts current kcp)
    = len (List.filter (fun p => is_change p.2) (flush_fates current kcp)).
Proof.
  intros Hl. unfold flush_counts. rewrite count_sending_lost, count_sending_change; simpl;
    [done|lia|]. unfold flush_fates. rewrite length_map. lia.
Qed.

Lemma existsb_filter {A} (f : A -> bool) (l : list A) :
  existsb f l = negb (len (List.filter f l) =? 0).
Proof.
  induction l as [|x l IH]; simpl; [done|]. by destruct (f x).
Qed.

Lemma flush_cwnd_spec cw k c kcp :
  is_u32 (cwnd kcp) -> dist (snd_una kcp) (snd_nxt kcp) < half ->
  0 <= fastresend k < half - 2 -> 0 <= cw ->
  let kcp' := flush_cwnd cw (flush_resent k) c kcp in
  1 <= cwnd kcp' /\
  if lost c then cwnd kcp' = 1 /\ ssthresh kcp' = Z.max 2 (cw / 2)
  else if negb (change c =? 0) then
    ssthresh kcp' = Z.max 2 (dist (snd_una kcp) (snd_nxt kcp) / 2) /\
    cwnd kcp' = (if fastresend k =? 0 then ssthresh kcp' - 1 else ssthresh kcp' + fastresend k)
  else cwnd kcp' = Z.max 1 (cwnd kcp) /\ ssthresh kcp' = ssthresh kcp.
Proof.
  intros Hu Hd Hf Hc. cbv zeta. unfold flush_cwnd.
  set (k1 := if negb (change c =? 0) then _ else _).
  assert (if negb (change c =? 0) then
            ssthresh k1 = Z.max 2 (dist (snd_una kcp) (snd_nxt kcp) / 2) /\
            cwnd k1 = u32 (ssthresh k1 + flush_resent k)
          else k1 = kcp) as H1.
  { subst k1. destruct (negb _); [|done]. cbv zeta.
    change (u32 (snd_nxt kcp - snd_una kcp)) with (dist (snd_una kcp) (snd_nxt kcp)).
    set (d := dist (snd_una kcp) (snd_nxt kcp)). simpl. unfold IKCP_THRESH_MIN.
    destruct (Z.ltb_spec (d / 2) 2); simpl; (split; [lia|done]). }
  assert (Hcw : negb (change c =? 0) = true ->
    cwnd k1 = (if fastresend k =? 0 then ssthresh k1 - 1 else ssthresh k1 + fastresend k)
    /\ 1 <= cwnd k1).
  { intros Hch. rewrite Hch in H1. destruct H1 as [H1 ->].
    assert (2 <= ssthresh k1 <= 1073741824) as Hss by (rewrite H1; Z.div_mod_to_equations; lia).
    unfold flush_resent. clear -Hss Hf.
    destruct (Z.leb_spec (fastresend k) 0), (Z.eqb_spec (fastresend k) 0); try lia; word_lia. }
  assert (negb (change c =? 0) = false -> k1 = kcp) as Hsame.
  { intros Hch. by rewrite Hch in H1. }
  destruct (lost c).
  - cbv zeta. simpl. unfold IKCP_THRESH_MIN.
    destruct (Z.ltb_spec (cw / 2) 2); simpl; (split; [lia|split; [done|lia]]).
  - destruct (negb (change c =? 0)).
    + destruct (Hcw eq_refl) as [E1 E2]. rewrite (proj2 (Z.ltb_ge _ 1)) by lia.
      split; [done|]. split; [apply H1|done].
    + rewrite H1. unfold is_u32 in Hu. destruct (Z.ltb_spec (cwnd kcp) 1); simpl;
        (split; [lia|split; [lia|done]]).
Qed.

Lemma admit_segments_sane kcp wnd current q : forall nxt,
  0 < rx_rto kcp -> rx_rto kcp + rx_rto kcp < half ->
  Forall (fun s => 0 <= seg_xmit s < 4294967295) q ->
  Forall (fun s => timer_sane kcp s /\ 0 <= seg_xmit s < 4294967295)
    (admit_segments kcp wnd current nxt q).
Proof.
  induction q as [|s q IH]; intros nxt H1 H2 Hx; simpl; [constructor|].
  apply Forall_cons in Hx as [Hs Hx]. constructor; [done|by apply IH].
Qed.

(** ** Closing *)

Definition close_mark : segment := segment0<|seg_cmd := IKCP_CMD_PUSH|>.

(** The control block that [sendCloseFlush] hands to [flush]. *)
Definition closing (kcp : KCP) : KCP :=
  kcp<|state := Z.land (Z.lor (state kcp) IKCP_STATE_LOCAL_CLOSED)
                       (u32 (Z.lnot IKCP_STATE_CONNECTED))|>
     <|snd_queue := snd_queue kcp ++ [close_mark]|>.

Lemma sendCloseFlush_eq `{BufPool} kcp current :
  isStateConnected kcp && negb (isStateLocalClosed kcp) = true ->
  sendCloseFlush kcp current = flush (closing kcp) current.
Proof.
  intros Hc. unfold sendCloseFlush. rewrite Hc. by destruct (@newSegment_ok _ 0) as (d & -> & Hd);
    [lia|destruct d].
Qed.

Lemma closing_ready kcp : flush_ready kcp -> flush_ready (closing kcp).
Proof.
  intros [H1 H2 H3 H4 H5 H6 H7 H8 H9]. split; try done.
  - unfold fit_mtu in *. simpl. rewrite app_assoc. apply Forall_app. split; [done|].
    constructor; [simpl; lia|constructor].
  - destruct H6 as [? ? ? ? ?]. by split.
Qed.

Lemma closing_flags kcp :
  isStateLocalClosed (closing kcp) = true /\ isStateConnected (closing kcp) = false /\
  isStateRemoteClosed (closing kcp) = isStateRemoteClosed kcp /\
  isStateDead (closing kcp) = isStateDead kcp.
Proof.
  rewrite !isStateLocalClosed_bit, !isStateConnected_bit, !isStateRemoteClosed_bit,
    !isStateDead_bit.
  assert (state (closing kcp) = Z.land (Z.lor (state kcp) 4) 4294967294) as -> by reflexivity.
  rewrite !Z.land_spec, !Z.lor_spec.
  change (Z.testbit 4294967294 0) with false. change (Z.testbit 4294967294 1) with true.
  change (Z.testbit 4294967294 2) with true. change (Z.testbit 4294967294 3) with true.
  change (Z.testbit 4 1) with false. change (Z.testbit 4 2) with true.
  change (Z.testbit 4 3) with false.
  by rewrite !andb_true_r, andb_false_r, !orb_false_r, orb_true_r.
Qed.

(** ** Properties *)

(** C11. [flush] never panics on a control block that is ready for it, and what it
    hands to the output callback are datagrams of whole segments: none is empty, none
    exceeds the MTU, and their concatenation is the wire form of the acknowledgements
    and probes followed by the due data segments, in the order of the send buffer. *)
Theorem flush_datagrams kcp current :
  flush_ready kcp ->
  exists kcp' tr gs,
    flush kcp current = Ok (kcp', tr) /\
    packets_of tr = map seg_stream gs /\
    concat gs = control_segments current kcp ++ sent_segments (flush_fates current kcp) /\
    Forall (fun pkt => 24 <= len pkt <= mtu kcp) (packets_of tr) /\
    acklist kcp' = [] /\ probe kcp' = 0 /\ mtu kcp <= len (buffer kcp').
Proof.
  intros Hr. destruct (flush_result kcp current Hr) as (x & st & b & tr & gs & E & Hp & Hg & Hf & Hb).
  destruct (flushed_control current kcp x st b) as (Ha & Hpr & _ & _ & Hbuf & _).
  exists (flushed_kcp current kcp x st b), tr, gs. rewrite Hbuf.
  split_and!; try done. rewrite Hp. apply Forall_map. eapply Forall_impl; [exact Hf|].
  intros [|s g] [Hne Hle]; [done|]. split; [|done].
  rewrite seg_stream_cons, length_app, wire_length. lia.
Qed.


(** C19. Every flush leaves all retransmission timers running: if the timeouts are below
    half the clock, afterwards no segment of the send buffer is overdue, and every one of
    them has been transmitted at least once. *)
Theorem flush_rearms kcp current :
  flush_ready kcp -> 0 < rx_rto kcp -> rx_rto kcp + rx_rto kcp < half ->
  Forall (timer_sane kcp) (snd_buf kcp) ->
  Forall (fun s => 0 <= seg_xmit s < 4294967295) (snd_buf kcp ++ snd_queue kcp) ->
  exists kcp' tr, flush kcp current = Ok (kcp', tr) /\
    Forall (fun s => timer_armed current s /\ 0 < seg_xmit s) (snd_buf kcp').
Proof.
  intros Hr Hr1 Hr2 Hsane Hx.
  destruct (flush_result kcp current Hr) as (x & st & b & tr & gs & E & _).
  destruct (flushed_snd_side current kcp x st b) as (_ & _ & _ & S4).
  exists (flushed_kcp current kcp x st b), tr. split; [done|]. rewrite S4.
  unfold flush_fates. rewrite map_map. apply Forall_map.
  assert (rx_rto (admitted current kcp) = rx_rto kcp) as Hrto
    by exact (proj1 (proj2 (controlled_windows current kcp))).
  apply (Forall_impl (fun s => timer_sane kcp s /\ 0 <= seg_xmit s < 4294967295)).
  - change (snd_buf (admitted current kcp)) with (snd_buf kcp ++
      admit_segments kcp (u32 (wnd_unused kcp)) current (snd_nxt kcp)
        (take (admitted_count kcp) (snd_queue kcp))).
    apply Forall_app in Hx as [Hx1 Hx2]. apply Forall_app. split; [by apply Forall_and|].
    apply admit_segments_sane; [done|lia|by apply Forall_take].
  - intros s [Hs Hs']. destruct (flushed_armed (admitted current kcp) current (flush_resent kcp)
      (u32 (wnd_unused kcp)) (0 <? admitted_count kcp)%nat s) as [H1 H2];
      [rewrite Hrto; lia|unfold timer_sane in *; by rewrite Hrto|].
    split; [done|]. apply H2; unfold is_u32; lia.
Qed.

(** C21. The congestion window after a flush: a segment whose timer ran out sets it to 1 and
    the threshold to half the window, but at least 2; otherwise a fast or early retransmission
    sets the threshold to half the segments in flight, but at least 2, and the window to the
    threshold plus [fastresend]; otherwise it stays, at least 1. When [fastresend] is 0 an
    early retransmission leaves the window one {e below} the threshold, since the code
    then adds 0xffffffff. *)
Theorem flush_congestion kcp current :
  flush_ready kcp -> is_u32 (cwnd kcp) -> 0 <= fastresend kcp < half - 2 ->
  exists kcp' tr, flush kcp current = Ok (kcp', tr) /\ 1 <= cwnd kcp' /\
    let timeout := existsb (fun p => is_lost p.2) (flush_fates current kcp) in
    let resent := existsb (fun p => is_change p.2) (flush_fates current kcp) in
    if timeout then cwnd kcp' = 1 /\ ssthresh kcp' = Z.max 2 (calc_cwnd kcp / 2)
    else if resent then
      ssthresh kcp' = Z.max 2 (dist (snd_una kcp') (snd_nxt kcp') / 2) /\
      cwnd kcp' = (if fastresend kcp =? 0 then ssthresh kcp' - 1
                   else ssthresh kcp' + fastresend kcp)
    else cwnd kcp' = Z.max 1 (cwnd kcp) /\ ssthresh kcp' = ssthresh kcp.
Proof.
  intros Hr Hcu Hfr. destruct (flush_result kcp current Hr) as (x & st & b & tr & gs & E & _).
  pose proof Hr as [_ _ _ _ _ Hi Hc Hsw Hrw].
  pose proof (calc_cwnd_range kcp Hc Hsw (proj1 Hrw)) as Hcw.
  exists (flushed_kcp current kcp x st b), tr. split; [done|].
  destruct (flushed_snd_side current kcp x st b) as (S1 & S2 & _).
  pose proof (admitted_inv current kcp Hi ltac:(lia)) as Ha.
  destruct (flush_counts_spec current kcp) as (Hl & Hch).
  { pose proof (serial_length _ _ (snd_serial _ Ha)). lia. }
  destruct (controlled_windows current kcp) as (_ & _ & Ecw & Est & _).
  destruct (controlled_frame current kcp) as (_ & Hsnd & _).
  apply snd_side_eq in Hsnd as (Eu & _).
  cbv zeta. rewrite S1, S2, <- Hl.
  assert (existsb (fun p => is_change p.2) (flush_fates current kcp)
          = negb (change (flush_counts current kcp) =? 0)) as ->.
  { rewrite Hch. apply existsb_filter. }
  assert (Hf : dist (snd_una kcp) (u32 (snd_nxt kcp + Z.of_nat (admitted_count kcp))) < half).
  { pose proof (snd_inflight _ Ha) as Hf. change (snd_una (admitted current kcp)) with
      (snd_una (controlled current kcp)) in Hf. by rewrite Eu in Hf. }
  unfold flushed_kcp.
  pose proof (flush_cwnd_spec (calc_cwnd kcp) kcp (flush_counts current kcp)
    (flushed_base current kcp x st b)) as Hs.
  change (cwnd (flushed_base current kcp x st b)) with (cwnd (controlled current kcp)) in Hs.
  change (ssthresh (flushed_base current kcp x st b)) with (ssthresh (controlled current kcp)) in Hs.
  change (snd_una (flushed_base current kcp x st b)) with (snd_una (controlled current kcp)) in Hs.
  change (snd_nxt (flushed_base current kcp x st b)) with
    (u32 (snd_nxt kcp + Z.of_nat (admitted_count kcp))) in Hs.
  rewrite Ecw, Est, Eu in Hs. apply Hs; [done|done|done|lia].
Qed.

Section CommandProperties.
Context `{BufPool}.

(** Closing is announced once and after all data: on a connected control block
    [sendCloseFlush] sets the local-closed flag, clears the connected flag, keeps the other
    two, and appends one empty PUSH segment, the end-of-stream mark, behind everything
    queued or in flight; whenever the connection is not connected or already closed
    locally, and so in every later call, it does nothing at all. *)
Theorem sendCloseFlush_once kcp current :
  flush_ready kcp ->
  if isStateConnected kcp && negb (isStateLocalClosed kcp) then
    exists kcp' tr, sendCloseFlush kcp current = Ok (kcp', tr) /\
      isStateLocalClosed kcp' = true /\ isStateConnected kcp' = false /\
      isStateRemoteClosed kcp' = isStateRemoteClosed kcp /\ isStateDead kcp' = isStateDead kcp /\
      map payload (snd_buf kcp' ++ snd_queue kcp') =
        map payload (snd_buf kcp ++ snd_queue kcp) ++ [(IKCP_CMD_PUSH, 0, [])] /\
      forall later, sendCloseFlush kcp' later = Ok (kcp', [])
  else sendCloseFlush kcp current = Ok (kcp, []).
Proof.
  intros Hr. destruct (isStateConnected kcp && negb (isStateLocalClosed kcp)) eqn:Hc;
    [|unfold sendCloseFlush; by rewrite Hc].
  rewrite (sendCloseFlush_eq kcp current Hc).
  set (k := closing kcp). assert (flush_ready k) as Hk by by apply closing_ready.
  destruct (flush_result k current Hk) as (x & st & b & tr & gs & E & _).
  exists (flushed_kcp current k x st b), tr. split; [done|].
  destruct (flushed_control current k x st b) as (_ & _ & Hst & _).
  pose proof (flushed_payload current k x st b) as Hp.
  destruct (closing_flags kcp) as (F1 & F2 & F3 & F4).
  assert (isStateLocalClosed (flushed_kcp current k x st b) = true /\
    isStateConnected (flushed_kcp current k x st b) = false /\
    isStateRemoteClosed (flushed_kcp current k x st b) = isStateRemoteClosed kcp /\
    isStateDead (flushed_kcp current k x st b) = isStateDead kcp) as (G1 & G2 & G3 & G4).
  { unfold isStateLocalClosed, isStateConnected, isStateRemoteClosed, isStateDead in *.
    by rewrite Hst. }
  split_and!; [done..| |].
  - rewrite Hp. subst k. unfold closing. simpl. by rewrite app_assoc, map_app.
  - intros later. unfold sendCloseFlush. by rewrite G2.
Qed.
End CommandProperties.

(** The filter on acknowledgements compares sequence numbers as plain unsigned
    integers ([ack.sn >= kcp.rcv_nxt]), not on the circle: when the numbers of segments that
    arrived ahead of [rcv_nxt] have already wrapped around, their acknowledgements are all
    dropped but the last one of the list, although no cumulative [una] covers them. *)
Theorem acks_dropped_at_wrap kcp acks ack :
  acklist kcp = acks ++ [ack] ->
  Forall (fun a => 0 < dist (rcv_nxt kcp) (ack_sn a) < half /\ ack_sn a < rcv_nxt kcp) acks ->
  map (fun s => (seg_cmd s, seg_sn s, seg_una s))
    (ack_segments (rcv_nxt kcp) (acklist kcp) (flush_header kcp)) =
  [(IKCP_CMD_ACK, ack_sn ack, rcv_nxt kcp)].
Proof.
  intros -> Hall. induction Hall as [|a acks [_ Ha] _ IH]; cbn [app ack_segments map].
  - by rewrite bool_decide_eq_true_2, orb_true_r.
  - rewrite bool_decide_eq_false_2 by by destruct acks.
    destruct (Z.geb_spec (ack_sn a) (rcv_nxt kcp)); [lia|]. exact IH.
Qed.

(** [setMtu] may be called at any time, but [flush] relies on segments queued under the
    old MSS still fitting the buffer: after a full segment of 1376 bytes is queued, lowering
    the MTU to 50 is accepted and the next flush panics. *)
Theorem setMtu_lowered_panics :
  exists kcp kcp1 kcp2,
    @send zero_pool kcp (replicate 1376 Byte.x41) = Ok (kcp1, 0) /\ flush_ready kcp1 /\
    setMtu 50 kcp1 = Ok (kcp2, 0) /\ flush kcp2 0 = Panic PSlice.
Proof.
  exists (newKCP<|stats := Some newKcpConnStats|><|output := true|><|cwnd := 1|>).
  eexists _, _. split; [vm_compute; reflexivity|]. split;
    [|split; [vm_compute; reflexivity|vm_compute; reflexivity]].
  split; [by eexists|done|vm_compute; discriminate|vm_compute; discriminate| | |done|done|done].
  - repeat constructor. vm_compute. discriminate.
  - split; [done|done|split; constructor|done|constructor].
Qed.

(** ** Witnesses *)

Definition flush_example : KCP :=
  newKCP<|stats := Some newKcpConnStats|><|output := true|><|cwnd := 2|><|state := 1|>
    <|snd_queue := map (push_segment 0) (replicate 3 [Byte.x41])|>
    <|acklist := [mkAckItem 5 9]|><|rcv_nxt := 3|>.

Lemma flush_example_ready : flush_ready flush_example.
Proof.
  split; [by eexists|done|vm_compute; discriminate|vm_compute; discriminate| | |done|done|done].
  - repeat constructor; vm_compute; discriminate.
  - split; [done|done|split; constructor|done|constructor].
Qed.

Lemma flush_datagrams_witness :
  flush_ready flush_example /\
  exists kcp' tr, flush flush_example 7 = Ok (kcp', tr) /\ map length (packets_of tr) = [74%nat].
Proof.
  split; [exact flush_example_ready|].
  destruct (flush_datagrams flush_example 7 flush_example_ready) as (k & tr & gs & E & _).
  exists k, tr. split; [exact E|]. vm_compute in E. injection E as _ <-. reflexivity.
Defined.


Lemma flush_rearms_witness :
  exists kcp' tr, flush flush_example 7 = Ok (kcp', tr) /\
    Forall (fun s => timer_armed 7 s /\ 0 < seg_xmit s) (snd_buf kcp').
Proof.
  apply (flush_rearms flush_example 7 flush_example_ready).
  - reflexivity.
  - reflexivity.
  - constructor.
  - repeat constructor; vm_compute; discriminate.
Defined.

Lemma flush_congestion_witness :
  exists kcp' tr, flush flush_example 7 = Ok (kcp', tr) /\ 1 <= cwnd kcp'.
Proof.
  destruct (flush_congestion flush_example 7 flush_example_ready) as (k & tr & E & H & _);
    [vm_compute; split; [discriminate|done]|vm_compute; split; [discriminate|done]|].
  exists k, tr. split; [exact E|exact H].
Defined.

Lemma sendCloseFlush_once_witness :
  exists kcp' tr, @sendCloseFlush zero_pool flush_example 7 = Ok (kcp', tr) /\
    isStateLocalClosed kcp' = true.
Proof.
  destruct (@sendCloseFlush_once zero_pool flush_example 7 flush_example_ready)
    as (k & tr & E & H & _). exists k, tr. split; [exact E|exact H].
Defined.

Definition wrap_example : KCP :=
  newKCP<|rcv_nxt := 4294967290|><|acklist := [mkAckItem 3 0; mkAckItem 4 0; mkAckItem 1 0]|>.

Lemma acks_dropped_at_wrap_witness :
  map (fun s => (seg_cmd s, seg_sn s, seg_una s))
    (ack_segments (rcv_nxt wrap_example) (acklist wrap_example) (flush_header wrap_example)) =
  [(IKCP_CMD_ACK, 1, 4294967290)].
Proof.
  apply (acks_dropped_at_wrap wrap_example [mkAckItem 3 0; mkAckItem 4 0] (mkAckItem 1 0));
    [reflexivity|].
  repeat constructor; vm_compute; done.
Defined.
