(* ===== verification/Timer.v ===== *)
(** * The clock ([kcp.go], [update] and [check], lines 863 to 937)

    [update] is called with the current time and flushes when the next flush is
    due; [check] tells when the next call is worth while. *)
From S2P Require Import Prelude GoInt Stats Wire Kcp Serial Send Ack Flush Flushed.

(** ** Definitions *)

Definition update (kcp : KCP) (current : Z) : res (KCP * list event) :=
  let kcp := if updated kcp =? 0 then kcp<|updated := 1|><|ts_flush := current|> else kcp in
  let slap := itimediff current (ts_flush kcp) in
  let '(kcp, slap) :=
    if (slap >=? 10000) || (slap <? -10000) then (kcp<|ts_flush := current|>, 0)
    else (kcp, slap) in
  if slap >=? 0 then
    let kcp := kcp<|ts_flush := u32 (ts_flush kcp + interval kcp)|> in
    let kcp := if itimediff current (ts_flush kcp) >=? 0
               then kcp<|ts_flush := u32 (current + interval kcp)|> else kcp in
    flush kcp current
  else Ok (kcp, []).

(** The loop of [check] over the send buffer: [None] is its [return current]. *)
Fixpoint check_packets (buf : list segment) (current tm_packet : Z) : option Z :=
  match buf with
  | [] => Some tm_packet
  | seg :: buf =>
    let diff := itimediff (seg_resendts seg) current in
    if diff <=? 0 then None
    else check_packets buf current (if diff <? tm_packet then diff else tm_packet)
  end.

Definition check (kcp : KCP) (current : Z) : Z :=
  if updated kcp =? 0 then current else
  let ts_flush :=
    if (itimediff current (ts_flush kcp) >=? 10000) || (itimediff current (ts_flush kcp) <? -10000)
    then current else ts_flush kcp in
  if itimediff current ts_flush >=? 0 then current else
  let tm_flush := itimediff ts_flush current in
  match check_packets (snd_buf kcp) current 2147483647 with
  | None => current
  | Some tm_packet =>
    let minimal := if tm_packet >=? tm_flush then u32 tm_flush else u32 tm_packet in
    let minimal := if minimal >=? interval kcp then interval kcp else minimal in
    u32 (current + minimal)
  end.

(** ** Reference description *)

(** A flush is due: the first call, the time of the next flush reached, or a
    clock that has jumped by ten seconds or more. *)
Definition flush_due (kcp : KCP) (current : Z) : bool :=
  (updated kcp =? 0) || (itimediff current (ts_flush kcp) >=? 0)
  || (itimediff current (ts_flush kcp) <? -10000).

(** The time of the flush after the one at [current]. *)
Definition next_flush (kcp : KCP) (current : Z) : Z :=
  let slap := itimediff current (ts_flush kcp) in
  if negb (updated kcp =? 0) && (0 <=? slap) && (slap <? 10000)
     && (slap <? interval kcp)
  then u32 (ts_flush kcp + interval kcp) else u32 (current + interval kcp).

(** ** Lemmas *)

Lemma update_eq kcp current :
  is_u32 current -> is_u32 (ts_flush kcp) -> 0 < interval kcp <= 5000 ->
  update kcp current =
    if flush_due kcp current
    then flush (kcp<|updated := if updated kcp =? 0 then 1 else updated kcp|>
                   <|ts_flush := next_flush kcp current|>) current
    else Ok (kcp, []).
Proof.
  intros Hc Hts Hi. unfold update, flush_due, next_flush.
  destruct (Z.eqb_spec (updated kcp) 0) as [Hup|Hup]; simpl.
  - rewrite itimediff_self. simpl.
    rewrite itimediff_future by lia.
    destruct (Z.geb_spec (- interval kcp) 0); [lia|]. by destruct kcp.
  - destruct (Z.geb_spec (itimediff current (ts_flush kcp)) 10000) as [H1|H1]; simpl.
    { rewrite (proj2 (Z.geb_le (itimediff current (ts_flush kcp)) 0)) by lia. simpl.
      rewrite (proj2 (Z.leb_le 0 _)), (proj2 (Z.ltb_ge _ 10000)) by lia. simpl.
      rewrite itimediff_future by lia.
      destruct (Z.geb_spec (- interval kcp) 0); [lia|]. by destruct kcp. }
    destruct (Z.ltb_spec (itimediff current (ts_flush kcp)) (-10000)) as [H2|H2]; simpl.
    { rewrite orb_true_r. rewrite (proj2 (Z.leb_gt 0 _)) by lia. simpl.
      rewrite itimediff_future by lia.
      destruct (Z.geb_spec (- interval kcp) 0); [lia|]. by destruct kcp. }
    rewrite orb_false_r.
    destruct (Z.geb_spec (itimediff current (ts_flush kcp)) 0) as [H3|H3]; [|by destruct kcp].
    rewrite (proj2 (Z.leb_le 0 _)), (proj2 (Z.ltb_lt _ 10000)) by lia. simpl.
    destruct (Z.geb_spec (itimediff current (u32 (ts_flush kcp + interval kcp))) 0) as [H4|H4];
      destruct (Z.ltb_spec (itimediff current (ts_flush kcp)) (interval kcp)) as [H5|H5];
      try (exfalso; word_lia); by destruct kcp.
Qed.

(** The next flush is in the future, at most one interval away. *)
Lemma next_flush_range kcp current :
  is_u32 current -> is_u32 (ts_flush kcp) -> 0 < interval kcp <= 5000 ->
  0 < dist current (next_flush kcp current) <= interval kcp.
Proof.
  intros Hc Hts Hi. unfold next_flush.
  destruct (negb _); simpl; [|word_lia].
  destruct (Z.leb_spec 0 (itimediff current (ts_flush kcp))); simpl; [|word_lia].
  destruct (Z.ltb_spec (itimediff current (ts_flush kcp)) 10000); simpl; [|word_lia].
  destruct (Z.ltb_spec (itimediff current (ts_flush kcp)) (interval kcp)); word_lia.
Qed.

Lemma check_packets_spec buf current : forall tm,
  match check_packets buf current tm with
  | None => exists s, s ∈ buf /\ itimediff (seg_resendts s) current <= 0
  | Some m => m <= tm /\ Forall (fun s => 0 < itimediff (seg_resendts s) current /\
                                         m <= itimediff (seg_resendts s) current) buf /\
      (m = tm \/ exists s, s ∈ buf /\ itimediff (seg_resendts s) current = m)
  end.
Proof.
  induction buf as [|s buf IH]; intros tm; simpl; [split_and!; [lia|constructor|by left]|].
  destruct (Z.leb_spec (itimediff (seg_resendts s) current) 0).
  { exists s. split; [by left|done]. }
  set (tm' := if _ <? _ then _ else _).
  assert (tm' <= tm /\ tm' <= itimediff (seg_resendts s) current /\
    (tm' = tm \/ tm' = itimediff (seg_resendts s) current)) as (T1 & T2 & T3).
  { subst tm'. destruct (Z.ltb_spec (itimediff (seg_resendts s) current) tm); lia. }
  specialize (IH tm'). destruct (check_packets buf current tm') as [m|].
  - destruct IH as (I1 & I2 & I3). split_and!; [lia|constructor; [lia|done]|].
    destruct I3 as [->|(t & Ht & E)]; [|right; exists t; split; [by right|done]].
    destruct T3 as [->| ->]; [by left|right; exists s; split; [by left|done]].
  - destruct IH as (t & Ht & E). exists t. split; [by right|done].
Qed.

(** Nothing needs attention at time [t]: no flush is due and no segment of the
    send buffer has reached its retransmission time. *)
Definition quiet (kcp : KCP) (t : Z) : Prop :=
  flush_due kcp t = false /\
  Forall (fun s => itimediff t (seg_resendts s) < 0) (snd_buf kcp).

(** [check] by cases: now, or the first of the next flush, the next
    retransmission and one interval. *)
Lemma check_cases kcp current :
  is_u32 current -> is_u32 (ts_flush kcp) -> 0 < interval kcp <= 5000 ->
  (check kcp current = current /\
    (flush_due kcp current = true \/
     exists s, s ∈ snd_buf kcp /\ itimediff (seg_resendts s) current <= 0)) \/
  (exists m p, check kcp current = u32 (current + m) /\ 0 < m <= interval kcp /\
    flush_due kcp current = false /\
    -10000 <= itimediff current (ts_flush kcp) <= - m /\ m <= p /\
    Forall (fun s => p <= itimediff (seg_resendts s) current) (snd_buf kcp) /\
    (m = interval kcp \/ m = itimediff (ts_flush kcp) current \/
     exists s, s ∈ snd_buf kcp /\ itimediff (seg_resendts s) current = m)).
Proof.
  intros Hc Hts Hi. unfold check, flush_due.
  destruct (Z.eqb_spec (updated kcp) 0) as [Hup|Hup]; simpl; [left; auto|].
  destruct (Z.geb_spec (itimediff current (ts_flush kcp)) 10000) as [H1|H1]; simpl.
  { left. rewrite itimediff_self. simpl. rewrite (proj2 (Z.geb_le _ 0)) by lia. auto. }
  destruct (Z.ltb_spec (itimediff current (ts_flush kcp)) (-10000)) as [H2|H2]; simpl.
  { left. rewrite itimediff_self, orb_true_r. auto. }
  destruct (Z.geb_spec (itimediff current (ts_flush kcp)) 0) as [H3|H3]; simpl; [left; auto|].
  pose proof (check_packets_spec (snd_buf kcp) current 2147483647) as Hp.
  destruct (check_packets _ _ _) as [p|]; [|left; auto].
  right. destruct Hp as (P1 & P2 & P3).
  assert (0 < p) as Hp0.
  { destruct P3 as [->|(s & Hs & <-)]; [lia|]. rewrite Forall_forall in P2. by apply P2. }
  assert (itimediff (ts_flush kcp) current = - itimediff current (ts_flush kcp)) as Hopp
    by word_lia.
  set (m1 := if p >=? _ then _ else _).
  set (m := if m1 >=? _ then _ else _).
  assert (m1 = Z.min p (itimediff (ts_flush kcp) current)) as E1.
  { subst m1. pose proof (itimediff_range (ts_flush kcp) current).
    unfold is_i32 in *.
    destruct (Z.geb_spec p (itimediff (ts_flush kcp) current));
      rewrite u32_id by (unfold is_u32; lia); lia. }
  assert (m = Z.min m1 (interval kcp)) as Em.
  { subst m. destruct (Z.geb_spec m1 (interval kcp)); lia. }
  exists m, p. split_and!; [done|lia|lia|done|lia|lia|lia| |].
  - eapply Forall_impl; [exact P2|]. simpl. lia.
  - destruct (decide (m = interval kcp)); [by left|right].
    destruct (decide (m = itimediff (ts_flush kcp) current)); [by left|right].
    destruct P3 as [->|(s & Hs & Es)]; [lia|]. exists s. split; [done|lia].
Qed.

(** Before the time of the next flush no flush is due. *)
Lemma flush_due_before kcp current t m :
  is_u32 current -> is_u32 t -> is_u32 (ts_flush kcp) -> 0 < m ->
  flush_due kcp current = false -> -10000 <= itimediff current (ts_flush kcp) <= - m ->
  dist current t < m -> flush_due kcp t = false.
Proof.
  unfold flush_due. intros Hc Ht Hts Hm Hd Hr Hlt.
  destruct (updated kcp =? 0); [done|]. simpl.
  apply orb_false_iff. split.
  - destruct (Z.geb_spec (itimediff t (ts_flush kcp)) 0) as [H|]; [|done].
    exfalso. clear -Hc Ht Hts Hm Hr Hlt H. word_lia.
  - apply Z.ltb_ge. clear -Hc Ht Hts Hm Hr Hlt. word_lia.
Qed.

(** ** Properties *)

(** C20. [update] flushes exactly when a flush is due (first call, the time of the next
    flush reached, or a clock that has jumped by ten seconds or more), with the time of the
    next flush set, and otherwise does nothing at all. That time is always in the future
    and at most one interval away, so that a clock that stops, jumps or wraps around can
    neither stall the connection nor make it flush in a tight loop. *)
Theorem update_when_due kcp current :
  is_u32 current -> is_u32 (ts_flush kcp) -> 0 < interval kcp <= 5000 ->
  0 < dist current (next_flush kcp current) <= interval kcp /\
  (flush_due kcp current = false -> update kcp current = Ok (kcp, [])) /\
  (flush_due kcp current = true ->
   update kcp current =
     flush (kcp<|updated := if updated kcp =? 0 then 1 else updated kcp|>
               <|ts_flush := next_flush kcp current|>) current).
Proof.
  intros Hc Hts Hi. split; [by apply next_flush_range|].
  rewrite update_eq by done. split; by intros ->.
Qed.

(** [check] is a sound alarm: the time it returns is within one interval; if it is the
    present, a flush or a retransmission is due now; and otherwise nothing is due at any
    time strictly before it, in particular [update] called then would do nothing. *)
Theorem check_sound kcp current :
  is_u32 current -> is_u32 (ts_flush kcp) -> 0 < interval kcp <= 5000 ->
  Forall (fun s => is_u32 (seg_resendts s)) (snd_buf kcp) ->
  let wake := check kcp current in
  0 <= dist current wake <= interval kcp /\
  (dist current wake = 0 ->
     flush_due kcp current = true \/
     exists s, s ∈ snd_buf kcp /\ itimediff (seg_resendts s) current <= 0) /\
  (forall t, is_u32 t -> dist current t < dist current wake ->
     quiet kcp t /\ update kcp t = Ok (kcp, [])).
Proof.
  intros Hc Hts Hi Hb wake. subst wake.
  destruct (check_cases kcp current Hc Hts Hi)
    as [(-> & Hd)|(m & p & -> & Hm & Hdue & Hr & Hmp & Hp & _)].
  { rewrite dist_self. split_and!; [lia|lia|done|]. intros t Ht Hlt.
    pose proof (dist_range current t) as H0. unfold is_u32 in H0. lia. }
  rewrite dist_add by (unfold is_u32; lia). split_and!; [lia|lia|lia|].
  intros t Ht Hlt.
  assert (flush_due kcp t = false) as Hq.
  { apply (flush_due_before kcp current t m); done || lia. }
  split.
  - split; [done|]. rewrite Forall_forall in Hp, Hb |- *. intros s Hs.
    specialize (Hp s Hs). specialize (Hb s Hs). simpl in Hp.
    clear -Hp Hb Hmp Hlt Ht Hc Hm. word_lia.
  - by rewrite update_eq, Hq by done.
Qed.

(** ** Witnesses *)

Definition timer_example : KCP :=
  flush_example<|updated := 1|><|ts_flush := 1050|>
    <|snd_buf := [segment0<|seg_resendts := 1030|>]|>.

Lemma update_when_due_witness :
  is_u32 1000 /\ update timer_example 1000 = Ok (timer_example, []).
Proof.
  split; [vm_compute; split; [discriminate|done]|].
  destruct (update_when_due timer_example 1000) as (_ & H & _);
    [vm_compute; split; [discriminate|done]|vm_compute; split; [discriminate|done]|
     vm_compute; split; [done|discriminate]|].
  apply H. reflexivity.
Defined.

Lemma check_sound_witness :
  check timer_example 1000 = 1030 /\ quiet timer_example 1029.
Proof.
  split; [reflexivity|].
  destruct (check_sound timer_example 1000) as (_ & _ & H);
    [vm_compute; split; [discriminate|done]|vm_compute; split; [discriminate|done]|
     vm_compute; split; [done|discriminate]| |].
  { constructor; [vm_compute; split; [discriminate|done]|constructor]. }
  apply (H 1029); [vm_compute; split; [discriminate|done]|vm_compute; done].
Defined.
