(* ===== verification/Session.v ===== *)
(** * A session: every operation on one control block ([kcpconn.go] as caller of [kcp.go])

    A connection creates its control block in [newKCPConn] and afterwards calls the
    operations of [kcp.go] on it under its mutex, so that the life of a control block
    is a sequence of whole operations. [wf] is what they all keep; together with the
    theorem that a well-formed block never panics it makes every sequence safe. *)
From S2P Require Import Prelude GoInt Stats Wire Kcp Serial Send Recv Ack Input Flush Flushed Timer.

(** ** Definitions *)

(** The control block of a fresh connection: [newKCPConn], with the conversation
    number that [accept] or [connect] sets. *)
Definition new_session (cv : Z) : res KCP :=
  let kcp := newKCP in
  let kcp := (setWndSize 128 128 kcp).1 in
  '(kcp, _) ← setMtu IKCP_MTU_DEF kcp;
  let kcp := kcp<|stream := 1|> in
  let kcp := kcp<|output := true|> in
  let kcp := kcp<|stats := Some newKcpConnStats|> in
  Ok (kcp<|conv := cv|>).

(** One round of the loop in [Read]: the next message, when there is one, received
    into the [n] bytes that [bufRead.Extend(n)] provides. *)
Definition read_round (kcp : KCP) : res (KCP * list byte) :=
  let '(kcp, n) := recvSize kcp in
  if n <=? 0 then Ok (kcp, [])
  else '(kcp, b, _) ← recv kcp (replicate (Z.to_nat n) Byte.x00); Ok (kcp, b).

(** The operations a connection performs on its control block. *)
Inductive op :=
  | OSend (b : list byte)              (** [Write] *)
  | ORead                              (** [Read] *)
  | OInput (t : Z) (pkt : list byte)   (** [doKcpInput] *)
  | OUpdate (t : Z) | OFlush (t : Z)   (** [run] *)
  | OConnect (t : Z) | OClose (t : Z)
  | OWndSize (sndwnd rcvwnd : Z)
  | ONoDelay (nd itv resend nc : Z)
  | OMtu (m : Z)
  | OStream (enable : bool).

(** The outcome: the control block, the events, the bytes accepted for sending and the
    bytes read. *)
Record outcome := mkOutcome {
  o_kcp : KCP; o_events : list event; o_written : list byte; o_read : list byte }.

Section Perform.
Context `{BufPool}.

Definition perform (o : op) (kcp : KCP) : res outcome :=
  match o with
  | OSend b => '(kcp, code) ← send kcp b;
               Ok (mkOutcome kcp [] (if code =? 0 then b else []) [])
  | ORead => '(kcp, b) ← read_round kcp; Ok (mkOutcome kcp [] [] b)
  | OInput t pkt => '(kcp, _) ← input kcp t pkt true; Ok (mkOutcome kcp [] [] [])
  | OUpdate t => '(kcp, tr) ← update kcp t; Ok (mkOutcome kcp tr [] [])
  | OFlush t => '(kcp, tr) ← flush kcp t; Ok (mkOutcome kcp tr [] [])
  | OConnect t => '(kcp, tr) ← sendConnectFlush kcp t; Ok (mkOutcome kcp tr [] [])
  | OClose t => '(kcp, tr) ← sendCloseFlush kcp t; Ok (mkOutcome kcp tr [] [])
  | OWndSize s r => Ok (mkOutcome (setWndSize s r kcp).1 [] [] [])
  | ONoDelay nd itv re nc => Ok (mkOutcome (setNoDelay nd itv re nc kcp).1 [] [] [])
  | OMtu m => '(kcp, _) ← setMtu m kcp; Ok (mkOutcome kcp [] [] [])
  | OStream b => Ok (mkOutcome (kcp<|stream := if b then 1 else 0|>) [] [] [])
  end.
End Perform.

(** The MTUs that are safe to set: one that [setMtu] refuses; or one whose segments fit a packet
    buffer, and which is not less than the present one while something waits to be sent. The
    others are the ones that panic later: [Send.send_panics_above_pool] for an MTU above 2072,
    [Flushed.setMtu_lowered_panics] for one that is lowered under waiting segments. *)
Definition mtu_ok (m : Z) (kcp : KCP) : Prop :=
  m < 50 \/ m <= 2072 /\ (waitSnd kcp = 0 \/ mtu kcp <= m).

(** What the caller owes: a slice to send of less than 4 GiB, datagrams as they come out of a
    packet buffer of 2048 bytes, readings of a 32-bit clock, and a safe MTU. *)
Definition op_ok (kcp : KCP) (o : op) : Prop :=
  match o with
  | OSend b => len b < 4294967296
  | ORead => True
  | OInput t pkt => is_u32 t /\ len pkt <= 2048
  | OUpdate t | OFlush t | OConnect t | OClose t => is_u32 t
  | OWndSize _ _ | ONoDelay _ _ _ _ | OStream _ => True
  | OMtu m => mtu_ok m kcp
  end.

(** ** The invariant *)

Record wf (kcp : KCP) : Prop := {
  wf_ready : flush_ready kcp;
  wf_mss : mss kcp = mtu kcp - 24;
  wf_mtu : mtu kcp <= 2072;
  wf_ts : is_u32 (ts_flush kcp);
  wf_interval : 10 <= interval kcp <= 5000;
}.

(** The fields [wf] looks at beside the settings and the send side. *)
Definition rest (kcp : KCP) := (buffer kcp, ts_flush kcp, cwnd kcp, rmt_wnd kcp).

Lemma rest_eq k k' : rest k = rest k' ->
  buffer k = buffer k' /\ ts_flush k = ts_flush k' /\ cwnd k = cwnd k' /\ rmt_wnd k = rmt_wnd k'.
Proof. unfold rest. by intros [= -> -> -> ->]. Qed.

(** Every segment of [l'] carries the data of one of [l]. *)
Definition data_from (l' l : list segment) : Prop :=
  Forall (fun s => exists t, t ∈ l /\ seg_data s = seg_data t) l'.

Lemma fit_data_from kcp l l' : fit_mtu kcp l -> data_from l' l -> fit_mtu kcp l'.
Proof.
  unfold fit_mtu. rewrite !Forall_forall. intros Hl Hf s Hs.
  unfold data_from in Hf. rewrite Forall_forall in Hf.
  destruct (Hf s Hs) as (t & Ht & ->). by apply Hl.
Qed.

Lemma data_from_sub (l l' : list segment) :
  (forall s, s ∈ l' -> s ∈ l) -> data_from l' l.
Proof. intros Hs. apply Forall_forall. intros s Hin. exists s. auto. Qed.

Lemma data_from_map (l l' : list segment) :
  map seg_data l' = map seg_data l -> data_from l' l.
Proof.
  intros E. apply Forall_forall. intros s Hs.
  assert (seg_data s ∈ map seg_data l) as (t & Ht & Hin)%list_elem_of_fmap.
  { rewrite <- E. by apply list_elem_of_fmap_2. }
  by exists t.
Qed.

(** The one lemma by which operations keep [wf]. *)
Lemma wf_change k k' :
  wf k -> settings k' = settings k -> has_stats k' -> mtu k <= len (buffer k') ->
  is_u32 (ts_flush k') -> 0 <= cwnd k' -> 0 <= rmt_wnd k' < half -> snd_inv k' ->
  data_from (snd_buf k' ++ snd_queue k') (snd_buf k ++ snd_queue k) -> wf k'.
Proof.
  intros [[_ Ho Hm _ Hfit _ _ Hsw _] Hmss Hmtu _ Hi] Hs Hst Hb Hts Hc Hr Hinv Hd.
  apply settings_eq in Hs as (_ & E2 & E3 & E4 & _ & _ & E7 & _ & _ & _ & _ & _ & E13).
  split; [split|..]; try done; try congruence; rewrite ?E2, ?E3, ?E4, ?E7; try done.
  unfold fit_mtu. rewrite E2. by eapply fit_data_from.
Qed.

(** ** The operations keep it *)

Lemma wf_fits kcp l : wf kcp -> (fits kcp l <-> fit_mtu kcp l).
Proof.
  intros Hw. unfold fits, fit_mtu. rewrite (wf_mss kcp Hw).
  split; intros Hl; (eapply Forall_impl; [exact Hl|]); simpl; lia.
Qed.

Lemma wf_queue kcp q : wf kcp -> fits kcp q -> wf (kcp<|snd_queue := q|>).
Proof.
  intros Hw Hq. apply (wf_fits kcp q Hw) in Hq. destruct Hw as [Hr ? ? ? ?].
  destruct Hr as [? ? ? ? Hf Hi ? ? ?]. split; [split|..]; try done.
  - unfold fit_mtu in *. simpl. apply Forall_app in Hf as [Hf _]. by apply Forall_app.
  - by destruct Hi.
Qed.

Lemma wf_snd_queue kcp : wf kcp -> fits kcp (snd_queue kcp).
Proof.
  intros Hw. apply (wf_fits kcp _ Hw). pose proof (fr_fit _ (wf_ready _ Hw)) as Hf.
  unfold fit_mtu in *. by apply Forall_app in Hf as [_ ?].
Qed.

Lemma wf_mss_range kcp : wf kcp -> 0 < mss kcp <= 2048.
Proof.
  intros [Hr Hm Hu _ _]. pose proof (fr_mtu _ Hr). rewrite Hm. lia.
Qed.

Lemma wf_cwnd kcp : wf kcp -> 0 <= calc_cwnd kcp < half.
Proof.
  intros [[_ _ _ _ _ _ Hc Hs Hr] _ _ _ _].
  pose proof (calc_cwnd_range kcp Hc Hs (proj1 Hr)). lia.
Qed.

Section Keep.
Context `{BufPool}.

Lemma wf_send kcp b :
  wf kcp -> len b < 4294967296 ->
  exists kcp' code, send kcp b = Ok (kcp', code) /\ wf kcp' /\
    kcp' = kcp<|snd_queue := snd_queue kcp'|> /\
    (kcp' = kcp /\ code < 0 \/
     seg_bytes (snd_queue kcp') = seg_bytes (snd_queue kcp) ++ b /\ code = 0).
Proof.
  intros Hw Hb. pose proof (wf_mss_range kcp Hw) as Hm. pose proof (send_ok kcp b Hm Hb) as E.
  cbv zeta in E. assert (kcp = kcp<|snd_queue := snd_queue kcp|>) as Hkk by by destruct kcp.
  assert (forall kcp', send kcp b = Ok (kcp', 0) -> wf kcp' /\ kcp' = kcp<|snd_queue := snd_queue kcp'|> /\
    seg_bytes (snd_queue kcp') = seg_bytes (snd_queue kcp) ++ b) as Hgood.
  { intros kcp' E'. destruct (send_queue kcp b kcp' Hm Hb E') as (E1 & E2 & E3).
    split_and!; [|done|done]. rewrite E1. apply wf_queue; [done|]. by apply E3, wf_snd_queue. }
  destruct (len b =? 0); [exists kcp, (-1); by split_and!; [..|left]|].
  destruct (stream kcp =? 0); [destruct (_ >? 255); [exists kcp, (-2); by split_and!; [..|left]|]|];
    rewrite E; (eexists _, 0; split; [done|]); destruct (Hgood _ E) as (? & ? & ?);
    (split_and!; [done|done|by right]).
Qed.

Lemma move_ready_rest kcp : rest (move_ready kcp) = rest kcp.
Proof. unfold move_ready. by destruct (ready _ _ _ _ _). Qed.

(** Fields outside the receive side, [state] and [probe] decide [wf]. *)
Lemma wf_frame k k' :
  wf k -> settings k' = settings k -> has_stats k' -> rest k' = rest k ->
  snd_side k' = snd_side k -> wf k'.
Proof.
  intros Hw Hs Hst Hr Hsd. apply rest_eq in Hr as (Eb & Et & Ec & Ew).
  pose proof (snd_side_eq _ _ Hsd) as (_ & _ & Eq & Ebf).
  destruct Hw as [Hrd ? ? Hts ?]. pose proof Hrd as [? ? ? ? ? Hi ? ? ?].
  apply (wf_change k); rewrite ?Eb, ?Et, ?Ec, ?Ew, ?Eq, ?Ebf; try done.
  - by apply (snd_inv_side k).
  - by apply data_from_sub.
Qed.

Lemma recvSize_frame kcp kcp' n :
  recvSize kcp = (kcp', n) ->
  settings kcp' = settings kcp /\ stats kcp' = stats kcp /\ rest kcp' = rest kcp /\
  snd_side kcp' = snd_side kcp /\ rcv_side kcp' = rcv_side kcp.
Proof.
  intros [(_ & -> & _)|(_ & ->)]%recvSize_cases; [done|].
  destruct (rcv_queue kcp); [done|]. by destruct (_ && _).
Qed.

(** [recv] of a large enough buffer: the message, and a state that differs from the
    moved one in [probe] at most. *)
Lemma recv_run kcp buf :
  (length (message_bytes (rcv_queue kcp)) <= length buf)%nat ->
  exists kcp', recv kcp buf = Ok (kcp',
      message_bytes (rcv_queue kcp) ++ drop (length (message_bytes (rcv_queue kcp))) buf,
      len (message_bytes (rcv_queue kcp))) /\
    exists p, kcp' = (move_ready (kcp<|rcv_queue :=
                drop (message_count (rcv_queue kcp)) (rcv_queue kcp)|>))<|probe := p|>.
Proof.
  intros Hl. rewrite recv_ok by done. cbv zeta. eexists. split; [done|].
  set (k := move_ready _). destruct (_ && _); [by eexists|]. exists (probe k). by destruct k.
Qed.

(** [read_round] always succeeds: nothing yet, or exactly the first message. *)
Lemma read_round_run kcp :
  exists kcp' b, read_round kcp = Ok (kcp', b) /\
    settings kcp' = settings kcp /\ stats kcp' = stats kcp /\ rest kcp' = rest kcp /\
    snd_side kcp' = snd_side kcp /\
    ((b = [] /\ rcv_side kcp' = rcv_side kcp) \/
     (b = message_bytes (rcv_queue kcp) /\ exists k p,
        rcv_side k = rcv_side kcp /\
        kcp' = (move_ready (k<|rcv_queue :=
                  drop (message_count (rcv_queue kcp)) (rcv_queue kcp)|>))<|probe := p|>)).
Proof.
  unfold read_round. destruct (recvSize kcp) as [k n] eqn:E.
  destruct (recvSize_frame _ _ _ E) as (F1 & F2 & F3 & F4 & F5).
  destruct (Z.leb_spec n 0) as [Hn|Hn].
  { exists k, []. split_and!; try done. by left. }
  pose proof (proj1 (proj2 (rcv_side_eq _ _ F5))) as Hq.
  apply recvSize_cases in E as [(-> & _)|(-> & _)]; [lia|].
  rewrite Nat2Z.id.
  destruct (recv_run k (replicate (length (message_bytes (rcv_queue kcp))) Byte.x00))
    as (k' & -> & p & ->); [by rewrite Hq, length_replicate|].
  cbn [mbind res_bind]. rewrite Hq. do 2 eexists. split; [done|].
  set (k1 := k<|rcv_queue := _|>).
  destruct (move_ready_frame k1) as (M1 & M2 & M3). pose proof (move_ready_rest k1) as M4.
  split_and!; [exact (eq_trans M1 F1)|exact (eq_trans M3 F2)|exact (eq_trans M4 F3)|
    exact (eq_trans M2 F4)|].
  right. rewrite drop_ge, app_nil_r by (by rewrite length_replicate).
  split; [done|]. by exists k, p.
Qed.

Lemma read_round_acks kcp kcp' b : read_round kcp = Ok (kcp', b) -> acklist kcp' = acklist kcp.
Proof.
  unfold read_round. destruct (recvSize kcp) as [k n] eqn:E.
  assert (acklist k = acklist kcp) as Ha.
  { apply recvSize_cases in E as [(_ & -> & _)|(_ & ->)]; [done|].
    destruct (rcv_queue kcp); [done|]. by destruct (_ && _). }
  destruct (n <=? 0); [by intros [= <- _]|]. intros E2. res_inv. destruct a as [[k2 b2] n2].
  injection E2 as <- _. unfold recv in E0. res_inv. destruct a as [[c n3] cnt].
  injection E0 as <- _ _. rewrite <- Ha. unfold move_ready. cbv zeta.
  destruct (ready _ _ _ _ _). by destruct (_ && _).
Qed.

Lemma move_ready_side k k' :
  rcv_side k = rcv_side k' -> rcv_wnd k = rcv_wnd k' ->
  rcv_side (move_ready k) = rcv_side (move_ready k').
Proof.
  intros (E1 & E2 & E3)%rcv_side_eq E4. unfold move_ready. rewrite E1, E2, E3, E4.
  destruct (ready _ _ _ _ _). unfold rcv_side. simpl. by rewrite E2, E3.
Qed.

Lemma wf_read kcp kcp' b : wf kcp -> read_round kcp = Ok (kcp', b) -> wf kcp'.
Proof.
  intros Hw E. destruct (read_round_run kcp) as (k & b' & E' & F1 & F2 & F3 & F4 & _).
  rewrite E' in E. injection E as <- _. apply (wf_frame kcp); try done.
  unfold has_stats. rewrite F2. apply Hw.
Qed.

(** *** Datagrams *)

Lemma parse_data_rest kcp seg kcp' : parse_data kcp seg = Ok kcp' -> rest kcp' = rest kcp.
Proof.
  unfold parse_data. destruct (_ || _); [by intros [= <-]|].
  destruct (find_slot _ _); intros E; res_inv; subst; rewrite move_ready_rest; [done|].
  by apply with_stats_Ok_inv in E0 as [st ->].
Qed.

Lemma parse_ack_rest sn kcp :
  rest (parse_ack sn kcp) = rest kcp /\ snd_queue (parse_ack sn kcp) = snd_queue kcp /\
  snd_nxt (parse_ack sn kcp) = snd_nxt kcp.
Proof. unfold parse_ack. destruct (_ || _); [done|]. by destruct (ack_index _ _ _). Qed.

Lemma shrink_buf_rest kcp :
  rest (shrink_buf kcp) = rest kcp /\ snd_queue (shrink_buf kcp) = snd_queue kcp /\
  snd_buf (shrink_buf kcp) = snd_buf kcp /\ snd_nxt (shrink_buf kcp) = snd_nxt kcp.
Proof. unfold shrink_buf. by destruct (snd_buf kcp) eqn:E; simpl; rewrite ?E. Qed.

(** The acknowledgement fields of a header: only the window, the send buffer and
    [snd_una] change. *)
Lemma input_ack_part_rest kcp h :
  rest (input_ack_part kcp h) = (buffer kcp, ts_flush kcp, cwnd kcp, h_wnd h) /\
  snd_queue (input_ack_part kcp h) = snd_queue kcp /\
  snd_nxt (input_ack_part kcp h) = snd_nxt kcp /\
  snd_buf (input_ack_part kcp h) = drop (una_count (snd_buf kcp) (h_una h)) (snd_buf kcp).
Proof.
  unfold input_ack_part. by destruct (shrink_buf_rest (parse_una (h_una h) (kcp<|rmt_wnd := h_wnd h|>)))
    as (-> & -> & -> & ->).
Qed.

(** After the acknowledgement fields, the command of a segment changes the receive
    side, the state, and for an ACK the send buffer. *)
Lemma input_segment_rest kcp a h data kcp' r :
  len data = h_len h -> len data <= 2048 -> snd_inv kcp -> is_u32 (h_sn h) ->
  input_segment kcp a h data = Ok (kcp', r) ->
  let k := input_ack_part kcp h in
  rest kcp' = rest k /\ snd_queue kcp' = snd_queue k /\ snd_nxt kcp' = snd_nxt k /\
  snd_buf kcp' = (if h_cmd h =? IKCP_CMD_ACK
                  then filter (not_sn (h_sn h)) (snd_buf k) else snd_buf k).
Proof.
  intros Hl Hle Hi Hsn. rewrite input_segment_eq by done. cbv zeta.
  assert (snd_inv (input_ack_part kcp h)) as Hk by by apply input_ack_part_inv.
  set (k := input_ack_part kcp h) in *. clearbody k.
  destruct (Z.eqb_spec (h_cmd h) IKCP_CMD_CONNECT) as [->|_].
  { change (IKCP_CMD_CONNECT =? IKCP_CMD_ACK) with false.
    destruct (rcv_nxt k =? 0); by intros [= <- _]. }
  destruct (h_cmd h =? IKCP_CMD_ACK).
  { intros [= <- _]. rewrite parse_ack_filter by done.
    by destruct (shrink_buf_rest (k<|snd_buf := filter (not_sn (h_sn h)) (snd_buf k)|>))
      as (-> & -> & -> & ->). }
  assert (Hp : forall k1 k2, rest k2 = rest k1 -> snd_side k2 = snd_side k1 ->
    rest k1 = rest k -> snd_side k1 = snd_side k ->
    rest k2 = rest k /\ snd_queue k2 = snd_queue k /\ snd_nxt k2 = snd_nxt k /\
    snd_buf k2 = snd_buf k).
  { intros k1 k2 R1 S1 R2 S2. rewrite S2 in S1. apply snd_side_eq in S1 as (_ & ? & ? & ?).
    split_and!; congruence. }
  destruct (h_cmd h =? IKCP_CMD_PUSH).
  { destruct (_ <? 0); intros E; res_inv; subst; [destruct (_ >=? 0)|].
    - eapply (Hp (ack_push (h_sn h) (h_ts h) k)); [by eapply parse_data_rest| |done|done].
      by apply parse_data_frame in E0 as (_ & ? & _).
    - apply with_stats_Ok_inv in E0 as [st ->]. done.
    - apply with_stats_Ok_inv in E0 as [st ->]. done. }
  destruct (h_cmd h =? IKCP_CMD_WASK); [by intros [= <- _]|].
  destruct (h_cmd h =? IKCP_CMD_WINS); by intros [= <- _].
Qed.

Lemma wf_input_segment kcp a h data kcp' r :
  wf kcp -> hdr_ok h -> known_cmd (h_cmd h) = true ->
  len data = h_len h -> len data <= 2048 ->
  input_segment kcp a h data = Ok (kcp', r) -> wf kcp'.
Proof.
  intros Hw Hh Hk Hl Hle E. pose proof (wf_ready _ Hw) as Hr.
  destruct (input_segment_ok kcp a h data (fr_stats _ Hr) Hl Hle Hk) as (k2 & a2 & E2 & Hs & Hst).
  rewrite E2 in E. injection E as <- _.
  pose proof (input_segment_snd_inv _ _ _ _ _ _ (fr_inv _ Hr) Hl Hle E2) as Hi.
  destruct Hh as (_ & _ & _ & Hwnd & _ & Hsn & _).
  destruct (input_segment_rest _ _ _ _ _ _ Hl Hle (fr_inv _ Hr) Hsn E2) as (R1 & R2 & _ & R4).
  destruct (input_ack_part_rest kcp h) as (A1 & A2 & _ & A4).
  rewrite A1 in R1. rewrite A2 in R2. rewrite A4 in R4.
  unfold rest in R1. apply pair_eq4 in R1 as (Eb & Et & Ec & Ew).
  apply (wf_change kcp); rewrite ?Eb, ?Et, ?Ec, ?Ew, ?R2; try done.
  - apply Hr.
  - apply Hw.
  - apply Hr.
  - lia.
  - apply data_from_sub. intros s. rewrite !elem_of_app. intros [Hin|]; [left|by right].
    rewrite R4 in Hin. destruct (h_cmd h =? IKCP_CMD_ACK);
      [apply list_elem_of_filter in Hin as [_ Hin]|]; by eapply elem_of_drop.
Qed.

Lemma input_cwnd_fields una kcp kcp' :
  0 <= cwnd kcp -> 0 <= rmt_wnd kcp -> input_cwnd una kcp = Ok kcp' ->
  exists c i, kcp' = kcp<|cwnd := c|><|incr := i|> /\ 0 <= c.
Proof.
  intros Hc Hr. unfold input_cwnd.
  assert (Hself : exists c i, kcp = kcp<|cwnd := c|><|incr := i|> /\ 0 <= c)
    by (exists (cwnd kcp), (incr kcp); by destruct kcp).
  destruct (_ && _); [|by intros [= <-]]. cbv zeta. intros E.
  apply bind_Ok_inv in E as (k & E1 & E).
  assert (exists c i, k = kcp<|cwnd := c|><|incr := i|> /\ 0 <= c) as (c & i & -> & Hc').
  { destruct (cwnd kcp <? ssthresh kcp).
    - injection E1 as <-. do 2 eexists. split; [done|apply u32_range].
    - set (k0 := if incr kcp <? u32 (mss kcp) then _ else _) in E1.
      assert (exists i, k0 = kcp<|incr := i|>) as [i0 Hk0].
      { subst k0. destruct (_ <? _); [by eexists|]. exists (incr kcp). by destruct kcp. }
      rewrite Hk0 in E1. apply bind_Ok_inv in E1 as (u & _ & E1).
      destruct (_ <=? _); injection E1 as <-.
      + do 2 eexists. split; [done|apply u32_range].
      + by exists (cwnd kcp), (u32 (i0 + u32 (u32 (u32 (mss kcp) * u32 (mss kcp)) / i0
            + u32 (mss kcp) / 16))). }
  destruct (_ >? _); injection E as <-; do 2 eexists; (split; [done|]); done.
Qed.

Lemma wf_input kcp t pkt upd kcp' code :
  wf kcp -> len pkt <= 2048 -> input kcp t pkt upd = Ok (kcp', code) -> wf kcp'.
Proof.
  intros Hw Hl. apply (input_ind wf); [..|done|done].
  - intros k a h d k' r Hk Hh _ Hc Hd Hle. by apply wf_input_segment.
  - intros k sn Hk. destruct (parse_fastack_frame sn k) as (F1 & _ & F3).
    apply (wf_change k); try done.
    + unfold has_stats. rewrite F3. apply Hk.
    + unfold parse_fastack. destruct (_ || _); apply Hk.
    + unfold parse_fastack. destruct (_ || _); apply Hk.
    + unfold parse_fastack. destruct (_ || _); apply Hk.
    + unfold parse_fastack. destruct (_ || _); apply Hk.
    + apply parse_fastack_inv, Hk.
    + apply data_from_map. unfold parse_fastack. destruct (_ || _); [done|].
      simpl. by rewrite !map_app, bump_fastack_data.
  - intros k rtt Hk. destruct (update_ack_frame rtt k) as (F1 & _ & F3 & F4).
    apply (wf_frame k); try done.
    + unfold has_stats. rewrite F4. apply Hk.
    + unfold update_ack. destruct (rx_srtt k =? 0); [done|]. simpl. by destruct (_ <? 1).
  - intros k una k' Hk E.
    destruct (input_cwnd_fields una k k') as (c & i & -> & Hc);
      [apply Hk|apply (fr_rmt_wnd _ (wf_ready _ Hk))|done|].
    pose proof (wf_ready _ Hk) as [? ? ? ? ? Hi ? ? ?].
    apply (wf_change k); try done; [apply Hk|by apply (snd_inv_side k)|by apply data_from_sub].
Qed.

(** A datagram neither numbers segments nor queues any. *)
Lemma input_snd_tail k t pkt upd k' code :
  snd_inv k -> len pkt <= 2048 -> input k t pkt upd = Ok (k', code) ->
  snd_nxt k' = snd_nxt k /\ snd_queue k' = snd_queue k.
Proof.
  intros Hi Hl E. set (P x := snd_inv x /\ snd_nxt x = snd_nxt k /\ snd_queue x = snd_queue k).
  assert (P k') as [_ Hn]; [|exact Hn].
  assert (Hside : forall x x', P x -> snd_side x' = snd_side x -> P x').
  { intros x x' (Hx & Hn) Hs. split; [by apply (snd_inv_side x)|].
    by apply snd_side_eq in Hs as (_ & -> & -> & _). }
  revert E. apply (input_ind P); [..|by split|done].
  - intros x a h d x' r (Hx & Hn & Hq) Hh _ _ Hd Hle E. destruct Hh as (_ & _ & _ & _ & _ & Hsn & _).
    split; [by eapply input_segment_snd_inv|].
    destruct (input_segment_rest _ _ _ _ _ _ Hd Hle Hx Hsn E) as (_ & E2 & E3 & _).
    destruct (input_ack_part_rest x h) as (_ & E2' & E3' & _). split; congruence.
  - intros x sn (Hx & Hn). split; [by apply parse_fastack_inv|].
    unfold parse_fastack. by destruct (_ || _).
  - intros x rtt Hx. apply (Hside x); [done|]. by destruct (update_ack_frame rtt x) as (_ & _ & ? & _).
  - intros x una x' Hx E. apply (Hside x); [done|]. by apply input_cwnd_sides in E as [? _].
Qed.

(** *** Flushing *)

(** [flush] on a well-formed block: it returns, the block stays well-formed, and the
    result is the one of [Flushed.v]. *)
Lemma wf_flush kcp t :
  wf kcp ->
  exists x st b tr gs,
    flush kcp t = Ok (flushed_kcp t kcp x st b, tr) /\ wf (flushed_kcp t kcp x st b) /\
    packets_of tr = map seg_stream gs /\
    concat gs = control_segments t kcp ++ sent_segments (flush_fates t kcp) /\
    Forall (fun g => g <> [] /\ len (seg_stream g) <= mtu kcp) gs.
Proof.
  intros Hw. destruct (flush_result kcp t (wf_ready _ Hw)) as (x & st & b & tr & gs & E & Hp & Hg & Hf & Hb).
  exists x, st, b, tr, gs. split_and!; try done.
  destruct (flushed_control t kcp x st b) as (_ & _ & _ & Hst & Hbuf & _ & Hrw).
  destruct (flushed_clock t kcp x st b) as (Hts & Hcw).
  apply (wf_change kcp); rewrite ?Hbuf, ?Hts, ?Hrw; try done.
  - apply flushed_settings.
  - unfold has_stats. by rewrite Hst.
  - apply Hw.
  - lia.
  - apply (fr_rmt_wnd _ (wf_ready _ Hw)).
  - apply flushed_inv; [apply Hw|by apply wf_cwnd].
  - apply data_from_map. pose proof (flushed_payload t kcp x st b) as P.
    apply (f_equal (map snd)) in P. by rewrite !map_map in P.
Qed.

Lemma wf_clock kcp u ts : wf kcp -> is_u32 ts -> wf (kcp<|updated := u|><|ts_flush := ts|>).
Proof.
  intros [Hr ? ? ? ?] Hts. destruct Hr as [? ? ? ? ? [? ? ? ? ?] ? ? ?].
  by split; [split|..].
Qed.

(** [update] is a flush at a possibly different [ts_flush], or nothing. *)
Lemma update_flush kcp t :
  wf kcp -> is_u32 t ->
  (exists u ts, is_u32 ts /\ update kcp t = flush (kcp<|updated := u|><|ts_flush := ts|>) t) \/
  update kcp t = Ok (kcp, []).
Proof.
  intros Hw Ht. pose proof (wf_ts _ Hw) as Hts. pose proof (wf_interval _ Hw) as Hi.
  rewrite update_eq by (done || lia). destruct (flush_due kcp t); [left|by right].
  exists (if updated kcp =? 0 then 1 else updated kcp), (next_flush kcp t). split; [|done].
  unfold next_flush. destruct (_ && _); apply u32_range.
Qed.

Lemma wf_update kcp t :
  wf kcp -> is_u32 t ->
  (exists k, wf k /\ snd_side k = snd_side kcp /\ rcv_side k = rcv_side kcp /\
     settings k = settings kcp /\ acklist k = acklist kcp /\ update kcp t = flush k t) \/
  update kcp t = Ok (kcp, []).
Proof.
  intros Hw Ht. destruct (update_flush kcp t Hw Ht) as [(u & ts & Hu & E)|]; [left|by right].
  exists (kcp<|updated := u|><|ts_flush := ts|>). split; [by apply wf_clock|]. by split_and!.
Qed.

Lemma wf_settings_wnd kcp s r : wf kcp -> wf (setWndSize s r kcp).1.
Proof.
  intros [Hr ? ? ? ?]. destruct Hr as [? ? ? ? ? [? ? ? ? ?] ? Hs ?].
  unfold setWndSize. pose proof (u32_range s) as [? _].
  destruct (s >? 0), (r >? 0); by split; [split|..].
Qed.

Lemma wf_settings_nodelay kcp nd itv re nc : wf kcp -> wf (setNoDelay nd itv re nc kcp).1.
Proof.
  intros Hw. unfold setNoDelay. cbn [fst].
  set (k1 := if nd >=? 0 then _ else kcp).
  assert (wf k1) as H1.
  { subst k1. destruct Hw as [[? ? ? ? ? [? ? ? ? ?] ? ? ?] ? ? ? ?].
    destruct (nd >=? 0); [|by split; [split|..]]. destruct (nd =? 0); by split; [split|..]. }
  clearbody k1.
  set (k2 := if itv >=? 0 then _ else k1).
  assert (wf k2) as H2.
  { subst k2. destruct H1 as [[? ? ? ? ? [? ? ? ? ?] ? ? ?] ? ? ? Hi].
    destruct (itv >=? 0); [|by split; [split|..]].
    set (v := if itv >? 5000 then 5000 else _).
    assert (10 <= v <= 5000) as Hv.
    { subst v. destruct (Z.gtb_spec itv 5000); [lia|]. destruct (Z.ltb_spec itv 10); lia. }
    split; [by split|..]; try done. simpl. rewrite u32_id; [done|unfold is_u32; lia]. }
  clearbody k2.
  destruct H2 as [[? ? ? ? ? [? ? ? ? ?] ? ? ?] ? ? ? ?].
  destruct (re >=? 0), (nc >=? 0); by split; [split|..].
Qed.

Lemma setNoDelay_sides nd itv re nc kcp :
  let k := (setNoDelay nd itv re nc kcp).1 in
  snd_side k = snd_side kcp /\ rcv_side k = rcv_side kcp /\ conv k = conv kcp /\
  acklist k = acklist kcp.
Proof.
  unfold setNoDelay. cbv zeta.
  destruct (nd >=? 0), (itv >=? 0), (re >=? 0), (nc >=? 0); try destruct (nd =? 0); done.
Qed.

Lemma wf_settings_mtu kcp m :
  wf kcp -> mtu_ok m kcp ->
  exists kcp' code, setMtu m kcp = Ok (kcp', code) /\ wf kcp' /\
    snd_side kcp' = snd_side kcp /\ rcv_side kcp' = rcv_side kcp /\ conv kcp' = conv kcp /\
    acklist kcp' = acklist kcp.
Proof.
  intros Hw Hok. unfold setMtu, IKCP_OVERHEAD.
  destruct (Z.ltb_spec m 50) as [|H50]; [by exists kcp, (-1)|].
  destruct Hok as [|[Hm Hwait]]; [lia|].
  rewrite (proj2 (Z.ltb_ge m 24)) by lia. cbn [orb].
  replace (i64 (i64 (m + 24) * 3)) with ((m + 24) * 3) by (unfold i64; word_lia).
  unfold go_make. rewrite (proj2 (Z.leb_le 0 _)), (proj2 (Z.leb_le _ 281474976710656)) by lia.
  cbn [mbind res_bind andb]. do 2 eexists. split; [done|].
  split; [|done]. destruct Hw as [[? ? ? ? Hf [? ? ? ? ?] ? ? ?] ? ? ? ?].
  split; [split|..]; try done.
  - simpl. rewrite length_replicate. lia.
  - unfold fit_mtu in *. simpl. destruct Hwait as [Hwait|Hle].
    + unfold waitSnd in Hwait. destruct (snd_buf kcp), (snd_queue kcp); simpl in Hwait; try lia. constructor.
    + eapply Forall_impl; [exact Hf|]. intros s. simpl. lia.
Qed.

(** *** Opening and closing *)

Definition connect_mark : segment := segment0<|seg_cmd := IKCP_CMD_CONNECT|>.

Lemma sendConnectFlush_eq kcp t :
  sendConnectFlush kcp t =
    if (waitSnd kcp =? 0) && (snd_nxt kcp =? 0)
    then flush (kcp<|snd_queue := snd_queue kcp ++ [connect_mark]|>) t else Ok (kcp, []).
Proof.
  unfold sendConnectFlush. destruct (_ && _); [|done].
  by destruct (newSegment_ok 0) as (d & -> & Hd); [lia|destruct d].
Qed.

Lemma wf_connecting kcp :
  wf kcp -> wf (kcp<|snd_queue := snd_queue kcp ++ [connect_mark]|>).
Proof.
  intros Hw. apply wf_queue; [done|]. apply Forall_app. split; [by apply wf_snd_queue|].
  constructor; [|constructor]. pose proof (wf_mss_range kcp Hw). simpl. lia.
Qed.

Lemma wf_closing kcp : wf kcp -> wf (closing kcp).
Proof.
  intros Hw. pose proof (wf_mss_range kcp Hw). pose proof (wf_snd_queue kcp Hw) as Hq.
  unfold closing. set (st := Z.land _ _).
  assert (wf (kcp<|state := st|>)) as Hw1.
  { destruct Hw as [[? ? ? ? ? [? ? ? ? ?] ? ? ?] ? ? ? ?]. by split; [split|..]. }
  assert (Hf : fits (kcp<|state := st|>) (snd_queue kcp ++ [close_mark])).
  { apply Forall_app. split; [exact Hq|]. constructor; [simpl; lia|constructor]. }
  exact (wf_queue (kcp<|state := st|>) _ Hw1 Hf).
Qed.

Lemma wf_stream kcp z : wf kcp -> wf (kcp<|stream := z|>).
Proof. intros [[? ? ? ? ? [? ? ? ? ?] ? ? ?] ? ? ? ?]. by split; [split|..]. Qed.

(** Every operation succeeds and keeps the invariant. *)
Lemma perform_wf o kcp :
  wf kcp -> op_ok kcp o -> exists r, perform o kcp = Ok r /\ wf (o_kcp r).
Proof.
  intros Hw Ho. destruct o as [b| |t pkt|t|t|t|t|sw rw|nd itv re nc|m|e]; cbn [perform op_ok] in *.
  - destruct (wf_send kcp b Hw Ho) as (k & c & -> & Hk & _). eexists. split; [done|exact Hk].
  - destruct (read_round_run kcp) as (k & b & E & _). rewrite E.
    eexists. split; [done|]. by eapply wf_read.
  - destruct Ho as [_ Hl]. pose proof (wf_mss_range kcp Hw).
    destruct (input_ok kcp t pkt true) as (k & c & E & _);
      [apply Hw|rewrite u32_id; unfold is_u32; lia|done|].
    rewrite E. eexists. split; [done|]. by eapply wf_input.
  - destruct (wf_update kcp t Hw Ho) as [(k & Hk & _ & _ & _ & _ & ->)| ->].
    + destruct (wf_flush k t Hk) as (x & st & bb & tr & gs & -> & Hk' & _).
      eexists. split; [done|exact Hk'].
    + eexists. split; [done|exact Hw].
  - destruct (wf_flush kcp t Hw) as (x & st & bb & tr & gs & -> & Hk' & _).
    eexists. split; [done|exact Hk'].
  - rewrite sendConnectFlush_eq. destruct (_ && _); [|eexists; split; [done|exact Hw]].
    destruct (wf_flush _ t (wf_connecting kcp Hw)) as (x & st & bb & tr & gs & -> & Hk' & _).
    eexists. split; [done|exact Hk'].
  - destruct (isStateConnected kcp && negb (isStateLocalClosed kcp)) eqn:Hc.
    + rewrite sendCloseFlush_eq by done.
      destruct (wf_flush _ t (wf_closing kcp Hw)) as (x & st & bb & tr & gs & -> & Hk' & _).
      eexists. split; [done|exact Hk'].
    + unfold sendCloseFlush. rewrite Hc. eexists. split; [done|exact Hw].
  - eexists. split; [done|]. by apply wf_settings_wnd.
  - eexists. split; [done|]. by apply wf_settings_nodelay.
  - destruct (wf_settings_mtu kcp m Hw Ho) as (k & c & -> & Hk & _).
    eexists. split; [done|exact Hk].
  - eexists. split; [done|]. by apply wf_stream.
Qed.
End Keep.

(** A new session, in full. *)
Definition fresh (cv : Z) : KCP :=
  newKCP<|snd_wnd := 128|><|rcv_wnd := 128|><|stream := 1|><|output := true|>
    <|stats := Some newKcpConnStats|><|conv := cv|>.

Lemma new_session_eq cv : new_session cv = Ok (fresh cv).
Proof. vm_compute. reflexivity. Qed.

Lemma wf_fresh cv : wf (fresh cv).
Proof.
  split; [split|..].
  - by eexists.
  - done.
  - vm_compute; discriminate.
  - vm_compute; discriminate.
  - constructor.
  - split; [done|done|split; constructor|done|constructor].
  - done.
  - done.
  - done.
  - done.
  - vm_compute; discriminate.
  - done.
  - vm_compute; split; discriminate.
Qed.

(** ** Properties *)

Section SessionProperties.
Context `{BufPool}.

(** The control blocks a connection can get to. *)
Inductive session (cv : Z) : KCP -> Prop :=
  | session_new kcp : new_session cv = Ok kcp -> session cv kcp
  | session_op kcp o r :
      session cv kcp -> op_ok kcp o -> perform o kcp = Ok r -> session cv (o_kcp r).

(** C8. No session that respects [op_ok] ever panics or hangs: from the control block of a new
    connection, whatever datagrams arrive and in whatever order data is sent and read, the
    clock ticks, windows and options change and the connection is opened and closed, every next
    operation returns and leads to such a block again. [op_ok] asks that a slice to send is
    below 4 GiB, that a datagram is at most the 2048 bytes of a packet buffer, that the clock is a
    32-bit number, and that a new MTU is safe ([mtu_ok]): at most 2072, and not lowered while
    something waits to be sent. Without the last the statement is false:
    [Send.send_panics_above_pool] and [Flushed.setMtu_lowered_panics] are the panics of an MTU
    that is too large and of one that is lowered at the wrong time. *)
Theorem session_safe cv kcp o :
  session cv kcp -> op_ok kcp o ->
  exists r, perform o kcp = Ok r /\ session cv (o_kcp r).
Proof.
  intros Hs Ho. assert (wf kcp) as Hw.
  { clear Ho. induction Hs as [kcp E|kcp o' r Hs IH Ho' E].
    - rewrite new_session_eq in E. injection E as <-. apply wf_fresh.
    - destruct (perform_wf o' kcp IH Ho') as (r' & E' & Hr).
      rewrite E in E'. by injection E' as <-. }
  destruct (perform_wf o kcp Hw Ho) as (r & E & _). exists r. split; [done|].
  by eapply session_op.
Qed.
End SessionProperties.

Lemma session_safe_witness :
  @session zero_pool 7 (fresh 7) /\
  exists r, @perform zero_pool (OInput 3 input_example) (fresh 7) = Ok r /\
    @session zero_pool 7 (o_kcp r).
Proof.
  split; [apply session_new; vm_compute; reflexivity|].
  apply (@session_safe zero_pool 7 (fresh 7) (OInput 3 input_example)).
  - apply session_new. vm_compute. reflexivity.
  - split; [split; [discriminate|reflexivity]|vm_compute; discriminate].
Defined.
