(* ===== verification/Pool.v ===== *)
(** * The packet pool and who owns its buffers ([kcpconn.go], [udpPacketPool]; [kcp.go])

    The data of a segment is a slice of a buffer of the pool, which all connections share, and so
    is a datagram between the socket and [input]. The operations that create, fill, move and
    recycle segments are written here a second time, on a memory of buffers and on segments that
    refer to them. A buffer that is put back has from then on the unspecified content of the class
    [BufPool]: it belongs to whoever gets it next. The theorem says that the values that the other
    files compute with are right: no two segments share a buffer and none in use is in the pool. *)
From S2P Require Import Prelude GoInt Stats Wire Kcp Serial Send Recv Ack Input Flush Flushed Timer Session.

(** ** Definitions *)

(** The buffers that exist, those that are in the pool, and what decides which of them the pool
    hands out next. *)
Record mem := mkMem { cells : gmap nat (list byte); free : list nat; picks : list nat }.
#[export] Instance eta_mem : Eta mem := fun m => mkMem (cells m) (free m) (picks m).

(** A segment: its fields, the buffer of its data, and the length of the slice. *)
Record rseg := mkRef { r_head : segment; r_at : nat; r_len : nat }.
#[export] Instance eta_rseg : Eta rseg := fun r => mkRef (r_head r) (r_at r) (r_len r).

Definition rseg0 : rseg := mkRef segment0 0 0.

Definition cell (m : mem) (l : nat) : list byte := default [] (cells m !! l).
Definition bytes_of (m : mem) (r : rseg) : list byte := take (r_len r) (cell m (r_at r)).
Definition deref (m : mem) (r : rseg) : segment := (r_head r)<|seg_data := bytes_of m r|>.

(** A control block whose lists hold references. *)
Record rkcp := mkRk { rk : KCP; sq : list rseg; sb : list rseg; rq : list rseg; rb : list rseg }.
#[export] Instance eta_rkcp : Eta rkcp := fun s => mkRk (rk s) (sq s) (sb s) (rq s) (rb s).

Definition refs (s : rkcp) : list rseg := (sb s ++ sq s) ++ (rq s ++ rb s).

(** The control block that it stands for. *)
Definition abs (m : mem) (s : rkcp) : KCP :=
  (rk s)<|snd_queue := map (deref m) (sq s)|><|snd_buf := map (deref m) (sb s)|>
        <|rcv_queue := map (deref m) (rq s)|><|rcv_buf := map (deref m) (rb s)|>.

(** Code that moves segments from one list to the next and changes fields, but makes and recycles
    no segment, has the effect of [f] on the values and keeps the references in order. *)
Definition with_heads : list rseg -> list segment -> list rseg :=
  zip_with (fun r h => r<|r_head := h|>).
Definition rearrange (k : KCP) (s : rkcp) : rkcp :=
  let snd := with_heads (sb s ++ sq s) (snd_buf k ++ snd_queue k) in
  let rcv := with_heads (rq s ++ rb s) (rcv_queue k ++ rcv_buf k) in
  mkRk k (drop (length (snd_buf k)) snd) (take (length (snd_buf k)) snd)
    (take (length (rcv_queue k)) rcv) (drop (length (rcv_queue k)) rcv).
Definition on_fields (f : KCP -> KCP) (m : mem) (s : rkcp) : rkcp := rearrange (f (abs m s)) s.

Section Pool.
Context `{BufPool}.

(** [Get()]: one of the buffers of the pool, or a new one from [New]. *)
Definition pool_get (m : mem) : nat * mem :=
  match free m !! default 0%nat (head (picks m)) with
  | Some l => (l, m<|free := delete (default 0%nat (head (picks m))) (free m)|>
                   <|picks := tail (picks m)|>)
  | None =>
      let l := base.fresh (dom (cells m) : gset nat) in
      (l, m<|cells := <[l := replicate 2048 Byte.x00]> (cells m)|><|picks := tail (picks m)|>)
  end.

(** [Put(data)] *)
Definition pool_put (l : nat) (m : mem) : mem :=
  m<|cells := <[l := pool_bytes]> (cells m)|><|free := l :: free m|>.

(** [copy(seg.data[off:], src)] *)
Definition copy_to (r : rseg) (off : nat) (src : list byte) (m : mem) : mem :=
  let c := cell m (r_at r) in
  m<|cells := <[r_at r := take off c ++ go_copy (drop off (take (r_len r) c)) src
                            ++ drop (r_len r) c]> (cells m)|>.

(** [kcp.newSegment(size)] *)
Definition m_newSegment (size : Z) (m : mem) : res (rseg * mem) :=
  if (0 <=? size) && (size <=? udpPacketSizeLimit)
  then let '(l, m) := pool_get m in Ok (mkRef segment0 l (Z.to_nat size), m)
  else Panic PSlice.

(** [kcp.delSegment(seg)], for one and for several segments in a row. *)
Definition delSegment (r : rseg) (m : mem) : mem := pool_put (r_at r) m.
Definition del_all (rs : list rseg) (m : mem) : mem := foldl (fun m r => delSegment r m) m rs.

(** *** [send] *)

Definition m_send_merge (s : rkcp) (buf : list byte) (m : mem) : res (rkcp * list byte * mem) :=
  let n := length (sq s) in
  match last (sq s) with
  | None => Ok (s, buf, m)
  | Some old =>
    let oldDataLen := Z.of_nat (r_len old) in
    if (oldDataLen <? mss (rk s)) && (seg_cmd (r_head old) =? IKCP_CMD_PUSH) then
      let capacity := mss (rk s) - oldDataLen in
      let extend := if len buf <? capacity then len buf else capacity in
      _ ← go_check (oldDataLen + extend <=? udpPacketSizeLimit) PSlice;
      let seg := old<|r_len := Z.to_nat (oldDataLen + extend)|> in
      let m := copy_to seg (r_len old) buf m in
      buf ← slice_from extend buf;
      Ok (s<|sq := <[(n - 1)%nat := seg]> (sq s)|>, buf, m)
    else Ok (s, buf, m)
  end.

Fixpoint m_send_fragments (n : nat) (count i : Z) (s : rkcp) (buf : list byte) (m : mem) :
    res (rkcp * mem) :=
  match n with
  | O => Ok (s, m)
  | S n =>
    let size := if len buf >? mss (rk s) then mss (rk s) else len buf in
    '(seg, m) ← m_newSegment size m;
    let h := (r_head seg)<|seg_cmd := IKCP_CMD_PUSH|> in
    let m := copy_to seg 0 (take (Z.to_nat size) buf) m in
    let h := if stream (rk s) =? 0 then h<|seg_frg := u32 (count - i - 1)|> else h<|seg_frg := 0|> in
    let s := s<|sq := sq s ++ [seg<|r_head := h|>]|> in
    buf ← slice_from size buf;
    m_send_fragments n count (i + 1) s buf m
  end.

Definition m_send (s : rkcp) (buf : list byte) (m : mem) : res (rkcp * mem * Z) :=
  if len buf =? 0 then Ok (s, m, -1) else
  '(s, buf, m) ← (if negb (stream (rk s) =? 0) then m_send_merge s buf m else Ok (s, buf, m));
  if negb (stream (rk s) =? 0) && (len buf =? 0) then Ok (s, m, 0) else
  _ ← go_check (negb (mss (rk s) =? 0)) PDivide;
  let count := Z.quot (len buf + mss (rk s) - 1) (mss (rk s)) in
  if (stream (rk s) =? 0) && (count >? 255) then Ok (s, m, -2) else
  '(s, m) ← m_send_fragments (Z.to_nat count) count 0 s buf m;
  Ok (s, m, 0).

(** The segments without data of [sendConnectFlush] and [sendCloseFlush]. *)
Definition m_mark (cmd : Z) (s : rkcp) (m : mem) : res (rkcp * mem) :=
  '(seg, m) ← m_newSegment 0 m;
  Ok (s<|sq := sq s ++ [seg<|r_head := (r_head seg)<|seg_cmd := cmd|>|>]|>, m).

(** *** The receive side *)

(** The copying loop of [recv]: a segment is recycled as soon as its data is copied. *)
Fixpoint m_recv_merge (q : list rseg) (c : cursor) (n : Z) (count : nat) (m : mem) :
    res (cursor * Z * nat * mem) :=
  match q with
  | [] => Ok (c, n, count, m)
  | seg :: q =>
    c ← cursor_write PSlice c (bytes_of m seg);
    let n := n + Z.of_nat (r_len seg) in
    let count := S count in
    let m := delSegment seg m in
    if seg_frg (r_head seg) =? 0 then Ok (c, n, count, m) else m_recv_merge q c n count m
  end.

Definition m_recv (s : rkcp) (buf : list byte) (m : mem) : res (rkcp * mem * list byte * Z) :=
  let fast_recover := len (rq s) >=? rcv_wnd (rk s) in
  '(c, n, count, m) ← m_recv_merge (rq s) (cursor_of buf) 0 0 m;
  let s := s<|rq := drop count (rq s)|> in
  let s := on_fields move_ready m s in
  let s := if (len (rq s) <? rcv_wnd (rk s)) && fast_recover
           then on_fields (fun kcp => kcp<|probe := Z.lor (probe kcp) IKCP_ASK_TELL|>) m s else s in
  Ok (s, m, cursor_buf c, n).

Definition m_read_round (s : rkcp) (m : mem) : res (rkcp * mem * list byte) :=
  let n := (recvSize (abs m s)).2 in
  let s := on_fields (fun kcp => (recvSize kcp).1) m s in
  if n <=? 0 then Ok (s, m, [])
  else '(s, m, b, _) ← m_recv s (replicate (Z.to_nat n) Byte.x00) m; Ok (s, m, b).

Definition m_insert (buf : list rseg) (idx : nat) (newseg : rseg) : list rseg :=
  if (idx =? length buf)%nat then buf ++ [newseg]
  else
    let buf := buf ++ [rseg0] in
    let buf := take (idx + 1) buf ++ go_copy (drop (idx + 1) buf) (drop idx buf) in
    <[idx := newseg]> buf.

(** [parse_data]: a segment that is not kept is recycled. *)
Definition m_parse_data (s : rkcp) (newseg : rseg) (m : mem) : res (rkcp * mem) :=
  let sn := seg_sn (r_head newseg) in
  if (itimediff sn (u32 (rcv_nxt (rk s) + rcv_wnd (rk s))) >=? 0)
     || (itimediff sn (rcv_nxt (rk s)) <? 0) then Ok (s, delSegment newseg m)
  else
    '(s, m) ← match find_slot (reverse (rcv_buf (abs m s))) sn with
              | None => k ← with_stats (fun st => st<|SegRepeat := i64 (SegRepeat st + 1)|>) (abs m s);
                        Ok (rearrange k s, delSegment newseg m)
              | Some idx => Ok (s<|rb := m_insert (rb s) idx newseg|>, m)
              end;
    Ok (on_fields move_ready m s, m).

(** *** The send buffer *)

Definition m_parse_una (una : Z) (s : rkcp) (m : mem) : rkcp * mem :=
  let count := una_count (snd_buf (abs m s)) una in
  (s<|sb := drop count (sb s)|>, del_all (take count (sb s)) m).

Definition m_remove (buf : list rseg) (k : nat) : list rseg :=
  let buf := take k buf ++ go_copy (drop k buf) (drop (k + 1) buf) in
  let buf := <[(length buf - 1)%nat := rseg0]> buf in
  take (length buf - 1) buf.

Definition m_parse_ack (sn : Z) (s : rkcp) (m : mem) : rkcp * mem :=
  if (itimediff sn (snd_una (rk s)) <? 0) || (itimediff sn (snd_nxt (rk s)) >=? 0) then (s, m)
  else match ack_index (snd_buf (abs m s)) sn 0 with
       | Some k => (s<|sb := m_remove (sb s) k|>, delSegment (default rseg0 (sb s !! k)) m)
       | None => (s, m)
       end.

(** *** [input] *)

Definition m_input_segment (s : rkcp) (a : acksum) (h : header) (data : list byte) (m : mem) :
    res (rkcp * mem * (acksum + Z)) :=
  let s := on_fields (fun kcp => kcp<|rmt_wnd := h_wnd h|>) m s in
  let '(s, m) := m_parse_una (h_una h) s m in
  let s := on_fields shrink_buf m s in
  if h_cmd h =? IKCP_CMD_CONNECT then
    if rcv_nxt (rk s) =? 0 then
      let s := on_fields (fun kcp =>
        let kcp := ack_push (h_sn h) (h_ts h) kcp in
        let kcp := kcp<|rcv_nxt := u32 (rcv_nxt kcp + 1)|> in
        kcp<|state := Z.lor (state kcp) IKCP_STATE_CONNECTED|>) m s in
      Ok (s, m, inl a)
    else Ok (s, m, inl a)
  else if h_cmd h =? IKCP_CMD_ACK then
    let '(s, m) := m_parse_ack (h_sn h) s m in
    let s := on_fields shrink_buf m s in
    let a := if flag a =? 0 then a<|flag := 1|><|maxack := h_sn h|>
             else if itimediff (h_sn h) (maxack a) >? 0 then a<|maxack := h_sn h|>
             else a in
    Ok (s, m, inl (a<|recentack := h_ts h|>))
  else if h_cmd h =? IKCP_CMD_PUSH then
    if itimediff (h_sn h) (u32 (rcv_nxt (rk s) + rcv_wnd (rk s))) <? 0 then
      let s := on_fields (ack_push (h_sn h) (h_ts h)) m s in
      if itimediff (h_sn h) (rcv_nxt (rk s)) >=? 0 then
        '(seg, m) ← m_newSegment (h_len h) m;
        let hd := (r_head seg)<|seg_conv := h_conv h|><|seg_cmd := h_cmd h|>
                      <|seg_frg := h_frg h|><|seg_wnd := h_wnd h|><|seg_ts := h_ts h|>
                      <|seg_sn := h_sn h|><|seg_una := h_una h|> in
        let m := copy_to seg 0 data m in
        '(s, m) ← m_parse_data s (seg<|r_head := hd|>) m;
        Ok (s, m, inl a)
      else k ← seg_repeat (abs m s); Ok (rearrange k s, m, inl a)
    else k ← seg_repeat (abs m s); Ok (rearrange k s, m, inl a)
  else if h_cmd h =? IKCP_CMD_WASK then
    Ok (on_fields (fun kcp => kcp<|probe := Z.lor (probe kcp) IKCP_ASK_TELL|>) m s, m, inl a)
  else if h_cmd h =? IKCP_CMD_WINS then Ok (s, m, inl a)
  else Ok (s, m, inr (-3)).

Definition m_input_round (s : rkcp) (a : acksum) (data : list byte) (m : mem) :
    res (rkcp * mem * (acksum * list byte + Z)) :=
  '(cv, data) ← ikcp_decode32u data;
  if negb (cv =? conv (rk s)) then Ok (s, m, inr (-1)) else
  '(h, data) ← decode_rest cv data;
  if len data <? h_len h then Ok (s, m, inr (-2)) else
  if negb (known_cmd (h_cmd h)) then Ok (s, m, inr (-3)) else
  '(s, m, r) ← m_input_segment s a h (take (Z.to_nat (h_len h)) data) m;
  match r with
  | inr code => Ok (s, m, inr code)
  | inl a => data ← slice_from (h_len h) data; Ok (s, m, inl (a, data))
  end.

Fixpoint m_input_loop (fuel : nat) (s : rkcp) (a : acksum) (data : list byte) (m : mem) :
    res (rkcp * mem * (acksum + Z)) :=
  if len data <? IKCP_OVERHEAD then Ok (s, m, inl a) else
  match fuel with
  | O => OutOfFuel
  | S fuel =>
    '(s, m, r) ← m_input_round s a data m;
    match r with
    | inr code => Ok (s, m, inr code)
    | inl (a, data) => m_input_loop fuel s a data m
    end
  end.

Definition m_input (s : rkcp) (current : Z) (data : list byte) (do_update_ack : bool) (m : mem) :
    res (rkcp * mem * Z) :=
  let una := snd_una (rk s) in
  if len data <? IKCP_OVERHEAD then Ok (s, m, -1) else
  '(s, m, r) ← m_input_loop (length data) s (mkAcksum 0 0 0) data m;
  match r with
  | inr code => Ok (s, m, code)
  | inl a =>
    let s :=
      if negb (flag a =? 0) && do_update_ack then
        let s := on_fields (parse_fastack (maxack a)) m s in
        if itimediff current (recentack a) >=? 0
        then on_fields (update_ack (itimediff current (recentack a))) m s else s
      else s in
    k ← input_cwnd una (abs m s);
    Ok (rearrange k s, m, 0)
  end.

(** *** [flush] and its callers: segments are moved and their data is read *)

Definition m_flush (s : rkcp) (current : Z) (m : mem) : res (rkcp * list event) :=
  '(k, tr) ← flush (abs m s) current; Ok (rearrange k s, tr).

Definition m_update (s : rkcp) (current : Z) (m : mem) : res (rkcp * list event) :=
  '(k, tr) ← update (abs m s) current; Ok (rearrange k s, tr).

Definition m_sendConnectFlush (s : rkcp) (current : Z) (m : mem) : res (rkcp * mem * list event) :=
  if (waitSnd (abs m s) =? 0) && (snd_nxt (rk s) =? 0) then
    '(s, m) ← m_mark IKCP_CMD_CONNECT s m;
    '(s, tr) ← m_flush s current m; Ok (s, m, tr)
  else Ok (s, m, []).

Definition m_sendCloseFlush (s : rkcp) (current : Z) (m : mem) : res (rkcp * mem * list event) :=
  if isStateConnected (rk s) && negb (isStateLocalClosed (rk s)) then
    let s := on_fields (fun kcp =>
      let kcp := kcp<|state := Z.lor (state kcp) IKCP_STATE_LOCAL_CLOSED|> in
      kcp<|state := Z.land (state kcp) (u32 (Z.lnot IKCP_STATE_CONNECTED))|>) m s in
    '(s, m) ← m_mark IKCP_CMD_PUSH s m;
    '(s, tr) ← m_flush s current m; Ok (s, m, tr)
  else Ok (s, m, []).

(** *** The operations of a connection *)

Record routcome := mkRout {
  ro_block : rkcp; ro_mem : mem; ro_events : list event; ro_written : list byte;
  ro_read : list byte }.

Definition m_perform (o : op) (s : rkcp) (m : mem) : res routcome :=
  match o with
  | OSend b => '(s, m, code) ← m_send s b m;
               Ok (mkRout s m [] (if code =? 0 then b else []) [])
  | ORead => '(s, m, b) ← m_read_round s m; Ok (mkRout s m [] [] b)
  | OInput t pkt => '(s, m, _) ← m_input s t pkt true m; Ok (mkRout s m [] [] [])
  | OUpdate t => '(s, tr) ← m_update s t m; Ok (mkRout s m tr [] [])
  | OFlush t => '(s, tr) ← m_flush s t m; Ok (mkRout s m tr [] [])
  | OConnect t => '(s, m, tr) ← m_sendConnectFlush s t m; Ok (mkRout s m tr [] [])
  | OClose t => '(s, m, tr) ← m_sendCloseFlush s t m; Ok (mkRout s m tr [] [])
  | OWndSize a b => Ok (mkRout (on_fields (fun k => (setWndSize a b k).1) m s) m [] [] [])
  | ONoDelay nd itv re nc =>
      Ok (mkRout (on_fields (fun k => (setNoDelay nd itv re nc k).1) m s) m [] [] [])
  | OMtu mt => '(k, _) ← setMtu mt (abs m s); Ok (mkRout (rearrange k s) m [] [] [])
  | OStream b =>
      Ok (mkRout (on_fields (fun k => k<|stream := if b then 1 else 0|>) m s) m [] [] [])
  end.

(** *** Connections that share the pool

    Each has a control block and the datagrams that wait for [doKcpInput]. *)

Record endpoint := mkEnd { e_block : rkcp; e_box : list rseg }.
#[export] Instance eta_endpoint : Eta endpoint := fun e => mkEnd (e_block e) (e_box e).

(** An operation of the connection [i]; its socket delivers [d]; [doKcpInput] takes the next
    datagram and puts its buffer back. *)
Inductive wop := WOp (i : nat) (o : op) | WRead (i : nat) (d : list byte) | WInput (i : nat) (t : Z).

Definition m_step (w : wop) (es : list endpoint) (m : mem) :
    res (list endpoint * mem * (list event * list byte)) :=
  match w with
  | WOp i o =>
    match es !! i with
    | None => Ok (es, m, ([], []))
    | Some e => r ← m_perform o (e_block e) m;
                Ok (<[i := e<|e_block := ro_block r|>]> es, ro_mem r, (ro_events r, ro_read r))
    end
  | WRead i d =>
    match es !! i with
    | None => Ok (es, m, ([], []))
    | Some e =>
      let '(l, m) := pool_get m in
      let data := mkRef segment0 l 2048 in
      let m := copy_to data 0 d m in
      Ok (<[i := e<|e_box := e_box e ++ [data<|r_len := Nat.min (length d) 2048|>]|>]> es, m, ([], []))
    end
  | WInput i t =>
    match es !! i with
    | Some (mkEnd s (data :: box)) =>
      r ← m_perform (OInput t (bytes_of m data)) s m;
      Ok (<[i := mkEnd (ro_block r) box]> es, delSegment data (ro_mem r), ([], []))
    | _ => Ok (es, m, ([], []))
    end
  end.

Fixpoint m_run (ws : list wop) (es : list endpoint) (m : mem) :
    res (list endpoint * mem * list (list event * list byte)) :=
  match ws with
  | [] => Ok (es, m, [])
  | w :: ws =>
    '(es, m, out) ← m_step w es m;
    '(es, m, outs) ← m_run ws es m;
    Ok (es, m, out :: outs)
  end.

(** *** The same on values *)

Definition v_step (w : wop) (vs : list (KCP * list (list byte))) :
    res (list (KCP * list (list byte)) * (list event * list byte)) :=
  match w with
  | WOp i o =>
    match vs !! i with
    | None => Ok (vs, ([], []))
    | Some (k, box) => r ← perform o k;
                       Ok (<[i := (o_kcp r, box)]> vs, (o_events r, o_read r))
    end
  | WRead i d =>
    match vs !! i with
    | None => Ok (vs, ([], []))
    | Some (k, box) => Ok (<[i := (k, box ++ [take 2048 d])]> vs, ([], []))
    end
  | WInput i t =>
    match vs !! i with
    | Some (k, data :: box) => r ← perform (OInput t data) k; Ok (<[i := (o_kcp r, box)]> vs, ([], []))
    | _ => Ok (vs, ([], []))
    end
  end.

Fixpoint v_run (ws : list wop) (vs : list (KCP * list (list byte))) :
    res (list (KCP * list (list byte)) * list (list event * list byte)) :=
  match ws with
  | [] => Ok (vs, [])
  | w :: ws =>
    '(vs, out) ← v_step w vs;
    '(vs, outs) ← v_run ws vs;
    Ok (vs, out :: outs)
  end.
End Pool.

(** Everything in use, and the values it stands for. *)
Definition held (es : list endpoint) : list rseg :=
  concat (map (fun e => refs (e_block e) ++ e_box e) es).
Definition absw (m : mem) (es : list endpoint) : list (KCP * list (list byte)) :=
  map (fun e => (abs m (e_block e), map (bytes_of m) (e_box e))) es.

(** The connections [ks] before anything is queued, and an empty pool. *)
Definition fresh_ends (ks : list KCP) : list endpoint := map (fun k => mkEnd (mkRk k [] [] [] []) []) ks.
Definition idle (k : KCP) : Prop :=
  snd_queue k = [] /\ snd_buf k = [] /\ rcv_queue k = [] /\ rcv_buf k = [].

(** The two computations end the same way, and with related results if they succeed. *)
Definition follows {A B} (R : A -> B -> Prop) (x : res A) (y : res B) : Prop :=
  match x, y with
  | Ok a, Ok b => R a b
  | Panic p, Panic q => p = q
  | OutOfFuel, OutOfFuel => True
  | _, _ => False
  end.

(** ** Lemmas: ownership *)

(** The references [L] are live: their buffers are different, exist, and are not in the pool. *)
Record own (L : list rseg) (m : mem) : Prop := {
  own_nodup : NoDup (free m ++ map r_at L);
  own_cells : forall l, l ∈ free m ++ map r_at L ->
    exists c, cells m !! l = Some c /\ length c = 2048%nat;
  own_lens : forall r, r ∈ L -> (r_len r <= 2048)%nat;
}.

Definition loc (r : rseg) : nat * nat := (r_at r, r_len r).

(** The buffers of [L] are as before. *)
Definition same_on (L : list rseg) (m m' : mem) : Prop :=
  forall r, r ∈ L -> cells m' !! r_at r = cells m !! r_at r.

Lemma same_on_trans L m m1 m2 : same_on L m m1 -> same_on L m1 m2 -> same_on L m m2.
Proof. intros H1 H2 l Hl. by rewrite H2, H1. Qed.
Lemma same_on_sub L L' m m' : L' ⊆+ L -> same_on L m m' -> same_on L' m m'.
Proof. intros Hs H l Hl. apply H. by eapply elem_of_submseteq. Qed.

Lemma same_bytes L m m' : same_on L m m' -> map (bytes_of m') L = map (bytes_of m) L.
Proof.
  intros Hs. apply map_ext_in. intros r Hr. unfold bytes_of, cell.
  by rewrite Hs by by apply list_elem_of_In.
Qed.

Lemma same_deref L m m' : same_on L m m' -> map (deref m') L = map (deref m) L.
Proof.
  intros Hs. apply map_ext_in. intros r Hr. unfold deref, bytes_of, cell.
  by rewrite Hs by by apply list_elem_of_In.
Qed.

Lemma same_abs s m m' : same_on (refs s) m m' -> abs m' s = abs m s.
Proof.
  intros Hs. unfold abs. rewrite (same_deref (sq s) m m'), (same_deref (sb s) m m'),
    (same_deref (rq s) m m'), (same_deref (rb s) m m'); [done|..];
    (eapply same_on_sub; [|exact Hs]); unfold refs; solve_submseteq.
Qed.

Lemma own_loc L L' m : map loc L' ⊆+ map loc L -> own L m -> own L' m.
Proof.
  intros Hs [N C E].
  assert (map r_at L' ⊆+ map r_at L) as Ha.
  { apply (fmap_submseteq fst) in Hs. rewrite <- !list_fmap_compose in Hs. exact Hs. }
  assert (map r_len L' ⊆+ map r_len L) as El.
  { apply (fmap_submseteq snd) in Hs. rewrite <- !list_fmap_compose in Hs. exact Hs. }
  assert (free m ++ map r_at L' ⊆+ free m ++ map r_at L) as Hm by by apply submseteq_skips_l.
  split.
  - apply submseteq_Permutation in Hm as (k & Hp). rewrite Hp in N. by apply NoDup_app in N as [N _].
  - intros l Hl. apply C. by eapply elem_of_submseteq.
  - intros r Hr. assert (r_len r ∈ map r_len L) as (r' & -> & Hr')%list_elem_of_fmap.
    { eapply elem_of_submseteq; [|exact El]. by apply list_elem_of_fmap_2. }
    by apply E.
Qed.

Lemma own_sub L L' m : L' ⊆+ L -> own L m -> own L' m.
Proof. intros Hs. apply own_loc. by apply (fmap_submseteq loc). Qed.

Lemma own_cons_len r n L m : (n <= 2048)%nat -> own (r :: L) m -> own (r<|r_len := n|> :: L) m.
Proof.
  intros Hn [N C E]. split; [done|done|].
  intros x [->|Hx]%elem_of_cons; [done|]. apply E. by right.
Qed.

Lemma own_cell r L m : own (r :: L) m -> length (cell m (r_at r)) = 2048%nat /\ (r_len r <= 2048)%nat.
Proof.
  intros [N C E]. destruct (C (r_at r)) as (c & Hc & Hl).
  { rewrite elem_of_app. right. by left. }
  unfold cell. rewrite Hc. split; [done|]. apply E. by left.
Qed.

Lemma own_length L m r : own L m -> r ∈ L -> length (bytes_of m r) = r_len r.
Proof.
  intros Ho Hr. apply list_elem_of_split in Hr as (l1 & l2 & ->).
  apply (own_sub _ (r :: l1 ++ l2)) in Ho; [|solve_submseteq].
  destruct (own_cell _ _ _ Ho). unfold bytes_of. rewrite length_take. lia.
Qed.

Section Ownership.
Context `{BufPool}.

Lemma get_own m L l m' n :
  own L m -> pool_get m = (l, m') -> (n <= 2048)%nat ->
  own (mkRef segment0 l n :: L) m' /\ same_on L m m'.
Proof.
  intros [N C E] Eg Hn. unfold pool_get in Eg.
  set (i := default 0%nat (head (picks m))) in *.
  destruct (free m !! i) as [l0|] eqn:Ef; injection Eg as <- <-.
  - split; [|done]. apply delete_Permutation in Ef.
    assert (delete i (free m) ++ map r_at (mkRef segment0 l0 n :: L) ≡ₚ free m ++ map r_at L) as Hp.
    { set (d := delete i (free m)) in *. clearbody d. rewrite Ef. simpl. solve_Permutation. }
    split; simpl in *.
    + by rewrite Hp.
    + intros x Hx. apply C. by rewrite <- Hp.
    + intros r [->|Hr]%elem_of_cons; [done|by apply E].
  - set (l := base.fresh (dom (cells m))).
    assert (cells m !! l = None) as Hl by (apply not_elem_of_dom; apply is_fresh).
    assert (l ∉ free m ++ map r_at L) as Hno.
    { intros Hin. destruct (C l Hin) as (c & Hc & _). by rewrite Hl in Hc. }
    assert (forall x, x ∈ free m ++ map r_at L ->
      <[l := replicate 2048 Byte.x00]> (cells m) !! x = cells m !! x) as Hs.
    { intros x Hx. apply lookup_insert_ne. by intros <-. }
    split; [split; cbn [map free cells r_at]|].
    + rewrite <- Permutation_middle. by constructor.
    + intros x Hx. rewrite <- Permutation_middle in Hx. apply elem_of_cons in Hx as [->|Hx].
      * exists (replicate 2048 Byte.x00). split; [apply lookup_insert_eq|apply length_replicate].
      * destruct (C x Hx) as (c & Hc & Hn2). exists c. split; [|done]. rewrite <- Hc. by apply Hs.
    + intros r [->|Hr]%elem_of_cons; [done|by apply E].
    + intros r Hr. apply Hs. apply elem_of_app. right. by apply list_elem_of_fmap_2.
Qed.

Lemma put_own r L m : own (r :: L) m -> own L (delSegment r m) /\ same_on L m (delSegment r m).
Proof.
  intros [N C E]. simpl in N, C. rewrite <- Permutation_middle in N.
  pose proof N as [Hno N']%NoDup_cons. split; [split; simpl|].
  - done.
  - intros x [->|Hx]%elem_of_cons.
    + exists pool_bytes. by rewrite lookup_insert_eq, pool_bytes_length.
    + rewrite lookup_insert_ne by (intros Ex; apply Hno; by rewrite Ex). apply C.
      rewrite <- Permutation_middle. by right.
  - intros x Hx. apply E. by right.
  - intros x Hx. simpl. apply lookup_insert_ne. intros Ex. apply Hno. rewrite Ex.
    apply elem_of_app. right. by apply list_elem_of_fmap_2.
Qed.

Lemma del_all_own rs : forall L m, own (rs ++ L) m ->
  own L (del_all rs m) /\ same_on L m (del_all rs m).
Proof.
  induction rs as [|r rs IH]; intros L m Ho; [done|]. cbn [del_all foldl].
  destruct (put_own r (rs ++ L) m Ho) as [H1 S1]. destruct (IH L _ H1) as [H2 S2].
  split; [done|]. eapply same_on_trans; [|exact S2]. eapply same_on_sub; [|exact S1].
  solve_submseteq.
Qed.

Lemma copy_own r off src L m :
  own (r :: L) m -> (off <= r_len r)%nat ->
  own (r :: L) (copy_to r off src m) /\ same_on L m (copy_to r off src m) /\
  bytes_of (copy_to r off src m) r = take off (bytes_of m r) ++ go_copy (drop off (bytes_of m r)) src.
Proof.
  intros Ho Hoff. destruct (own_cell _ _ _ Ho) as [Hl Hr]. destruct Ho as [N C E]. simpl in N, C.
  rewrite <- Permutation_middle in N. pose proof N as [Hno N']%NoDup_cons.
  set (c := cell m (r_at r)) in *.
  set (x := take off c ++ go_copy (drop off (take (r_len r) c)) src).
  assert (length x = r_len r) as Hx.
  { subst x. rewrite length_app, go_copy_length, length_drop, !length_take. lia. }
  assert (cells (copy_to r off src m) = <[r_at r := x ++ drop (r_len r) c]> (cells m)) as Em.
  { unfold copy_to. fold c. subst x. simpl. by rewrite app_assoc. }
  split; [split|split].
  - simpl. by rewrite <- Permutation_middle.
  - intros y Hy. rewrite Em. simpl in Hy. destruct (decide (y = r_at r)) as [->|Hne].
    + eexists. rewrite lookup_insert_eq. split; [done|]. rewrite length_app, Hx, length_drop. lia.
    + rewrite lookup_insert_ne by done. by apply C.
  - done.
  - intros y Hy. rewrite Em. apply lookup_insert_ne. intros Ey. apply Hno. rewrite Ey.
    apply elem_of_app. right. by apply list_elem_of_fmap_2.
  - unfold bytes_of, cell. rewrite Em, lookup_insert_eq. simpl.
    change (default [] (cells m !! r_at r)) with c.
    rewrite take_app_le, take_ge by lia. subst x. f_equal. by rewrite take_take, Nat.min_l.
Qed.
End Ownership.
