(* ===== verification/Owned.v ===== *)
(** * Segments on shared buffers behave as values ([kcp.go], [kcpconn.go])

    Every operation of [Pool.v], on segments that refer to buffers of the shared pool, has the
    effect of the operation on values with which the other files compute. The theorem says it for
    whole systems of connections: no two segments share a buffer and none in use is in the pool,
    so that nothing one connection does changes the data of another. *)
From S2P Require Import Prelude GoInt Stats Wire Kcp Serial Send Recv Ack Input Flush Flushed Timer Session Pool.

(** ** Lemmas: related results *)

Lemma follows_bind {A B A' B'} (R : A -> A' -> Prop) (S : B -> B' -> Prop) x y f g :
  follows R x y -> (forall a b, R a b -> follows S (f a) (g b)) -> follows S (mbind f x) (mbind g y).
Proof. destruct x, y; simpl; try done. auto. Qed.

Lemma follows_same {A B B'} (S : B -> B' -> Prop) (x : res A) f g :
  (forall a, x = Ok a -> follows S (f a) (g a)) -> follows S (mbind f x) (mbind g x).
Proof. destruct x; simpl; [auto|done|done]. Qed.

Lemma follows_mono {A B} (R S : A -> B -> Prop) x y :
  follows R x y -> (forall a b, R a b -> S a b) -> follows S x y.
Proof. destruct x, y; simpl; auto. Qed.

(** ** Lemmas: segments that move and change their fields *)

(** The data of the segments is where it was, but for moves from one list to the next. *)
Definition moves (k k' : KCP) : Prop :=
  map seg_data (snd_buf k' ++ snd_queue k') = map seg_data (snd_buf k ++ snd_queue k) /\
  map seg_data (rcv_queue k' ++ rcv_buf k') = map seg_data (rcv_queue k ++ rcv_buf k).

Definition lists (k : KCP) := (snd_buf k, snd_queue k, rcv_queue k, rcv_buf k).

Lemma lists_eq k k' : lists k = lists k' ->
  snd_buf k = snd_buf k' /\ snd_queue k = snd_queue k' /\ rcv_queue k = rcv_queue k' /\
  rcv_buf k = rcv_buf k'.
Proof. unfold lists. by intros [= -> -> -> ->]. Qed.

Lemma moves_lists k k' : lists k' = lists k -> moves k k'.
Proof. unfold lists, moves. by intros [= -> -> -> ->]. Qed.
Lemma moves_trans k1 k2 k3 : moves k1 k2 -> moves k2 k3 -> moves k1 k3.
Proof. intros [A B] [C D]. split; congruence. Qed.

Lemma map_deref_data m l : map seg_data (map (deref m) l) = map (bytes_of m) l.
Proof. rewrite map_map. by apply map_ext. Qed.

Lemma set_data_same (h : segment) : h<|seg_data := seg_data h|> = h.
Proof. by destruct h. Qed.

Lemma with_heads_loc rs : forall hs, length hs = length rs -> map loc (with_heads rs hs) = map loc rs.
Proof.
  induction rs as [|r rs IH]; intros [|h hs] Hl; try done.
  simpl in Hl. cbn. unfold with_heads in IH. by rewrite IH by lia.
Qed.

Lemma with_heads_deref m rs : forall hs,
  map seg_data hs = map (bytes_of m) rs -> map (deref m) (with_heads rs hs) = hs.
Proof.
  induction rs as [|r rs IH]; intros [|h hs] Hl; try done.
  cbn in Hl. injection Hl as E Hl. cbn. unfold with_heads in IH. rewrite IH by done. f_equal.
  unfold deref. simpl. change (bytes_of m (r<|r_head := h|>)) with (bytes_of m r).
  rewrite <- E. apply set_data_same.
Qed.

Lemma rearrange_ok m s k O :
  own (refs s ++ O) m -> moves (abs m s) k ->
  own (refs (rearrange k s) ++ O) m /\ abs m (rearrange k s) = k.
Proof.
  intros Ho [Hs Hr]. cbn in Hs, Hr. rewrite <- !map_app in Hs, Hr.
  rewrite !map_deref_data in Hs, Hr.
  pose proof (f_equal length Hs) as Ls. pose proof (f_equal length Hr) as Lr.
  rewrite !length_map in Ls, Lr.
  pose proof (with_heads_deref _ _ _ Hs) as Ds. pose proof (with_heads_deref _ _ _ Hr) as Dr.
  pose proof (with_heads_loc _ _ Ls) as Os. pose proof (with_heads_loc _ _ Lr) as Or.
  split.
  - eapply own_loc; [|exact Ho]. unfold refs, rearrange. cbn [sb sq rq rb].
    rewrite !take_drop, !map_app, Os, Or, !map_app. done.
  - unfold abs, rearrange. cbn [rk sb sq rq rb].
    rewrite <- !skipn_map, <- !firstn_map, Ds, Dr.
    rewrite !take_app_length, !drop_app_length. by destruct k.
Qed.

(** The block [s] stands for [k], it owns its segments beside [O], and the buffers of [O] are
    as they were in [m0]. *)
Definition sim (O : list rseg) (m0 : mem) (s : rkcp) (m : mem) (k : KCP) : Prop :=
  own (refs s ++ O) m /\ same_on O m0 m /\ abs m s = k.

Lemma sim_rearrange O m0 s m k k' : sim O m0 s m k -> moves k k' -> sim O m0 (rearrange k' s) m k'.
Proof.
  intros (Ho & Hs & <-) Hk. destruct (rearrange_ok m s k' O Ho Hk) as [H1 H2]. done.
Qed.

Lemma sim_fields O m0 s m k f : sim O m0 s m k -> moves k (f k) -> sim O m0 (on_fields f m s) m (f k).
Proof. intros Hs Hk. pose proof Hs as (_ & _ & E). unfold on_fields. rewrite E. by eapply sim_rearrange. Qed.

Lemma sim_trans O m0 m1 s m k : same_on O m0 m1 -> sim O m1 s m k -> sim O m0 s m k.
Proof. intros H1 (Ho & Hs & E). split_and!; [done| |done]. by eapply same_on_trans. Qed.

Lemma move_ready_moves k : moves k (move_ready k).
Proof.
  unfold move_ready. destruct (ready _ _ _ _ _) as [nxt c]. split; [done|].
  simpl. by rewrite <- app_assoc, take_drop.
Qed.

Lemma shrink_buf_moves k : moves k (shrink_buf k).
Proof. apply moves_lists. unfold shrink_buf. by destruct (snd_buf k). Qed.

Lemma parse_fastack_moves sn k : moves k (parse_fastack sn k).
Proof.
  unfold parse_fastack. destruct (_ || _); [done|]. split; [|done].
  simpl. by rewrite !map_app, bump_fastack_data.
Qed.

Lemma update_ack_moves rtt k : moves k (update_ack rtt k).
Proof.
  apply moves_lists. unfold update_ack. destruct (rx_srtt k =? 0); [done|]. by destruct (_ <? 1).
Qed.

Lemma with_stats_moves f k k' : with_stats f k = Ok k' -> moves k k'.
Proof. intros [s ->]%with_stats_Ok_inv. by apply moves_lists. Qed.

Lemma input_cwnd_moves una k k' : input_cwnd una k = Ok k' -> moves k k'.
Proof.
  unfold input_cwnd. intros E. apply moves_lists. destruct (_ && _); [|by injection E as <-].
  apply bind_Ok_inv in E as (k1 & E1 & E). assert (lists k1 = lists k) as <-.
  { destruct (_ <? _); [by injection E1 as <-|]. destruct (incr k <? _);
      res_inv; destruct (_ <=? _); by injection E1 as <-. }
  by destruct (cwnd k1 >? _); injection E as <-.
Qed.

Lemma recvSize_moves k : moves k (recvSize k).1.
Proof.
  apply moves_lists. unfold recvSize. destruct (rcv_queue k); [done|].
  destruct (_ =? 0); [by destruct (_ =? 0)|]. by destruct (_ <? _).
Qed.

Lemma setNoDelay_moves nd itv re nc k : moves k (setNoDelay nd itv re nc k).1.
Proof.
  apply moves_lists. unfold setNoDelay. simpl.
  destruct (nd >=? 0), (itv >=? 0), (re >=? 0), (nc >=? 0); try destruct (nd =? 0); done.
Qed.

Lemma setWndSize_moves a b k : moves k (setWndSize a b k).1.
Proof. apply moves_lists. unfold setWndSize. simpl. by destruct (a >? 0), (b >? 0). Qed.

Lemma setMtu_moves mt k k' n : setMtu mt k = Ok (k', n) -> moves k k'.
Proof.
  unfold setMtu. intros E. apply moves_lists. destruct (_ || _); [by injection E as <- <-|].
  apply bind_Ok_inv in E as (b & _ & E). by injection E as <- <-.
Qed.

(** ** Lemmas: flushing moves segments and reads their data *)

Section FlushKeeps.

Lemma flush_acks_kcp acks : forall i n s f s' f',
  flush_acks acks i n s f = Ok (s', f') -> fkcp f' = fkcp f.
Proof.
  induction acks as [|a acks IH]; intros i n s f s' f' E; simpl in E; [by injection E as <- <-|].
  apply bind_Ok_inv in E as (f1 & E1 & E). apply make_room_kcp in E1. rewrite <- E1.
  destruct (_ || _); [|by eapply IH].
  apply bind_Ok_inv in E as (f2 & E2 & E). apply flush_encode_kcp in E2. rewrite <- E2.
  by eapply IH.
Qed.

Lemma flush_command_kcp bit cmd s f s' f' :
  flush_command bit cmd s f = Ok (s', f') -> fkcp f' = fkcp f.
Proof.
  unfold flush_command. destruct (negb _); [|by intros [= <- <-]]. intros E.
  apply bind_Ok_inv in E as (f1 & E1 & E). apply bind_Ok_inv in E as (f2 & E2 & E).
  injection E as <- <-. by rewrite (flush_encode_kcp _ _ _ E2), (make_room_kcp _ _ _ E1).
Qed.

Lemma flush_probe_lists current k : lists (flush_probe current k) = lists k.
Proof.
  unfold flush_probe. destruct (rmt_wnd k =? 0); [|done]. destruct (probe_wait k =? 0); [done|].
  destruct (_ >=? 0); [|done]. destruct (_ <? IKCP_PROBE_INIT); by destruct (_ >? IKCP_PROBE_LIMIT).
Qed.

Lemma flush_control_lists current f s f' :
  flush_control current f = Ok (s, f') -> lists (fkcp f') = lists (fkcp f).
Proof.
  unfold flush_control. intros E. apply bind_Ok_inv in E as ([s1 f1] & E1 & E).
  apply bind_Ok_inv in E as ([s2 f2] & E2 & E). apply bind_Ok_inv in E as ([s3 f3] & E3 & E).
  injection E as <- <-. apply flush_acks_kcp in E1. apply flush_command_kcp in E2, E3.
  change (lists (fkcp f3) = lists (fkcp f)). rewrite E3, E2. simpl. rewrite flush_probe_lists.
  by rewrite <- E1.
Qed.

Lemma flush_move_moves q cw wnd current : forall k n,
  let '(k', c) := flush_move q cw wnd current k n in
  exists j, c = (n + j)%nat /\
  map seg_data (snd_buf k') = map seg_data (snd_buf k) ++ map seg_data (take j q) /\
  snd_queue k' = snd_queue k /\ rcv_queue k' = rcv_queue k /\ rcv_buf k' = rcv_buf k.
Proof.
  induction q as [|s q IH]; intros k n; simpl.
  - exists 0%nat. by rewrite Nat.add_0_r, app_nil_r.
  - destruct (_ >=? 0); [exists 0%nat; by rewrite Nat.add_0_r, app_nil_r|].
    match goal with |- context [flush_move q _ _ _ ?k1 _] => specialize (IH k1 (S n)) end.
    destruct (flush_move _ _ _ _ _ _) as [k' c]. destruct IH as (j & -> & E1 & E2 & E3 & E4).
    exists (S j). split_and!; [lia| |done|done|done].
    rewrite E1. simpl. rewrite map_app, <- app_assoc. done.
Qed.

Lemma flush_write_lists s f f' : flush_write s f = Ok f' -> lists (fkcp f') = lists (fkcp f).
Proof.
  unfold flush_write. intros E. apply bind_Ok_inv in E as (f1 & E1 & E).
  apply bind_Ok_inv in E as (f2 & E2 & E). apply bind_Ok_inv in E as (p & _ & E).
  injection E as <-. apply make_room_kcp in E1. apply flush_encode_kcp in E2.
  change (lists (fkcp f2) = lists (fkcp f)). rewrite E2, <- E1.
  destruct (stats (fkcp f1)); [|done]. by destruct (_ =? _).
Qed.

Lemma flush_one_moves current resent wnd hp s c f s' c' f' :
  flush_one current resent wnd hp s c f = Ok (s', c', f') ->
  seg_data s' = seg_data s /\ lists (fkcp f') = lists (fkcp f).
Proof.
  unfold flush_one. pose proof (proj1 (flush_segment_data (fkcp f) current resent hp s)) as Hd.
  destruct (flush_segment _ _ _ _ _) as [s1 kind]. simpl in Hd.
  set (f1 := match kind with SLost => _ | _ => _ end).
  assert (lists (fkcp f1) = lists (fkcp f)) as Hf by (subst f1; by destruct kind).
  destruct (needsend kind); intros E.
  - apply bind_Ok_inv in E as (f2 & E2 & E). injection E as <- <- <-.
    apply flush_write_lists in E2. split; [done|by rewrite E2].
  - by injection E as <- <- <-.
Qed.

Lemma flush_data_moves current resent wnd hp buf : forall c f buf' c' f',
  flush_data buf current resent wnd hp c f = Ok (buf', c', f') ->
  map seg_data buf' = map seg_data buf /\ lists (fkcp f') = lists (fkcp f).
Proof.
  induction buf as [|s buf IH]; intros c f buf' c' f' E; simpl in E; [by injection E as <- <- <-|].
  apply bind_Ok_inv in E as ([[s1 c1] f1] & E1 & E).
  apply bind_Ok_inv in E as ([[b2 c2] f2] & E2 & E). injection E as <- <- <-.
  apply flush_one_moves in E1 as [D1 L1]. apply IH in E2 as [D2 L2].
  simpl. rewrite D1, D2. split; [done|congruence].
Qed.

Lemma flush_cwnd_lists cw resent c k : lists (flush_cwnd cw resent c k) = lists k.
Proof.
  destruct (flush_cwnd_fields cw resent c k) as (t & w & i & ->). done.
Qed.

Lemma flush_moves k current k' tr : flush k current = Ok (k', tr) -> moves k k'.
Proof.
  unfold flush. intros E. apply bind_Ok_inv in E as ([s f] & E1 & E).
  apply flush_control_lists in E1. simpl in E1.
  pose proof (flush_move_moves (snd_queue (fkcp f)) (calc_cwnd (fkcp f)) (seg_wnd s) current
                (fkcp f) 0) as Hm.
  destruct (flush_move _ _ _ _ _ _) as [k1 c]. destruct Hm as (j & -> & M1 & M2 & M3 & M4).
  apply bind_Ok_inv in E as ([cc f2] & E2 & E). injection E as <- <-.
  unfold flush_segments in E2. apply bind_Ok_inv in E2 as ([[buf c2] f3] & E2 & E3).
  apply flush_data_moves in E2 as [D L]. simpl in D, L.
  apply bind_Ok_inv in E3 as (k4 & E4 & E3). apply with_stats_Ok_inv in E4 as (st & ->).
  apply bind_Ok_inv in E3 as (f5 & E5 & E3). injection E3 as <- <-.
  assert (lists (fkcp f5) = lists ((fkcp f3)<|snd_buf := buf|>)) as L5.
  { destruct (_ >? 0); [by rewrite (flush_output_kcp _ _ E5)|by injection E5 as <-]. }
  apply lists_eq in E1 as (Q1 & Q2 & Q3 & Q4). apply lists_eq in L as (R1 & R2 & R3 & R4).
  apply lists_eq in L5 as (S1 & S2 & S3 & S4).
  match goal with |- moves _ ?k' => assert (lists k' = lists (fkcp f5)) as LL end.
  { etrans; [apply flush_cwnd_lists|done]. }
  apply lists_eq in LL as (P1 & P2 & P3 & P4). simpl in R1, R2, R3, R4, S1, S2, S3, S4.
  split.
  - rewrite P1, P2, S1, S2, R2, map_app, D, M1, M2, Q2.
    rewrite map_app, Q1, <- app_assoc. f_equal. by rewrite <- map_app, take_drop.
  - by rewrite P3, P4, S3, S4, R3, R4, M3, M4, Q3, Q4.
Qed.

Lemma update_moves k current k' tr : update k current = Ok (k', tr) -> moves k k'.
Proof.
  unfold update. set (k1 := if updated k =? 0 then _ else _).
  assert (lists k1 = lists k) as L1 by (subst k1; by destruct (_ =? 0)).
  set (p := if _ || _ then _ else _). assert (lists p.1 = lists k1) as L2 by (subst p; by destruct (_ || _)).
  clearbody k1 p. destruct p as [k2 slap]. simpl in L2.
  destruct (slap >=? 0); intros E.
  - apply flush_moves in E. eapply moves_trans; [|exact E]. apply moves_lists.
    rewrite <- L1, <- L2. by destruct (_ >=? 0).
  - injection E as <- <-. apply moves_lists. congruence.
Qed.
End FlushKeeps.

(** ** Lemmas: making, filling and recycling segments *)

Lemma sim_mem O m0 s m m' k :
  sim O m0 s m k -> same_on (refs s ++ O) m m' -> own (refs s ++ O) m' -> sim O m0 s m' k.
Proof.
  intros (Ho & Hs & <-) Hm Ho'. split_and!; [done| |].
  - eapply same_on_trans; [exact Hs|]. eapply same_on_sub; [|exact Hm]. solve_submseteq.
  - apply same_abs. eapply same_on_sub; [|exact Hm]. solve_submseteq.
Qed.

Lemma sim_length O m0 s m k r : sim O m0 s m k -> r ∈ refs s -> len (bytes_of m r) = Z.of_nat (r_len r).
Proof.
  intros (Ho & _) Hr. f_equal. eapply own_length; [exact Ho|]. apply elem_of_app. by left.
Qed.

Lemma go_copy_front {A} (dst src : list A) :
  (length dst <= length src)%nat -> go_copy dst src = take (length dst) src.
Proof. intros Hl. unfold go_copy. by rewrite drop_ge, app_nil_r by lia. Qed.

(** A segment grows in its buffer: on references and on values. *)
Lemma extend_own old e buf L m :
  own (old :: L) m -> 0 <= e <= len buf -> Z.of_nat (r_len old) + e <= 2048 ->
  let seg := old<|r_len := Z.to_nat (Z.of_nat (r_len old) + e)|> in
  let m' := copy_to seg (r_len old) buf m in
  own (seg :: L) m' /\ same_on L m m' /\
  bytes_of m' seg = bytes_of m old ++ take (Z.to_nat e) buf.
Proof.
  intros Ho He Hx. set (n2 := Z.to_nat _). simpl.
  assert (own (old<|r_len := n2|> :: L) m) as Hown2 by (apply own_cons_len; [lia|done]).
  destruct (copy_own _ (r_len old) buf _ _ Hown2) as (C1 & C2 & C3); [simpl; lia|].
  set (seg := old<|r_len := n2|>) in *. split_and!; [done|done|].
  assert (length (bytes_of m seg) = n2) as Ln
    by (rewrite (own_length _ _ _ Hown2) by (by left); done).
  rewrite C3. f_equal.
  - unfold bytes_of. rewrite take_take. f_equal. subst seg. simpl. lia.
  - rewrite go_copy_front; rewrite length_drop, Ln; [f_equal|]; lia.
Qed.

Lemma reslice_fill `{BufPool} (d buf : list byte) n e :
  Z.of_nat n + e <= 2048 -> 0 <= e <= len buf -> length d = n ->
  let data := d ++ take (Z.to_nat (Z.of_nat n + e - Z.of_nat n)) (drop (length d) pool_bytes) in
  take (length d) data ++ go_copy (drop (length d) data) buf = d ++ take (Z.to_nat e) buf.
Proof.
  intros Hx He Hn. simpl. rewrite take_app_length, drop_app_length. f_equal.
  assert (length (take (Z.to_nat (Z.of_nat n + e - Z.of_nat n)) (drop (length d) pool_bytes))
          = Z.to_nat e) as Lp.
  { rewrite length_take, length_drop, pool_bytes_length. lia. }
  rewrite go_copy_front; rewrite Lp; [done|lia].
Qed.

Section Simulation.
Context `{BufPool}.

Lemma m_newSegment_sim size m L :
  own L m ->
  follows (fun x seg => own (x.1 :: L) x.2 /\ same_on L m x.2 /\ r_head x.1 = segment0 /\
      r_len x.1 = Z.to_nat size /\ length (seg_data seg) = Z.to_nat size /\ 0 <= size /\
      seg = segment0<|seg_data := seg_data seg|>)
    (m_newSegment size m) (newSegment size).
Proof.
  intros Ho. unfold m_newSegment, newSegment, udpPacketSizeLimit.
  destruct (Z.leb_spec 0 size); [|done]. destruct (Z.leb_spec size 2048); [|done]. simpl.
  destruct (pool_get m) as [l m'] eqn:Eg.
  destruct (get_own m L l m' (Z.to_nat size) Ho Eg) as [O1 O2]; [lia|].
  simpl. split_and!; try done. rewrite length_take, pool_bytes_length. lia.
Qed.

Lemma fill_own r src L m :
  own (r :: L) m -> length src = r_len r ->
  own (r :: L) (copy_to r 0 src m) /\ same_on L m (copy_to r 0 src m) /\
  bytes_of (copy_to r 0 src m) r = src.
Proof.
  intros Ho Hl. destruct (copy_own r 0 src L m Ho) as (H1 & H2 & H3); [lia|].
  split_and!; [done|done|]. rewrite H3. simpl. rewrite drop_0. apply go_copy_all.
  rewrite Hl. symmetry. eapply own_length; [exact Ho|]. by left.
Qed.

(** A new segment with the head [h] joins the queue. *)
Lemma queue_sim O m0 s m k r h d :
  sim O m0 s m k -> own (r :: refs s ++ O) m -> bytes_of m r = d ->
  sim O m0 (s<|sq := sq s ++ [r<|r_head := h|>]|>) m
    (k<|snd_queue := snd_queue k ++ [h<|seg_data := d|>]|>).
Proof.
  intros (Ho & Hs & <-) Hr <-. split_and!; [|done|].
  - eapply own_loc; [|exact Hr]. unfold refs. simpl. rewrite !map_app. simpl.
    change (loc (r<|r_head := h|>)) with (loc r). solve_submseteq.
  - unfold abs. simpl. by rewrite map_app.
Qed.

Lemma m_mark_sim O m0 cmd s m k :
  sim O m0 s m k ->
  follows (fun x k' => sim O m0 x.1 x.2 k') (m_mark cmd s m)
    (seg ← newSegment 0; Ok (k<|snd_queue := snd_queue k ++ [seg<|seg_cmd := cmd|>]|>)).
Proof.
  intros Hs. pose proof Hs as (Ho & _). unfold m_mark.
  eapply follows_bind; [by apply m_newSegment_sim|].
  intros [r m'] seg (H1 & H2 & Hh & Hl & Hd & _ & ->). cbn [fst snd] in *. cbn [follows].
  eapply sim_mem in Hs; [|done|eapply own_sub; [|exact H1]; solve_submseteq].
  assert (bytes_of m' r = seg_data seg) as Hb.
  { apply length_zero_iff_nil in Hd. rewrite Hd. apply length_zero_iff_nil.
    erewrite own_length; [|exact H1|by left]. done. }
  rewrite Hh. exact (queue_sim O m0 s m' k r (segment0<|seg_cmd := cmd|>) _ Hs H1 Hb).
Qed.

Lemma m_send_fragments_sim O m0 count n : forall i s buf m k,
  sim O m0 s m k ->
  follows (fun x k' => sim O m0 x.1 x.2 k') (m_send_fragments n count i s buf m)
    (send_fragments n count i k buf).
Proof.
  induction n as [|n IH]; intros i s buf m k Hs; [done|].
  pose proof Hs as (Ho & _ & Ek). cbn [m_send_fragments send_fragments].
  assert (mss k = mss (rk s)) as -> by by rewrite <- Ek.
  assert (stream k = stream (rk s)) as -> by by rewrite <- Ek.
  set (size := if _ >? _ then _ else _).
  assert (size <= len buf) as Hsz by (subst size; destruct (Z.gtb_spec (len buf) (mss (rk s))); lia).
  clearbody size.
  eapply follows_bind; [by apply m_newSegment_sim|].
  intros [r m1] seg (H1 & H2 & Hh & Hl & Hd & H0 & ->). cbn [fst snd] in *.
  assert (length (take (Z.to_nat size) buf) = r_len r) as Ht by (rewrite length_take; lia).
  destruct (fill_own r _ _ _ H1 Ht) as (H3 & H4 & H5). rewrite Hh.
  set (m2 := copy_to r 0 _ m1) in *.
  assert (sim O m0 s m2 k) as Hs2.
  { eapply sim_mem; [exact Hs| |eapply own_sub; [|exact H3]; solve_submseteq].
    by eapply same_on_trans. }
  set (src := take _ buf) in *.
  assert (go_copy (seg_data seg) src = src) as Hc by (apply go_copy_all; lia).
  apply follows_same. intros buf' _.
  rewrite <- Hc in H5. set (h := segment0<|seg_cmd := IKCP_CMD_PUSH|>).
  apply IH. destruct (_ =? 0);
    [exact (queue_sim O m0 s m2 k r (h<|seg_frg := u32 (count - i - 1)|>) _ Hs2 H3 H5)
    |exact (queue_sim O m0 s m2 k r (h<|seg_frg := 0|>) _ Hs2 H3 H5)].
Qed.

Lemma m_send_merge_sim O m0 s buf m k :
  sim O m0 s m k ->
  follows (fun '(s', b, m') '(k', b') => sim O m0 s' m' k' /\ b = b') (m_send_merge s buf m)
    (send_merge k buf).
Proof.
  intros Hs. pose proof Hs as (Ho & H0 & Ek). unfold m_send_merge, send_merge.
  assert (snd_queue k = map (deref m) (sq s)) as Eq by by rewrite <- Ek.
  assert (mss k = mss (rk s)) as -> by by rewrite <- Ek.
  rewrite Eq, length_map.
  destruct (last (sq s)) as [old|] eqn:El.
  2: { apply last_None in El. rewrite El. simpl. done. }
  apply last_Some in El as [l El]. rewrite El, map_app. cbn [map]. rewrite last_snoc, length_app.
  cbn [length].
  assert (own (old :: (sb s ++ l ++ rq s ++ rb s) ++ O) m) as Hown.
  { eapply own_sub; [|exact Ho]. unfold refs. rewrite El. solve_submseteq. }
  assert (len (bytes_of m old) = Z.of_nat (r_len old)) as Hlen.
  { f_equal. eapply own_length; [exact Hown|by left]. }
  change (seg_data (deref m old)) with (bytes_of m old).
  change (seg_cmd (deref m old)) with (seg_cmd (r_head old)). rewrite Hlen.
  destruct (Z.ltb_spec (Z.of_nat (r_len old)) (mss (rk s))) as [Hm|Hm]; [|done].
  destruct (_ =? _); [|done]. cbn [andb].
  set (extend := if _ <? _ then _ else _).
  assert (0 <= extend <= len buf) as He
    by (subst extend; destruct (Z.ltb_spec (len buf) (mss (rk s) - Z.of_nat (r_len old))); lia).
  unfold reslice, udpPacketSizeLimit.
  rewrite Hlen, (proj2 (Z.leb_le (Z.of_nat (r_len old)) _)) by lia. cbn [andb].
  destruct (Z.leb_spec (Z.of_nat (r_len old) + extend) 2048) as [Hx|Hx]; [|done].
  cbn [go_check mbind res_bind].
  destruct (extend_own old extend buf _ _ Hown) as (C1 & C2 & Eb); [lia..|].
  set (seg := old<|r_len := _|>) in *. set (m' := copy_to seg (r_len old) buf m) in *.
  rewrite reslice_fill, <- Eb by lia.
  apply follows_same. intros buf' _. cbn [follows].
  rewrite Nat.add_sub, !insert_app_r_alt by (rewrite ?length_map; lia).
  rewrite length_map, Nat.sub_diag. cbn [insert list_insert].
  split; [|done]. split_and!.
  - eapply own_sub; [|exact C1]. unfold refs. simpl. solve_submseteq.
  - eapply same_on_trans; [exact H0|]. eapply same_on_sub; [|exact C2]. solve_submseteq.
  - assert (forall x, x ⊆+ l ++ sb s ++ rq s ++ rb s -> map (deref m') x = map (deref m) x) as Hd.
    { intros x Hin. apply same_deref. eapply same_on_sub; [|exact C2]. rewrite Hin. solve_submseteq. }
    rewrite <- Ek. unfold abs. simpl. rewrite map_app.
    rewrite !Hd by solve_submseteq. done.
Qed.

Lemma m_send_sim O m0 s buf m k :
  sim O m0 s m k ->
  follows (fun '(s', m', c) '(k', c') => sim O m0 s' m' k' /\ c = c') (m_send s buf m) (send k buf).
Proof.
  intros Hs. pose proof Hs as (_ & _ & Ek). unfold m_send, send.
  assert (stream k = stream (rk s)) as -> by by rewrite <- Ek.
  destruct (len buf =? 0); [done|].
  eapply (follows_bind (fun '(s', b, m') '(k', b') => sim O m0 s' m' k' /\ b = b')).
  { destruct (negb _); [by apply m_send_merge_sim|done]. }
  intros [[s1 b1] m1] [k1 b] [Hs1 ->]. pose proof Hs1 as (_ & _ & Ek1).
  assert (stream k1 = stream (rk s1)) as -> by by rewrite <- Ek1.
  assert (mss k1 = mss (rk s1)) as -> by by rewrite <- Ek1.
  destruct (_ && _); [done|]. apply follows_same. intros _ _.
  set (count := Z.quot _ _). destruct (_ && _); [done|].
  eapply follows_bind; [by apply m_send_fragments_sim|]. intros [s2 m2] k2 Hs2. done.
Qed.

(** *** Recycling *)

Lemma m_recv_merge_sim L : forall q c n count m,
  own (q ++ L) m ->
  follows (fun '(c', n', count', m') '(d, n2, count2) => c' = d /\ n' = n2 /\ count' = count2 /\
      exists j, count' = (count + j)%nat /\ own (drop j q ++ L) m' /\ same_on (drop j q ++ L) m m')
    (m_recv_merge q c n count m) (recv_merge (map (deref m) q) c n count).
Proof.
  induction q as [|seg q IH]; intros c n count m Ho; simpl.
  { split_and!; [done..|]. exists 0%nat. split_and!; [lia|done|done]. }
  apply follows_same. intros c1 _.
  rewrite (own_length _ _ _ Ho) by (apply elem_of_app; left; by left).
  destruct (put_own seg (q ++ L) m Ho) as [O1 S1].
  destruct (_ =? 0).
  { simpl. split_and!; [done..|]. exists 1%nat. split_and!; [lia|done|done]. }
  rewrite <- (same_deref q m (delSegment seg m)) by (eapply same_on_sub; [|exact S1]; solve_submseteq).
  eapply follows_mono; [by apply IH|].
  intros [[[c' n'] count'] m'] [[d n2] count2] (-> & -> & -> & j & Hj & O2 & S2).
  split_and!; [done..|]. exists (S j). split_and!; [lia|done|].
  eapply same_on_trans; [|exact S2]. eapply same_on_sub; [|exact S1].
  cbn [drop]. apply submseteq_skips_r, submseteq_drop.
Qed.

Lemma m_recv_sim O m0 s buf m k :
  sim O m0 s m k ->
  follows (fun '(s', m', b, n) '(k', b', n') => sim O m0 s' m' k' /\ b = b' /\ n = n')
    (m_recv s buf m) (recv k buf).
Proof.
  intros Hs. pose proof Hs as (Ho & H0 & Ek). unfold m_recv, recv.
  assert (rcv_queue k = map (deref m) (rq s)) as Eq by by rewrite <- Ek.
  assert (rcv_wnd k = rcv_wnd (rk s)) as -> by by rewrite <- Ek.
  rewrite Eq, length_map. set (fast := len (rq s) >=? rcv_wnd (rk s)). clearbody fast.
  eapply follows_bind.
  { apply (m_recv_merge_sim (sb s ++ sq s ++ rb s ++ O)). eapply own_sub; [|exact Ho].
    unfold refs. solve_submseteq. }
  intros [[[c n] count] m1] [[d n2] count2] (-> & -> & -> & j & -> & O1 & S1).
  set (s1 := s<|rq := drop (0 + j) (rq s)|>).
  assert (sim O m0 s1 m1 (k<|rcv_queue := drop (0 + j) (map (deref m) (rq s))|>)) as Hs1.
  { split_and!.
    - eapply own_sub; [|exact O1]. unfold refs, s1. simpl. solve_submseteq.
    - eapply same_on_trans; [exact H0|]. eapply same_on_sub; [|exact S1]. solve_submseteq.
    - rewrite (same_abs s1 m m1).
      + rewrite <- Ek. unfold abs, s1. simpl. by rewrite skipn_map.
      + eapply same_on_sub; [|exact S1]. unfold refs, s1. simpl. solve_submseteq. }
  apply (sim_fields _ _ _ _ _ move_ready) in Hs1; [|apply move_ready_moves].
  set (s2 := on_fields move_ready m1 s1) in *. set (k2 := move_ready _) in *. clearbody s2 k2.
  assert (len (rq s2) = len (rcv_queue k2)) as ->.
  { destruct Hs1 as (_ & _ & <-). simpl. by rewrite length_map. }
  assert (rcv_wnd k2 = rcv_wnd (rk s2)) as -> by by destruct Hs1 as (_ & _ & <-).
  simpl. split_and!; [|done|done]. destruct (_ && _); [|done].
  by apply (sim_fields _ _ _ _ _ (fun kcp => kcp<|probe := Z.lor (probe kcp) IKCP_ASK_TELL|>)).
Qed.

Lemma m_read_round_sim O m0 s m k :
  sim O m0 s m k ->
  follows (fun '(s', m', b) '(k', b') => sim O m0 s' m' k' /\ b = b') (m_read_round s m) (read_round k).
Proof.
  intros Hs. pose proof Hs as (_ & _ & Ek). unfold m_read_round, read_round. rewrite Ek.
  apply (sim_fields _ _ _ _ _ (fun k => (recvSize k).1)) in Hs; [|apply recvSize_moves].
  destruct (recvSize k) as [k1 n] eqn:Er. cbn [fst snd] in *.
  destruct (n <=? 0); [done|].
  eapply follows_bind; [by apply m_recv_sim|]. intros [[[s2 m2] b] n2] [[k2 b2] n3] (H1 & -> & _). done.
Qed.

Lemma m_insert_eq buf idx x :
  (idx <= length buf)%nat -> m_insert buf idx x = take idx buf ++ x :: drop idx buf.
Proof.
  intros Hi. unfold m_insert. destruct (Nat.eqb_spec idx (length buf)) as [->|Hne].
  - by rewrite take_ge, drop_ge by lia.
  - apply (copy_up rseg0 x buf idx). lia.
Qed.

Lemma m_remove_eq buf k : (k < length buf)%nat -> m_remove buf k = delete k buf.
Proof. intros Hk. unfold m_remove. rewrite length_insert. by apply copy_down. Qed.

Lemma find_slot_bound rbuf sn idx : find_slot rbuf sn = Some idx -> (idx <= length rbuf)%nat.
Proof.
  revert idx. induction rbuf as [|s rbuf IH]; intros idx; simpl; [intros [= <-]; lia|].
  destruct (_ =? _); [done|]. destruct (_ >? 0); [intros [= <-]; lia|]. intros Hi%IH. lia.
Qed.

Lemma ack_index_bound buf sn : forall k i, ack_index buf sn k = Some i -> (k <= i < k + length buf)%nat.
Proof.
  induction buf as [|s buf IH]; intros k i; simpl; [done|].
  destruct (_ =? _); [intros [= <-]; lia|]. destruct (_ <? 0); [done|]. intros Hi%IH. lia.
Qed.

(** A segment that no list holds is put back. *)
Lemma drop_sim O m0 s m k r :
  sim O m0 s m k -> own (r :: refs s ++ O) m -> sim O m0 s (delSegment r m) k.
Proof.
  intros Hs Ho. destruct (put_own _ _ _ Ho) as [O1 S1]. by eapply sim_mem.
Qed.

Lemma m_parse_data_sim O m0 s m k r seg :
  sim O m0 s m k -> own (r :: refs s ++ O) m -> deref m r = seg ->
  follows (fun '(s', m') k' => sim O m0 s' m' k') (m_parse_data s r m) (parse_data k seg).
Proof.
  intros Hs Ho <-. pose proof Hs as (_ & H0 & Ek). unfold m_parse_data, parse_data.
  change (seg_sn (deref m r)) with (seg_sn (r_head r)).
  assert (rcv_nxt k = rcv_nxt (rk s)) as -> by by rewrite <- Ek.
  assert (rcv_wnd k = rcv_wnd (rk s)) as -> by by rewrite <- Ek.
  destruct (_ || _); [by apply drop_sim|]. rewrite Ek.
  eapply (follows_bind (fun '(s', m') k' => sim O m0 s' m' k')).
  - destruct (find_slot _ _) as [idx|] eqn:Ef.
    + apply find_slot_bound in Ef. rewrite length_reverse in Ef.
      assert (length (rcv_buf k) = length (rb s)) as El by (rewrite <- Ek; simpl; by rewrite length_map).
      simpl. rewrite m_insert_eq, insert_segment_spec by lia. split_and!; [|done|].
      * eapply own_sub; [|exact Ho]. unfold refs. simpl.
        rewrite <- (take_drop idx (rb s)) at 3. solve_submseteq.
      * rewrite <- Ek. unfold abs. simpl. rewrite map_app, skipn_map, firstn_map. done.
    + destruct (with_stats _ k) as [k1| |] eqn:E1; [simpl|done|done].
      apply with_stats_moves in E1. rewrite <- Ek in E1.
      destruct (rearrange_ok m s k1 (r :: O)) as [O1 _]; [|done|].
      { eapply own_sub; [|exact Ho]. solve_submseteq. }
      apply drop_sim; [apply sim_rearrange with (k := k); [done|by rewrite <- Ek]|].
      eapply own_sub; [|exact O1]. solve_submseteq.
  - intros [s1 m1] k1 Hs1. simpl. apply sim_fields; [done|apply move_ready_moves].
Qed.

(** *** Acknowledged segments *)

Lemma m_parse_una_sim O m0 s m k una :
  sim O m0 s m k -> let '(s', m') := m_parse_una una s m in sim O m0 s' m' (parse_una una k).
Proof.
  intros (Ho & H0 & Ek). unfold m_parse_una, parse_una. rewrite Ek.
  set (c := una_count _ _). set (s1 := s<|sb := drop c (sb s)|>).
  assert (own (take c (sb s) ++ refs s1 ++ O) m) as Hown.
  { eapply own_sub; [|exact Ho]. unfold refs, s1. simpl.
    rewrite <- (take_drop c (sb s)) at 3. solve_submseteq. }
  destruct (del_all_own _ _ _ Hown) as [O1 S1]. split_and!; [done| |].
  - eapply same_on_trans; [exact H0|]. eapply same_on_sub; [|exact S1]. solve_submseteq.
  - rewrite (same_abs s1 m) by (eapply same_on_sub; [|exact S1]; solve_submseteq).
    rewrite <- Ek. unfold abs, s1. simpl. by rewrite skipn_map.
Qed.

Lemma m_parse_ack_sim O m0 s m k sn :
  sim O m0 s m k -> let '(s', m') := m_parse_ack sn s m in sim O m0 s' m' (parse_ack sn k).
Proof.
  intros Hs. pose proof Hs as (Ho & H0 & Ek). unfold m_parse_ack, parse_ack.
  assert (snd_una k = snd_una (rk s)) as -> by by rewrite <- Ek.
  assert (snd_nxt k = snd_nxt (rk s)) as -> by by rewrite <- Ek.
  destruct (_ || _); [done|]. rewrite Ek.
  destruct (ack_index _ _ _) as [i|] eqn:Ea; [|done].
  apply ack_index_bound in Ea.
  assert (length (snd_buf k) = length (sb s)) as El by (rewrite <- Ek; simpl; by rewrite length_map).
  destruct (lookup_lt_is_Some_2 (sb s) i) as [r Hr]; [lia|]. rewrite Hr. simpl.
  rewrite m_remove_eq, remove_segment_delete by lia.
  set (s1 := s<|sb := delete i (sb s)|>).
  assert (own (r :: refs s1 ++ O) m) as Hown.
  { eapply own_sub; [|exact Ho]. unfold refs, s1. simpl.
    rewrite (delete_Permutation (sb s) i r Hr) at 2. solve_submseteq. }
  destruct (put_own _ _ _ Hown) as [O1 S1]. split_and!; [done| |].
  - eapply same_on_trans; [exact H0|]. eapply same_on_sub; [|exact S1]. solve_submseteq.
  - rewrite (same_abs s1 m) by (eapply same_on_sub; [|exact S1]; solve_submseteq).
    rewrite <- Ek. unfold abs, s1. simpl. by rewrite list_fmap_delete.
Qed.
End Simulation.

(** ** Lemmas: the operations of a connection *)

Section Operations.
Context `{BufPool}.

Lemma seg_repeat_moves k k' : seg_repeat k = Ok k' -> moves k k'.
Proof. apply with_stats_moves. Qed.

(** The fields of the block beside the lists are those of the value. *)
Lemma sim_rk O m0 s m k : sim O m0 s m k ->
  rcv_nxt (rk s) = rcv_nxt k /\ rcv_wnd (rk s) = rcv_wnd k /\ conv (rk s) = conv k /\
  snd_una (rk s) = snd_una k /\ snd_nxt (rk s) = snd_nxt k /\ state (rk s) = state k.
Proof. by intros (_ & _ & <-). Qed.

(** A data segment of a datagram, with the fields of its header. *)
Definition stamp (h : header) (seg : segment) : segment :=
  seg<|seg_conv := h_conv h|><|seg_cmd := h_cmd h|>
     <|seg_frg := h_frg h|><|seg_wnd := h_wnd h|><|seg_ts := h_ts h|>
     <|seg_sn := h_sn h|><|seg_una := h_una h|>.

Lemma m_push_sim O m0 s m k (a : acksum) h data :
  sim O m0 s m k -> len data = Z.max 0 (h_len h) ->
  follows (fun '(s', m', r) '(k', r') => sim O m0 s' m' k' /\ r = r')
    ('(seg, m) ← m_newSegment (h_len h) m;
     let m := copy_to seg 0 data m in
     '(s, m) ← m_parse_data s (seg<|r_head := stamp h (r_head seg)|>) m;
     Ok (s, m, inl (B := Z) a))
    (seg ← newSegment (h_len h);
     let seg := stamp h seg in
     let seg := seg<|seg_data := go_copy (seg_data seg) data|> in
     kcp ← parse_data k seg; Ok (kcp, inl a)).
Proof.
  intros Hs Hl. pose proof Hs as (Ho & H0 & Ek).
  eapply follows_bind; [by apply m_newSegment_sim|].
  intros [r m5] seg (O1 & S1 & Hh & Hrl & Hd & Hz & ->). cbn [fst snd] in *.
  destruct (fill_own r data _ _ O1) as (O2 & S2 & B2); [lia|]. rewrite Hh.
  set (m6 := copy_to r 0 data m5) in *.
  set (d := seg_data seg) in *. clearbody d.
  assert (deref m6 (r<|r_head := stamp h segment0|>) =
    (stamp h (segment0<|seg_data := d|>))<|seg_data := go_copy d data|>) as Hseg.
  { unfold deref. cbn [r_head]. change (bytes_of m6 (r<|r_head := _|>)) with (bytes_of m6 r).
    rewrite B2. rewrite go_copy_all by lia. done. }
  eapply follows_bind; [eapply m_parse_data_sim; [| |exact Hseg]|].
  - eapply sim_mem; [exact Hs| |eapply own_sub; [|exact O2]; solve_submseteq].
    by eapply same_on_trans.
  - eapply own_loc; [|exact O2]. done.
  - intros [s7 m7] k7 H7. done.
Qed.

Lemma m_input_segment_sim O m0 s m k a h data :
  sim O m0 s m k -> len data = Z.max 0 (h_len h) ->
  follows (fun '(s', m', r) '(k', r') => sim O m0 s' m' k' /\ r = r')
    (m_input_segment s a h data m) (input_segment k a h data).
Proof.
  intros Hs Hl. unfold m_input_segment, input_segment.
  apply (sim_fields _ _ _ _ _ (fun k => k<|rmt_wnd := h_wnd h|>)) in Hs; [|done].
  set (s1 := on_fields _ m s) in *. set (k1 := k<|rmt_wnd := h_wnd h|>) in *. clearbody s1 k1.
  apply (m_parse_una_sim _ _ _ _ _ (h_una h)) in Hs. destruct (m_parse_una _ _ _) as [s2 m2].
  apply (sim_fields _ _ _ _ _ shrink_buf) in Hs; [|apply shrink_buf_moves].
  set (s3 := on_fields _ m2 s2) in *. set (k3 := shrink_buf _) in *. clearbody s3 k3.
  pose proof (sim_rk _ _ _ _ _ Hs) as (-> & -> & _).
  destruct (_ =? IKCP_CMD_CONNECT).
  { destruct (_ =? 0); [|done]. split; [|done].
    refine (sim_fields _ _ _ _ _ (fun kcp =>
      let kcp := ack_push (h_sn h) (h_ts h) kcp in
      let kcp := kcp<|rcv_nxt := u32 (rcv_nxt kcp + 1)|> in
      kcp<|state := Z.lor (state kcp) IKCP_STATE_CONNECTED|>) Hs _). by apply moves_lists. }
  destruct (_ =? IKCP_CMD_ACK).
  { apply (m_parse_ack_sim _ _ _ _ _ (h_sn h)) in Hs. destruct (m_parse_ack _ _ _) as [s4 m4].
    split; [|done]. apply sim_fields; [done|apply shrink_buf_moves]. }
  destruct (_ =? IKCP_CMD_PUSH).
  { destruct (_ <? 0).
    2: { pose proof Hs as (_ & _ & ->). apply follows_same. intros k4 E4. split; [|done].
         eapply sim_rearrange; [done|by apply seg_repeat_moves]. }
    apply (sim_fields _ _ _ _ _ (ack_push (h_sn h) (h_ts h))) in Hs; [|done].
    set (s4 := on_fields _ m2 s3) in *. set (k4 := ack_push _ _ _) in *. clearbody s4 k4.
    pose proof (sim_rk _ _ _ _ _ Hs) as (-> & _). pose proof Hs as (Ho & H0 & Ek). rewrite Ek.
    destruct (_ >=? 0).
    2: { apply follows_same. intros k5 E5. split; [|done].
         eapply sim_rearrange; [done|by apply seg_repeat_moves]. }
    exact (m_push_sim O m0 s4 m2 k4 a h data Hs Hl). }
  destruct (_ =? IKCP_CMD_WASK).
  { split; [|done]. by apply (sim_fields _ _ _ _ _ (fun kcp => kcp<|probe := Z.lor (probe kcp) IKCP_ASK_TELL|>)). }
  by destruct (_ =? IKCP_CMD_WINS).
Qed.

Lemma m_input_round_sim O m0 s m k a data :
  sim O m0 s m k ->
  follows (fun '(s', m', r) '(k', r') => sim O m0 s' m' k' /\ r = r')
    (m_input_round s a data m) (input_round k a data).
Proof.
  intros Hs. unfold m_input_round, input_round.
  apply follows_same. intros [cv d1] _. pose proof (sim_rk _ _ _ _ _ Hs) as (_ & _ & -> & _).
  destruct (negb _); [done|]. apply follows_same. intros [h d2] _.
  destruct (Z.ltb_spec (len d2) (h_len h)); [done|]. destruct (negb _); [done|].
  eapply follows_bind; [apply m_input_segment_sim; [done|rewrite length_take; lia]|].
  intros [[s1 m1] r] [k1 r'] [H1 ->]. destruct r' as [a'|c]; [|done].
  apply follows_same. intros d3 _. done.
Qed.

Lemma m_input_loop_sim O m0 fuel : forall s m k a data,
  sim O m0 s m k ->
  follows (fun '(s', m', r) '(k', r') => sim O m0 s' m' k' /\ r = r')
    (m_input_loop fuel s a data m) (input_loop fuel k a data).
Proof.
  induction fuel as [|fuel IH]; intros s m k a data Hs; simpl; (destruct (_ <? _); [done|]); [done|].
  eapply follows_bind; [by apply m_input_round_sim|].
  intros [[s1 m1] r] [k1 r'] [H1 ->]. destruct r' as [[a' d']|c]; [|done]. by apply IH.
Qed.

Lemma m_input_sim O m0 s m k t data b :
  sim O m0 s m k ->
  follows (fun '(s', m', r) '(k', r') => sim O m0 s' m' k' /\ r = r')
    (m_input s t data b m) (input k t data b).
Proof.
  intros Hs. unfold m_input, input. pose proof (sim_rk _ _ _ _ _ Hs) as (_ & _ & _ & -> & _).
  destruct (_ <? _); [done|].
  eapply follows_bind; [by apply m_input_loop_sim|].
  intros [[s1 m1] r] [k1 r'] [H1 ->]. destruct r' as [a'|c]; [|done].
  set (s2 := if _ && _ then _ else s1). set (k2 := if _ && _ then _ else k1).
  assert (sim O m0 s2 m1 k2) as H2.
  { subst s2 k2. destruct (_ && _); [|done].
    apply (sim_fields _ _ _ _ _ (parse_fastack (maxack a'))) in H1; [|apply parse_fastack_moves].
    destruct (_ >=? 0); [|done]. apply sim_fields; [done|apply update_ack_moves]. }
  clearbody s2 k2. pose proof H2 as (_ & _ & ->).
  apply follows_same. intros k3 E3. split; [|done].
  eapply sim_rearrange; [done|by eapply input_cwnd_moves].
Qed.

Lemma m_flush_sim O m0 s m k t :
  sim O m0 s m k ->
  follows (fun '(s', tr) '(k', tr') => sim O m0 s' m k' /\ tr = tr') (m_flush s t m) (flush k t).
Proof.
  intros Hs. pose proof Hs as (_ & _ & Ek). unfold m_flush. rewrite Ek.
  destruct (flush k t) as [[k' tr]| |] eqn:E; simpl; [|done..]. split; [|done].
  eapply sim_rearrange; [done|by eapply flush_moves].
Qed.

Lemma m_update_sim O m0 s m k t :
  sim O m0 s m k ->
  follows (fun '(s', tr) '(k', tr') => sim O m0 s' m k' /\ tr = tr') (m_update s t m) (update k t).
Proof.
  intros Hs. pose proof Hs as (_ & _ & Ek). unfold m_update. rewrite Ek.
  destruct (update k t) as [[k' tr]| |] eqn:E; simpl; [|done..]. split; [|done].
  eapply sim_rearrange; [done|by eapply update_moves].
Qed.

(** A segment without data is queued and [flush] follows. *)
Lemma mark_flush_sim O m0 cmd s m k t :
  sim O m0 s m k ->
  follows (fun '(s', m', tr) '(k', tr') => sim O m0 s' m' k' /\ tr = tr')
    ('(s, m) ← m_mark cmd s m; '(s, tr) ← m_flush s t m; Ok (s, m, tr))
    (seg ← newSegment 0; flush (k<|snd_queue := snd_queue k ++ [seg<|seg_cmd := cmd|>]|>) t).
Proof.
  intros Hs. pose proof (m_mark_sim _ _ cmd _ _ _ Hs) as Hm.
  destruct (m_mark cmd s m) as [[s1 m1]| |], (newSegment 0) as [seg| |]; simpl in Hm |- *; try done.
  pose proof (m_flush_sim _ _ _ _ _ t Hm) as Hf.
  destruct (m_flush s1 t m1) as [[s2 tr]| |], (flush _ t) as [[k2 tr']| |]; done.
Qed.

Lemma m_sendConnectFlush_sim O m0 s m k t :
  sim O m0 s m k ->
  follows (fun '(s', m', tr) '(k', tr') => sim O m0 s' m' k' /\ tr = tr')
    (m_sendConnectFlush s t m) (sendConnectFlush k t).
Proof.
  intros Hs. unfold m_sendConnectFlush, sendConnectFlush. pose proof Hs as (_ & _ & ->).
  pose proof (sim_rk _ _ _ _ _ Hs) as (_ & _ & _ & _ & -> & _).
  destruct (_ && _); [|done]. by apply mark_flush_sim.
Qed.

Lemma m_sendCloseFlush_sim O m0 s m k t :
  sim O m0 s m k ->
  follows (fun '(s', m', tr) '(k', tr') => sim O m0 s' m' k' /\ tr = tr')
    (m_sendCloseFlush s t m) (sendCloseFlush k t).
Proof.
  intros Hs. unfold m_sendCloseFlush, sendCloseFlush, isStateConnected, isStateLocalClosed.
  pose proof (sim_rk _ _ _ _ _ Hs) as (_ & _ & _ & _ & _ & ->).
  destruct (_ && _); [|done]. apply mark_flush_sim.
  refine (sim_fields _ _ _ _ _ (fun kcp =>
      let kcp := kcp<|state := Z.lor (state kcp) IKCP_STATE_LOCAL_CLOSED|> in
      kcp<|state := Z.land (state kcp) (u32 (Z.lnot IKCP_STATE_CONNECTED))|>) Hs _).
  by apply moves_lists.
Qed.

(** Every operation on references has the effect of the operation on values. *)
Lemma m_perform_sim O m0 o s m k :
  sim O m0 s m k ->
  follows (fun r out => sim O m0 (ro_block r) (ro_mem r) (o_kcp out) /\
             ro_events r = o_events out /\ ro_written r = o_written out /\ ro_read r = o_read out)
    (m_perform o s m) (perform o k).
Proof.
  intros Hs. pose proof Hs as (_ & _ & Ek). destruct o; cbn [m_perform perform].
  - eapply follows_bind; [by apply m_send_sim|]. by intros [[s1 m1] c] [k1 c1] [H1 ->].
  - eapply follows_bind; [by apply m_read_round_sim|]. by intros [[s1 m1] c] [k1 c1] [H1 ->].
  - eapply follows_bind; [by apply m_input_sim|]. by intros [[s1 m1] c] [k1 c1] [H1 ->].
  - eapply follows_bind; [by apply m_update_sim|]. by intros [s1 c] [k1 c1] [H1 ->].
  - eapply follows_bind; [by apply m_flush_sim|]. by intros [s1 c] [k1 c1] [H1 ->].
  - eapply follows_bind; [by apply m_sendConnectFlush_sim|]. by intros [[s1 m1] c] [k1 c1] [H1 ->].
  - eapply follows_bind; [by apply m_sendCloseFlush_sim|]. by intros [[s1 m1] c] [k1 c1] [H1 ->].
  - split; [|done]. apply (sim_fields _ _ _ _ _ (fun k => (setWndSize sndwnd rcvwnd k).1)); [done|].
    apply setWndSize_moves.
  - split; [|done]. apply (sim_fields _ _ _ _ _ (fun k => (setNoDelay nd itv resend nc k).1)); [done|].
    apply setNoDelay_moves.
  - rewrite Ek. apply follows_same. intros [k1 n] E1. split; [|done].
    eapply sim_rearrange; [done|by eapply setMtu_moves].
  - split; [|done].
    by apply (sim_fields _ _ _ _ _ (fun k => k<|stream := if enable then 1 else 0|>)).
Qed.
End Operations.

(** ** Lemmas: connections that share the pool *)

Lemma absw_same es m m' : same_on (held es) m m' -> absw m' es = absw m es.
Proof.
  intros Hs. apply map_ext_in. intros e He%list_elem_of_In.
  assert (refs (e_block e) ++ e_box e ⊆+ held es) as Hsub.
  { apply list_elem_of_split in He as (l1 & l2 & ->). unfold held.
    rewrite map_app, concat_app. simpl. solve_submseteq. }
  rewrite (same_abs _ m m'), (same_bytes _ m m'); [done|..];
    (eapply same_on_sub; [|exact Hs]); rewrite <- Hsub; solve_submseteq.
Qed.

(** One of the connections, and what the others hold. *)
Lemma held_split i e es : es !! i = Some e ->
  exists R, held es ≡ₚ refs (e_block e) ++ e_box e ++ R /\
    (forall e', held (<[i := e']> es) ≡ₚ refs (e_block e') ++ e_box e' ++ R) /\
    (forall e' m m', same_on R m m' ->
       absw m' (<[i := e']> es) = <[i := (abs m' (e_block e'), map (bytes_of m') (e_box e'))]> (absw m es)).
Proof.
  intros Hi. pose proof (take_drop_middle _ _ _ Hi) as Es.
  pose proof (lookup_lt_Some _ _ _ Hi) as Hlt.
  set (l1 := take i es) in *. set (l2 := drop (S i) es) in *.
  assert (length l1 = i) as Hl1 by (subst l1; rewrite length_take; lia). clearbody l1 l2. subst es i.
  assert (forall e', <[length l1 := e']> (l1 ++ e :: l2) = l1 ++ e' :: l2) as Hins.
  { intros e'. rewrite insert_app_r_alt, Nat.sub_diag by lia. done. }
  exists (held l1 ++ held l2). split_and!.
  - unfold held. rewrite map_app, concat_app. simpl. solve_Permutation.
  - intros e'. rewrite Hins. unfold held. rewrite map_app, concat_app. simpl. solve_Permutation.
  - intros e' m m' Hs. rewrite Hins. unfold absw at 1. rewrite map_app. cbn [map].
    change (map _ l1) with (absw m' l1). change (map _ l2) with (absw m' l2).
    rewrite (absw_same l1 m m'), (absw_same l2 m m')
      by (eapply same_on_sub; [|exact Hs]; solve_submseteq).
    unfold absw at 3. rewrite map_app. rewrite insert_app_r_alt by (rewrite length_map; lia).
    by rewrite length_map, Nat.sub_diag.
Qed.

Lemma absw_lookup m es i : absw m es !! i = (fun e => (abs m (e_block e), map (bytes_of m) (e_box e))) <$> es !! i.
Proof. apply list_lookup_fmap. Qed.

Section World.
Context `{BufPool}.

Definition wsim (es : list endpoint) (m : mem) (vs : list (KCP * list (list byte))) : Prop :=
  own (held es) m /\ absw m es = vs.

(** An operation of one connection, beside whatever the others hold. *)
Lemma wsim_perform i e es m o :
  own (held es) m -> es !! i = Some e ->
  follows (fun r out =>
      forall box O', e_box e = O' ++ box ->
      own (O' ++ held (<[i := mkEnd (ro_block r) box]> es)) (ro_mem r) /\
      map (bytes_of (ro_mem r)) O' = map (bytes_of m) O' /\
      absw (ro_mem r) (<[i := mkEnd (ro_block r) box]> es)
        = <[i := (o_kcp out, map (bytes_of m) box)]> (absw m es) /\
      ro_events r = o_events out /\ ro_read r = o_read out)
    (m_perform o (e_block e) m) (perform o (abs m (e_block e))).
Proof.
  intros Ho Hi. destruct (held_split i e es Hi) as (R & P1 & P2 & P3).
  assert (own (refs (e_block e) ++ (e_box e ++ R)) m) as Ho1 by (eapply own_sub; [|exact Ho]; by rewrite P1).
  eapply follows_mono; [apply (m_perform_sim (e_box e ++ R) m); split_and!; [exact Ho1|done|done]|].
  intros r out ((H1 & H2 & H3) & He & _ & Hr) box O' Eb.
  assert (map (bytes_of (ro_mem r)) (e_box e) = map (bytes_of m) (e_box e)) as Hb.
  { apply same_bytes. eapply same_on_sub; [|exact H2]. solve_submseteq. }
  rewrite Eb, !map_app in Hb. apply app_inj_1 in Hb as [Hb1 Hb2]; [|by rewrite !length_map].
  split_and!; [|done| |done|done].
  - eapply own_sub; [|exact H1]. rewrite P2. simpl. rewrite Eb. solve_submseteq.
  - rewrite (P3 _ m) by (eapply same_on_sub; [|exact H2]; solve_submseteq).
    simpl. by rewrite Hb2, H3.
Qed.

Lemma m_step_sim w es m vs :
  wsim es m vs ->
  follows (fun '(es', m', out) '(vs', out') => wsim es' m' vs' /\ out = out') (m_step w es m) (v_step w vs).
Proof.
  intros [Ho <-]. destruct w as [i o|i d|i t]; cbn [m_step v_step]; rewrite absw_lookup;
    destruct (es !! i) as [e|] eqn:Hi; simpl; try done.
  - eapply follows_bind; [by apply wsim_perform|]. intros r out Hr.
    destruct (Hr (e_box e) []) as (H1 & _ & H3 & -> & ->); [done|]. done.
  - destruct (pool_get m) as [l m1] eqn:Eg.
    destruct (get_own m _ l m1 2048 Ho Eg) as [O1 S1]; [lia|].
    set (data := mkRef segment0 l 2048) in *.
    destruct (copy_own data 0 d _ _ O1) as (O2 & S2 & B2); [lia|].
    set (m2 := copy_to data 0 d m1) in *.
    set (data' := data<|r_len := Nat.min (length d) 2048|>).
    assert (bytes_of m2 data' = take 2048 d) as Eb.
    { assert (length (bytes_of m1 data) = 2048%nat) as Ln by (rewrite (own_length _ _ _ O1) by (by left); done).
      transitivity (take (Nat.min (length d) 2048) (bytes_of m2 data)).
      { unfold bytes_of. rewrite take_take. f_equal. simpl. lia. }
      rewrite B2, drop_0, take_0, app_nil_l. unfold go_copy. rewrite Ln.
      apply take_app_length'. rewrite length_take. lia. }
    destruct (held_split i e es Hi) as (R & P1 & P2 & P3).
    assert (same_on (held es) m m2) as Sm by by eapply same_on_trans.
    assert (same_on (refs (e_block e) ++ e_box e ++ R) m m2) as Sp
      by (eapply same_on_sub; [|exact Sm]; by rewrite P1).
    cbn [follows]. split; [|done]. split.
    + eapply own_loc with (L := data' :: held es).
      * apply (fmap_submseteq loc). rewrite P2, P1. simpl. solve_submseteq.
      * apply own_cons_len; [lia|done].
    + rewrite (P3 _ m) by (eapply same_on_sub; [|exact Sp]; solve_submseteq). simpl.
      rewrite (same_abs _ m m2) by (eapply same_on_sub; [|exact Sp]; solve_submseteq).
      rewrite map_app, (same_bytes _ m m2) by (eapply same_on_sub; [|exact Sp]; solve_submseteq).
      simpl. by rewrite Eb.
  - destruct e as [s [|data box]]; [done|]. simpl.
    pose proof (wsim_perform i (mkEnd s (data :: box)) es m (OInput t (bytes_of m data)) Ho Hi) as Hp.
    cbn [e_block] in Hp.
    eapply follows_bind; [exact Hp|]. intros r out Hr.
    destruct (Hr box [data]) as (H1 & _ & H3 & _ & _); [done|]. cbn [follows].
    destruct (put_own _ _ _ H1) as [O1 S1]. split; [|done]. split; [done|].
    by rewrite (absw_same _ _ _ S1).
Qed.

Lemma m_run_sim ws : forall es m vs,
  wsim es m vs ->
  follows (fun '(es', m', outs) '(vs', outs') => wsim es' m' vs' /\ outs = outs')
    (m_run ws es m) (v_run ws vs).
Proof.
  induction ws as [|w ws IH]; intros es m vs Hs; [done|]. cbn [m_run v_run].
  eapply follows_bind; [by apply m_step_sim|]. intros [[es1 m1] out] [vs1 out'] [H1 ->].
  eapply follows_bind; [by apply IH|]. intros [[es2 m2] outs] [vs2 outs'] [H2 ->]. done.
Qed.

Lemma fresh_ends_sim ks p : Forall idle ks ->
  wsim (fresh_ends ks) (mkMem ∅ [] p) (map (fun k => (k, [])) ks).
Proof.
  intros Hk. assert (held (fresh_ends ks) = []) as Hh.
  { unfold held, fresh_ends. rewrite map_map. simpl. clear. induction ks; [done|]. simpl. done. }
  split.
  - rewrite Hh. split; simpl; [constructor|by intros l ?%elem_of_nil|by intros l ?%elem_of_nil].
  - unfold absw, fresh_ends. rewrite map_map. apply map_ext_in. intros k Hin%list_elem_of_In.
    rewrite Forall_forall in Hk. destruct (Hk k Hin) as (E1 & E2 & E3 & E4). simpl. f_equal.
    unfold abs. destruct k. simpl in *. by subst.
Qed.
End World.

(** ** Properties *)

(** C10. The buffers of the shared pool are owned: for all connections that start with empty queues
    and an empty pool, for every sequence of their operations and of datagrams that arrive, and
    whichever free buffers the pool hands out, the run on shared buffers ends as the run on values
    does, with the same panics, the same packets sent, the same bytes read and, segment for
    segment, the same control blocks and waiting datagrams; and in the end no two segments or
    datagrams in use share a buffer and none of their buffers is in the pool. *)
Theorem buffers_owned `{BufPool} ks p ws :
  Forall idle ks ->
  follows
    (fun '(es, m, outs) '(vs, outs') =>
       outs = outs' /\ absw m es = vs /\ NoDup (free m ++ map r_at (held es)))
    (m_run ws (fresh_ends ks) (mkMem ∅ [] p))
    (v_run ws (map (fun k => (k, [])) ks)).
Proof.
  intros Hk. eapply follows_mono; [by apply m_run_sim, fresh_ends_sim|].
  intros [[es m] outs] [vs outs'] [[Ho Ha] ->]. split_and!; [done|done|]. by apply own_nodup.
Qed.

(** *** Witness: two connections *)

Definition demo_push (b : list byte) : segment :=
  segment0<|seg_conv := 7|><|seg_cmd := IKCP_CMD_PUSH|><|seg_wnd := 128|><|seg_data := b|>.
Definition demo_ack : segment :=
  segment0<|seg_conv := 7|><|seg_cmd := IKCP_CMD_ACK|><|seg_wnd := 128|>.

(** The first sends and is acknowledged, the second receives and reads, and both send again. *)
Definition demo_ws : list wop :=
  [WOp 0 (OSend [Byte.x41; Byte.x42]); WOp 0 (OFlush 10);
   WRead 1 (seg_stream [demo_push [Byte.x43; Byte.x44; Byte.x45]]); WInput 1 20; WOp 1 ORead;
   WRead 0 (seg_stream [demo_ack]); WInput 0 30;
   WOp 0 (OSend [Byte.x46]); WOp 1 (OSend [Byte.x47])].
Definition demo_ks : list KCP := [fresh 7; fresh 7].

#[local] Existing Instance zero_pool.

(** Three buffers serve the six requests, and the two segments that are queued own one each. *)
Example demo_reuse :
  match m_run demo_ws (fresh_ends demo_ks) (mkMem ∅ [] []) with
  | Ok (es, m, outs) =>
      map snd outs = [[]; []; []; []; [Byte.x43; Byte.x44; Byte.x45]; []; []; []; []] /\
      map r_at (held es) = [0%nat; 2%nat] /\ free m = [1%nat]
  | _ => False
  end.
Proof. vm_compute. split_and!; reflexivity. Qed.

Lemma buffers_owned_witness :
  Forall idle demo_ks /\
  exists es m outs, m_run demo_ws (fresh_ends demo_ks) (mkMem ∅ [] []) = Ok (es, m, outs) /\
    NoDup (free m ++ map r_at (held es)).
Proof.
  assert (Forall idle demo_ks) as Hk by (repeat constructor).
  split; [exact Hk|]. pose proof (buffers_owned demo_ks [] demo_ws Hk) as Hf.
  destruct (m_run demo_ws (fresh_ends demo_ks) (mkMem ∅ [] [])) as [[[es m] outs]| |] eqn:E;
    [|exfalso; revert E; vm_compute; discriminate..].
  exists es, m, outs. split; [reflexivity|].
  destruct (v_run demo_ws (map (fun k => (k, [])) demo_ks)) as [[vs outs']| |]; [apply Hf|destruct Hf..].
Defined.
