(* ===== verification/Protocol.v ===== *)
(** * Two connected sessions over a lossy network

    Two control blocks exchange datagrams over a network that may lose, delay,
    duplicate and reorder them: every datagram that was ever handed to an [output]
    callback stays in a soup, and any of them may arrive at the other end at any time
    and any number of times. Each end performs the operations of Session.v in any
    order. The ghost state of an end is what its user wrote and read, the items
    (command, fragment number, data) it has numbered so far, and its soup.

    The theorems hold as long as an end has numbered fewer than 2^31 segments: after
    that the 32-bit sequence numbers of very old datagrams become ambiguous. *)
From S2P Require Import Prelude GoInt Stats Wire Kcp Serial Send Recv Ack Input Flush Flushed Timer Session.

(** ** Definitions *)

Abbreviation item := (Z * Z * list byte)%type (only parsing).

Definition item_bytes (h : list item) : list byte := concat (map snd h).

(** The items that carry data: all but a CONNECT. *)
Definition data (h : list item) : list item := filter (fun x : item => x.1.1 = IKCP_CMD_PUSH) h.

(** One end. *)
Record peer := mkPeer {
  p_kcp : KCP;
  p_hist : list item;        (** the items numbered so far: item [i] has number [i] *)
  p_wrote : list byte;       (** the bytes accepted by [send] *)
  p_read : list byte;        (** the bytes returned by [Read] *)
  p_soup : list (list byte); (** the datagrams sent *)
}.

(** The items numbered by an operation: as many as [snd_nxt] has advanced by, and they
    are at the end of the send buffer. *)
Definition numbered_now (k k' : KCP) : list item :=
  let n := Z.to_nat (dist (snd_nxt k) (snd_nxt k')) in
  map payload (drop (length (snd_buf k') - n) (snd_buf k')).

Definition after (P : peer) (r : outcome) : peer :=
  mkPeer (o_kcp r) (p_hist P ++ numbered_now (p_kcp P) (o_kcp r))
    (p_wrote P ++ o_written r) (p_read P ++ o_read r)
    (p_soup P ++ packets_of (o_events r)).

Section Net.
Context `{BufPool}.

(** A step of one end, given the soup of the other: what arrives has been sent. *)
Inductive pstep (net : list (list byte)) (P : peer) : peer -> Prop :=
  | pstep_op o r :
      op_ok (p_kcp P) o ->
      (forall t pkt, o = OInput t pkt -> pkt ∈ net) ->
      perform o (p_kcp P) = Ok r ->
      pstep net P (after P r).

Inductive wstep : peer * peer -> peer * peer -> Prop :=
  | wstep_left A A' B : pstep (p_soup B) A A' -> wstep (A, B) (A', B)
  | wstep_right A B B' : pstep (p_soup A) B B' -> wstep (A, B) (A, B').

(** Two new sessions of one conversation. *)
Definition new_peer (cv : Z) : peer := mkPeer (fresh cv) [] [] [] [].

Inductive reachable (cv : Z) : peer * peer -> Prop :=
  | reachable_new : reachable cv (new_peer cv, new_peer cv)
  | reachable_step w w' : reachable cv w -> wstep w w' -> reachable cv w'.
End Net.

(** ** The invariant *)

(** The segment carries the item of its number. *)
Definition in_hist (h : list item) (s : segment) : Prop :=
  0 <= seg_sn s /\ h !! Z.to_nat (seg_sn s) = Some (payload s).

(** The number has arrived: it is before [rcv_nxt] or waits in the receive buffer. *)
Definition has (R : KCP) (i : Z) : Prop :=
  i < rcv_nxt R \/ exists s, s ∈ rcv_buf R /\ seg_sn s = i.

Definition item_ok (i : nat) (x : item) : Prop :=
  0 <= x.1.2 < 256 /\
  (x.1.1 = IKCP_CMD_PUSH \/ i = 0%nat /\ x.1.1 = IKCP_CMD_CONNECT /\ x.2 = []).

Record sender (S : KCP) (h : list item) (w : list byte) : Prop := {
  s_nxt : snd_nxt S = len h;
  s_bytes : item_bytes (h ++ map payload (snd_queue S)) = w;
  s_buf : forall s, s ∈ snd_buf S -> in_hist h s /\ seg_conv s = conv S;
  s_items : forall i x, (h ++ map payload (snd_queue S)) !! i = Some x -> item_ok i x;
}.

(** The items that have been handed to the reader: those that have arrived in order, but for the
    receive queue. *)
Definition consumed (R : KCP) (h : list item) : list item :=
  let d := data (take (Z.to_nat (rcv_nxt R)) h) in take (length d - length (rcv_queue R)) d.

(** The items [rd] have been handed to the reader. *)
Record receiver (R : KCP) (h : list item) (rd : list item) : Prop := {
  r_nxt : 0 <= rcv_nxt R <= len h;
  r_items : rd ++ map payload (rcv_queue R) = data (take (Z.to_nat (rcv_nxt R)) h);
  r_serial : serial (rcv_nxt R) (rcv_buf R);
  r_buf : forall s, s ∈ rcv_buf R ->
    in_hist h s /\ seg_cmd s = IKCP_CMD_PUSH /\ rcv_nxt R <= seg_sn s;
  r_acks : forall a, a ∈ acklist R -> 0 <= ack_sn a < len h /\ has R (ack_sn a);
  r_queue : forall s, s ∈ rcv_queue R -> payload s ∈ h /\ seg_cmd s = IKCP_CMD_PUSH;
}.

(** What a segment on the wire may claim, given the end that sent it. *)
Record auth (S : KCP) (h : list item) (s : segment) : Prop := {
  a_conv : seg_conv s = conv S;
  a_cmd : known_cmd (seg_cmd s) = true;
  a_frg : 0 <= seg_frg s < 256;
  a_una : 0 <= seg_una s <= rcv_nxt S;
  a_data : seg_cmd s = IKCP_CMD_PUSH \/ seg_cmd s = IKCP_CMD_CONNECT -> in_hist h s;
  a_ack : seg_cmd s = IKCP_CMD_ACK -> 0 <= seg_sn s < half /\ has S (seg_sn s);
}.

Definition auth_packet (S : KCP) (h : list item) (pkt : list byte) : Prop :=
  exists g, pkt = seg_stream g /\ g <> [] /\ Forall (auth S h) g.

(** Every numbered item is still in flight or has arrived. *)
Definition covered (S R : KCP) (h : list item) : Prop :=
  forall i, 0 <= i < len h -> (exists s, s ∈ snd_buf S /\ seg_sn s = i) \/ has R i.

(** The receive side only ever gains. *)
Record grows (k k' : KCP) : Prop := {
  g_conv : conv k' = conv k;
  g_nxt : rcv_nxt k <= rcv_nxt k';
  g_has : forall i, has k i -> has k' i;
}.

Record dir (A B : peer) : Prop := {
  d_send : sender (p_kcp A) (p_hist A) (p_wrote A);
  d_recv : receiver (p_kcp B) (p_hist A) (consumed (p_kcp B) (p_hist A));
  d_read : item_bytes (consumed (p_kcp B) (p_hist A)) = p_read B;
  d_soup : Forall (auth_packet (p_kcp A) (p_hist A)) (p_soup A);
  d_cov : covered (p_kcp A) (p_kcp B) (p_hist A);
}.

Record winv (cv : Z) (A B : peer) : Prop := {
  w_wf_l : wf (p_kcp A);
  w_wf_r : wf (p_kcp B);
  w_conv_l : conv (p_kcp A) = cv;
  w_conv_r : conv (p_kcp B) = cv;
  w_lr : dir A B;
  w_rl : dir B A;
}.

(** ** Lemmas: bytes and histories *)

Lemma item_bytes_app h1 h2 : item_bytes (h1 ++ h2) = item_bytes h1 ++ item_bytes h2.
Proof. unfold item_bytes. by rewrite map_app, concat_app. Qed.

Lemma seg_bytes_items l : seg_bytes l = item_bytes (map payload l).
Proof. unfold seg_bytes, item_bytes. by rewrite map_map. Qed.

Lemma data_app h1 h2 : data (h1 ++ h2) = data h1 ++ data h2.
Proof. apply filter_app. Qed.

Lemma data_push l : (forall s, s ∈ l -> seg_cmd s = IKCP_CMD_PUSH) -> data (map payload l) = map payload l.
Proof.
  intros Hl. apply filter_all. intros x Hx. apply list_elem_of_fmap in Hx as (s & -> & Hs). by apply Hl.
Qed.

(** A CONNECT carries no data. *)
Lemma data_bytes h : (forall i x, h !! i = Some x -> item_ok i x) -> item_bytes (data h) = item_bytes h.
Proof.
  intros Hi. assert (Forall (fun x : item => x.1.1 = IKCP_CMD_PUSH \/ x.2 = []) h) as Hf.
  { apply Forall_lookup. intros i x Hx. destruct (Hi i x Hx) as [_ [?|(_ & _ & ?)]]; [by left|by right]. }
  clear Hi. induction Hf as [|x h Hx _ IH]; [done|]. unfold data. rewrite filter_cons.
  destruct (decide (x.1.1 = IKCP_CMD_PUSH)); unfold item_bytes in *; simpl; [by f_equal|].
  destruct Hx as [Hx | ->]; [done|exact IH].
Qed.

Lemma receiver_consumed R h rd : receiver R h rd -> rd = consumed R h.
Proof.
  intros [_ B _ _ _ _]. unfold consumed. rewrite <- B, length_app, length_map, Nat.add_sub.
  by rewrite take_app_length.
Qed.

Lemma in_hist_app h h' s : in_hist h s -> in_hist (h ++ h') s.
Proof. intros [H0 Hl]. split; [done|]. by apply lookup_app_l_Some. Qed.

Lemma in_hist_bound h s : in_hist h s -> 0 <= seg_sn s < len h.
Proof. intros [H0 Hl]. apply lookup_lt_Some in Hl. lia. Qed.

(** Consecutive segments of the history are a slice of it. *)
Lemma in_hist_slice h l n :
  numbered n l -> 0 <= n -> n + len l < 4294967296 -> (forall s, s ∈ l -> in_hist h s) ->
  map payload l = take (length l) (drop (Z.to_nat n) h).
Proof.
  revert n. induction l as [|s l IH]; intros n Hn H0 Hb Hh; [done|].
  destruct Hn as [Hs Hn]. cbn [length] in Hb.
  destruct (Hh s) as [_ Hl]; [by left|]. rewrite Hs, u32_id in Hl by (unfold is_u32; lia).
  simpl. rewrite (IH (n + 1)); [|done|lia|lia|intros t Ht; apply Hh; by right].
  replace (Z.to_nat (n + 1)) with (S (Z.to_nat n)) by lia.
  rewrite (drop_S _ (payload s) (Z.to_nat n)) by done. done.
Qed.

(** ** Lemmas: the receive side *)

Lemma receiver_app R h h' rd : receiver R h rd -> receiver R (h ++ h') rd.
Proof.
  intros [[N1 N2] B Sr F K Qe]. split.
  - rewrite length_app. lia.
  - rewrite take_app_le by lia. done.
  - done.
  - intros s Hs. destruct (F s Hs) as (? & ? & ?). split_and!; [by apply in_hist_app|done..].
  - intros a Ha. destruct (K a Ha). rewrite length_app. split; [lia|done].
  - intros s Hs. destruct (Qe s Hs). split; [apply elem_of_app; by left|done].
Qed.

Lemma auth_mono S S' h h' s :
  grows S S' -> conv S' = conv S -> auth S h s -> auth S' (h ++ h') s.
Proof.
  intros [_ Gn Gh] Hc [A1 A2 A3 A4 A5 A6]. split; try done.
  - by rewrite Hc.
  - lia.
  - intros Hd. by apply in_hist_app, A5.
  - intros Ha. destruct (A6 Ha) as [? ?]. auto.
Qed.

Lemma grows_refl k : grows k k.
Proof. split; [done|lia|done]. Qed.

Lemma grows_trans k1 k2 k3 : grows k1 k2 -> grows k2 k3 -> grows k1 k3.
Proof. intros [A1 A2 A3] [B1 B2 B3]. split; [congruence|lia|auto]. Qed.

Lemma has_side k k' i : rcv_side k' = rcv_side k -> has k i -> has k' i.
Proof. intros (E1 & _ & E3)%rcv_side_eq. unfold has. by rewrite E1, E3. Qed.

Lemma grows_side k k' : conv k' = conv k -> rcv_side k' = rcv_side k -> grows k k'.
Proof.
  intros Hc Hs. pose proof (rcv_side_eq _ _ Hs) as (E1 & _). split; [done|lia|].
  intros i. by apply has_side.
Qed.

(** An unchanged receive side stays a receiver, with acknowledgements that are due. *)
Lemma receiver_side k k' h rd :
  receiver k h rd -> rcv_side k' = rcv_side k ->
  (forall a, a ∈ acklist k' -> 0 <= ack_sn a < len h /\ has k (ack_sn a)) ->
  receiver k' h rd.
Proof.
  intros [N B Sr F K Qe] Hs Ha. pose proof (rcv_side_eq _ _ Hs) as (E1 & E2 & E3).
  split; rewrite ?E1, ?E2, ?E3; try done.
  intros a Hin. destruct (Ha a Hin). split; [done|]. by apply (has_side k).
Qed.

Lemma sender_side k k' h w :
  sender k h w -> snd_side k' = snd_side k -> conv k' = conv k -> sender k' h w.
Proof.
  intros [N B F I] (E1 & E2 & E3 & E4)%snd_side_eq Hc.
  by split; rewrite ?E2, ?E3, ?E4, ?Hc.
Qed.

(** Moving the ready segments to the queue. *)
Lemma receiver_move k h rd :
  receiver k h rd -> len h < half ->
  receiver (move_ready k) h rd /\ grows k (move_ready k) /\ acklist (move_ready k) = acklist k.
Proof.
  intros Hr Hh. pose proof Hr as [N B Sr F K Qe].
  destruct (move_ready_spec k) as (c & Hc & E & Hn & _); [unfold is_u32; lia|].
  set (l := take c (rcv_buf k)) in *.
  assert (Hl : length l = c) by (subst l; rewrite length_take; lia).
  assert (Hin : forall s, s ∈ l -> in_hist h s).
  { intros s Hs. apply F. by eapply elem_of_take. }
  assert (Hslice := in_hist_slice h l (rcv_nxt k) Hn (proj1 N)).
  assert (Hle : rcv_nxt k + Z.of_nat c <= len h).
  { destruct (decide (c = 0%nat)) as [->|Hc0]; [lia|].
    destruct (lookup_lt_is_Some_2 l (c - 1)) as [s Hs]; [lia|].
    pose proof (numbered_lookup _ _ _ _ Hn Hs) as Hsn.
    pose proof (serial_length _ _ (serial_take (rcv_nxt k) c _ Sr)) as Hsl. fold l in Hsl.
    apply list_elem_of_lookup_2 in Hs. pose proof (in_hist_bound h s (Hin s Hs)) as Hb.
    rewrite u32_id in Hsn by (unfold is_u32; lia). lia. }
  specialize (Hslice ltac:(lia) Hin).
  assert (u32 (rcv_nxt k + Z.of_nat c) = rcv_nxt k + Z.of_nat c) as Hu
    by (apply u32_id; unfold is_u32; lia).
  assert (Hg : forall i, has k i -> has (move_ready k) i).
  { intros i [Hi|(s & Hs & <-)]; [left; rewrite E; simpl; lia|].
    rewrite <- (take_drop c (rcv_buf k)) in Hs. fold l in Hs.
    apply elem_of_app in Hs as [Hs|Hs].
    - left. rewrite E. simpl. rewrite Hu.
      apply list_elem_of_lookup in Hs as [j Hj]. pose proof (lookup_lt_Some _ _ _ Hj).
      rewrite (numbered_lookup _ _ _ _ Hn Hj), u32_id; [lia|unfold is_u32; lia].
    - right. exists s. split; [|done]. rewrite E. done. }
  split; [|split].
  - split.
    + rewrite E. simpl. lia.
    + rewrite E. simpl. fold l.
      assert (data (map payload l) = map payload l) as Hd
        by (apply data_push; intros s Hs; apply F; by eapply elem_of_take).
      rewrite Hu, map_app, app_assoc, B, <- Hd, Hslice, <- data_app. f_equal. rewrite Hl.
      replace (Z.to_nat (rcv_nxt k + Z.of_nat c)) with (Z.to_nat (rcv_nxt k) + c)%nat by lia.
      by rewrite take_take_drop.
    + assert (rcv_inv (move_ready k)) as [_ Hs]; [|done].
      apply move_ready_inv. split; [unfold is_u32; lia|done].
    + intros s Hs. rewrite E in Hs |- *. simpl in Hs |- *. rewrite Hu.
      pose proof (numbered_dist _ c _ s Sr Hn Hc Hs) as Hd.
      apply elem_of_drop in Hs. destruct (F s Hs) as (H1 & H2 & H3).
      split_and!; [done|done|]. pose proof (in_hist_bound h s H1).
      revert Hd. rewrite dist_le by (unfold is_u32; lia). lia.
    + intros a Ha. rewrite E in Ha. simpl in Ha. destruct (K a Ha). split; [done|]. by apply Hg.
    + intros s Hs. rewrite E in Hs. simpl in Hs. apply elem_of_app in Hs as [Hs|Hs]; [by apply Qe|].
      destruct (F s) as ([_ Hp] & Hcmd & _); [by eapply elem_of_take|].
      split; [by eapply list_elem_of_lookup_2|done].
  - split; [by rewrite E|rewrite E; simpl; lia|done].
  - by rewrite E.
Qed.

(** Accepting a segment of the history that is not behind. *)
Lemma receiver_accept k h rd s :
  receiver k h rd -> len h < half -> in_hist h s -> seg_cmd s = IKCP_CMD_PUSH ->
  rcv_nxt k <= seg_sn s ->
  let k' := k<|rcv_buf := accept (rcv_buf k) s|> in
  receiver k' h rd /\ grows k k' /\ has k' (seg_sn s).
Proof.
  intros [N B Sr F K Qe] Hh Hs Hc Hle k'. pose proof (in_hist_bound h s Hs) as Hb.
  assert (ahead (rcv_nxt k) s) as Ha.
  { split; [unfold is_u32; lia|]. rewrite dist_le by (unfold is_u32; lia). lia. }
  destruct (accept_complete _ _ _ Sr Ha) as [Hkeep Hnew].
  assert (Hg : forall i, has k i -> has k' i).
  { intros i [Hi|(t & Ht & Hi)]; [by left|right]. exists t. split; [by apply Hkeep|done]. }
  split; [|split].
  - split; try done.
    + by apply accept_serial.
    + intros t [->|Ht]%accept_elem; [done|by apply F].
    + intros a Hin. destruct (K a Hin). split; [done|by apply Hg].
  - split; [done|simpl; lia|done].
  - by right.
Qed.

(** The items a read takes from the queue: those of its first message. *)
Definition items_read (k : KCP) (b : list byte) : list item :=
  match b with [] => [] | _ => take (message_count (rcv_queue k)) (map payload (rcv_queue k)) end.

Lemma items_read_bytes k b :
  b = [] \/ b = message_bytes (rcv_queue k) -> item_bytes (items_read k b) = b.
Proof.
  intros Hb. destruct b as [|x b]; [done|]. destruct Hb as [|Hb]; [done|].
  change (item_bytes (take (message_count (rcv_queue k)) (payload <$> rcv_queue k)) = x :: b).
  rewrite Hb, <- fmap_take. unfold message_bytes, item_bytes.
  change (payload <$> ?l) with (map payload l). by rewrite map_map.
Qed.

Lemma read_round_nothing k k' : read_round k = Ok (k', []) -> rcv_side k' = rcv_side k.
Proof.
  unfold read_round. destruct (recvSize k) as [k1 n] eqn:E.
  destruct (recvSize_frame _ _ _ E) as (_ & _ & _ & _ & F5).
  destruct (Z.leb_spec n 0) as [Hn|Hn]; [by intros [= <-]|].
  pose proof (proj1 (proj2 (rcv_side_eq _ _ F5))) as Hq.
  apply recvSize_cases in E as [(-> & _)|(-> & _)]; [lia|]. rewrite Nat2Z.id.
  destruct (recv_run k1 (replicate (length (message_bytes (rcv_queue k))) Byte.x00))
    as (k2 & -> & _); [by rewrite Hq, length_replicate|].
  cbn [mbind res_bind]. rewrite Hq. intros [= _ Hz]. apply app_eq_nil in Hz as [Hz _]. by rewrite Hz in Hn.
Qed.

(** What [Read] hands out is the next part of the history. *)
Lemma receiver_read k h rd k' b :
  receiver k h rd -> len h < half -> read_round k = Ok (k', b) ->
  receiver k' h (rd ++ items_read k b) /\ grows k k' /\ snd_side k' = snd_side k.
Proof.
  intros Hr Hh E.
  destruct (read_round_run k) as (k1 & b1 & E1 & Hset & _ & _ & Hsd & Hc).
  rewrite E1 in E. injection E as <- <-.
  assert (conv k1 = conv k) as Hconv by by apply settings_eq in Hset as (? & _).
  pose proof (read_round_acks _ _ _ E1) as Hack.
  assert (b1 = [] /\ rcv_side k1 = rcv_side k \/ b1 <> [] /\ b1 = message_bytes (rcv_queue k) /\
    exists k2 p, rcv_side k2 = rcv_side k /\ k1 = (move_ready (k2<|rcv_queue :=
      drop (message_count (rcv_queue k)) (rcv_queue k)|>))<|probe := p|>) as Hc'.
  { destruct b1; [left; split; [done|by apply read_round_nothing]|right].
    destruct Hc as [[? _]|Hc]; [done|]. split; [done|exact Hc]. }
  clear Hc. destruct Hc' as [(-> & Hs)|(Hne & Hb & k2 & p & Hs & Ek)].
  - rewrite app_nil_r. split_and!; [|by apply grows_side|done].
    apply (receiver_side k); [done|done|]. rewrite Hack. apply Hr.
  - set (q := drop (message_count (rcv_queue k)) (rcv_queue k)) in *.
    set (k3 := k<|rcv_queue := q|>).
    assert (items_read k b1 = take (message_count (rcv_queue k)) (map payload (rcv_queue k))) as Ei
      by by destruct b1.
    assert (receiver k3 h (rd ++ items_read k b1)) as Hr3.
    { destruct Hr as [N B Sr F K Qe]. split; try done; [simpl|intros s Hs1; apply Qe; exact (elem_of_drop _ (rcv_queue k) s Hs1)].
      rewrite <- app_assoc, <- B, Ei. f_equal. unfold q.
      change (map payload ?l) with (payload <$> l). rewrite <- fmap_take, fmap_drop, fmap_take. apply take_drop. }
    destruct (receiver_move k3 h _ Hr3 Hh) as (Hr4 & Hg4 & Ha4).
    assert (rcv_side k1 = rcv_side (move_ready k3)) as Hs1.
    { rewrite Ek. apply (move_ready_side (k2<|rcv_queue := q|>) k3).
      - apply rcv_side_eq in Hs as (E1' & E2' & E3'). unfold rcv_side. simpl. by rewrite E1', E3'.
      - rewrite Ek in Hset. apply settings_eq in Hset as (_ & _ & _ & _ & Hw & _).
        destruct (move_ready_frame (k2<|rcv_queue := q|>)) as (Hm & _).
        apply settings_eq in Hm as (_ & _ & _ & _ & Hw2 & _).
        etrans; [symmetry; exact Hw2|exact Hw]. }
    split_and!; [| |done].
    + apply (receiver_side (move_ready k3)); [done|done|].
      rewrite Hack. destruct Hr4 as [_ _ _ _ K]. by rewrite Ha4 in K.
    + apply (grows_trans _ k3); [split; [done|simpl; lia|done]|].
      apply (grows_trans _ (move_ready k3)); [done|].
      apply grows_side; [|done]. rewrite Hconv. symmetry. apply (g_conv _ _ Hg4).
Qed.

(** ** Lemmas: an authentic segment arrives *)

(** An acknowledgement list that grows by a number that has arrived. *)
Lemma receiver_ack k h rd sn ts :
  receiver k h rd -> 0 <= sn < len h -> has k sn -> receiver (ack_push sn ts k) h rd.
Proof.
  intros [N B Sr F K Qe] Hs Hh. split; try done. unfold ack_push. simpl.
  intros a [Ha|Ha%list_elem_of_singleton]%elem_of_app; [by apply K|by subst].
Qed.

(** Acknowledgements apart: the part of [receiver] that does not mention them. *)
Lemma receiver_no_acks k h rd :
  receiver k h rd -> receiver (k<|acklist := []|>) h rd.
Proof.
  intros [N B Sr F K Qe]. split; try done. intros a Ha. by apply elem_of_nil in Ha.
Qed.

(** The CONNECT item takes number 0 and carries no data. *)
Lemma receiver_connect k h rd s :
  receiver k h rd -> rcv_nxt k = 0 -> in_hist h s -> seg_cmd s = IKCP_CMD_CONNECT ->
  seg_sn s = 0 -> seg_data s = [] -> receiver (k<|rcv_nxt := 1|>) h rd.
Proof.
  intros [N B Sr F K Qe] H0 Hi Hc Hs Hd. pose proof (in_hist_bound _ _ Hi) as Hb.
  destruct Hi as [_ Hl]. rewrite Hs in Hl. change (Z.to_nat 0) with 0%nat in Hl.
  assert (Hpos : forall t, t ∈ rcv_buf k -> 1 <= seg_sn t).
  { intros t Ht. destruct (F t Ht) as ([Ht0 Htl] & Htc & _).
    destruct (decide (seg_sn t = 0)) as [E|]; [|lia].
    rewrite E in Htl. change (Z.to_nat 0) with 0%nat in Htl. rewrite Hl in Htl.
    injection Htl as Hcc _ _. by rewrite Hc, Htc in Hcc. }
  split; simpl.
  - lia.
  - rewrite B, H0. destruct h as [|x h]; [done|]. simpl in Hl. injection Hl as ->.
    change (Z.to_nat 1) with 1%nat. change (Z.to_nat 0) with 0%nat. unfold data. simpl.
    rewrite filter_cons_False; [by destruct h|]. simpl. by rewrite Hc.
  - change 1 with (u32 (0 + 1)). apply serial_advance; [lia| |by rewrite <- H0].
    apply Forall_forall. intros t Ht. specialize (Hpos t Ht).
    pose proof (serial_elem _ _ t Sr Ht) as [Hu _].
    rewrite dist_le by (done || lia). lia.
  - intros t Ht. destruct (F t Ht) as (F1 & F2 & _). split_and!; [done|done|by apply Hpos].
  - intros a Ha. destruct (K a Ha) as [K1 [K2|(t & Ht & Et)]]; (split; [done|]).
    + left. simpl. lia.
    + right. by exists t.
  - exact Qe.
Qed.

Section Arrive.
Context `{BufPool}.

(** The end [k0] receives from the end [kB]: what every segment keeps. *)
Record core (k0 kB : KCP) (hA : list item) (w : list byte) (hB : list item) (rd : list item)
    (k : KCP) : Prop := {
  c_send : sender k hA w;
  c_recv : receiver k hB rd;
  c_cov : covered k kB hA;
  c_grows : grows k0 k;
}.

(** A removal from the send buffer is harmless when the other end has what is removed. *)
Lemma core_sub k0 kB hA w hB rd k k' :
  core k0 kB hA w hB rd k ->
  snd_nxt k' = snd_nxt k -> snd_queue k' = snd_queue k -> conv k' = conv k ->
  rcv_side k' = rcv_side k -> acklist k' = acklist k ->
  (forall s, s ∈ snd_buf k' -> s ∈ snd_buf k) ->
  (forall s, s ∈ snd_buf k -> s ∈ snd_buf k' \/ has kB (seg_sn s)) ->
  core k0 kB hA w hB rd k'.
Proof.
  intros [[N B F I] R C G] E1 E2 Ec Er Ea Hsub Hrem. split.
  - split; rewrite ?E1, ?E2, ?Ec; auto.
  - apply (receiver_side k); [done|done|]. rewrite Ea. apply R.
  - intros i Hi. destruct (C i Hi) as [(s & Hs & <-)|Hh]; [|by right].
    destruct (Hrem s Hs); [left; by exists s|by right].
  - apply (grows_trans _ k); [done|by apply grows_side].
Qed.

Lemma una_count_removed una buf s :
  s ∈ buf -> s ∈ drop (una_count buf una) buf \/ 0 < itimediff una (seg_sn s).
Proof.
  induction buf as [|x buf IH]; intros Hs; [by left|]. simpl.
  destruct (Z.gtb_spec (itimediff una (seg_sn x)) 0) as [Hgt|Hle]; [|by left].
  apply elem_of_cons in Hs as [->|Hs]; [right; lia|]. by apply IH.
Qed.

Lemma core_ack_part k0 kB hA w hB rd k h :
  core k0 kB hA w hB rd k -> len hA < half ->
  0 <= h_una h <= rcv_nxt kB -> rcv_nxt kB <= len hA ->
  core k0 kB hA w hB rd (input_ack_part k h).
Proof.
  intros Hc Hh Hu Hn. destruct (input_ack_part_rest k h) as (_ & Q & X & Bf).
  destruct (input_ack_part_frame k h) as (Hset & Hr & _).
  destruct (input_ack_part_control k h) as (Ha & _).
  apply settings_eq in Hset as (Hcv & _).
  apply (core_sub _ _ _ _ _ _ k); try done; rewrite Bf.
  - intros s. apply elem_of_drop.
  - intros s Hs. destruct (una_count_removed (h_una h) _ s Hs) as [|Hgt]; [by left|right].
    left. destruct (s_buf _ _ _ (c_send _ _ _ _ _ _ _ Hc) s Hs) as [Hi _].
    pose proof (in_hist_bound _ _ Hi) as Hb.
    apply itimediff_pos in Hgt. revert Hgt.
    destruct (decide (seg_sn s <= h_una h)) as [Hle|Hgt].
    + rewrite dist_le by (unfold is_u32; lia). lia.
    + intros Hd. exfalso. clear -Hd Hgt Hb Hu Hn Hh. word_lia.
Qed.

(** The receive side changes, the rest stays. *)
Lemma core_recv k0 kB hA w hB rd k k' :
  core k0 kB hA w hB rd k -> snd_side k' = snd_side k -> conv k' = conv k ->
  receiver k' hB rd -> grows k k' -> core k0 kB hA w hB rd k'.
Proof.
  intros [S R C G] Hs Hc Hr Hg. split.
  - by apply (sender_side k).
  - done.
  - intros i Hi. destruct (C i Hi) as [(s & Hin & <-)|]; [left|by right].
    apply snd_side_eq in Hs as (_ & _ & _ & ->). by exists s.
  - by apply (grows_trans _ k).
Qed.

(** A data segment of the history of the other end. *)
Lemma core_push k0 kB hA w hB rd k s k' :
  core k0 kB hA w hB rd k -> len hB < half -> has_stats k ->
  in_hist hB s -> seg_cmd s = IKCP_CMD_PUSH -> 0 <= rcv_nxt k <= len hB ->
  itimediff (seg_sn s) (u32 (rcv_nxt k + rcv_wnd k)) < 0 ->
  rcv_nxt k <= seg_sn s -> forall ts,
  parse_data (ack_push (seg_sn s) ts k) s = Ok k' ->
  core k0 kB hA w hB rd k'.
Proof.
  intros Hc Hh Hst Hi Hcmd Hn Hw Hle ts E. pose proof (in_hist_bound _ _ Hi) as Hb.
  pose proof (c_recv _ _ _ _ _ _ _ Hc) as Hr.
  set (k1 := ack_push (seg_sn s) ts k) in *.
  assert (rcv_inv k1) as Hinv by (split; [unfold is_u32; simpl; lia|apply Hr]).
  destruct (parse_data_accepts k1 s k' Hinv) as (st & -> & _);
    [unfold is_u32; lia|done| |done|].
  { apply itimediff_nonneg. simpl. rewrite dist_le by (unfold is_u32; lia). lia. }
  destruct (receiver_accept k hB rd s Hr Hh Hi Hcmd Hle) as (Hr2 & Hg2 & Hs2).
  set (k2 := k<|rcv_buf := accept (rcv_buf k) s|>) in *.
  pose proof (receiver_ack k2 hB rd (seg_sn s) ts Hr2 Hb Hs2) as Hr3.
  set (k3 := set stats _ _).
  assert (receiver k3 hB rd) as Hr4.
  { apply (receiver_side (ack_push (seg_sn s) ts k2)); [done|done|]. apply Hr3. }
  destruct (receiver_move k3 hB rd Hr4 Hh) as (Hr5 & Hg5 & _).
  destruct (move_ready_frame k3) as (F1 & F2 & _).
  apply (core_recv _ _ _ _ _ _ k); try done.
  - apply settings_eq in F1 as (F1 & _). exact F1.
  - apply (grows_trans _ k2); [done|]. apply (grows_trans _ k3); [|done].
    by split; [done|simpl; lia|].
Qed.

Lemma auth_cmd kB hB s : auth kB hB s -> u8 (seg_cmd s) = seg_cmd s.
Proof.
  intros Hs. pose proof (a_cmd _ _ _ Hs) as Hc. apply known_cmd_spec in Hc.
  unfold u8. rewrite Z.mod_small; [done|].
  unfold IKCP_CMD_PUSH, IKCP_CMD_ACK, IKCP_CMD_WASK, IKCP_CMD_WINS, IKCP_CMD_CONNECT in Hc. lia.
Qed.


(** An authentic segment keeps the invariant. *)
Lemma core_segment k0 kB hA w hB rd k a s k' r :
  core k0 kB hA w hB rd k -> wf k -> len hA < half -> len hB < half ->
  rcv_nxt kB <= len hA -> (forall i x, hB !! i = Some x -> item_ok i x) ->
  auth kB hB s -> len (seg_data s) <= 2048 ->
  input_segment k a (header_of s) (seg_data s) = Ok (k', r) ->
  core k0 kB hA w hB rd k'.
Proof.
  intros Hc Hw HhA HhB Hn Hit Hau Hl. pose proof Hau as [A1 A2 A3 A4 A5 A6].
  assert (Hlen : len (seg_data s) = h_len (header_of s)).
  { simpl. rewrite u32_id; [done|unfold is_u32; lia]. }
  pose proof (auth_cmd kB hB s Hau) as Hcmd.
  rewrite input_segment_eq by done. cbv zeta.
  assert (core k0 kB hA w hB rd (input_ack_part k (header_of s))) as Hc1.
  { apply core_ack_part; try done. simpl. rewrite u32_id by (unfold is_u32; lia). lia. }
  assert (snd_inv (input_ack_part k (header_of s))) as Hi1
    by apply input_ack_part_inv, Hw.
  destruct (input_ack_part_frame k (header_of s)) as (_ & _ & Hst).
  assert (has_stats (input_ack_part k (header_of s))) as Hst1.
  { unfold has_stats. rewrite Hst. apply Hw. }
  set (k1 := input_ack_part k (header_of s)) in *. clearbody k1. clear Hst.
  pose proof (c_recv _ _ _ _ _ _ _ Hc1) as Hr1. pose proof (r_nxt _ _ _ Hr1) as Hnx.
  change (h_cmd (header_of s)) with (u8 (seg_cmd s)).
  change (h_sn (header_of s)) with (u32 (seg_sn s)).
  change (h_ts (header_of s)) with (u32 (seg_ts s)). rewrite Hcmd.
  apply known_cmd_spec in A2 as [Ec|[Ec|[Ec|[Ec|Ec]]]]; rewrite Ec in A5, A6 |- *; simpl.
  - (* PUSH *)
    pose proof (A5 (or_introl eq_refl)) as Hi. pose proof (in_hist_bound _ _ Hi) as Hb.
    rewrite (u32_id (seg_sn s)) by (unfold is_u32; lia).
    assert (Hpay : in_hist hB (received (header_of s) (seg_data s)) /\
      seg_sn (received (header_of s) (seg_data s)) = seg_sn s /\
      seg_cmd (received (header_of s) (seg_data s)) = IKCP_CMD_PUSH).
    { unfold in_hist, payload, received, header_of. simpl. rewrite Hcmd.
      rewrite (u32_id (seg_sn s)) by (unfold is_u32; lia).
      unfold u8. rewrite (Z.mod_small (seg_frg s)) by lia. done. }
    destruct Hpay as (P1 & P2 & P3).
    assert (Hrep : forall k2 k3, seg_repeat k2 = Ok k3 -> core k0 kB hA w hB rd k2 ->
                   core k0 kB hA w hB rd k3).
    { intros k2 k3 E Hc2. apply with_stats_Ok_inv in E as [st ->].
      apply (core_recv _ _ _ _ _ _ k2); [done|done|done| |by apply grows_side].
      apply (receiver_side k2); [apply Hc2|done|]. apply Hc2. }
    destruct (Z.ltb_spec (itimediff (seg_sn s) (u32 (rcv_nxt k1 + rcv_wnd k1))) 0) as [Hwin|];
      intros E; apply bind_Ok_inv in E as (k2 & E & [= <- _]); [|by apply (Hrep k1 k2)].
    destruct (Z.geb_spec (itimediff (seg_sn s) (rcv_nxt k1)) 0) as [Hge|Hlt].
    + rewrite <- P2 in E.
      apply (core_push k0 kB hA w hB rd k1 (received (header_of s) (seg_data s)) k2 Hc1 HhB
               Hst1 P1 P3 Hnx) in E; [done|by rewrite P2|].
      rewrite P2. apply itimediff_nonneg in Hge. clear -Hge Hnx Hb HhB. word_lia.
    + assert (seg_sn s < rcv_nxt k1) as Hlt1.
      { apply itimediff_neg in Hlt. clear -Hlt Hnx Hb HhB. word_lia. }
      apply (Hrep (ack_push (seg_sn s) (u32 (seg_ts s)) k1) k2); [done|].
      apply (core_recv _ _ _ _ _ _ k1); [done|done|done| |by apply grows_side].
      apply receiver_ack; [done|lia|by left].
  - (* ACK *)
    destruct (A6 eq_refl) as [Hsn Hhas].
    rewrite (u32_id (seg_sn s)) by (unfold is_u32; lia). intros [= <- _].
    rewrite parse_ack_filter by (done || unfold is_u32; lia).
    destruct (shrink_buf_frame (k1<|snd_buf := filter (not_sn (seg_sn s)) (snd_buf k1)|>))
      as (F1 & F2 & _).
    set (k2 := k1<|snd_buf := filter (not_sn (seg_sn s)) (snd_buf k1)|>) in *.
    destruct (shrink_buf_rest k2) as (_ & S1 & S2 & S3).
    apply settings_eq in F1 as (F1 & _).
    apply (core_sub _ _ _ _ _ _ k1); try done; rewrite ?S2.
    + unfold shrink_buf. by destruct (snd_buf k2).
    + intros t Ht. by apply list_elem_of_filter in Ht as [_ ?].
    + intros t Ht. destruct (decide (seg_sn t = seg_sn s)) as [->|Hne]; [by right|left].
      by apply list_elem_of_filter.
  - intros [= <- _]. apply (core_recv _ _ _ _ _ _ k1); [done|done|done| |by apply grows_side].
    by apply (receiver_side k1); [done|done|apply Hr1].
  - by intros [= <- _].
  - (* CONNECT *)
    pose proof (A5 (or_intror eq_refl)) as Hi. pose proof (in_hist_bound _ _ Hi) as Hb.
    destruct (Z.eqb_spec (rcv_nxt k1) 0) as [H0|]; [|by intros [= <- _]].
    assert (seg_sn s = 0 /\ seg_data s = []) as [Hs0 Hd0].
    { destruct Hi as [Hi0 Hi]. destruct (Hit _ _ Hi) as [_ [Hp|(Hz & _ & Hd)]].
      - simpl in Hp. by rewrite Ec in Hp.
      - simpl in Hd. split; [lia|done]. }
    rewrite H0, (u32_id (seg_sn s)) by (unfold is_u32; lia). change (u32 (0 + 1)) with 1.
    intros [= <- _]. apply (core_recv _ _ _ _ _ _ k1); [done|done|done|..].
    + destruct (receiver_connect k1 hB rd s Hr1 H0 Hi Ec Hs0 Hd0) as [N B Sr F K Qe].
      split; try done. intros t [Ht|Ht%list_elem_of_singleton]%elem_of_app; [by apply K|].
      subst t. simpl. split; [lia|]. left. simpl. lia.
    + split; [done|simpl; lia|]. intros i [Hlt|(t & Ht & Et)]; [left; simpl; lia|].
      right. by exists t.
Qed.

(** ** Lemmas: an authentic datagram arrives *)

(** What identifies a segment to the invariant. *)
Definition sig (s : segment) : Z * item * Z := (seg_sn s, payload s, seg_conv s).

Lemma sig_elem (l l' : list segment) s :
  map sig l' = map sig l -> s ∈ l' -> exists t, t ∈ l /\ sig t = sig s.
Proof.
  intros E Hs. assert (sig s ∈ map sig l) as (t & Ht & Hin)%list_elem_of_fmap.
  { rewrite <- E. by apply list_elem_of_fmap_2. }
  by exists t.
Qed.

Lemma in_hist_sig h s t : sig t = sig s -> in_hist h t -> in_hist h s.
Proof. intros [= E1 E2 E3 E4 _]. unfold in_hist, payload. by rewrite E1, E2, E3, E4. Qed.

(** Changes that the invariant does not see. *)
Lemma core_sig k0 kB hA w hB rd k k' :
  core k0 kB hA w hB rd k ->
  snd_nxt k' = snd_nxt k -> snd_queue k' = snd_queue k -> conv k' = conv k ->
  rcv_side k' = rcv_side k -> acklist k' = acklist k ->
  map sig (snd_buf k') = map sig (snd_buf k) ->
  core k0 kB hA w hB rd k'.
Proof.
  intros [[N B F I] R C G] E1 E2 Ec Er Ea Em. split.
  - split; rewrite ?E1, ?E2, ?Ec; auto. intros s Hs.
    destruct (sig_elem _ _ s Em Hs) as (t & Ht & Et). destruct (F t Ht) as [F1 F2].
    split; [by apply (in_hist_sig _ _ t)|]. injection Et as _ _ _ _ Et. congruence.
  - apply (receiver_side k); [done|done|]. rewrite Ea. apply R.
  - intros i Hi. destruct (C i Hi) as [(s & Hs & <-)|]; [left|by right].
    destruct (sig_elem _ _ s (eq_sym Em) Hs) as (t & Ht & Et). exists t.
    split; [done|]. by injection Et.
  - apply (grows_trans _ k); [done|by apply grows_side].
Qed.

Lemma header_of_ok s : hdr_ok (header_of s).
Proof.
  unfold hdr_ok, header_of. simpl. unfold u8, u16.
  split_and!; try apply u32_range; apply Z.mod_pos_bound; lia.
Qed.

Lemma bump_fastack_sig buf sn : map sig (bump_fastack buf sn) = map sig buf.
Proof.
  induction buf as [|s buf IH]; simpl; [done|].
  destruct (_ <? 0); [done|]. destruct (negb _); simpl; by rewrite IH.
Qed.

Lemma input_cwnd_acks una k k' :
  input_cwnd una k = Ok k' ->
  settings k' = settings k /\ acklist k' = acklist k /\ rmt_wnd k' = rmt_wnd k /\
  probe k' = probe k.
Proof.
  unfold input_cwnd. destruct (_ && _); [|by intros [= <-]].
  destruct (_ <? ssthresh k); cbn [mbind res_bind]; cbv zeta.
  - destruct (_ >? _); by intros [= <-].
  - destruct (_ <? u32 (mss k)); destruct (negb _); cbn [mbind res_bind go_check]; try done;
      destruct (_ <=? _); cbn [mbind res_bind]; destruct (_ >? _); by intros [= <-].
Qed.

Lemma core_segments k0 kB hA w hB rd g : forall k a k' r,
  core k0 kB hA w hB rd k -> wf k -> len hA < half -> len hB < half ->
  rcv_nxt kB <= len hA -> (forall i x, hB !! i = Some x -> item_ok i x) ->
  Forall (auth kB hB) g -> len (seg_stream g) <= 2048 ->
  input_segments k a g = Ok (k', r) -> core k0 kB hA w hB rd k' /\ wf k'.
Proof.
  induction g as [|s g IH]; intros k a k' r Hc Hw HhA HhB Hn Hit Hau Hl; simpl.
  { by intros [= <- _]. }
  apply Forall_cons in Hau as [Hs Hau].
  rewrite seg_stream_cons, length_app, wire_length in Hl.
  assert (known_cmd (u8 (seg_cmd s)) = true) as Hk.
  { rewrite (auth_cmd kB hB) by done. apply Hs. }
  destruct (input_segment_ok k a (header_of s) (seg_data s)) as (k1 & a1 & E & _);
    [apply Hw|simpl; rewrite u32_id; [done|unfold is_u32; lia]|lia|exact Hk|].
  rewrite E. cbn [mbind res_bind]. apply IH; try done; [| |lia].
  - eapply core_segment; try done. lia.
  - apply (wf_input_segment k a (header_of s) (seg_data s) k1 (inl a1));
      [done|apply header_of_ok|exact Hk| |lia|exact E].
    simpl. rewrite u32_id; [done|unfold is_u32; lia].
Qed.

(** The two control blocks agree on what the invariant reads. *)
Record same_core (k k' : KCP) : Prop := {
  sc_nxt : snd_nxt k' = snd_nxt k;
  sc_queue : snd_queue k' = snd_queue k;
  sc_settings : settings k' = settings k;
  sc_rcv : rcv_side k' = rcv_side k;
  sc_acks : acklist k' = acklist k;
  sc_wnd : rmt_wnd k' = rmt_wnd k;
  sc_probe : probe k' = probe k;
  sc_buf : map sig (snd_buf k') = map sig (snd_buf k);
}.

Lemma same_core_refl k : same_core k k.
Proof. done. Qed.

Lemma same_core_trans k1 k2 k3 : same_core k1 k2 -> same_core k2 k3 -> same_core k1 k3.
Proof. intros [] []. split; congruence. Qed.

Lemma core_same k0 kB hA w hB rd k k' :
  core k0 kB hA w hB rd k -> same_core k k' -> core k0 kB hA w hB rd k'.
Proof.
  intros Hc [S1 S2 S3 S4 S5 _ _ S6]. apply settings_eq in S3 as (S3 & _).
  by apply (core_sig _ _ _ _ _ _ k).
Qed.

(** A datagram of known segments is its segments one after the other, up to what the
    invariant does not read. *)
Lemma input_stream k t g k' code :
  has_stats k -> Forall (wire_ok (conv k)) g -> g <> [] -> len (seg_stream g) <= 2048 ->
  input k t (seg_stream g) true = Ok (k', code) ->
  exists k1 r, input_segments k (mkAcksum 0 0 0) g = Ok (k1, r) /\ same_core k1 k'.
Proof.
  intros Hst Hok Hne Hl. unfold input.
  rewrite (proj2 (Z.ltb_ge _ _)).
  2: { destruct g as [|s g]; [done|]. rewrite seg_stream_cons, length_app, wire_length.
       unfold IKCP_OVERHEAD. lia. }
  rewrite input_loop_stream by done.
  intros E. apply bind_Ok_inv in E as ([k1 r] & E1 & E). exists k1, r. split; [done|].
  destruct r as [a|c]; [|injection E as <- _; apply same_core_refl].
  apply bind_Ok_inv in E as (k3 & E3 & E). injection E as <- _.
  set (k2 := if negb (flag a =? 0) && true then _ else k1) in E3.
  assert (same_core k1 k2) as Hc2.
  { subst k2. destruct (negb _ && true); [|apply same_core_refl].
    assert (same_core k1 (parse_fastack (maxack a) k1)) as Hf.
    { destruct (parse_fastack_frame (maxack a) k1) as (F1 & F2 & _).
      split; try done; unfold parse_fastack; destruct (_ || _); try done.
      simpl. apply bump_fastack_sig. }
    destruct (_ >=? 0); [|done].
    set (rtt := itimediff t (recentack a)). set (kf := parse_fastack (maxack a) k1) in *.
    destruct (update_ack_frame rtt kf) as (F1 & F2 & F3 & _).
    apply snd_side_eq in F3 as (_ & S1 & S2 & S3).
    apply (same_core_trans _ kf); [done|]. split; try done; try (by rewrite S3);
      unfold update_ack; destruct (rx_srtt kf =? 0); try done; simpl; by destruct (_ <? 1). }
  apply (same_core_trans _ k2); [done|].
  destruct (input_cwnd_sides _ _ _ E3) as [S R].
  apply snd_side_eq in S as (_ & S1 & S2 & S3).
  destruct (input_cwnd_acks _ _ _ E3) as (A1 & A2 & A3 & A4).
  split; try done. by rewrite S3.
Qed.

Lemma auth_wire_ok kB hB g c : conv kB = c -> is_u32 c -> Forall (auth kB hB) g -> Forall (wire_ok c) g.
Proof.
  intros <- Hc Hau. eapply Forall_impl; [exact Hau|]. intros s Hs. split.
  - rewrite (a_conv _ _ _ Hs). by apply u32_id.
  - rewrite (auth_cmd kB hB) by done. apply Hs.
Qed.

Lemma core_input k0 kB hA w hB rd k t pkt k' code :
  core k0 kB hA w hB rd k -> wf k -> is_u32 (conv k) -> conv kB = conv k ->
  len hA < half -> len hB < half ->
  rcv_nxt kB <= len hA -> (forall i x, hB !! i = Some x -> item_ok i x) ->
  auth_packet kB hB pkt -> len pkt <= 2048 ->
  input k t pkt true = Ok (k', code) -> core k0 kB hA w hB rd k'.
Proof.
  intros Hc Hw Hcu Hcv HhA HhB Hn Hit (g & -> & Hne & Hau) Hl E.
  destruct (input_stream k t g k' code) as (k1 & r & E1 & Hsame); try done.
  - apply Hw.
  - by apply (auth_wire_ok kB hB).
  - destruct (core_segments _ _ _ _ _ _ g _ _ _ _ Hc Hw HhA HhB Hn Hit Hau Hl E1) as [Hc1 _].
    by apply (core_same _ _ _ _ _ _ k1).
Qed.
End Arrive.

(** ** Lemmas: a flush *)

(** The admitted segments carry the queued items under the next numbers. *)
Lemma admit_segments_lookup k wnd t q : forall nxt i s,
  admit_segments k wnd t nxt q !! i = Some s -> is_u32 nxt ->
  exists x, q !! i = Some x /\ payload s = payload x /\ seg_sn s = u32 (nxt + Z.of_nat i) /\
    seg_conv s = conv k.
Proof.
  induction q as [|x q IH]; intros nxt [|i] s; simpl; try discriminate.
  - intros [= <-] Hu. exists x. rewrite Z.add_0_r, u32_id by done. done.
  - intros Hi _. destruct (IH _ _ _ Hi (u32_range _)) as (y & H1 & H2 & H3 & H4).
    exists y. split_and!; [done|done| |done]. rewrite H3, u32_add_l. f_equal. lia.
Qed.

Lemma ack_segments_elem nxt acks : forall seg s,
  s ∈ ack_segments nxt acks seg -> exists a, a ∈ acks /\ seg_sn s = ack_sn a.
Proof.
  induction acks as [|a acks IH]; intros seg s; cbn [ack_segments]; [by intros ?%elem_of_nil|].
  destruct (_ || _).
  - intros [->|Hs]%elem_of_cons; [exists a; split; [by left|done]|].
    destruct (IH _ _ Hs) as (b & Hb & E). exists b. split; [by right|done].
  - intros Hs. destruct (IH _ _ Hs) as (b & Hb & E). exists b. split; [by right|done].
Qed.

(** The new items of a flush. *)
Definition flush_items (k : KCP) : list item :=
  take (admitted_count k) (map payload (snd_queue k)).

Lemma flush_items_length k : length (flush_items k) = admitted_count k.
Proof.
  unfold flush_items, admitted_count. rewrite length_take, length_map. lia.
Qed.

Lemma flush_items_rest k :
  flush_items k ++ map payload (drop (admitted_count k) (snd_queue k)) = map payload (snd_queue k).
Proof.
  unfold flush_items. change (map payload (drop ?n ?l)) with (payload <$> drop n l).
  rewrite fmap_drop. apply take_drop.
Qed.

(** The send buffer between window and data loop, against the longer history. *)
Lemma admitted_in_hist t k h w s :
  sender k h w -> is_u32 (len h) -> len (h ++ flush_items k) < half ->
  s ∈ snd_buf (admitted t k) -> in_hist (h ++ flush_items k) s /\ seg_conv s = conv k.
Proof.
  intros [N B F I] Hu Hh Hs.
  change (snd_buf (admitted t k)) with (snd_buf k ++
    admit_segments k (u32 (wnd_unused k)) t (snd_nxt k) (take (admitted_count k) (snd_queue k)))
    in Hs.
  apply elem_of_app in Hs as [Hs|Hs].
  { destruct (F s Hs). split; [by apply in_hist_app|done]. }
  apply list_elem_of_lookup in Hs as [i Hi]. rewrite N in Hi.
  destruct (admit_segments_lookup _ _ _ _ _ _ _ Hi Hu) as (x & H1 & H2 & H3 & H4).
  split; [|done]. rewrite length_app, flush_items_length in Hh.
  assert (i < admitted_count k)%nat.
  { apply lookup_lt_Some in H1. rewrite length_take in H1. lia. }
  rewrite u32_id in H3 by (unfold is_u32; lia).
  split; [lia|]. rewrite H3, H2.
  replace (Z.to_nat (len h + Z.of_nat i)) with (length h + i)%nat by lia.
  rewrite lookup_app_r by lia. replace (length h + i - length h)%nat with i by lia.
  unfold flush_items. change (map payload ?l) with (payload <$> l).
  rewrite <- fmap_take, list_lookup_fmap, H1. done.
Qed.

(** All of the new numbers are in the send buffer. *)
Lemma admitted_covers t k h w i :
  sender k h w -> is_u32 (len h) -> len (h ++ flush_items k) < half ->
  len h <= i < len (h ++ flush_items k) ->
  exists s, s ∈ snd_buf (admitted t k) /\ seg_sn s = i.
Proof.
  intros [N B F I] Hu Hh Hi. rewrite length_app, flush_items_length in Hh, Hi.
  set (new := admit_segments k (u32 (wnd_unused k)) t (snd_nxt k)
                (take (admitted_count k) (snd_queue k))).
  assert (length new = admitted_count k) as Hl.
  { subst new. rewrite admit_segments_length, length_take. unfold admitted_count. lia. }
  destruct (lookup_lt_is_Some_2 new (Z.to_nat (i - len h))) as [s Hs]; [lia|].
  exists s. split.
  - change (snd_buf (admitted t k)) with (snd_buf k ++ new). apply elem_of_app. right.
    by eapply list_elem_of_lookup_2.
  - subst new. rewrite N in Hs.
    destruct (admit_segments_lookup _ _ _ _ _ _ _ Hs Hu) as (x & _ & _ & -> & _).
    rewrite u32_id; [lia|unfold is_u32; lia].
Qed.

Lemma flush_fates_sig t k :
  map sig (map fst (flush_fates t k)) = map sig (snd_buf (admitted t k)).
Proof.
  unfold flush_fates. rewrite !map_map. apply map_ext. intros s. unfold sig, payload.
  by destruct (flushed_data (admitted t k) t (flush_resent k) (u32 (wnd_unused k))
    (0 <? admitted_count k)%nat s) as (-> & -> & -> & -> & ->).
Qed.

(** Every segment a flush writes is authentic. *)
Lemma control_auth t k h hB rd s :
  receiver k hB rd -> len hB < half -> s ∈ control_segments t k -> auth k h s.
Proof.
  intros [N B Sr F K Qe] Hh. unfold control_segments, probe_segments. rewrite !elem_of_app.
  assert (Hprobe : forall c, (c = IKCP_CMD_WASK \/ c = IKCP_CMD_WINS) ->
    auth k h ((probe_header k)<|seg_cmd := c|>)).
  { intros c Hc. destruct (probe_header_fields k) as (_ & _ & Hu & Hcv).
    pose proof (probe_header_frg k) as Hf.
    split; simpl; try done; rewrite ?Hf, ?Hu; try lia.
    - apply known_cmd_spec. tauto.
    - intros [->| ->]; by destruct Hc.
    - intros ->. by destruct Hc. }
  intros [Hs|[Hs|Hs]].
  - pose proof (ack_segments_header (rcv_nxt k) (acklist k) (flush_header k)) as Hhd.
    rewrite Forall_forall in Hhd. destruct (Hhd s Hs) as (_ & _ & Hcv & Hu & Hc).
    pose proof (ack_segments_frg (rcv_nxt k) (acklist k) (flush_header k)) as Hfr.
    rewrite Forall_forall in Hfr. specialize (Hfr s Hs).
    destruct (ack_segments_elem _ _ _ _ Hs) as (a & Ha & Esn). destruct (K a Ha) as [K1 K2].
    simpl in Hcv, Hu, Hc, Hfr.
    split; rewrite ?Hc, ?Hu, ?Hfr; try done; try lia.
    + intros [?|?]; done.
    + intros _. rewrite Esn. split; [lia|done].
  - destruct (negb _); [|by apply elem_of_nil in Hs].
    apply list_elem_of_singleton in Hs as ->. apply Hprobe. by left.
  - destruct (negb _); [|by apply elem_of_nil in Hs].
    apply list_elem_of_singleton in Hs as ->. apply Hprobe. by right.
Qed.

Lemma sent_auth t k h w hB rd s :
  sender k h w -> receiver k hB rd -> is_u32 (len h) -> len (h ++ flush_items k) < half ->
  s ∈ sent_segments (flush_fates t k) -> auth k (h ++ flush_items k) s.
Proof.
  intros Hs Hr Hu Hh Hin. unfold sent_segments in Hin.
  apply list_elem_of_omap in Hin as ([s1 kind] & Hf & Hk). simpl in Hk.
  destruct (needsend kind) eqn:Hn; [|discriminate]. injection Hk as <-.
  unfold flush_fates in Hf. apply list_elem_of_fmap in Hf as (s0 & E & Hin0).
  destruct (admitted_in_hist t k h w s0 Hs Hu Hh Hin0) as [Hih Hcv].
  assert (s1 = (flushed (admitted t k) t (flush_resent k) (u32 (wnd_unused k))
                 (0 <? admitted_count k)%nat s0).1 /\ seg_una s1 = rcv_nxt k) as [-> Hun].
  { rewrite <- E. split; [done|]. unfold flushed in E.
    destruct (flush_segment _ _ _ _ _) as [s2 kd]. simpl in E. injection E as -> ->.
    rewrite Hn. simpl.
    exact (proj1 (rcv_side_eq _ _ (proj1 (proj2 (proj2 (controlled_frame t k)))))). }
  set (s1 := (flushed _ _ _ _ _ s0).1) in *.
  destruct (flushed_data (admitted t k) t (flush_resent k) (u32 (wnd_unused k))
    (0 <? admitted_count k)%nat s0) as (E1 & E2 & E3 & E4 & E5). fold s1 in E1, E2, E3, E4, E5. clearbody s1. clear E.
  assert (in_hist (h ++ flush_items k) s1) as Hih1.
  { apply (in_hist_sig _ s1 s0); [|done]. unfold sig, payload. by rewrite E1, E2, E3, E4, E5. }
  destruct Hih1 as [Hp0 Hp].
  destruct (s_items _ _ _ Hs (Z.to_nat (seg_sn s1)) (payload s1)) as [Hfrg Hcmd].
  { rewrite <- flush_items_rest, app_assoc. by apply lookup_app_l_Some. }
  simpl in Hfrg, Hcmd. pose proof (r_nxt _ _ _ Hr).
  split; rewrite ?Hun; [congruence| |done|lia|done|].
  - apply known_cmd_spec. destruct Hcmd as [->|(_ & -> & _)]; auto 10.
  - destruct Hcmd as [->|(_ & -> & _)]; discriminate.
Qed.

Lemma flush_auth k t k' h w hB rd s :
  sender k h w -> receiver k hB rd -> is_u32 (len h) -> len (h ++ flush_items k) < half ->
  len hB < half -> grows k k' -> conv k' = conv k ->
  s ∈ control_segments t k ++ sent_segments (flush_fates t k) -> auth k' (h ++ flush_items k) s.
Proof.
  intros Hs Hr Hu Hh HhB Hg Hc Hin. rewrite <- (app_nil_r (h ++ flush_items k)).
  apply (auth_mono k); [done|done|]. apply elem_of_app in Hin as [Hin|Hin].
  - by eapply control_auth.
  - by eapply sent_auth.
Qed.

(** What an operation of one end must establish, for the direction it sends in (with
    history [h] and written bytes [w]) and the one it receives in. *)
Record kept (k k' kB : KCP) (h : list item) (w : list byte) (hB : list item) (rd : list item)
    (pkts : list (list byte)) : Prop := {
  k_wf : wf k';
  k_send : sender k' h w;
  k_recv : receiver k' hB rd;
  k_cov : covered k' kB h;
  k_grows : grows k k';
  k_auth : Forall (auth_packet k' h) pkts;
}.

Lemma numbered_now_flush t k x st b :
  wf k -> numbered_now k (flushed_kcp t k x st b) = flush_items k.
Proof.
  intros Hw. assert (Z.of_nat (admitted_count k) < half) as Hn.
  { pose proof (wf_cwnd k Hw). pose proof (dist_range (snd_una k) (snd_nxt k)) as Hd.
    unfold is_u32 in Hd. unfold admitted_count, window_room. lia. }
  destruct (flushed_snd_side t k x st b) as (_ & S2 & _ & S4).
  unfold numbered_now. rewrite S2, S4, dist_add_plain by lia. rewrite Nat2Z.id.
  change (map payload (drop ?n ?l)) with (payload <$> drop n l). rewrite fmap_drop.
  change (payload <$> map fst (flush_fates t k)) with (map payload (map fst (flush_fates t k))).
  rewrite flush_fates_payload.
  change (snd_buf (admitted t k)) with (snd_buf k ++
    admit_segments k (u32 (wnd_unused k)) t (snd_nxt k) (take (admitted_count k) (snd_queue k))).
  assert (length (map fst (flush_fates t k)) = (length (snd_buf k) + admitted_count k)%nat) as ->.
  { unfold flush_fates. rewrite !length_map.
    change (snd_buf (admitted t k)) with (snd_buf k ++
      admit_segments k (u32 (wnd_unused k)) t (snd_nxt k) (take (admitted_count k) (snd_queue k))).
    rewrite length_app, admit_segments_length, length_take. unfold admitted_count. lia. }
  rewrite map_app, admit_segments_payload, Nat.add_sub.
  rewrite <- (length_map payload (snd_buf k)), drop_app_length.
  unfold flush_items. change (map payload ?l) with (payload <$> l). by rewrite fmap_take.
Qed.

Lemma kept_flush k t k' tr kB h w hB rd :
  wf k -> sender k h w -> receiver k hB rd -> covered k kB h -> len hB < half ->
  flush k t = Ok (k', tr) -> len (h ++ flush_items k) < half ->
  kept k k' kB (h ++ flush_items k) w hB rd (packets_of tr) /\
  numbered_now k k' = flush_items k.
Proof.
  intros Hw Hs Hr Hcov HhB E Hh.
  destruct (wf_flush k t Hw) as (x & st & b & tr' & gs & E' & Hw' & Hp & Hg & Hf).
  rewrite E' in E. injection E as <- <-.
  assert (is_u32 (len h)) as Hu by (rewrite length_app in Hh; unfold is_u32; lia).
  destruct (flushed_snd_side t k x st b) as (_ & S2 & S3 & S4).
  pose proof (flushed_rcv_side t k x st b) as Hrs.
  pose proof (flushed_settings t k x st b) as Hset. apply settings_eq in Hset as (Hcv & _).
  destruct (flushed_control t k x st b) as (Hack & _).
  assert (grows k (flushed_kcp t k x st b)) as Hgr by by apply grows_side.
  split; [|by apply numbered_now_flush].
  split; try done.
  - destruct Hs as [N B F I]. split.
    + rewrite S2, N, length_app, flush_items_length in *.
      rewrite u32_id; [lia|unfold is_u32; lia].
    + by rewrite S3, <- app_assoc, flush_items_rest.
    + intros s Hin. rewrite S4 in Hin.
      destruct (sig_elem _ _ s (flush_fates_sig t k) Hin) as (s0 & Hin0 & Esig).
      destruct (admitted_in_hist t k h w s0 (Build_sender _ _ _ N B F I) Hu Hh Hin0) as [H1 H2].
      split; [by apply (in_hist_sig _ s s0)|]. rewrite Hcv.
      injection Esig as _ _ _ _ Ec. congruence.
    + intros i x0 Hi. rewrite S3, <- app_assoc, flush_items_rest in Hi. by apply I.
  - apply (receiver_side k); [done|done|]. rewrite Hack. intros a Ha. by apply elem_of_nil in Ha.
  - intros i Hi. destruct (decide (i < len h)) as [Hlt|Hge].
    + destruct (Hcov i) as [(s & Hin & Hsn)|]; [lia|left|by right].
      assert (s ∈ snd_buf (admitted t k)) as Hin' by (apply elem_of_app; by left).
      destruct (sig_elem _ _ s (eq_sym (flush_fates_sig t k)) Hin') as (s' & Hs' & Esig).
      exists s'. rewrite S4. split; [done|]. injection Esig as Esn. congruence.
    + left. destruct (admitted_covers t k h w i Hs Hu Hh) as (s & Hin & Hsn); [lia|].
      destruct (sig_elem _ _ s (eq_sym (flush_fates_sig t k)) Hin) as (s' & Hs' & Esig).
      exists s'. rewrite S4. split; [done|]. injection Esig as Esn. congruence.
  - rewrite Hp. apply Forall_map. rewrite Forall_forall in Hf |- *. intros g Hin. simpl.
    exists g. split; [done|]. split; [by apply Hf|]. apply Forall_forall. intros s Hsg.
    apply (flush_auth k t _ h w hB rd); try done. rewrite <- Hg. by apply (elem_of_concat gs g).
Qed.

(** Changes that touch neither direction. *)
Lemma kept_same k k' kB h w hB rd :
  wf k' -> sender k h w -> receiver k hB rd -> covered k kB h ->
  snd_side k' = snd_side k -> rcv_side k' = rcv_side k -> conv k' = conv k ->
  acklist k' = acklist k -> kept k k' kB h w hB rd [].
Proof.
  intros Hw Hs Hr Hc Hsd Hrd Hcv Ha. split; try done.
  - by apply (sender_side k).
  - apply (receiver_side k); [done|done|]. rewrite Ha. apply Hr.
  - intros i Hi. destruct (Hc i Hi) as [(s & Hin & <-)|]; [left|by right].
    apply snd_side_eq in Hsd as (_ & _ & _ & ->). by exists s.
  - by apply grows_side.
Qed.

Lemma numbered_now_same k k' : snd_nxt k' = snd_nxt k -> numbered_now k k' = [].
Proof.
  intros E. unfold numbered_now. rewrite E, dist_self. simpl. rewrite Nat.sub_0_r.
  by rewrite drop_ge.
Qed.

(** ** Lemmas: the other operations *)

Lemma kept_pre k0 k k' kB h w hB rd pkts :
  grows k k0 -> kept k0 k' kB h w hB rd pkts -> kept k k' kB h w hB rd pkts.
Proof. intros Hg [H1 H2 H3 H4 H5 H6]. split; try done. by apply (grows_trans _ k0). Qed.

(** A flush after a preparation that touches neither direction. *)
Lemma kept_flush_after k0 k t k' tr kB h w hB rd :
  wf k0 -> sender k0 h w -> rcv_side k0 = rcv_side k -> conv k0 = conv k ->
  acklist k0 = acklist k -> snd_nxt k0 = snd_nxt k ->
  (forall s, s ∈ snd_buf k -> s ∈ snd_buf k0) ->
  receiver k hB rd -> covered k kB h -> len hB < half ->
  flush k0 t = Ok (k', tr) -> len (h ++ numbered_now k k') < half ->
  kept k k' kB (h ++ numbered_now k k') w hB rd (packets_of tr).
Proof.
  intros Hw Hs Hrs Hcv Ha Hn Hb Hr Hcov HhB E Hh.
  assert (numbered_now k k' = numbered_now k0 k') as En by (unfold numbered_now; by rewrite Hn).
  assert (receiver k0 hB rd) as Hr0.
  { apply (receiver_side k); [done|done|]. rewrite Ha. apply Hr. }
  assert (covered k0 kB h) as Hcov0.
  { intros i Hi. destruct (Hcov i Hi) as [(s & Hin & Hsn)|]; [left; eauto|by right]. }
  assert (numbered_now k0 k' = flush_items k0) as Hnn.
  { destruct (wf_flush k0 t Hw) as (x & st & b & tr' & gs & E' & _).
    rewrite E' in E. injection E as <- <-. by apply numbered_now_flush. }
  rewrite En, Hnn in Hh |- *. apply (kept_pre k0); [by apply grows_side|].
  by apply kept_flush with t.
Qed.

Section Ops.
Context `{BufPool}.

(** Lookups in an extended history. *)
Lemma items_app (h l : list item) :
  (forall i x, h !! i = Some x -> item_ok i x) ->
  (forall x, x ∈ l -> forall i, item_ok i x) ->
  forall i x, (h ++ l) !! i = Some x -> item_ok i x.
Proof.
  intros Hh Hl i x [Hi|[_ Hi]]%lookup_app_Some; [by apply Hh|].
  apply Hl. by eapply list_elem_of_lookup_2.
Qed.

Lemma push_item_ok f d i : 0 <= f < 256 -> item_ok i (payload (push_segment f d)).
Proof. intros Hf. split; [done|by left]. Qed.

Lemma message_items_ok ds x :
  len ds <= 255 -> x ∈ map payload (message_segments ds) -> forall i, item_ok i x.
Proof.
  intros Hl Hx i. apply list_elem_of_fmap in Hx as (s & -> & Hs).
  apply list_elem_of_lookup in Hs as [j Hj].
  destruct (message_segments_lookup _ _ _ Hj) as (d & Hd & ->).
  apply lookup_lt_Some in Hd. apply push_item_ok. lia.
Qed.

(** What [send] queues are well-formed items. *)
Lemma send_items k b k' code h :
  wf k -> len b < 4294967296 -> send k b = Ok (k', code) ->
  (forall i x, (h ++ map payload (snd_queue k)) !! i = Some x -> item_ok i x) ->
  forall i x, (h ++ map payload (snd_queue k')) !! i = Some x -> item_ok i x.
Proof.
  intros Hw Hb E Hit. rewrite send_ok in E by (done || by apply wf_mss_range). cbv zeta in E.
  destruct (len b =? 0); [by injection E as <- _|].
  destruct (stream k =? 0).
  - destruct (Z.gtb_spec (len (chunks (Z.to_nat (mss k)) b)) 255) as [|Hle];
      [by injection E as <- _|].
    injection E as <- _. simpl. rewrite map_app, app_assoc. apply items_app; [done|].
    intros x Hx. by eapply message_items_ok.
  - injection E as <- _. simpl. rewrite map_app, app_assoc. apply items_app.
    + unfold merged. destruct (last (snd_queue k)) as [old|] eqn:Hlast; [|done].
      destruct (Z.ltb_spec (len (seg_data old)) (mss k)) as [_|]; simpl; [|done].
      destruct (Z.eqb_spec (seg_cmd old) IKCP_CMD_PUSH) as [Hc|]; simpl; [|done].
      apply last_Some in Hlast as [q Hq]. rewrite Hq in Hit |- *.
      rewrite length_app. simpl. replace (length q + 1 - 1)%nat with (length q + 0)%nat by lia.
      rewrite insert_app_r. simpl. rewrite !map_app, !app_assoc in Hit |- *.
      intros i x [Hi|[Hge Hi]]%lookup_app_Some.
      * apply Hit. by apply lookup_app_l_Some.
      * simpl in Hi. apply list_lookup_singleton_Some in Hi as [Hz <-].
        destruct (Hit i (payload old)) as [Hf _].
        { rewrite lookup_app_r by done. by rewrite Hz. }
        split; [exact Hf|]. left. exact Hc.
    + intros x Hx i. apply list_elem_of_fmap in Hx as (s & -> & Hs).
      apply list_elem_of_fmap in Hs as (d & -> & _). apply push_item_ok. lia.
Qed.

(** What an operation reads. *)
Lemma perform_read o k r :
  perform o k = Ok r -> o_read r = [] \/ o = ORead /\ o_read r = message_bytes (rcv_queue k).
Proof.
  intros E. destruct o; cbn [perform] in E; try (apply bind_Ok_inv in E as ([z b'] & E1 & E));
    injection E as <-; try by left.
  simpl. destruct (read_round_run k) as (k' & b2 & E' & _ & _ & _ & _ & Hc). rewrite E' in E1.
  injection E1 as <- <-. destruct Hc as [[-> _]|[-> _]]; [by left|by right].
Qed.

Lemma kept_op k o r kB h w hB rd :
  wf k -> is_u32 (conv k) -> conv kB = conv k -> op_ok k o ->
  (forall t pkt, o = OInput t pkt -> auth_packet kB hB pkt) ->
  sender k h w -> receiver k hB rd -> covered k kB h ->
  len hB < half -> rcv_nxt kB <= len h -> (forall i x, hB !! i = Some x -> item_ok i x) ->
  perform o k = Ok r -> len (h ++ numbered_now k (o_kcp r)) < half ->
  kept k (o_kcp r) kB (h ++ numbered_now k (o_kcp r)) (w ++ o_written r) hB (rd ++ items_read k (o_read r))
    (packets_of (o_events r)).
Proof.
  intros Hw Hcu Hcv Ho Hin Hs Hr Hcov HhB Hn Hit E Hh.
  assert (wf (o_kcp r)) as Hw'.
  { destruct (perform_wf o k Hw Ho) as (r' & E' & Hr'). rewrite E in E'. by injection E' as <-. }
  destruct o as [b| |t pkt|t|t|t|t|sw rw|nd itv re nc|m|e]; cbn [perform op_ok] in *;
    try (apply bind_Ok_inv in E as (p & E1 & E)).
  - (* send *)
    destruct (wf_send k b Hw Ho) as (k' & c & E' & _ & Hk & Hc).
    rewrite E' in E1. injection E1 as <-. injection E as <-. simpl in *.
    rewrite app_nil_r, numbered_now_same, app_nil_r by (by rewrite Hk).
    pose proof (send_items k b k' c h Hw Ho E' (s_items _ _ _ Hs)) as Hitems.
    split; try done.
    + destruct Hs as [N B F I]. rewrite Hk in Hitems |- *. split; [done| |done|done].
      simpl. rewrite item_bytes_app, <- seg_bytes_items.
      destruct Hc as [(Heq & Hneg)|(Heq & ->)].
      * rewrite (proj2 (Z.eqb_neq c 0)), app_nil_r by lia.
        rewrite Heq, seg_bytes_items, <- item_bytes_app. exact B.
      * rewrite Heq, app_assoc, seg_bytes_items, <- item_bytes_app, B. done.
    + rewrite Hk. by apply (receiver_side k); [done|done|apply Hr].
    + rewrite Hk. exact Hcov.
    + rewrite Hk. by apply grows_side.
  - (* read *)
    destruct p as [k' b]. injection E as <-. simpl in *.
    destruct (receiver_read k hB rd k' b Hr HhB E1) as (Hr' & Hg & Hsd).
    assert (snd_nxt k' = snd_nxt k) as Hnx by by apply snd_side_eq in Hsd as (_ & ? & _).
    rewrite (numbered_now_same k k' Hnx), !app_nil_r.
    split; try done.
    + apply (sender_side k); [done|done|apply Hg].
    + intros i Hi. apply snd_side_eq in Hsd as (_ & _ & _ & Eb). rewrite Eb. by apply Hcov.
  - (* input *)
    destruct p as [k' c]. injection E as <-. simpl in *. destruct Ho as [_ Hl].
    assert (core k kB h w hB rd k') as [C1 C2 C3 C4].
    { assert (core k kB h w hB rd k) as Hc0 by (split; [done|done|done|apply grows_refl]).
      assert (len h < half) as Hlh by (rewrite length_app in Hh; lia).
      exact (core_input k kB h w hB rd k t pkt k' c Hc0 Hw Hcu Hcv Hlh HhB Hn Hit
               (Hin t pkt eq_refl) Hl E1). }
    assert (snd_nxt k' = snd_nxt k) as Hnx.
    { rewrite (s_nxt _ _ _ C1). symmetry. apply Hs. }
    rewrite (numbered_now_same k k' Hnx), !app_nil_r. by split.
  - (* update *)
    destruct p as [k' tr]. injection E as <-. simpl in *. rewrite !app_nil_r.
    destruct (wf_update k t Hw Ho) as [(k0 & Hw0 & S0 & R0 & Hset & A0 & Eu)|Eu];
      rewrite Eu in E1.
    + apply settings_eq in Hset as (Hc0 & _). pose proof (snd_side_eq _ _ S0) as (_ & S2 & _ & S4).
      apply (kept_flush_after k0 k t); try done; [by apply (sender_side k)|].
      intros s Hins. by rewrite S4.
    + injection E1 as <- <-. rewrite numbered_now_same, app_nil_r by done.
      by apply kept_same.
  - (* flush *)
    destruct p as [k' tr]. injection E as <-. simpl in *. rewrite !app_nil_r.
    by apply (kept_flush_after k k t).
  - (* connect *)
    destruct p as [k' tr]. injection E as <-. simpl in *. rewrite !app_nil_r.
    rewrite sendConnectFlush_eq in E1.
    destruct ((waitSnd k =? 0) && (snd_nxt k =? 0)) eqn:Hcond.
    + apply andb_true_iff in Hcond as [Hwt%Z.eqb_eq Hnx%Z.eqb_eq].
      assert (snd_queue k = [] /\ h = []) as [Eq Eh].
      { unfold waitSnd in Hwt. pose proof (s_nxt _ _ _ Hs) as N. rewrite Hnx in N. split.
        - destruct (snd_queue k); [done|simpl in Hwt; lia].
        - destruct h; [done|simpl in N; lia]. }
      set (k0 := k<|snd_queue := snd_queue k ++ [connect_mark]|>) in E1.
      apply (kept_flush_after k0 k t); try done; [by apply wf_connecting|].
      destruct Hs as [N B F I]. split; try done.
      * subst k0. simpl. rewrite map_app, app_assoc, item_bytes_app, B. apply app_nil_r.
      * intros i x. subst k0 h. simpl. rewrite Eq. simpl.
        destruct i as [|i]; [|by destruct i]. intros [= <-]. split; [done|]. by right.
    + injection E1 as <- <-. rewrite numbered_now_same, app_nil_r by done. by apply kept_same.
  - (* close *)
    destruct p as [k' tr]. injection E as <-. simpl in *. rewrite !app_nil_r.
    destruct (isStateConnected k && negb (isStateLocalClosed k)) eqn:Hcond.
    + rewrite sendCloseFlush_eq in E1 by done.
      apply (kept_flush_after (closing k) k t); try done; [by apply wf_closing|].
      destruct Hs as [N B F I]. split; try done.
      * simpl. rewrite map_app, app_assoc, item_bytes_app, B. apply app_nil_r.
      * simpl. rewrite map_app, app_assoc. apply items_app; [done|].
        intros x Hx i. apply list_elem_of_singleton in Hx as ->. split; [done|by left].
    + unfold sendCloseFlush in E1. rewrite Hcond in E1. injection E1 as <- <-.
      rewrite numbered_now_same, app_nil_r by done. by apply kept_same.
  - (* setWndSize *)
    injection E as <-. simpl in *.
    assert (forall z, kept k z kB h w hB rd [] -> snd_nxt z = snd_nxt k ->
      kept k z kB (h ++ numbered_now k z) (w ++ []) hB (rd ++ []) []) as Hz.
    { intros z Hz Hnx. by rewrite (numbered_now_same k z Hnx), !app_nil_r. }
    apply Hz; [apply kept_same; try done|]; unfold setWndSize; by destruct (sw >? 0), (rw >? 0).
  - (* setNoDelay *)
    apply Ok_inj in E as <-.
    destruct (setNoDelay_sides nd itv re nc k) as (N1 & N2 & N3 & N4).
    set (k' := (setNoDelay nd itv re nc k).1) in *. clearbody k'. simpl in *.
    pose proof (snd_side_eq _ _ N1) as (_ & Hnx & _).
    rewrite (numbered_now_same k k' Hnx), !app_nil_r. by apply kept_same.
  - (* setMtu *)
    destruct p as [k' c]. injection E as <-. simpl in *.
    destruct (wf_settings_mtu k m Hw Ho) as (k2 & c2 & E2 & Hw2 & M1 & M2 & M3 & M4).
    rewrite E2 in E1. injection E1 as <- <-.
    pose proof (snd_side_eq _ _ M1) as (_ & Hnx & _).
    rewrite (numbered_now_same k _ Hnx), !app_nil_r. by apply kept_same.
  - (* stream mode *)
    injection E as <-. simpl in *.
    rewrite (numbered_now_same k (k<|stream := if e then 1 else 0|>)), !app_nil_r by done.
    by apply kept_same.
Qed.
End Ops.

(** ** The invariant holds *)

Lemma dir_items A B i x : dir A B -> p_hist A !! i = Some x -> item_ok i x.
Proof.
  intros [Hs _ _ _] Hi. apply (s_items _ _ _ Hs). by apply lookup_app_l_Some.
Qed.

Section World.
Context `{BufPool}.

(** What an operation establishes, in terms of the two ends. *)
Lemma kept_winv cv A B k l w r pkts :
  winv cv A B ->
  kept (p_kcp A) k (p_kcp B) (p_hist A ++ l) (p_wrote A ++ w) (p_hist B)
    (consumed (p_kcp A) (p_hist B) ++ r) pkts ->
  winv cv (mkPeer k (p_hist A ++ l) (p_wrote A ++ w) (p_read A ++ item_bytes r) (p_soup A ++ pkts)) B.
Proof.
  intros [Hwl Hwr Hcl Hcr [S1 R1 D1 P1 C1] [S2 R2 D2 P2 C2]] [K1 K2 K3 K4 K5 K6].
  pose proof (receiver_consumed _ _ _ K3) as Ek.
  pose proof (receiver_app _ _ l _ R1) as R1'. pose proof (receiver_consumed _ _ _ R1') as Ec.
  split; try done; simpl.
  - by rewrite (g_conv _ _ K5).
  - split; simpl; try done.
    + by rewrite <- Ec.
    + by rewrite <- Ec.
    + apply Forall_app. split; [|done]. eapply Forall_impl; [exact P1|].
      intros pkt (g & -> & Hne & Hg). exists g. split; [done|]. split; [done|].
      eapply Forall_impl; [exact Hg|]. intros s. apply auth_mono; [done|apply K5].
  - split; simpl; try done; [by rewrite <- Ek|by rewrite <- Ek, item_bytes_app, D2|].
    intros i Hi. destruct (C2 i Hi) as [|Hh]; [by left|right].
    by apply (g_has _ _ K5).
Qed.

(** What an operation of one end does to both directions. *)
Lemma perform_kept cv A B o r :
  is_u32 cv -> winv cv A B -> op_ok (p_kcp A) o -> (forall t pkt, o = OInput t pkt -> pkt ∈ p_soup B) ->
  perform o (p_kcp A) = Ok r -> len (p_hist (after A r)) < half -> len (p_hist B) < half ->
  kept (p_kcp A) (o_kcp r) (p_kcp B) (p_hist (after A r)) (p_wrote A ++ o_written r) (p_hist B)
    (consumed (p_kcp A) (p_hist B) ++ items_read (p_kcp A) (o_read r)) (packets_of (o_events r)).
Proof.
  intros Hcv [Hwl Hwr Hcl Hcr [S1 R1 D1 P1 C1] Hrl] Ho Hin E HlA HlB. pose proof Hrl as [S2 R2 D2 P2 C2].
  apply kept_op with o; try done.
  - by rewrite Hcl.
  - by rewrite Hcl.
  - intros t pkt ->. specialize (Hin t pkt eq_refl). rewrite Forall_forall in P2. by apply P2.
  - apply R1.
  - intros i x. by apply (dir_items B A).
Qed.

(** A step of one end keeps the invariant, from the point of view of that end. *)
Lemma pstep_winv cv A A' B :
  is_u32 cv -> winv cv A B -> pstep (p_soup B) A A' ->
  len (p_hist A') < half -> len (p_hist B) < half -> winv cv A' B.
Proof.
  intros Hcv Hi [o r Ho Hin E] HlA HlB. unfold after.
  rewrite <- (items_read_bytes (p_kcp A) (o_read r))
    by (destruct (perform_read o _ _ E) as [?|[_ ?]]; [by left|by right]).
  apply kept_winv; [done|]. by apply (perform_kept cv A B o r).
Qed.

(** Histories only grow. *)
Lemma pstep_hist net P P' : pstep net P P' -> len (p_hist P) <= len (p_hist P').
Proof. intros [o r _ _ _]. simpl. rewrite length_app. lia. Qed.

Lemma winv_sym cv A B : winv cv A B -> winv cv B A.
Proof. intros [? ? ? ? ? ?]. by split. Qed.

Lemma dir_new cv : dir (new_peer cv) (new_peer cv).
Proof.
  split; simpl.
  - split; [done|done| |done]. intros s Hs. by apply elem_of_nil in Hs.
  - split; [done|done|split; constructor|..]; intros s Hs; by apply elem_of_nil in Hs.
  - done.
  - constructor.
  - intros i Hi. simpl in Hi. lia.
Qed.

Lemma reachable_winv cv w :
  is_u32 cv -> reachable cv w ->
  len (p_hist w.1) < half -> len (p_hist w.2) < half -> winv cv w.1 w.2.
Proof.
  intros Hcv. induction 1 as [|w w' Hw IH Hs]; intros H1 H2.
  - split; simpl; try done; try apply wf_fresh; apply dir_new.
  - destruct Hs as [A A' B Hs|A B B' Hs]; simpl in *; pose proof (pstep_hist _ _ _ Hs).
    + apply (pstep_winv cv A A' B); try done. apply IH; [lia|done].
    + apply winv_sym, (pstep_winv cv B B' A); try done. apply winv_sym, IH; [done|lia].
Qed.
End World.

(** When everything numbered has arrived, the receive buffer is the rest of the
    history. *)
Lemma serial_full (h : list item) l : forall o,
  serial o l -> 0 <= o -> len h < half ->
  (forall s, s ∈ l -> o <= seg_sn s < len h) ->
  (forall i, o <= i < len h -> exists s, s ∈ l /\ seg_sn s = i) ->
  numbered o l /\ (o <= len h -> o + len l = len h).
Proof.
  induction l as [|s l IH]; intros o Hs H0 Hh Hb Hall.
  { split; [done|]. intros Hle. destruct (decide (o = len h)) as [|Hne]; [simpl; lia|].
    destruct (Hall o) as (t & Ht & _); [lia|]. by apply elem_of_nil in Ht. }
  pose proof (Hb s ltac:(by left)) as Hsb.
  assert (seg_sn s = o) as Es.
  { destruct (Hall o) as (t & Ht & Et); [lia|].
    pose proof (serial_head _ _ _ _ Hs Ht) as Hd.
    rewrite Et, dist_self in Hd. rewrite dist_le in Hd by (unfold is_u32; lia). lia. }
  pose proof Hs as (Hbef & _ & Hs')%serial_cons.
  assert (Hgt : forall t, t ∈ l -> o + 1 <= seg_sn t < len h).
  { intros t Ht. pose proof (Hb t ltac:(by right)) as Htb.
    rewrite Forall_forall in Hbef. specialize (Hbef t Ht). unfold before in Hbef.
    rewrite !dist_le in Hbef by (unfold is_u32; lia). lia. }
  destruct (IH (o + 1)) as [I1 I2]; try done; [|lia| |].
  - replace (o + 1) with (u32 (o + 1)) by (apply u32_id; unfold is_u32; lia).
    apply serial_advance; [lia| |done]. apply Forall_forall. intros t Ht.
    specialize (Hgt t Ht). rewrite dist_le by (unfold is_u32; lia). lia.
  - intros i Hi. destruct (Hall i) as (t & [->|Ht]%elem_of_cons & Et); [lia|lia|].
    by exists t.
  - split; [split; [rewrite u32_id; [done|unfold is_u32; lia]|done]|].
    intros _. cbn [length]. lia.
Qed.

(** The two ends of a direction, in terms of items and of bytes. *)
Lemma dir_items_prefix A B :
  dir A B -> data (p_hist A ++ map payload (snd_queue (p_kcp A))) =
    consumed (p_kcp B) (p_hist A) ++ map payload (rcv_queue (p_kcp B))
      ++ data (drop (Z.to_nat (rcv_nxt (p_kcp B))) (p_hist A) ++ map payload (snd_queue (p_kcp A))).
Proof.
  intros [_ R _ _ _]. rewrite app_assoc, (r_items _ _ _ R), <- data_app, app_assoc. by rewrite take_drop.
Qed.

Lemma dir_items_complete A B :
  dir A B -> len (p_hist A) < half -> waitSnd (p_kcp A) = 0 ->
  data (p_hist A ++ map payload (snd_queue (p_kcp A))) =
    consumed (p_kcp B) (p_hist A) ++ map payload (rcv_queue (p_kcp B) ++ rcv_buf (p_kcp B)).
Proof.
  intros [[N B1 F I] [Nx Rb Sr Fb K _] _ _ C] Hh Hw. unfold waitSnd in Hw.
  assert (snd_buf (p_kcp A) = [] /\ snd_queue (p_kcp A) = []) as [Eb Eq].
  { destruct (snd_buf (p_kcp A)), (snd_queue (p_kcp A)); simpl in Hw; try lia. done. }
  destruct (serial_full (p_hist A) (rcv_buf (p_kcp B)) (rcv_nxt (p_kcp B)) Sr) as [Hn Hl];
    [lia|done| | |].
  - intros s Hs. destruct (Fb s Hs) as (Hi & _ & Hle). pose proof (in_hist_bound _ _ Hi). lia.
  - intros i Hi. destruct (C i) as [(s & Hs & _)|[Hlt|Hs]]; [lia| |lia|done].
    rewrite Eb in Hs. by apply elem_of_nil in Hs.
  - specialize (Hl ltac:(lia)).
    rewrite map_app, app_assoc, Rb, <- (data_push (rcv_buf (p_kcp B))) by (intros s Hs; by apply Fb).
    rewrite (in_hist_slice (p_hist A) _ _ Hn); [|lia|lia|intros s Hs; by apply Fb].
    rewrite <- data_app, take_take_drop, take_ge by lia. by rewrite Eq, app_nil_r.
Qed.

Lemma sender_bytes S h w : sender S h w -> item_bytes (data (h ++ map payload (snd_queue S))) = w.
Proof. intros [_ B _ I]. by rewrite data_bytes. Qed.

Lemma dir_prefix A B : dir A B -> p_read B `prefix_of` p_wrote A.
Proof.
  intros D. rewrite <- (sender_bytes _ _ _ (d_send _ _ D)), <- (d_read _ _ D), (dir_items_prefix _ _ D).
  rewrite item_bytes_app. by eexists.
Qed.

Lemma dir_complete A B :
  dir A B -> len (p_hist A) < half -> waitSnd (p_kcp A) = 0 ->
  p_read B ++ seg_bytes (rcv_queue (p_kcp B) ++ rcv_buf (p_kcp B)) = p_wrote A.
Proof.
  intros D Hh Hw. rewrite <- (sender_bytes _ _ _ (d_send _ _ D)), <- (d_read _ _ D), seg_bytes_items.
  by rewrite (dir_items_complete _ _ D Hh Hw), item_bytes_app.
Qed.

(** ** Properties *)

Section NetworkProperties.
Context `{BufPool}.

(** Reliable, ordered delivery, safety: whatever the network loses, delays, duplicates
    and reorders, and however the two ends interleave writing, reading, flushing, ticking,
    opening, closing and changing windows and options, what one end has read is at every
    moment a prefix of what the other end has written, in both directions. *)
Theorem delivery_prefix cv A B :
  is_u32 cv -> reachable cv (A, B) -> len (p_hist A) < half -> len (p_hist B) < half ->
  p_read B `prefix_of` p_wrote A /\ p_read A `prefix_of` p_wrote B.
Proof.
  intros Hcv Hr HA HB. destruct (reachable_winv cv _ Hcv Hr HA HB) as [_ _ _ _ H1 H2].
  split; by apply dir_prefix.
Qed.

(** C3. Nothing is lost: every item an end has numbered is in its send buffer, to be
    retransmitted, or has arrived at the other end; and once nothing is waiting to be sent
    ([waitSnd] is 0), the other end holds every byte written: what it has read, followed by
    its receive queue and its receive buffer, is exactly what was written. *)
Theorem delivery_complete cv A B :
  is_u32 cv -> reachable cv (A, B) -> len (p_hist A) < half -> len (p_hist B) < half ->
  (forall i, 0 <= i < len (p_hist A) ->
     (exists s, s ∈ snd_buf (p_kcp A) /\ seg_sn s = i) \/ has (p_kcp B) i) /\
  (waitSnd (p_kcp A) = 0 ->
   p_read B ++ seg_bytes (rcv_queue (p_kcp B) ++ rcv_buf (p_kcp B)) = p_wrote A).
Proof.
  intros Hcv Hr HA HB. destruct (reachable_winv cv _ Hcv Hr HA HB) as [_ _ _ _ H1 _].
  split; [apply H1|]. intros Hw. by apply dir_complete.
Qed.
End NetworkProperties.

(** ** A run *)

Definition run1 (P : peer) (o : op) : peer :=
  match @perform zero_pool o (p_kcp P) with Ok r => after P r | _ => P end.

Definition runs (m : res outcome) : bool := match m with Ok _ => true | _ => false end.

Lemma run1_step net P o :
  op_ok (p_kcp P) o -> (forall t pkt, o = OInput t pkt -> pkt ∈ net) ->
  runs (@perform zero_pool o (p_kcp P)) = true -> @pstep zero_pool net P (run1 P o).
Proof.
  intros Ho Hin Hr. unfold run1. destruct (@perform zero_pool o (p_kcp P)) eqn:E; try discriminate.
  by eapply pstep_op.
Qed.

(** [A] writes three bytes and flushes twice (the first flush opens the congestion
    window); the datagram arrives at [B] twice; [B] reads and acknowledges; [A] gets the
    acknowledgement. *)
Definition demo_A1 : peer :=
  foldl run1 (new_peer 7) [OSend [Byte.x41; Byte.x42; Byte.x43]; OFlush 0; OFlush 10].
Definition demo_pkt : list byte := default [] (head (p_soup demo_A1)).
Definition demo_B1 : peer :=
  foldl run1 (new_peer 7) [OInput 12 demo_pkt; OInput 13 demo_pkt; ORead; OFlush 20].
Definition demo_ack : list byte := default [] (head (p_soup demo_B1)).
Definition demo_A2 : peer := run1 demo_A1 (OInput 30 demo_ack).

Lemma OInput_inj t p t' p' : OInput t p = OInput t' p' -> p = p'.
Proof. by intros [=]. Qed.

Lemma run_left A B o :
  @reachable zero_pool 7 (A, B) -> op_ok (p_kcp A) o ->
  (forall t pkt, o = OInput t pkt -> pkt ∈ p_soup B) ->
  runs (@perform zero_pool o (p_kcp A)) = true -> @reachable zero_pool 7 (run1 A o, B).
Proof.
  intros Hr Ho Hin He. eapply reachable_step; [exact Hr|]. by apply wstep_left, run1_step.
Qed.

Lemma run_right A B o :
  @reachable zero_pool 7 (A, B) -> op_ok (p_kcp B) o ->
  (forall t pkt, o = OInput t pkt -> pkt ∈ p_soup A) ->
  runs (@perform zero_pool o (p_kcp B)) = true -> @reachable zero_pool 7 (A, run1 B o).
Proof.
  intros Hr Ho Hin He. eapply reachable_step; [exact Hr|]. by apply wstep_right, run1_step.
Qed.

(** A datagram of the other end arrives, at position [n] of its soup. *)
Lemma arrive_ok k (net : list (list byte)) t pkt (n : nat) :
  is_u32 t -> len pkt <= 2048 -> net !! n = Some pkt ->
  op_ok k (OInput t pkt) /\ forall t' pkt', OInput t pkt = OInput t' pkt' -> pkt' ∈ net.
Proof.
  intros Ht Hl Hn. split; [by split|]. intros t' pkt' <-%OInput_inj. by eapply list_elem_of_lookup_2.
Qed.

Lemma demo_sent : @reachable zero_pool 7 (demo_A1, new_peer 7).
Proof.
  unfold demo_A1. cbn [foldl].
  apply run_left; [|split; [discriminate|reflexivity]|discriminate|vm_compute; reflexivity].
  apply run_left; [|split; [discriminate|reflexivity]|discriminate|vm_compute; reflexivity].
  apply run_left; [|reflexivity|discriminate|vm_compute; reflexivity].
  apply reachable_new.
Qed.

Lemma demo_reachable : @reachable zero_pool 7 (demo_A2, demo_B1).
Proof.
  assert (Hp : forall t, is_u32 t -> op_ok (p_kcp demo_B1) (OInput t demo_pkt) /\
    forall t' pkt', OInput t demo_pkt = OInput t' pkt' -> pkt' ∈ p_soup demo_A1).
  { intros t Ht. apply (arrive_ok _ _ t demo_pkt 0); [done|vm_compute; discriminate|vm_compute; reflexivity]. }
  destruct (arrive_ok (p_kcp demo_A1) (p_soup demo_B1) 30 demo_ack 0) as [Ho Hin];
    [by split|vm_compute; discriminate|vm_compute; reflexivity|].
  apply run_left; [|exact Ho|exact Hin|vm_compute; reflexivity].
  unfold demo_B1. cbn [foldl].
  apply run_right; [|split; [discriminate|reflexivity]|discriminate|vm_compute; reflexivity].
  apply run_right; [|exact I|discriminate|vm_compute; reflexivity].
  apply run_right; [|apply (Hp 13); by split|apply (Hp 13); by split|vm_compute; reflexivity].
  apply run_right; [|apply (Hp 12); by split|apply (Hp 12); by split|vm_compute; reflexivity].
  apply demo_sent.
Qed.

Lemma delivery_prefix_witness :
  p_read demo_B1 = [Byte.x41; Byte.x42; Byte.x43] /\
  p_read demo_B1 `prefix_of` p_wrote demo_A2.
Proof.
  split; [vm_compute; reflexivity|].
  destruct (@delivery_prefix zero_pool 7 demo_A2 demo_B1) as [P _];
    [split; [discriminate|reflexivity]|exact demo_reachable|vm_compute; reflexivity|
     vm_compute; reflexivity|exact P].
Defined.

Lemma delivery_complete_witness :
  waitSnd (p_kcp demo_A2) = 0 /\
  p_read demo_B1 ++ seg_bytes (rcv_queue (p_kcp demo_B1) ++ rcv_buf (p_kcp demo_B1))
    = p_wrote demo_A2.
Proof.
  assert (waitSnd (p_kcp demo_A2) = 0) as Hw by (vm_compute; reflexivity).
  split; [exact Hw|].
  destruct (@delivery_complete zero_pool 7 demo_A2 demo_B1) as [_ P];
    [split; [discriminate|reflexivity]|exact demo_reachable|vm_compute; reflexivity|
     vm_compute; reflexivity|exact (P Hw)].
Defined.
