(* ===== verification/Messages.v ===== *)
(** * Message mode: the boundaries of messages

    Outside stream mode the slices given to [send] are messages: each is cut into fragments whose
    numbers count down to 0, and [recv] puts a message together again. This file follows the
    messages of two ends over the network of Protocol.v: which messages one end has sent, and
    which the other end has got. *)
From S2P Require Import Prelude GoInt Stats Wire Kcp Serial Send Recv Ack Input Flush Flushed Timer Session Protocol.

(** ** Definitions *)

(** The messages that a list of items spells: a fragment with number 0 ends one. [acc] has come
    before, and what is left at the end is no message yet. *)
Fixpoint parse (acc : list byte) (l : list item) : list (list byte) * list byte :=
  match l with
  | [] => ([], acc)
  | (_, frg, d) :: l =>
      if frg =? 0 then let '(ms, rest) := parse [] l in ((acc ++ d) :: ms, rest)
      else parse (acc ++ d) l
  end.
Definition messages (l : list item) : list (list byte) := (parse [] l).1.

(** The message that an operation adds to those sent: an accepted slice, or the empty message
    with which a connection that is open is closed. *)
Definition spoken (o : op) (k : KCP) (r : outcome) : list (list byte) :=
  match o with
  | OSend _ => match o_written r with [] => [] | _ => [o_written r] end
  | OClose _ => if isStateConnected k && negb (isStateLocalClosed k) then [[]] else []
  | _ => []
  end.

(** The message that a read has returned. *)
Definition heard (r : outcome) : list (list byte) := match o_read r with [] => [] | _ => [o_read r] end.

(** One end, with the messages it has sent and those it has got. *)
Record speaker := mkSpeaker { s_peer : peer; s_sent : list (list byte); s_got : list (list byte) }.

Section Mode.
Context `{BufPool}.

(** A step of one end: any operation but the one that turns stream mode on. *)
Inductive mstep (net : list (list byte)) (X : speaker) : speaker -> Prop :=
  | mstep_op o r :
      op_ok (p_kcp (s_peer X)) o -> (forall t pkt, o = OInput t pkt -> pkt ∈ net) ->
      o <> OStream true -> perform o (p_kcp (s_peer X)) = Ok r ->
      mstep net X (mkSpeaker (after (s_peer X) r)
        (s_sent X ++ spoken o (p_kcp (s_peer X)) r) (s_got X ++ heard r)).

(** [SetStreamMode(false)] *)
Definition quiet (P : peer) : peer :=
  mkPeer ((p_kcp P)<|stream := 0|>) (p_hist P) (p_wrote P) (p_read P) (p_soup P).

(** Two new sessions of one conversation in message mode, and what comes of them. *)
Definition silent (cv : Z) : speaker := mkSpeaker (quiet (new_peer cv)) [] [].

Inductive mreach (cv : Z) : speaker * speaker -> Prop :=
  | mreach_new : mreach cv (silent cv, silent cv)
  | mreach_left X X' Y : mreach cv (X, Y) -> mstep (p_soup (s_peer Y)) X X' -> mreach cv (X', Y)
  | mreach_right X Y Y' : mreach cv (X, Y) -> mstep (p_soup (s_peer X)) Y Y' -> mreach cv (X, Y').
End Mode.

(** ** Lemmas: fragments *)

(** The number of fragments still to come after [l], when there were [n] before it; and that the
    fragments of [l] count down. *)
Fixpoint owed (n : Z) (l : list item) : Z := match l with [] => n | x :: l => owed x.1.2 l end.
Fixpoint fragmented (n : Z) (l : list item) : Prop :=
  match l with [] => True | x :: l => (n = 0 \/ x.1.2 = n - 1) /\ fragmented x.1.2 l end.

Definition complete (l : list item) : Prop := fragmented 0 l /\ owed 0 l = 0.

Lemma owed_app n l1 l2 : owed n (l1 ++ l2) = owed (owed n l1) l2.
Proof. revert n. induction l1 as [|x l1 IH]; intros n; [done|apply IH]. Qed.

Lemma fragmented_app n l1 l2 : fragmented n (l1 ++ l2) <-> fragmented n l1 /\ fragmented (owed n l1) l2.
Proof. revert n. induction l1 as [|x l1 IH]; intros n; simpl; [tauto|]. rewrite IH. tauto. Qed.

Lemma complete_app l1 l2 : complete l1 -> complete l2 -> complete (l1 ++ l2).
Proof. intros [F1 O1] [F2 O2]. split; [apply fragmented_app|rewrite owed_app]; by rewrite O1. Qed.

Lemma parse_app acc l1 l2 :
  parse acc (l1 ++ l2) = ((parse acc l1).1 ++ (parse (parse acc l1).2 l2).1, (parse (parse acc l1).2 l2).2).
Proof.
  revert acc. induction l1 as [|[[c f] d] l1 IH]; intros acc; simpl; [by destruct (parse acc l2)|].
  destruct (f =? 0); rewrite IH; [|done]. by destruct (parse [] l1).
Qed.

(** Nothing is left over where no fragment is owed. *)
Lemma parse_rest n acc l : owed n l = 0 -> (n = 0 -> acc = []) -> (parse acc l).2 = [].
Proof.
  revert n acc. induction l as [|[[c f] d] l IH]; intros n acc Ho Ha; simpl in *; [by apply Ha|].
  destruct (Z.eqb_spec f 0) as [->|Hf].
  - specialize (IH 0 [] Ho (fun _ => eq_refl)). by destruct (parse [] l).
  - by apply (IH f).
Qed.

Lemma messages_app l1 l2 : owed 0 l1 = 0 -> messages (l1 ++ l2) = messages l1 ++ messages l2.
Proof.
  intros Ho. unfold messages. rewrite parse_app. simpl. by rewrite (parse_rest 0 [] l1).
Qed.

(** The segments of one message. *)
Lemma message_segments_items ds : forall n acc,
  ds <> [] -> n = 0 \/ n = len ds ->
  let l := map payload (message_segments ds) in
  fragmented n l /\ owed n l = 0 /\ parse acc l = ([acc ++ concat ds], []).
Proof.
  induction ds as [|d ds IH]; intros n acc Hne Hn; [done|]. cbv zeta.
  destruct ds as [|d' ds].
  - simpl in *. rewrite app_nil_r. split; [split; [lia|done]|done].
  - destruct (IH (len (d' :: ds)) (acc ++ d)) as (F & O & P); [done|by right|].
    set (l := d' :: ds) in *. assert (0 < len l) as Hl by (simpl; lia). clearbody l. clear IH.
    simpl in *. split; [split; [lia|exact F]|]. split; [exact O|].
    rewrite (proj2 (Z.eqb_neq _ 0)) by lia. by rewrite P, app_assoc.
Qed.

(** The first message of a queue that owes [n] fragments and holds them. *)
Lemma first_message q : forall n acc,
  fragmented n (map payload q) -> 0 < n <= len q ->
  let l := take (message_count q) (map payload q) in
  owed n l = 0 /\ parse acc l = ([acc ++ message_bytes q], []).
Proof.
  induction q as [|s q IH]; intros n acc Hf Hn; cbv zeta; [simpl in Hn; lia|].
  simpl in Hf. destruct Hf as [Hs Hf]. cbn [message_count map take owed parse]. unfold message_bytes.
  cbn [message_count]. unfold payload at 1 3. simpl. destruct (Z.eqb_spec (seg_frg s) 0) as [E|E].
  - simpl. rewrite E. by rewrite app_nil_r.
  - simpl in Hn. destruct (IH (seg_frg s) (acc ++ seg_data s)) as [O P]; [done|lia|].
    split; [exact O|]. rewrite P. unfold message_bytes. simpl. by rewrite app_assoc.
Qed.

(** ** Lemmas: what an operation sends and gets *)

(** [recvSize] lets a message through when all its fragments are there. *)
Lemma read_round_first `{BufPool} k k' b :
  read_round k = Ok (k', b) -> b <> [] ->
  b = message_bytes (rcv_queue k) /\
  exists s q, rcv_queue k = s :: q /\ u32 (seg_frg s + 1) <= len (rcv_queue k).
Proof.
  intros E Hb. destruct (read_round_run k) as (k1 & b1 & E1 & _ & _ & _ & _ & Hc).
  rewrite E in E1. injection E1 as -> <-. split; [destruct Hc as [[? _]|[? _]]; done|].
  clear Hc. unfold read_round, recvSize in E. destruct (rcv_queue k) as [|s q] eqn:Eq.
  { simpl in E. injection E as _ <-. done. }
  exists s, q. split; [done|]. destruct (Z.eqb_spec (seg_frg s) 0) as [->|Hf].
  { change (u32 (0 + 1)) with 1. simpl. lia. }
  destruct (Z.ltb_spec (len (s :: q)) (u32 (seg_frg s + 1))); [|lia].
  simpl in E. injection E as _ <-. done.
Qed.

Lemma items_read_some k b :
  b <> [] -> items_read k b = take (message_count (rcv_queue k)) (map payload (rcv_queue k)).
Proof. by destruct b. Qed.

(** A read takes whole messages, one at a time. *)
Lemma read_message `{BufPool} k h rd k' b :
  receiver k h rd -> (forall i x, h !! i = Some x -> item_ok i x) ->
  fragmented 0 (rd ++ map payload (rcv_queue k)) -> owed 0 rd = 0 -> read_round k = Ok (k', b) ->
  owed 0 (rd ++ items_read k b) = 0 /\
  messages (rd ++ items_read k b) = messages rd ++ match b with [] => [] | _ => [b] end.
Proof.
  intros Hr Hit Hf Ho E. apply fragmented_app in Hf as [_ Hf]. rewrite Ho in Hf.
  rewrite owed_app, messages_app, Ho by done. destruct (decide (b = [])) as [->|Hb]; [done|].
  destruct (read_round_first k k' b E Hb) as (Eb & s & q & Eq & Hlen).
  assert (0 <= seg_frg s < 256) as Hs.
  { destruct (r_queue _ _ _ Hr s) as [Hin _]; [rewrite Eq; by left|].
    apply list_elem_of_lookup in Hin as [i Hi]. by destruct (Hit i _ Hi). }
  rewrite u32_id in Hlen by (unfold is_u32; lia). rewrite items_read_some by done.
  destruct (first_message (rcv_queue k) (seg_frg s + 1) []) as [O P]; [|lia|].
  - rewrite Eq in Hf |- *. simpl in *. split; [lia|apply Hf].
  - assert (messages (take (message_count (rcv_queue k)) (map payload (rcv_queue k))) = [b]) as ->
      by (unfold messages; rewrite P; by rewrite Eb).
    split; [|by destruct b]. rewrite Eq in O |- *. exact O.
Qed.

(** What an operation adds to the items numbered and waiting, and that stream mode stays off. *)
Section Adds.
Context `{BufPool}.

Definition adds (k k' : KCP) (new : list item) : Prop :=
  stream k' = stream k /\
  numbered_now k k' ++ map payload (snd_queue k') = map payload (snd_queue k) ++ new.

Lemma adds_none k k' : stream k' = stream k -> snd_side k' = snd_side k -> adds k k' [].
Proof.
  intros Hs (_ & E2 & E3 & _)%snd_side_eq. split; [done|].
  by rewrite numbered_now_same, E3, app_nil_r.
Qed.

Lemma adds_flush k t k' tr : wf k -> flush k t = Ok (k', tr) -> adds k k' [].
Proof.
  intros Hw E. destruct (wf_flush k t Hw) as (x & st & b & tr' & gs & E' & _).
  rewrite E' in E. injection E as <- _. destruct (flushed_snd_side t k x st b) as (_ & _ & S3 & _).
  pose proof (flushed_settings t k x st b) as Hset. split; [by apply settings_eq in Hset as (_&_&_&_&_&_&_&_&_&_&?&_)|].
  rewrite numbered_now_flush, S3, app_nil_r by done. apply flush_items_rest.
Qed.

(** A preparation before a flush. *)
Lemma adds_before k k0 k' new :
  stream k0 = stream k -> snd_nxt k0 = snd_nxt k ->
  map payload (snd_queue k0) = map payload (snd_queue k) ++ new -> adds k0 k' [] -> adds k k' new.
Proof.
  intros Es En Eq [H1 H2]. split; [congruence|]. rewrite app_nil_r, Eq in H2. rewrite <- H2.
  unfold numbered_now. by rewrite En.
Qed.

Lemma stream_settings k k' : settings k' = settings k -> stream k' = stream k.
Proof. by intros (_&_&_&_&_&_&_&_&_&_&?&_)%settings_eq. Qed.

(** [send] in message mode. *)
Lemma send_adds k b k' code :
  wf k -> len b < 4294967296 -> stream k = 0 -> send k b = Ok (k', code) ->
  exists new, adds k k' new /\ complete (data new) /\
    messages (data new) = match (if code =? 0 then b else []) with [] => [] | _ => [b] end.
Proof.
  intros Hw Hb Hs E. pose proof (wf_mss_range k Hw) as Hm. rewrite send_ok, Hs in E by done. cbv zeta in E.
  destruct (Z.eqb_spec (len b) 0) as [Hl|Hl].
  { injection E as <- <-. exists []. split; [by apply adds_none|done]. }
  simpl in E. set (ds := chunks (Z.to_nat (mss k)) b) in *.
  destruct (len ds >? 255).
  { injection E as <- <-. exists []. split; [by apply adds_none|done]. }
  injection E as <- <-. exists (map payload (message_segments ds)).
  assert (b <> []) as Hne by (by intros ->).
  assert (ds <> []) as Hds by (unfold ds; rewrite chunks_cons by (done || lia); done).
  destruct (message_segments_items ds 0 [] Hds (or_introl eq_refl)) as (F & O & P).
  rewrite data_push.
  - split; [|split; [done|]].
    + split; [done|]. rewrite numbered_now_same by done. simpl. by rewrite map_app.
    + unfold messages. rewrite P. simpl. unfold ds. rewrite chunks_concat by lia. by destruct b.
  - intros s Hin. apply list_elem_of_lookup in Hin as [i Hi].
    by destruct (message_segments_lookup _ _ _ Hi) as (d & _ & ->).
Qed.

Lemma perform_adds o k r :
  wf k -> op_ok k o -> stream k = 0 -> o <> OStream true -> perform o k = Ok r ->
  exists new, adds k (o_kcp r) new /\ complete (data new) /\ messages (data new) = spoken o k r.
Proof.
  intros Hw Ho Hs Hno E.
  assert (Hnil : spoken o k r = [] -> adds k (o_kcp r) [] ->
    exists new, adds k (o_kcp r) new /\ complete (data new) /\ messages (data new) = spoken o k r).
  { intros Hsp Ha. exists []. by rewrite Hsp. }
  destruct o as [b| |t pkt|t|t|t|t|sw rw|nd itv re nc|m|e]; cbn [perform op_ok] in *;
    try (apply bind_Ok_inv in E as ([k' z] & E1 & [= <-])); try (injection E as <-).
  - destruct (send_adds k b k' z Hw Ho Hs E1) as (new & Ha & Hc & Hm). exists new.
    split; [done|]. split; [done|]. rewrite Hm. cbn. by destruct (z =? 0), b.
  - apply Hnil; [done|]. destruct (read_round_run k) as (k1 & b1 & E' & Hset & _ & _ & Hsd & _).
    rewrite E' in E1. injection E1 as <- _. by apply adds_none; [apply stream_settings|].
  - apply Hnil; [done|]. destruct Ho as [Ht Hl]. pose proof (wf_mss_range k Hw).
    destruct (input_snd_tail k t pkt true k' z (fr_inv _ (wf_ready _ Hw)) Hl E1) as [N1 N2].
    destruct (input_ok k t pkt true) as (k1 & c & E' & Hset & _);
      [apply Hw|rewrite u32_id; unfold is_u32; lia|done|].
    rewrite E' in E1. injection E1 as <- _. split; [by apply stream_settings|].
    cbn [o_kcp]. by rewrite numbered_now_same, N2, app_nil_r.
  - apply Hnil; [done|]. destruct (wf_update k t Hw Ho) as [(k0 & Hw0 & S0 & R0 & Hset & A0 & Eu)|Eu];
      rewrite Eu in E1; [|injection E1 as <- _; by apply adds_none].
    apply snd_side_eq in S0 as (_ & S2 & S3 & _).
    apply (adds_before k k0); [by apply stream_settings|done|by rewrite S3, app_nil_r|by eapply adds_flush].
  - apply Hnil; [done|]. by eapply adds_flush.
  - rewrite sendConnectFlush_eq in E1. destruct (_ && _);
      [|injection E1 as <- _; apply Hnil; [done|by apply adds_none]].
    exists [payload connect_mark]. split; [|done].
    apply (adds_before k (k<|snd_queue := snd_queue k ++ [connect_mark]|>)); [done|done|by simpl; rewrite map_app|].
    eapply adds_flush; [by apply wf_connecting|exact E1].
  - unfold spoken. destruct (isStateConnected k && negb (isStateLocalClosed k)) eqn:Hc.
    + rewrite sendCloseFlush_eq in E1 by done. exists [payload close_mark].
      split; [|split; [split; [split; [by left|done]|done]|done]].
      apply (adds_before k (closing k)); [done|done|by simpl; rewrite map_app|].
      eapply adds_flush; [by apply wf_closing|exact E1].
    + unfold sendCloseFlush in E1. rewrite Hc in E1. injection E1 as <- _. exists [].
      split; [by apply adds_none|done].
  - apply Hnil; [done|]. apply adds_none; unfold setWndSize; by destruct (sw >? 0), (rw >? 0).
  - apply Hnil; [done|]. destruct (setNoDelay_sides nd itv re nc k) as (N1 & N2 & N3 & N4).
    apply adds_none; [|done]. unfold setNoDelay. cbv zeta.
    destruct (nd >=? 0), (itv >=? 0), (re >=? 0), (nc >=? 0); try destruct (nd =? 0); done.
  - apply Hnil; [done|]. destruct (wf_settings_mtu k m Hw Ho) as (k1 & c & E' & _ & M1 & _).
    rewrite E' in E1. injection E1 as <- _. apply adds_none; [|done].
    unfold setMtu in E'. destruct (_ || _); [by injection E' as <- _|].
    by apply bind_Ok_inv in E' as (z' & _ & [= <- _]).
  - destruct e; [done|]. apply Hnil; [done|]. by apply adds_none.
Qed.
End Adds.

(** ** The invariant *)

(** The items that carry data, numbered or still waiting. *)
Definition all_items (P : peer) : list item := data (p_hist P ++ map payload (snd_queue (p_kcp P))).

(** From [X] to [Y]: what [X] has sent is in its items, what [Y] has got in those consumed. *)
Record told (X Y : speaker) : Prop := {
  t_stream : stream (p_kcp (s_peer X)) = 0;
  t_whole : complete (all_items (s_peer X));
  t_sent : messages (all_items (s_peer X)) = s_sent X;
  t_got_whole : owed 0 (consumed (p_kcp (s_peer Y)) (p_hist (s_peer X))) = 0;
  t_got : messages (consumed (p_kcp (s_peer Y)) (p_hist (s_peer X))) = s_got Y;
}.

Section Told.
Context `{BufPool}.

Lemma mstep_pstep net X X' : mstep net X X' -> pstep net (s_peer X) (s_peer X').
Proof. intros [o r Ho Hin _ E]. by apply (pstep_op net (s_peer X) o r). Qed.

Lemma told_speaks cv X X' Y :
  winv cv (s_peer X) (s_peer Y) -> mstep (p_soup (s_peer Y)) X X' -> told X Y -> told X' Y.
Proof.
  intros Hi [o r Ho Hin Hno E] [T1 T2 T3 T4 T5].
  destruct (perform_adds o _ r (w_wf_l _ _ _ Hi) Ho T1 Hno E) as (new & [A1 A2] & Hc & Hm).
  assert (all_items (after (s_peer X) r) = all_items (s_peer X) ++ data new) as Ea.
  { unfold all_items. simpl. rewrite <- app_assoc, A2, app_assoc, data_app. done. }
  pose proof (receiver_app _ _ (numbered_now (p_kcp (s_peer X)) (o_kcp r)) _ (d_recv _ _ (w_lr _ _ _ Hi))) as R.
  pose proof (receiver_consumed _ _ _ R) as Ec.
  split; cbn [s_peer s_sent s_got].
  - simpl. congruence.
  - rewrite Ea. by apply complete_app.
  - rewrite Ea, messages_app, T3, Hm by apply T2. done.
  - simpl. by rewrite <- Ec.
  - simpl. by rewrite <- Ec.
Qed.

Lemma told_hears cv X X' Y :
  is_u32 cv -> winv cv (s_peer X) (s_peer Y) -> mstep (p_soup (s_peer Y)) X X' ->
  len (p_hist (s_peer X')) < half -> len (p_hist (s_peer Y)) < half -> told Y X -> told Y X'.
Proof.
  intros Hcv Hi [o r Ho Hin Hno E] HX HY [T1 T2 T3 T4 T5].
  pose proof (perform_kept cv _ _ o r Hcv Hi Ho Hin E HX HY) as K.
  pose proof (receiver_consumed _ _ _ (k_recv _ _ _ _ _ _ _ _ K)) as Ec.
  pose proof (d_recv _ _ (w_rl _ _ _ Hi)) as R.
  assert (Hf : fragmented 0 (consumed (p_kcp (s_peer X)) (p_hist (s_peer Y)) ++
    map payload (rcv_queue (p_kcp (s_peer X))))).
  { destruct T2 as [F _]. unfold all_items in F. rewrite (dir_items_prefix _ _ (w_rl _ _ _ Hi)), app_assoc in F.
    by apply fragmented_app in F as [F _]. }
  assert (owed 0 (consumed (o_kcp r) (p_hist (s_peer Y))) = 0 /\
    messages (consumed (o_kcp r) (p_hist (s_peer Y))) = s_got X ++ heard r) as [G1 G2].
  { rewrite <- Ec, <- T5. destruct (perform_read o _ _ E) as [Eb|[-> _]].
    - unfold heard. rewrite Eb. simpl. by rewrite !app_nil_r.
    - cbn [perform] in E. apply bind_Ok_inv in E as ([k' b] & E1 & [= <-]).
      refine (read_message (p_kcp (s_peer X)) (p_hist (s_peer Y)) _ k' b R _ Hf T4 E1).
      intros i x. apply (dir_items _ _ i x (w_rl _ _ _ Hi)). }
  by split.
Qed.

(** At the start nothing has been said. *)
Lemma silent_told cv : told (silent cv) (silent cv).
Proof. split; [|split|..]; vm_compute; done. Qed.

Lemma dir_quiet P Q : dir P Q -> dir (quiet P) (quiet Q).
Proof.
  intros [[N B F I] [N2 I2 S2 F2 K2 Q2] D3 Pk C]. split; [by split|by split|done| |done].
  eapply Forall_impl; [exact Pk|]. intros pkt (g & -> & Hne & Hg). exists g. split; [done|].
  split; [done|]. eapply Forall_impl; [exact Hg|]. by intros s [].
Qed.

Lemma silent_winv cv : winv cv (s_peer (silent cv)) (s_peer (silent cv)).
Proof.
  pose proof (dir_quiet _ _ (dir_new cv)) as Hd.
  assert (wf (p_kcp (s_peer (silent cv)))) as Hw by apply (wf_stream (fresh cv) 0), wf_fresh.
  split; [exact Hw|exact Hw|vm_compute; reflexivity|vm_compute; reflexivity|exact Hd|exact Hd].
Qed.

Lemma mreach_told cv w :
  is_u32 cv -> mreach cv w -> len (p_hist (s_peer w.1)) < half -> len (p_hist (s_peer w.2)) < half ->
  winv cv (s_peer w.1) (s_peer w.2) /\ told w.1 w.2 /\ told w.2 w.1.
Proof.
  intros Hcv. induction 1 as [|X X' Y Hr IH Hs|X Y Y' Hr IH Hs]; intros H1 H2; simpl in *.
  - split; [apply silent_winv|split; apply silent_told].
  - pose proof (pstep_hist _ _ _ (mstep_pstep _ _ _ Hs)). destruct IH as (Hi & T1 & T2); [lia|done|].
    split; [by apply (pstep_winv cv (s_peer X)); [..|apply mstep_pstep| |]|].
    split; [by eapply told_speaks|by eapply told_hears].
  - pose proof (pstep_hist _ _ _ (mstep_pstep _ _ _ Hs)). destruct IH as (Hi & T1 & T2); [done|lia|].
    apply winv_sym in Hi.
    split; [by apply winv_sym, (pstep_winv cv (s_peer Y)); [..|apply mstep_pstep| |]|].
    split; [by eapply told_hears|by eapply told_speaks].
Qed.
End Told.

(** ** Properties *)

Section MessageProperties.
Context `{BufPool}.

(** C9. Message mode keeps the boundaries of messages: over any network that loses, delays,
    duplicates and reorders datagrams, whatever the two ends do as long as neither turns stream
    mode on, the messages that the reads of one end have returned, one by one, are a prefix of
    the list of those that the other end has sent, whole and in order, in both directions; and
    once nothing waits to be sent, the messages not yet returned are those that the receive
    queue and the receive buffer of the other end spell. *)
Theorem messages_delivered cv X Y :
  is_u32 cv -> mreach cv (X, Y) -> len (p_hist (s_peer X)) < half -> len (p_hist (s_peer Y)) < half ->
  s_got Y `prefix_of` s_sent X /\ s_got X `prefix_of` s_sent Y /\
  (waitSnd (p_kcp (s_peer X)) = 0 ->
   s_sent X = s_got Y ++
     messages (map payload (rcv_queue (p_kcp (s_peer Y)) ++ rcv_buf (p_kcp (s_peer Y))))).
Proof.
  intros Hcv Hr HX HY. destruct (mreach_told cv (X, Y) Hcv Hr HX HY) as (Hi & T1 & T2). simpl in *.
  assert (Hpre : forall U V, dir (s_peer U) (s_peer V) -> told U V -> s_got V `prefix_of` s_sent U).
  { intros U V D [_ _ E2 E3 E4]. rewrite <- E2, <- E4. unfold all_items.
    rewrite (dir_items_prefix _ _ D), messages_app by done. by eexists. }
  split; [apply Hpre; [apply Hi|done]|]. split; [apply Hpre; [apply Hi|done]|].
  intros Hw. destruct T1 as [_ _ E2 E3 E4]. rewrite <- E2, <- E4. unfold all_items.
  by rewrite (dir_items_complete _ _ (w_lr _ _ _ Hi) HX Hw), messages_app by done.
Qed.
End MessageProperties.

(** *** Witness *)

Definition mrun1 (X : speaker) (o : op) : speaker :=
  match @perform zero_pool o (p_kcp (s_peer X)) with
  | Ok r => mkSpeaker (after (s_peer X) r) (s_sent X ++ spoken o (p_kcp (s_peer X)) r) (s_got X ++ heard r)
  | _ => X
  end.

Lemma mrun1_step net X o :
  op_ok (p_kcp (s_peer X)) o -> (forall t pkt, o = OInput t pkt -> pkt ∈ net) -> o <> OStream true ->
  runs (@perform zero_pool o (p_kcp (s_peer X))) = true -> @mstep zero_pool net X (mrun1 X o).
Proof.
  intros Ho Hin Hno Hr. unfold mrun1.
  destruct (@perform zero_pool o (p_kcp (s_peer X))) eqn:E; try discriminate. by apply mstep_op.
Qed.

(** [X] has segments of 26 bytes and no congestion window; it sends a message of 30 bytes, which
    are two fragments, and one of two bytes, in three datagrams. They arrive in the opposite
    order, and [Y] reads twice. *)
Definition demo_long : list byte := replicate 30 Byte.x61.
Definition demo_X : speaker :=
  foldl mrun1 (silent 7) [OMtu 50; ONoDelay (-1) (-1) (-1) 1; OSend demo_long;
    OSend [Byte.x62; Byte.x63]; OFlush 0].
Definition demo_datagram (n : nat) : list byte := default [] (p_soup (s_peer demo_X) !! n).
Definition demo_Y : speaker :=
  foldl mrun1 (silent 7) [OInput 3 (demo_datagram 2); OInput 4 (demo_datagram 1);
    OInput 5 (demo_datagram 0); ORead; ORead].

Lemma mrun_left X Y o :
  @mreach zero_pool 7 (X, Y) -> op_ok (p_kcp (s_peer X)) o ->
  (forall t pkt, o = OInput t pkt -> pkt ∈ p_soup (s_peer Y)) -> o <> OStream true ->
  runs (@perform zero_pool o (p_kcp (s_peer X))) = true -> @mreach zero_pool 7 (mrun1 X o, Y).
Proof. intros Hr Ho Hin Hno He. eapply mreach_left; [exact Hr|]. by apply mrun1_step. Qed.

Lemma mrun_right X Y o :
  @mreach zero_pool 7 (X, Y) -> op_ok (p_kcp (s_peer Y)) o ->
  (forall t pkt, o = OInput t pkt -> pkt ∈ p_soup (s_peer X)) -> o <> OStream true ->
  runs (@perform zero_pool o (p_kcp (s_peer Y))) = true -> @mreach zero_pool 7 (X, mrun1 Y o).
Proof. intros Hr Ho Hin Hno He. eapply mreach_right; [exact Hr|]. by apply mrun1_step. Qed.

Lemma demo_messages : @mreach zero_pool 7 (demo_X, demo_Y).
Proof.
  assert (Hp : forall t n, is_u32 t -> (n < 3)%nat ->
    op_ok (p_kcp (s_peer demo_Y)) (OInput t (demo_datagram n)) /\
    forall t' pkt', OInput t (demo_datagram n) = OInput t' pkt' -> pkt' ∈ p_soup (s_peer demo_X)).
  { intros t n Ht Hn. apply (arrive_ok _ _ t _ n); [done| |];
      destruct n as [|[|[|n]]]; try lia; vm_compute; reflexivity || discriminate. }
  unfold demo_Y. cbn [foldl].
  apply mrun_right; [|exact I|discriminate|discriminate|vm_compute; reflexivity].
  apply mrun_right; [|exact I|discriminate|discriminate|vm_compute; reflexivity].
  apply mrun_right; [|apply (Hp 5 0%nat); [by split|lia]..|discriminate|vm_compute; reflexivity].
  apply mrun_right; [|apply (Hp 4 1%nat); [by split|lia]..|discriminate|vm_compute; reflexivity].
  apply mrun_right; [|apply (Hp 3 2%nat); [by split|lia]..|discriminate|vm_compute; reflexivity].
  unfold demo_X. cbn [foldl].
  apply mrun_left; [|split; [discriminate|reflexivity]|discriminate|discriminate|vm_compute; reflexivity].
  apply mrun_left; [|vm_compute; reflexivity|discriminate|discriminate|vm_compute; reflexivity].
  apply mrun_left; [|vm_compute; reflexivity|discriminate|discriminate|vm_compute; reflexivity].
  apply mrun_left; [|exact I|discriminate|discriminate|vm_compute; reflexivity].
  apply mrun_left; [|right; split; [discriminate|left; vm_compute; reflexivity]|discriminate|discriminate|
    vm_compute; reflexivity].
  apply mreach_new.
Qed.

Lemma messages_delivered_witness :
  s_sent demo_X = [demo_long; [Byte.x62; Byte.x63]] /\ s_got demo_Y = [demo_long; [Byte.x62; Byte.x63]] /\
  s_got demo_Y `prefix_of` s_sent demo_X.
Proof.
  split; [vm_compute; reflexivity|]. split; [vm_compute; reflexivity|].
  destruct (@messages_delivered zero_pool 7 demo_X demo_Y) as [P _];
    [split; [discriminate|reflexivity]|exact demo_messages|vm_compute; reflexivity|
     vm_compute; reflexivity|exact P].
Defined.
