(* ===== verification/Progress.v ===== *)
(** * Progress between two sessions

    [Protocol.v] says that nothing wrong is ever read; this file that something right can
    always be read. An exchange is a flush, the arrival of one of its datagrams, a flush at
    the other end and the arrival of one of those. One exchange brings a data segment of the
    send buffer over and retires it, so that from every state of two sessions a network that
    loses no more leads to the delivery of all that was written. *)
From S2P Require Import Prelude GoInt Stats Wire Kcp Serial Send Recv Ack Input Flush Flushed Timer Session Protocol.

(** ** Lemmas: what a flush sends *)

(** A segment that is new or due is in one of the datagrams. *)
Definition due (t : Z) (s : segment) : Prop :=
  seg_xmit s = 0 \/ 0 <= itimediff t (seg_resendts s).

Lemma flush_segment_due k t resent pend s : due t s -> needsend (flush_segment k t resent pend s).2 = true.
Proof.
  unfold due, flush_segment. destruct (Z.eqb_spec (seg_xmit s) 0) as [|Hx]; [done|].
  intros [?|Hd]; [done|]. by rewrite (proj2 (Z.geb_le _ _)) by done.
Qed.

Lemma due_sent t k s :
  s ∈ snd_buf k -> due t s ->
  exists s', s' ∈ sent_segments (flush_fates t k) /\ sig s' = sig s.
Proof.
  intros Hs Hd. set (f := flushed (admitted t k) t (flush_resent k) (u32 (wnd_unused k))
    (0 <? admitted_count k)%nat).
  assert (needsend (f s).2 = true) as Hn by by apply flush_segment_due.
  exists (f s).1. split.
  - unfold sent_segments. apply list_elem_of_omap. exists (f s). split; [|by rewrite Hn].
    unfold flush_fates. apply list_elem_of_fmap_2. apply elem_of_app. by left.
  - unfold sig, payload. destruct (flushed_data (admitted t k) t (flush_resent k)
      (u32 (wnd_unused k)) (0 <? admitted_count k)%nat s) as (E1 & E2 & E3 & E4 & E5).
    subst f. by rewrite E1, E2, E3, E4, E5.
Qed.

(** Every acknowledgement that is due is sent, or a later one whose [una] covers it. *)
Lemma ack_segments_cover nxt acks : forall seg a,
  a ∈ acks -> exists s, s ∈ ack_segments nxt acks seg /\ (seg_sn s = ack_sn a \/ ack_sn a < nxt).
Proof.
  induction acks as [|b acks IH]; intros seg a Ha; [by apply elem_of_nil in Ha|].
  cbn [ack_segments]. apply elem_of_cons in Ha as [->|Ha].
  - destruct (Z.geb_spec (ack_sn b) nxt) as [Hge|Hlt]; cbn [orb].
    + eexists. split; [by left|]. by left.
    + destruct (bool_decide_reflect (acks = [])) as [->|Hne].
      * eexists. split; [by left|]. by left.
      * destruct acks as [|c acks]; [done|].
        destruct (IH seg c ltac:(by left)) as (s & Hs & _). exists s. split; [done|]. right. lia.
  - destruct (_ || _).
    + destruct (IH (seg<|seg_sn := ack_sn b|><|seg_ts := ack_ts b|>) a Ha) as (s & Hs & Hc).
      exists s. split; [by right|done].
    + by apply IH.
Qed.

(** What a flush sends, as segments in datagrams. *)
Lemma flush_sends k t s :
  wf k -> s ∈ control_segments t k ++ sent_segments (flush_fates t k) ->
  exists x st b tr g, flush k t = Ok (flushed_kcp t k x st b, tr) /\ seg_stream g ∈ packets_of tr /\
    s ∈ g /\ len (seg_stream g) <= mtu k /\
    forall s', s' ∈ g -> s' ∈ control_segments t k ++ sent_segments (flush_fates t k).
Proof.
  intros Hw Hs. destruct (wf_flush k t Hw) as (x & st & b & tr & gs & E & _ & Hp & Hg & Hf).
  rewrite <- Hg in Hs |- *. apply elem_of_concat_inv in Hs as (g & Hg' & Hs).
  rewrite Forall_forall in Hf. destruct (Hf g Hg') as [_ Hl].
  exists x, st, b, tr, g. split; [exact E|]. split; [rewrite Hp; by apply list_elem_of_fmap_2|].
  split; [done|]. split; [done|]. intros s' Hs'. by apply (elem_of_concat gs g).
Qed.

(** ** Lemmas: what arrives *)

Section Arrival.
Context `{BufPool}.

Lemma move_ready_acks k : acklist (move_ready k) = acklist k.
Proof. unfold move_ready. by destruct (ready _ _ _ _ _). Qed.

Lemma parse_data_acks k seg k' : parse_data k seg = Ok k' -> acklist k' = acklist k.
Proof.
  unfold parse_data. destruct (_ || _); [by intros [= <-]|].
  destruct (find_slot _ _); intros E; res_inv; subst; rewrite move_ready_acks; [done|].
  by apply with_stats_Ok_inv in E0 as [st ->].
Qed.

Lemma seg_repeat_acks k k' : seg_repeat k = Ok k' -> acklist k' = acklist k.
Proof. by intros [st ->]%with_stats_Ok_inv. Qed.

Lemma shrink_buf_acks k : acklist (shrink_buf k) = acklist k.
Proof. unfold shrink_buf. by destruct (snd_buf k). Qed.

Lemma parse_ack_acks sn k : acklist (parse_ack sn k) = acklist k.
Proof. unfold parse_ack. destruct (_ || _); [done|]. by destruct (ack_index _ _ _). Qed.

(** A segment adds to the acknowledgements and takes from the send buffer; and a data segment
    in the window is acknowledged. *)
Lemma input_segment_acks k a h d k' r :
  len d = h_len h -> len d <= 2048 -> input_segment k a h d = Ok (k', r) ->
  acklist k `prefix_of` acklist k' /\
  (h_cmd h = IKCP_CMD_PUSH -> itimediff (h_sn h) (u32 (rcv_nxt k + rcv_wnd k)) < 0 ->
   mkAckItem (h_sn h) (h_ts h) ∈ acklist k').
Proof.
  intros Hl Hle. rewrite input_segment_eq by done. cbv zeta.
  destruct (input_ack_part_control k h) as (Ha & _).
  destruct (input_ack_part_frame k h) as (Hset & Hr & _).
  apply rcv_side_eq in Hr as (Hn & _). apply settings_eq in Hset as (_ & _ & _ & _ & Hw & _).
  rewrite <- Ha, <- Hn, <- Hw. set (k0 := input_ack_part k h). clearbody k0.
  destruct (Z.eqb_spec (h_cmd h) IKCP_CMD_CONNECT) as [Ec|_].
  { intros E. split; [|by rewrite Ec]. destruct (_ =? 0); injection E as <- _; [by eexists|done]. }
  destruct (Z.eqb_spec (h_cmd h) IKCP_CMD_ACK) as [Ec|_].
  { intros [= <- _]. split; [|by rewrite Ec]. by rewrite shrink_buf_acks, parse_ack_acks. }
  destruct (Z.eqb_spec (h_cmd h) IKCP_CMD_PUSH) as [Ec|Hne].
  { destruct (Z.ltb_spec (itimediff (h_sn h) (u32 (rcv_nxt k0 + rcv_wnd k0))) 0) as [Hlt|Hge].
    - intros E. apply bind_Ok_inv in E as (k1 & E1 & [= <- _]).
      assert (acklist k1 = acklist (ack_push (h_sn h) (h_ts h) k0)) as ->.
      { destruct (_ >=? 0); [by apply parse_data_acks in E1|by apply seg_repeat_acks in E1]. }
      split; [by eexists|]. intros _ _. apply elem_of_app. right. by left.
    - intros E. apply bind_Ok_inv in E as (k1 & E1 & [= <- _]). apply seg_repeat_acks in E1 as ->.
      split; [done|]. lia. }
  intros E. split; [|done]. destruct (_ =? IKCP_CMD_WASK); [by injection E as <- _|].
  destruct (_ =? IKCP_CMD_WINS); by injection E as <- _.
Qed.

(** Numbers below half the circle are in plain order. *)
Definition below (s t : segment) : Prop := seg_sn s < seg_sn t.

Lemma serial_plain o l :
  serial o l -> is_u32 o -> (forall s, s ∈ l -> 0 <= seg_sn s < half) -> StronglySorted below l.
Proof.
  intros Hs Hu. induction l as [|s l IH]; intros Hb; [constructor|].
  pose proof Hs as (Hall & [_ Ha] & Hs')%serial_cons. constructor.
  - apply IH; [done|]. intros t Ht. apply Hb. by right.
  - rewrite Forall_forall in Hall |- *. intros t Ht. specialize (Hall t Ht).
    pose proof (serial_elem _ _ t Hs' Ht) as [_ Hta].
    pose proof (Hb s ltac:(by left)). pose proof (Hb t ltac:(by right)).
    unfold before, below in *. clear -Hall Ha Hta H0 H1 Hu. word_lia.
Qed.

Lemma una_drop_plain una l :
  StronglySorted below l -> (forall s, s ∈ l -> 0 <= seg_sn s < half) -> 0 <= una < half ->
  forall s, s ∈ drop (una_count l una) l -> una <= seg_sn s.
Proof.
  intros Hs. induction Hs as [|s l Hs IH Hall]; intros Hb Hu t; [by intros ?%elem_of_nil|].
  pose proof (Hb s ltac:(by left)) as Hsb. simpl.
  destruct (Z.gtb_spec (itimediff una (seg_sn s)) 0) as [Hgt|Hle].
  - apply IH; [|done]. intros x Hx. apply Hb. by right.
  - simpl. intros Ht. assert (una <= seg_sn s) as Hle' by (clear -Hle Hsb Hu; word_lia).
    apply elem_of_cons in Ht as [->|Ht]; [done|].
    rewrite Forall_forall in Hall. specialize (Hall t Ht). unfold below in Hall. lia.
Qed.

(** What remains in the send buffer after a segment. *)
Lemma input_segment_retires k a h d k' r :
  snd_inv k -> hdr_ok h -> len d = h_len h -> len d <= 2048 ->
  (forall s, s ∈ snd_buf k -> 0 <= seg_sn s < half) -> h_una h < half ->
  input_segment k a h d = Ok (k', r) ->
  forall s, s ∈ snd_buf k' ->
    s ∈ snd_buf k /\ h_una h <= seg_sn s /\ (h_cmd h = IKCP_CMD_ACK -> seg_sn s <> h_sn h).
Proof.
  intros Hi Hh Hl Hle Hb Hu E s Hs.
  destruct (input_segment_rest k a h d k' r) as (_ & _ & _ & Es); try done; [apply Hh|].
  destruct (input_ack_part_rest k h) as (_ & _ & _ & Eb). rewrite Eb in Es. rewrite Es in Hs.
  assert (Hk : s ∈ drop (una_count (snd_buf k) (h_una h)) (snd_buf k) ->
    s ∈ snd_buf k /\ h_una h <= seg_sn s).
  { intros Hd. split; [by eapply elem_of_drop|].
    apply (una_drop_plain (h_una h) (snd_buf k)); try done.
    - apply (serial_plain (snd_una k)); [apply Hi|apply Hi|done].
    - split; [|done]. apply Hh. }
  destruct (Z.eqb_spec (h_cmd h) IKCP_CMD_ACK) as [Ec|Ec].
  - apply list_elem_of_filter in Hs as [Hn Hs]. by destruct (Hk Hs).
  - by destruct (Hk Hs).
Qed.

Lemma header_len s : len (seg_data s) <= 2048 -> len (seg_data s) = h_len (header_of s).
Proof. intros Hl. simpl. rewrite u32_id; [done|unfold is_u32; lia]. Qed.

(** A datagram from the end [kB], of which the state before is [k0]. *)
Section Datagram.
Context (k0 kB : KCP) (hA : list item) (w : list byte) (hB : list item) (rd : list item).
Context (HhA : len hA < half) (HhB : len hB < half) (Hn : rcv_nxt kB <= len hA)
  (Hit : forall i x, hB !! i = Some x -> item_ok i x).

Record arriving (k : KCP) : Prop := {
  ar_core : core k0 kB hA w hB rd k;
  ar_wf : wf k;
  ar_settings : settings k = settings k0;
}.

Lemma arriving_segment k a s k' r :
  arriving k -> auth kB hB s -> len (seg_data s) <= 2048 ->
  input_segment k a (header_of s) (seg_data s) = Ok (k', r) -> arriving k' /\ exists a', r = inl a'.
Proof.
  intros [Hc Hw Hs] Hau Hl E.
  assert (Hlen : len (seg_data s) = h_len (header_of s))
    by (simpl; rewrite u32_id; [done|unfold is_u32; lia]).
  assert (known_cmd (h_cmd (header_of s)) = true) as Hk.
  { simpl. rewrite (auth_cmd kB hB) by done. apply Hau. }
  destruct (input_segment_ok k a (header_of s) (seg_data s)) as (k1 & a1 & E1 & Hset & _);
    [apply Hw|done|done|done|].
  rewrite E in E1. injection E1 as -> ->. split; [|by eexists]. split.
  - by eapply core_segment.
  - eapply (wf_input_segment k a (header_of s)); try done. apply header_of_ok.
  - by rewrite Hset.
Qed.

(** What the segments of a datagram keep, or one of them establishes, holds after it. *)
Lemma segments_reach (P : KCP -> Prop) (Q : segment -> Prop) g :
  (forall k a s k' r, s ∈ g -> arriving k -> auth kB hB s -> len (seg_data s) <= 2048 ->
     P k \/ Q s -> input_segment k a (header_of s) (seg_data s) = Ok (k', r) -> P k') ->
  forall k a k' r, arriving k -> Forall (auth kB hB) g -> len (seg_stream g) <= 2048 ->
    P k \/ (exists s, s ∈ g /\ Q s) -> input_segments k a g = Ok (k', r) -> P k'.
Proof.
  intros Hstep. induction g as [|s g IH]; intros k a k' r Ha Hau Hl HP; cbn [input_segments].
  { intros [= <- _]. by destruct HP as [|(? & ?%elem_of_nil & _)]. }
  apply Forall_cons in Hau as [Hs Hau].
  rewrite seg_stream_cons, length_app, wire_length in Hl.
  intros E. apply bind_Ok_inv in E as ([k1 r1] & E1 & E).
  destruct (arriving_segment k a s k1 r1) as [Ha1 [a1 ->]]; [done|done|lia|done|].
  assert (Hhead : P k \/ Q s -> P k1)
    by (intros HQ; eapply (Hstep k a s); [by left|done|done|lia|done|exact E1]).
  eapply (IH (fun k a s k' r Hin => Hstep k a s k' r (list_elem_of_further _ _ _ Hin)) k1 a1);
    [done|done|lia| |exact E].
  destruct HP as [HP|(s' & [->|Hin]%elem_of_cons & HQ)]; [left; auto..|right; by exists s'].
Qed.

(** A data segment in the window is acknowledged by the end of the datagram. *)
Lemma segments_ack s g k a k' r :
  arriving k -> Forall (auth kB hB) g -> len (seg_stream g) <= 2048 -> s ∈ g ->
  seg_cmd s = IKCP_CMD_PUSH -> seg_sn s < rcv_nxt k0 + rcv_wnd k0 -> 0 <= rcv_wnd k0 ->
  len hB + rcv_wnd k0 < half ->
  input_segments k a g = Ok (k', r) -> exists i, i ∈ acklist k' /\ ack_sn i = seg_sn s.
Proof.
  intros Ha Hau Hl Hs Hc Hw H0 Hb.
  pose proof (proj1 (Forall_forall _ _) Hau s Hs) as Has.
  pose proof (in_hist_bound _ _ (a_data _ _ _ Has (or_introl Hc))) as Hsn.
  apply (segments_reach (fun k => exists i, i ∈ acklist k /\ ack_sn i = seg_sn s) (eq s) g);
    try done; [|right; by exists s].
  intros k1 a1 s' k2 r2 _ [Hc1 _ Hs1] _ Hl' [(i & Hi & Ei)|<-] E.
  - exists i. split; [|done].
    destruct (input_segment_acks _ _ _ _ _ _ (header_len s' Hl') Hl' E) as [[l ->] _].
    apply elem_of_app. by left.
  - destruct (input_segment_acks _ _ _ _ _ _ (header_len s Hl') Hl' E) as [_ Hk].
    eexists. split; [apply Hk|]; simpl.
    + rewrite (auth_cmd kB hB) by done. exact Hc.
    + rewrite (u32_id (seg_sn s)) by (unfold is_u32; lia).
      pose proof (r_nxt _ _ _ (c_recv _ _ _ _ _ _ _ Hc1)). pose proof (g_nxt _ _ (c_grows _ _ _ _ _ _ _ Hc1)).
      apply settings_eq in Hs1 as (_ & _ & _ & _ & -> & _).
      rewrite (u32_id (rcv_nxt k1 + _)) by (unfold is_u32; lia).
      clear -H1 H2 Hw Hb Hsn H0. word_lia.
    + by rewrite u32_id by (unfold is_u32; lia).
Qed.

(** What an acknowledgement covers has left the send buffer by the end of the datagram. *)
Lemma segments_retire s g n k a k' r :
  arriving k -> Forall (auth kB hB) g -> len (seg_stream g) <= 2048 -> s ∈ g ->
  seg_cmd s = IKCP_CMD_ACK -> seg_sn s = n \/ n < seg_una s ->
  input_segments k a g = Ok (k', r) -> forall t, t ∈ snd_buf k' -> seg_sn t <> n.
Proof.
  intros Ha Hau Hl Hs Hc Hcase.
  pose proof (proj1 (Forall_forall _ _) Hau s Hs) as Has.
  assert (Hseg : forall k1 a1 s' k2 r2, arriving k1 -> auth kB hB s' -> len (seg_data s') <= 2048 ->
    input_segment k1 a1 (header_of s') (seg_data s') = Ok (k2, r2) ->
    forall t, t ∈ snd_buf k2 -> t ∈ snd_buf k1 /\ seg_una s' <= seg_sn t /\
      (seg_cmd s' = IKCP_CMD_ACK -> seg_sn t <> seg_sn s')).
  { intros k1 a1 s' k2 r2 [Hc1 Hw1 _] Has' Hl' E t Ht.
    pose proof (a_una _ _ _ Has') as Hu.
    destruct (input_segment_retires k1 a1 (header_of s') (seg_data s') k2 r2) with (s := t)
      as (T1 & T2 & T3); try done.
    - apply Hw1.
    - apply header_of_ok.
    - by apply header_len.
    - intros x Hx. destruct (s_buf _ _ _ (c_send _ _ _ _ _ _ _ Hc1) x Hx) as [Hi _].
      pose proof (in_hist_bound _ _ Hi). lia.
    - simpl. rewrite u32_id; [lia|unfold is_u32; lia].
    - simpl in T2, T3. rewrite u32_id in T2 by (unfold is_u32; lia). split; [done|]. split; [done|].
      intros Hack. rewrite (auth_cmd kB hB) in T3 by done. specialize (T3 Hack).
      destruct (a_ack _ _ _ Has' Hack) as [Hr _]. by rewrite u32_id in T3 by (unfold is_u32; lia). }
  apply (segments_reach (fun k => forall t, t ∈ snd_buf k -> seg_sn t <> n) (eq s) g);
    try done; [|right; by exists s].
  intros k1 a1 s' k2 r2 _ Ha1 Has' Hl' HP E t Ht.
  destruct (Hseg k1 a1 s' k2 r2 Ha1 Has' Hl' E t Ht) as (T1 & T2 & T3).
  destruct HP as [HP|<-]; [by apply HP|].
  destruct Hcase as [<-|Hlt]; [by apply T3|lia].
Qed.

(** The window that the datagram advertises. *)
Lemma segments_window g wnd k a k' r :
  arriving k -> Forall (auth kB hB) g -> len (seg_stream g) <= 2048 -> g <> [] ->
  (forall s, s ∈ g -> seg_wnd s = wnd) ->
  input_segments k a g = Ok (k', r) -> rmt_wnd k' = u16 wnd.
Proof.
  intros Ha Hau Hl Hne Hw. apply (segments_reach (fun k => rmt_wnd k = u16 wnd) (fun _ => True) g); try done.
  - intros k1 a1 s' k2 r2 Hin Ha1 _ Hl' _ E.
    destruct (input_segment_rest _ _ _ _ _ _ (header_len s' Hl') Hl' (fr_inv _ (wf_ready _ (ar_wf _ Ha1)))
      (proj1 (proj2 (proj2 (proj2 (proj2 (proj2 (header_of_ok s'))))))) E) as (R & _).
    destruct (input_ack_part_rest k1 (header_of s')) as (R' & _). rewrite R' in R.
    unfold rest in R. apply pair_eq4 in R as (_ & _ & _ & ->). simpl. by rewrite Hw.
  - destruct g as [|s g]; [done|]. right. exists s. split; [by left|done].
Qed.
End Datagram.
End Arrival.

(** Every segment of a flush advertises the room of the receive queue. *)
Lemma flush_wnd k t s :
  s ∈ control_segments t k ++ sent_segments (flush_fates t k) -> seg_wnd s = u32 (wnd_unused k).
Proof.
  unfold control_segments, probe_segments. rewrite !elem_of_app. intros [[Hs|[Hs|Hs]]|Hs].
  - pose proof (ack_segments_header (rcv_nxt k) (acklist k) (flush_header k)) as Hh.
    rewrite Forall_forall in Hh. destruct (Hh s Hs) as (-> & _). done.
  - destruct (negb _); [|by apply elem_of_nil in Hs]. apply list_elem_of_singleton in Hs as ->.
    exact (proj1 (probe_header_fields k)).
  - destruct (negb _); [|by apply elem_of_nil in Hs]. apply list_elem_of_singleton in Hs as ->.
    exact (proj1 (probe_header_fields k)).
  - unfold sent_segments in Hs. apply list_elem_of_omap in Hs as ([s1 kd] & Hf & Hk).
    simpl in Hk. destruct (needsend kd) eqn:Hn; [|discriminate]. injection Hk as <-.
    unfold flush_fates in Hf. apply list_elem_of_fmap in Hf as (s0 & E & _). unfold flushed in E.
    destruct (flush_segment _ _ _ _ _) as [s2 kd']. simpl in E. injection E as -> ->. by rewrite Hn.
Qed.

(** ** Lemmas: the steps of an exchange *)

Section Exchange.
Context `{BufPool}.

(** An operation of one end. *)
Definition does (o : op) (P P' : peer) : Prop :=
  exists r, perform o (p_kcp P) = Ok r /\ P' = after P r.

Lemma does_step cv A A' B o :
  is_u32 cv -> winv cv A B -> op_ok (p_kcp A) o ->
  (forall t pkt, o = OInput t pkt -> pkt ∈ p_soup B) -> does o A A' ->
  len (p_hist A') < half -> len (p_hist B) < half ->
  wstep (A, B) (A', B) /\ wstep (B, A) (B, A') /\ winv cv A' B.
Proof.
  intros Hcv Hi Ho Hin (r & E & ->) H1 H2.
  assert (pstep (p_soup B) A (after A r)) as Hs by by eapply pstep_op.
  split; [by apply wstep_left|]. split; [by apply wstep_right|]. by eapply pstep_winv.
Qed.

(** A flush, and a segment that it sends. *)
Lemma flush_part cv A B t s :
  is_u32 cv -> winv cv A B -> is_u32 t ->
  len (p_hist A) + len (snd_queue (p_kcp A)) < half -> len (p_hist B) < half ->
  s ∈ control_segments t (p_kcp A) ++ sent_segments (flush_fates t (p_kcp A)) ->
  exists x st b tr g (A1 := after A (mkOutcome (flushed_kcp t (p_kcp A) x st b) tr [] [])),
    does (OFlush t) A A1 /\ winv cv A1 B /\ wstep (A, B) (A1, B) /\ wstep (B, A) (B, A1) /\
    p_hist A1 = p_hist A ++ flush_items (p_kcp A) /\
    seg_stream g ∈ p_soup A1 /\ s ∈ g /\ len (seg_stream g) <= mtu (p_kcp A) /\
    Forall (auth (p_kcp A1) (p_hist A1)) g /\
    forall s', s' ∈ g ->
      s' ∈ control_segments t (p_kcp A) ++ sent_segments (flush_fates t (p_kcp A)).
Proof.
  intros Hcv Hi Ht Hh HhB Hs. pose proof Hi as [Hw _ _ _ [S1 _ _ _ _] [_ R2 _ _ _]].
  destruct (flush_sends (p_kcp A) t s Hw Hs) as (x & st & b & tr & g & E & Hg & Hin & Hl & Hall).
  exists x, st, b, tr, g. set (A1 := after _ _). cbv zeta.
  assert (p_hist A1 = p_hist A ++ flush_items (p_kcp A)) as Eh.
  { subst A1. simpl. by rewrite numbered_now_flush. }
  assert (len (flush_items (p_kcp A)) <= len (snd_queue (p_kcp A))) as Hfi
    by (rewrite flush_items_length; unfold admitted_count; lia).
  assert (does (OFlush t) A A1) as Hd.
  { eexists. split; [|reflexivity]. cbn [perform]. by rewrite E. }
  destruct (does_step cv A A1 B (OFlush t)) as (W1 & W2 & Hi1); try done.
  { rewrite Eh, length_app. lia. }
  split; [done|]. split; [done|]. split; [done|]. split; [done|]. split; [done|].
  split; [apply elem_of_app; by right|]. split; [done|]. split; [done|]. split.
  - rewrite Eh. apply Forall_forall. intros s' Hs'.
    apply (flush_auth (p_kcp A) t _ (p_hist A) (p_wrote A) (p_hist B) (consumed (p_kcp A) (p_hist B))); try done.
    + unfold is_u32. lia.
    + rewrite length_app. lia.
    + subst A1. simpl. destruct (settings_eq _ _ (flushed_settings t (p_kcp A) x st b)) as (Ec & _).
      apply grows_side; [done|]. apply flushed_rcv_side.
    + subst A1. simpl. by destruct (settings_eq _ _ (flushed_settings t (p_kcp A) x st b)) as (Ec & _).
    + by apply Hall.
  - exact Hall.
Qed.

(** The arrival of a datagram that the other end has sent. *)
Lemma input_part cv A B t g :
  is_u32 cv -> winv cv A B -> is_u32 t -> len (p_hist A) < half -> len (p_hist B) < half ->
  Forall (auth (p_kcp B) (p_hist B)) g -> seg_stream g ∈ p_soup B -> g <> [] ->
  len (seg_stream g) <= 2048 ->
  exists A1 k1 r, does (OInput t (seg_stream g)) A A1 /\ winv cv A1 B /\
    wstep (A, B) (A1, B) /\ wstep (B, A) (B, A1) /\
    p_hist A1 = p_hist A /\ p_wrote A1 = p_wrote A /\ p_read A1 = p_read A /\
    arriving (p_kcp A) (p_kcp B) (p_hist A) (p_wrote A) (p_hist B) (consumed (p_kcp A) (p_hist B)) (p_kcp A) /\
    input_segments (p_kcp A) (mkAcksum 0 0 0) g = Ok (k1, r) /\ same_core k1 (p_kcp A1).
Proof.
  intros Hcv Hi Ht HhA HhB Hau Hin Hne Hl. pose proof Hi as [Hw _ Hc Hc' [S1 R1 _ _ C1] [S2 R2 _ _ C2]].
  destruct (perform_wf (OInput t (seg_stream g)) (p_kcp A) Hw (conj Ht Hl)) as (r & E & _).
  set (A1 := after A r).
  assert (does (OInput t (seg_stream g)) A A1) as Hd by by exists r.
  cbn [perform] in E. apply bind_Ok_inv in E as ([k' code] & E1 & [= <-]).
  destruct (input_stream (p_kcp A) t g k' code) as (k1 & r1 & E2 & Hsame); try done.
  { apply Hw. }
  { apply (auth_wire_ok (p_kcp B) (p_hist B)); try done; congruence. }
  exists A1, k1, r1.
  assert (arriving (p_kcp A) (p_kcp B) (p_hist A) (p_wrote A) (p_hist B) (consumed (p_kcp A) (p_hist B)) (p_kcp A)) as Har.
  { by split; [split|..]. }
  assert (Hitems : forall i x, p_hist B !! i = Some x -> item_ok i x).
  { intros i x. apply (dir_items B A), (w_rl _ _ _ Hi). }
  assert (numbered_now (p_kcp A) k' = []) as Hnn.
  { apply numbered_now_same.
    assert (core (p_kcp A) (p_kcp B) (p_hist A) (p_wrote A) (p_hist B) (consumed (p_kcp A) (p_hist B)) k') as Hcr.
    { apply (core_same _ _ _ _ _ _ k1); [|done].
      eapply (core_segments (p_kcp A) (p_kcp B) (p_hist A) (p_wrote A) (p_hist B) (consumed (p_kcp A) (p_hist B)) g);
        try done. apply R1. }
    rewrite (s_nxt _ _ _ (c_send _ _ _ _ _ _ _ Hcr)). symmetry. apply S1. }
  assert (p_hist A1 = p_hist A) as Eh by (subst A1; simpl; by rewrite Hnn, app_nil_r).
  destruct (does_step cv A A1 B (OInput t (seg_stream g))) as (W1 & W2 & Hi1); try done.
  - by intros t' pkt [= <- <-].
  - by rewrite Eh.
  - split_and!; try done; subst A1; simpl; by rewrite app_nil_r.
Qed.
End Exchange.

(** *** What the steps keep *)

(** The items numbered and those that wait for a number. *)
Definition items (P : peer) : list item := p_hist P ++ map payload (snd_queue (p_kcp P)).

Record keeps (P P' : peer) : Prop := {
  kp_items : items P' = items P;
  kp_wrote : p_wrote P' = p_wrote P;
  kp_settings : settings (p_kcp P') = settings (p_kcp P);
}.

Lemma keeps_refl P : keeps P P.
Proof. done. Qed.

Lemma keeps_trans P1 P2 P3 : keeps P1 P2 -> keeps P2 P3 -> keeps P1 P3.
Proof. intros [] []. split; congruence. Qed.

Lemma items_length P : len (items P) = len (p_hist P) + len (snd_queue (p_kcp P)).
Proof. unfold items. rewrite length_app, length_map. lia. Qed.

(** Only data is sent: the opening of the connection has been acknowledged, or never sent. *)
Definition data_only (k : KCP) : Prop :=
  forall s, s ∈ snd_buf k ++ snd_queue k -> seg_cmd s = IKCP_CMD_PUSH.

Lemma data_only_payload k k' :
  (forall x, x ∈ map payload (snd_buf k' ++ snd_queue k') -> x ∈ map payload (snd_buf k ++ snd_queue k)) ->
  data_only k -> data_only k'.
Proof.
  intros Hsub Hd s Hs. destruct (proj1 (list_elem_of_fmap _ _ _) (Hsub (payload s) (list_elem_of_fmap_2 _ _ _ Hs)))
    as (t & Et & Ht). rewrite <- (Hd t Ht). unfold payload in Et. congruence.
Qed.

(** With room, the receive buffer does not start with the number expected next. *)
Definition tight (k : KCP) : Prop :=
  rcv_queue k = [] -> forall s, head (rcv_buf k) = Some s -> seg_sn s <> rcv_nxt k.

Lemma tight_side k k' : rcv_side k' = rcv_side k -> tight k -> tight k'.
Proof. intros (E1 & E2 & E3)%rcv_side_eq. unfold tight. by rewrite E1, E2, E3. Qed.

Lemma tight_move k : is_u32 (rcv_nxt k) -> 0 < rcv_wnd k -> tight (move_ready k).
Proof.
  intros Hu Hw. destruct (move_ready_spec k Hu) as (c & _ & -> & _ & Hhead & _).
  unfold tight. simpl. intros [Eq _]%app_eq_nil s Hs. apply Hhead; [|done]. rewrite Eq. done.
Qed.

Section Tight.
Context `{BufPool}.

Lemma input_segment_tight k a h d k' r :
  rcv_inv k -> hdr_ok h -> len d = h_len h -> len d <= 2048 -> 0 < rcv_wnd k ->
  h_cmd h <> IKCP_CMD_CONNECT -> input_segment k a h d = Ok (k', r) -> tight k -> tight k'.
Proof.
  intros Hi Hh Hl Hle Hw Hne. rewrite input_segment_eq by done. cbv zeta.
  destruct (input_ack_part_frame k h) as (Hset & Hr & _).
  apply settings_eq in Hset as (_ & _ & _ & _ & Ew & _). rewrite <- Ew in Hw.
  intros E Ht. apply (tight_side _ _ Hr) in Ht. apply (rcv_inv_side _ _ Hr) in Hi.
  set (k0 := input_ack_part k h) in *. clearbody k0. revert E.
  rewrite (proj2 (Z.eqb_neq _ _) Hne).
  destruct (h_cmd h =? IKCP_CMD_ACK).
  { intros [= <- _]. apply (tight_side k0); [|done].
    etrans; [apply shrink_buf_frame|apply parse_ack_frame]. }
  destruct (h_cmd h =? IKCP_CMD_PUSH).
  { destruct (Z.ltb_spec (itimediff (h_sn h) (u32 (rcv_nxt k0 + rcv_wnd k0))) 0) as [Hlt|];
      intros E; apply bind_Ok_inv in E as (k1 & E1 & [= <- _]).
    - change (rcv_nxt (ack_push (h_sn h) (h_ts h) k0)) with (rcv_nxt k0) in E1.
      destruct (Z.geb_spec (itimediff (h_sn h) (rcv_nxt k0)) 0) as [Hge|].
      + destruct (parse_data_accepts (ack_push (h_sn h) (h_ts h) k0) (received h d) k1)
          as (st & -> & _); [by apply (rcv_inv_side k0)|apply Hh|exact Hlt|simpl; lia|exact E1|]. by apply tight_move; [apply Hi|].
      + apply (tight_side k0); [|done]. by apply seg_repeat_frame in E1 as (_ & _ & -> & _).
    - apply (tight_side k0); [|done]. by apply seg_repeat_frame in E1 as (_ & _ & -> & _). }
  destruct (h_cmd h =? IKCP_CMD_WASK); [by intros [= <- _]|].
  destruct (h_cmd h =? IKCP_CMD_WINS); by intros [= <- _].
Qed.

Section Datagram.
Context (k0 kB : KCP) (hA : list item) (w : list byte) (hB : list item) (rd : list item).
Context (HhA : len hA < half) (HhB : len hB < half) (Hn : rcv_nxt kB <= len hA)
  (Hit : forall i x, hB !! i = Some x -> item_ok i x).
#[local] Abbreviation arriving := (arriving k0 kB hA w hB rd).

Lemma segments_tight g k a k' r :
  arriving k -> Forall (auth kB hB) g -> len (seg_stream g) <= 2048 -> 0 < rcv_wnd k0 ->
  (forall s, s ∈ g -> seg_cmd s <> IKCP_CMD_CONNECT) ->
  input_segments k a g = Ok (k', r) -> tight k -> tight k'.
Proof.
  intros Ha Hau Hl Hw Hc E Ht.
  apply (segments_reach k0 kB hA w hB rd HhA HhB Hn Hit tight (fun _ => False) g) with (k := k) (a := a) (r := r);
    try done; [|by left].
  intros k1 a1 s' k2 r2 Hin [Hc1 Hw1 Hs1] Has Hl' [Ht1|[]] E1.
  apply (input_segment_tight k1 a1 (header_of s') (seg_data s') k2 r2); try done.
  - split; [|apply (c_recv _ _ _ _ _ _ _ Hc1)].
    pose proof (r_nxt _ _ _ (c_recv _ _ _ _ _ _ _ Hc1)). unfold is_u32. lia.
  - apply header_of_ok.
  - by apply header_len.
  - by apply settings_eq in Hs1 as (_ & _ & _ & _ & -> & _).
  - simpl. rewrite (auth_cmd kB hB) by done. by apply Hc.
Qed.

(** The send queue stays, the send buffer only shrinks. *)
Lemma segments_send g k a k' r l q :
  arriving k -> Forall (auth kB hB) g -> len (seg_stream g) <= 2048 ->
  snd_queue k = q -> map sig (snd_buf k) `sublist_of` l ->
  input_segments k a g = Ok (k', r) -> snd_queue k' = q /\ map sig (snd_buf k') `sublist_of` l.
Proof.
  intros Ha Hau Hl Hq Hs.
  apply (segments_reach k0 kB hA w hB rd HhA HhB Hn Hit
    (fun k => snd_queue k = q /\ map sig (snd_buf k) `sublist_of` l) (fun _ => False) g); try done; [|by left].
  intros k1 a1 s k2 r2 _ [_ Hw1 _] _ Hl' [[Hq1 Hs1]|[]] E.
  destruct (input_segment_rest _ _ _ _ _ _ (header_len s Hl') Hl' (fr_inv _ (wf_ready _ Hw1))
      (proj1 (proj2 (proj2 (proj2 (proj2 (proj2 (header_of_ok s))))))) E) as (_ & R2 & _ & R4).
  destruct (input_ack_part_rest k1 (header_of s)) as (_ & A2 & _ & A4).
  split; [congruence|]. etrans; [|exact Hs1]. rewrite R4, A4.
  change (map sig ?x) with (sig <$> x). apply fmap_sublist. etrans; [|apply sublist_drop].
  destruct (_ =? _); [apply sublist_filter|done].
Qed.
End Datagram.
End Tight.

Section Parts.
Context `{BufPool}.

Lemma due_in_buffer t k s :
  s ∈ snd_buf k -> exists s', s' ∈ map fst (flush_fates t k) /\ sig s' = sig s.
Proof.
  intros Hs. assert (s ∈ snd_buf (admitted t k)) as Hin by (apply elem_of_app; by left).
  destruct (sig_elem _ _ s (eq_sym (flush_fates_sig t k)) Hin) as (s' & Hs' & E). by exists s'.
Qed.

(** What a flush keeps of an end. *)
Lemma flush_keeps t P x st b tr :
  wf (p_kcp P) -> let P' := after P (mkOutcome (flushed_kcp t (p_kcp P) x st b) tr [] []) in
  keeps P P' /\ p_read P' = p_read P /\ rcv_side (p_kcp P') = rcv_side (p_kcp P) /\
  waitSnd (p_kcp P') = waitSnd (p_kcp P) /\ (data_only (p_kcp P) -> data_only (p_kcp P')).
Proof.
  intros Hw P'. destruct (flushed_snd_side t (p_kcp P) x st b) as (_ & _ & Eq & Eb).
  pose proof (flushed_payload t (p_kcp P) x st b) as Hp. split_and!.
  - split; [|simpl; by rewrite app_nil_r|apply flushed_settings].
    unfold items. simpl. rewrite numbered_now_flush, Eq, <- app_assoc by done. by rewrite flush_items_rest.
  - simpl. by rewrite app_nil_r.
  - apply flushed_rcv_side.
  - apply (f_equal length) in Hp. rewrite !length_map, !length_app in Hp. unfold waitSnd. simpl. lia.
  - apply data_only_payload. simpl. by rewrite Hp.
Qed.

(** What an arrival keeps of the end that sends nothing in it. *)
Lemma arrival_keeps P P' k1 :
  p_hist P' = p_hist P -> p_wrote P' = p_wrote P -> settings k1 = settings (p_kcp P) ->
  same_core k1 (p_kcp P') -> snd_queue k1 = snd_queue (p_kcp P) -> keeps P P'.
Proof.
  intros Eh Ew Es [_ Sq Ss _ _ _ _ _] Eq. split; [|done|congruence]. unfold items. by rewrite Eh, Sq, Eq.
Qed.

(** Both ends of a datagram that arrives. *)
Lemma arrives cv A B t g :
  is_u32 cv -> winv cv A B -> is_u32 t -> len (p_hist A) < half -> len (p_hist B) < half ->
  Forall (auth (p_kcp B) (p_hist B)) g -> seg_stream g ∈ p_soup B -> g <> [] ->
  len (seg_stream g) <= 2048 ->
  exists A', does (OInput t (seg_stream g)) A A' /\ winv cv A' B /\
    wstep (A, B) (A', B) /\ wstep (B, A) (B, A') /\ keeps A A' /\ p_read A' = p_read A /\
    snd_queue (p_kcp A') = snd_queue (p_kcp A) /\
    map sig (snd_buf (p_kcp A')) `sublist_of` map sig (snd_buf (p_kcp A)) /\
    (forall wnd, (forall s, s ∈ g -> seg_wnd s = wnd) -> rmt_wnd (p_kcp A') = u16 wnd) /\
    (forall s, s ∈ g -> seg_cmd s = IKCP_CMD_PUSH ->
       seg_sn s < rcv_nxt (p_kcp A) + rcv_wnd (p_kcp A) -> 0 <= rcv_wnd (p_kcp A) ->
       len (p_hist B) + rcv_wnd (p_kcp A) < half ->
       exists i, i ∈ acklist (p_kcp A') /\ ack_sn i = seg_sn s) /\
    (forall s n, s ∈ g -> seg_cmd s = IKCP_CMD_ACK -> seg_sn s = n \/ n < seg_una s ->
       n ∉ map seg_sn (snd_buf (p_kcp A'))) /\
    (0 < rcv_wnd (p_kcp A) -> (forall s, s ∈ g -> seg_cmd s <> IKCP_CMD_CONNECT) ->
       tight (p_kcp A) -> tight (p_kcp A')).
Proof.
  intros Hcv Hi Ht HhA HhB Hau Hin Hne Hl.
  destruct (input_part cv A B t g) as (A' & k1 & r & Hd & Hi' & W1 & W2 & Eh & Ew & Er & Ha & E & Hsame);
    try done.
  assert (rcv_nxt (p_kcp B) <= len (p_hist A)) as Hn by apply (w_lr _ _ _ Hi).
  assert (forall i x, p_hist B !! i = Some x -> item_ok i x) as Hit
    by (intros i x; apply (dir_items B A), (w_rl _ _ _ Hi)).
  destruct (segments_send _ _ _ _ _ _ HhA HhB Hn Hit g _ _ _ _ (map sig (snd_buf (p_kcp A)))
    (snd_queue (p_kcp A)) Ha Hau Hl eq_refl (reflexivity _) E) as [Hq Hb].
  assert (settings k1 = settings (p_kcp A)) as Hset.
  { apply (segments_reach (p_kcp A) (p_kcp B) (p_hist A) (p_wrote A) (p_hist B) (consumed (p_kcp A) (p_hist B)) HhA HhB Hn Hit
      (fun k => settings k = settings (p_kcp A))
      (fun _ => False) g) with (k := p_kcp A) (a := mkAcksum 0 0 0) (r := r); try done; [|by left].
    intros k a s k' r' _ Hk Has Hls _ E'.
    destruct (arriving_segment (p_kcp A) (p_kcp B) (p_hist A) (p_wrote A) (p_hist B) (consumed (p_kcp A) (p_hist B))
      HhA HhB Hn Hit k a s k' r' Hk Has Hls E') as [[_ _ ?] _]. done. }
  pose proof Hsame as [Sn Sq Ss Sr Sa Sw _ Sb].
  exists A'. split; [done|]. split; [done|]. split; [done|]. split; [done|].
  split; [by apply (arrival_keeps A A' k1)|]. split; [done|]. split; [congruence|].
  split; [by rewrite Sb|]. split; [|split; [|split]].
  - intros wnd Hw. rewrite Sw. by apply (segments_window _ _ _ _ _ _ HhA HhB Hn Hit g wnd _ (mkAcksum 0 0 0) k1 r Ha Hau Hl).
  - intros s Hs Hc Hlt H0 Hb2. rewrite Sa.
    by apply (segments_ack _ _ _ _ _ _ HhA HhB Hn Hit s g _ (mkAcksum 0 0 0) k1 r Ha Hau Hl).
  - intros s n Hs Hc Hcase (t' & -> & Ht')%list_elem_of_fmap.
    destruct (sig_elem _ _ t' Sb Ht') as (t0 & Ht0 & Esig).
    apply (segments_retire _ _ _ _ _ _ HhA HhB Hn Hit s g (seg_sn t') _ _ _ _ Ha Hau Hl Hs Hc Hcase E t0 Ht0).
    by injection Esig.
  - intros Hw Hc Htt. apply (tight_side k1); [done|].
    by apply (segments_tight _ _ _ _ _ _ HhA HhB Hn Hit g _ _ _ _ Ha Hau Hl Hw Hc E).
Qed.
End Parts.

Lemma flush_cmd k t s :
  data_only k -> s ∈ control_segments t k ++ sent_segments (flush_fates t k) ->
  seg_cmd s <> IKCP_CMD_CONNECT.
Proof.
  intros Hd. unfold control_segments, probe_segments. rewrite !elem_of_app. intros [[Hs|[Hs|Hs]]|Hs].
  - pose proof (ack_segments_header (rcv_nxt k) (acklist k) (flush_header k)) as Hh.
    rewrite Forall_forall in Hh. by destruct (Hh s Hs) as (_ & _ & _ & _ & ->).
  - destruct (negb _); [|by apply elem_of_nil in Hs]. by apply list_elem_of_singleton in Hs as ->.
  - destruct (negb _); [|by apply elem_of_nil in Hs]. by apply list_elem_of_singleton in Hs as ->.
  - assert (payload s ∈ map payload (map fst (flush_fates t k))) as Hp.
    { unfold sent_segments in Hs. apply list_elem_of_omap in Hs as ([s1 kd] & Hf & Hk).
      simpl in Hk. destruct (needsend kd); [|discriminate]. injection Hk as <-.
      apply (list_elem_of_fmap_2 payload (map fst (flush_fates t k)) s1).
      by apply (list_elem_of_fmap_2 fst (flush_fates t k) (s1, kd)). }
    rewrite flush_fates_payload in Hp.
    assert (payload s ∈ map payload (snd_buf k ++ snd_queue k)) as (s0 & E & Hs0)%list_elem_of_fmap.
    { rewrite <- (admitted_payload t k), map_app. apply elem_of_app. by left. }
    apply Hd in Hs0. unfold payload in E. injection E as -> _ _. by rewrite Hs0.
Qed.

Section Loop.
Context `{BufPool} (cv : Z) (Hcv : is_u32 cv).

(** First half: the segment arrives at the other end and is acknowledged there. *)
Lemma send_part A B s t1 t2 :
  winv cv A B -> is_u32 t1 -> is_u32 t2 ->
  len (items A) + rcv_wnd (p_kcp B) < half -> len (p_hist B) < half -> 0 <= rcv_wnd (p_kcp B) ->
  mtu (p_kcp A) <= 2048 -> s ∈ snd_buf (p_kcp A) -> seg_cmd s = IKCP_CMD_PUSH -> due t1 s ->
  seg_sn s < rcv_nxt (p_kcp B) + rcv_wnd (p_kcp B) ->
  exists A1 B1 p, does (OFlush t1) A A1 /\ p ∈ p_soup A1 /\ does (OInput t2 p) B B1 /\
    winv cv A1 B1 /\ rtc wstep (A, B) (A1, B1) /\
    (exists i, i ∈ acklist (p_kcp B1) /\ ack_sn i = seg_sn s) /\
    seg_sn s ∈ map seg_sn (snd_buf (p_kcp A1)) /\ waitSnd (p_kcp A1) = waitSnd (p_kcp A) /\
    keeps A A1 /\ keeps B B1 /\ p_read B1 = p_read B /\
    (data_only (p_kcp A) -> data_only (p_kcp A1) /\
       (0 < rcv_wnd (p_kcp B) -> tight (p_kcp B) -> tight (p_kcp B1))).
Proof.
  intros Hi Ht1 Ht2 HhA HhB Hw0 Hm Hs Hc Hd Hwin. rewrite items_length in HhA.
  destruct (due_sent t1 (p_kcp A) s Hs Hd) as (s1 & Hs1 & Esig). injection Esig as Esn Ecmd _ _ _.
  destruct (flush_part cv A B t1 s1) as (x & st & b & tr & g & D1 & Hi1 & W1 & _ & Eh & Hg & Hin & Hl & Hau & Hall);
    [done|done|done|lia|done|apply elem_of_app; by right|].
  set (A1 := after A _) in *.
  destruct (flush_keeps t1 A x st b tr (w_wf_l _ _ _ Hi)) as (K1 & _ & _ & Ew & Hdo). fold A1 in K1, Ew, Hdo.
  assert (len (p_hist A1) + rcv_wnd (p_kcp B) < half) as Hb1.
  { pose proof (kp_items _ _ K1) as E. apply (f_equal length) in E.
    pose proof (items_length A1). pose proof (items_length A). lia. }
  apply winv_sym in Hi1.
  destruct (arrives cv B A1 t2 g) as (B1 & D2 & Hi2 & _ & W2 & K2 & Er & _ & _ & _ & Hack & _ & Htight);
    try done; [lia|intros ->; by apply elem_of_nil in Hin|lia|].
  exists A1, B1, (seg_stream g). split; [done|]. split; [done|]. split; [done|].
  split; [by apply winv_sym|]. split; [by eapply rtc_l, rtc_once|]. split; [|split].
  - rewrite <- Esn. apply (Hack s1 Hin); [congruence|lia|done|lia].
  - destruct (due_in_buffer t1 (p_kcp A) s Hs) as (s' & Hs' & Esig').
    destruct (flushed_snd_side t1 (p_kcp A) x st b) as (_ & _ & _ & Eb).
    injection Esig' as <- _ _ _ _. apply (list_elem_of_fmap_2 seg_sn).
    change (s' ∈ snd_buf (flushed_kcp t1 (p_kcp A) x st b)). by rewrite Eb.
  - split; [done|]. split; [done|]. split; [done|]. split; [done|]. intros Hdata. split; [auto|].
    intros Hw Htt. apply Htight; [done| |done]. intros s' Hs'. eapply flush_cmd; [exact Hdata|by apply Hall].
Qed.

(** Second half: the acknowledgement comes back and retires the segment. *)
Lemma reply_part A B i t3 t4 :
  winv cv A B -> is_u32 t3 -> is_u32 t4 -> len (p_hist A) < half -> len (items B) < half ->
  mtu (p_kcp B) <= 2048 -> i ∈ acklist (p_kcp B) ->
  exists A1 B1 p, does (OFlush t3) B B1 /\ p ∈ p_soup B1 /\ does (OInput t4 p) A A1 /\
    winv cv A1 B1 /\ rtc wstep (A, B) (A1, B1) /\
    (ack_sn i ∉ map seg_sn (snd_buf (p_kcp A1))) /\
    map sig (snd_buf (p_kcp A1)) `sublist_of` map sig (snd_buf (p_kcp A)) /\
    snd_queue (p_kcp A1) = snd_queue (p_kcp A) /\ keeps A A1 /\ keeps B B1 /\
    p_read B1 = p_read B /\ rcv_side (p_kcp B1) = rcv_side (p_kcp B) /\
    rmt_wnd (p_kcp A1) = u16 (u32 (wnd_unused (p_kcp B))).
Proof.
  intros Hi Ht3 Ht4 HhA HhB Hm Hin. rewrite items_length in HhB.
  destruct (ack_segments_cover (rcv_nxt (p_kcp B)) (acklist (p_kcp B)) (flush_header (p_kcp B)) i Hin)
    as (s & Hs & Hcase).
  pose proof (ack_segments_header (rcv_nxt (p_kcp B)) (acklist (p_kcp B)) (flush_header (p_kcp B))) as Hh.
  rewrite Forall_forall in Hh. destruct (Hh s Hs) as (_ & _ & _ & Hu & Hc). simpl in Hu, Hc.
  apply winv_sym in Hi.
  destruct (flush_part cv B A t3 s) as (x & st & b & tr & g & D1 & Hi1 & _ & W1 & Eh & Hg & Hins & Hl & Hau & Hall);
    [done|done|done|lia|done|apply elem_of_app; left; apply elem_of_app; by left|].
  set (B1 := after B _) in *.
  destruct (flush_keeps t3 B x st b tr (w_wf_l _ _ _ Hi)) as (K1 & Er & Ers & _ & _). fold B1 in K1, Er, Ers.
  assert (len (p_hist B1) < half) as Hb1.
  { pose proof (kp_items _ _ K1) as E. apply (f_equal length) in E.
    pose proof (items_length B1). pose proof (items_length B). lia. }
  apply winv_sym in Hi1.
  destruct (arrives cv A B1 t4 g) as (A1 & D2 & Hi2 & W2 & _ & K2 & _ & Eq & Hsub & Hwnd & _ & Hret & _);
    try done; [intros ->; by apply elem_of_nil in Hins|lia|].
  exists A1, B1, (seg_stream g). split; [done|]. split; [done|]. split; [done|]. split; [done|].
  split; [by eapply rtc_l, rtc_once|]. split; [|split_and!; try done].
  - apply (Hret s (ack_sn i) Hins Hc). destruct Hcase as [<-|?]; [by left|right; lia].
  - apply Hwnd. intros s' Hs'. eapply flush_wnd, Hall, Hs'.
Qed.
End Loop.

(** *** [snd_una] is the first number in flight *)

Lemma snd_tight_numbers k :
  snd_tight k <-> snd_una k = default (snd_nxt k) (head (map seg_sn (snd_buf k))).
Proof. unfold snd_tight. by destruct (snd_buf k). Qed.

Lemma snd_tight_side k k' : snd_side k' = snd_side k -> snd_tight k -> snd_tight k'.
Proof. intros (E1 & E2 & _ & E4)%snd_side_eq. unfold snd_tight. by rewrite E1, E2, E4. Qed.

Section SndTight.
Context `{BufPool}.

Lemma flush_snd_tight t k x st b : snd_inv k -> snd_tight k -> snd_tight (flushed_kcp t k x st b).
Proof.
  intros Hi. rewrite !snd_tight_numbers. destruct (flushed_snd_side t k x st b) as (-> & -> & _ & ->).
  assert (map seg_sn (map fst (flush_fates t k)) = map seg_sn (snd_buf (admitted t k))) as ->.
  { pose proof (flush_fates_sig t k) as E. apply (f_equal (map (fun x => x.1.1))) in E.
    by rewrite !(map_map sig) in E. }
  change (snd_buf (admitted t k)) with (snd_buf k ++
    admit_segments k (u32 (wnd_unused k)) t (snd_nxt k) (take (admitted_count k) (snd_queue k))).
  destruct (snd_buf k) as [|s l]; simpl; [|done]. intros ->.
  pose proof (snd_nxt_u32 _ Hi). unfold admitted_count.
  destruct (snd_queue k) as [|s q]; simpl; [by rewrite Z.add_0_r, u32_id|].
  destruct (window_room k (calc_cwnd k)); simpl; [by rewrite Z.add_0_r, u32_id|done].
Qed.

Lemma input_snd_tight k t pkt upd k' code :
  len pkt <= 2048 -> input k t pkt upd = Ok (k', code) -> snd_tight k -> snd_tight k'.
Proof.
  intros Hl E Ht. revert E. apply (input_ind snd_tight); [..|done|done].
  - intros x a h d x' r _ _ _ _ Hd Hle. rewrite input_segment_eq by done. cbv zeta.
    assert (snd_tight (input_ack_part x h)) as H0 by apply shrink_buf_tight.
    set (k0 := input_ack_part x h) in *. clearbody k0.
    destruct (_ =? IKCP_CMD_CONNECT); [destruct (_ =? 0); by intros [= <- _]|].
    destruct (_ =? IKCP_CMD_ACK); [intros [= <- _]; apply shrink_buf_tight|].
    destruct (_ =? IKCP_CMD_PUSH).
    { destruct (_ <? 0); intros E; apply bind_Ok_inv in E as (k1 & E1 & [= <- _]);
        [destruct (_ >=? 0); [apply parse_data_frame in E1 as (_ & E1 & _)|]|];
        try apply seg_repeat_frame in E1 as (_ & E1 & _); by eapply snd_tight_side. }
    destruct (_ =? IKCP_CMD_WASK); [by intros [= <- _]|].
    destruct (_ =? IKCP_CMD_WINS); by intros [= <- _].
  - intros x sn. rewrite !snd_tight_numbers. unfold parse_fastack. destruct (_ || _); [done|]. simpl.
    assert (map seg_sn (bump_fastack (snd_buf x) sn) = map seg_sn (snd_buf x)) as ->; [|done].
    pose proof (bump_fastack_sig (snd_buf x) sn) as E. apply (f_equal (map (fun x => x.1.1))) in E.
    by rewrite !(map_map sig) in E.
  - intros x rtt. apply snd_tight_side. by destruct (update_ack_frame rtt x) as (_ & _ & ? & _).
  - intros x una x' Hx E. apply input_cwnd_sides in E as [E _]. by apply (snd_tight_side x).
Qed.

Lemma flush_op_tight k t k' tr : wf k -> snd_tight k -> flush k t = Ok (k', tr) -> snd_tight k'.
Proof.
  intros Hw Ht E. destruct (wf_flush k t Hw) as (x & st & b & tr' & gs & E' & _).
  rewrite E' in E. injection E as <- _. apply flush_snd_tight; [apply Hw|done].
Qed.

Lemma perform_tight k o r :
  wf k -> op_ok k o -> perform o k = Ok r -> snd_tight k -> snd_tight (o_kcp r).
Proof.
  intros Hw Ho E Ht.
  destruct o as [b| |t pkt|t|t|t|t|sw rw|nd itv re nc|m|e]; cbn [perform op_ok] in *;
    try (apply bind_Ok_inv in E as ([k' ?] & E1 & [= <-])); simpl.
  - destruct (wf_send k b Hw Ho) as (k1 & c & E' & _ & Hk & _). rewrite E' in E1. injection E1 as <- _.
    by rewrite Hk.
  - destruct (read_round_run k) as (k1 & b1 & E' & _ & _ & _ & Hs & _). rewrite E' in E1.
    injection E1 as <- _. by apply (snd_tight_side k).
  - destruct Ho. by eapply input_snd_tight.
  - destruct (wf_update k t Hw Ho) as [(k0 & Hw0 & S0 & _ & _ & _ & Eu)|Eu]; rewrite Eu in E1.
    + apply (flush_op_tight k0 t k' l); [done| |done]. by apply (snd_tight_side k).
    + by injection E1 as <- _.
  - by apply (flush_op_tight k t k' l).
  - rewrite sendConnectFlush_eq in E1. destruct (_ && _) eqn:Hc; [|by injection E1 as <- _].
    apply andb_true_iff in Hc as [Hc%Z.eqb_eq _].
    apply (flush_op_tight (k<|snd_queue := snd_queue k ++ [connect_mark]|>) t k' l); [|done|done].
    by apply wf_connecting.
  - destruct (isStateConnected k && negb (isStateLocalClosed k)) eqn:Hc.
    + rewrite sendCloseFlush_eq in E1 by done.
      apply (flush_op_tight (closing k) t k' l); [|done|done]. by apply wf_closing.
    + unfold sendCloseFlush in E1. rewrite Hc in E1. by injection E1 as <- _.
  - injection E as <-. unfold setWndSize. by destruct (sw >? 0), (rw >? 0).
  - apply Ok_inj in E as <-. cbn [o_kcp].
    apply (snd_tight_side k); [apply (setNoDelay_sides nd itv re nc k)|done].
  - destruct (wf_settings_mtu k m Hw Ho) as (k2 & c2 & E2 & _ & M1 & _).
    rewrite E2 in E1. injection E1 as <- _. by apply (snd_tight_side k).
  - by injection E as <-.
Qed.

Lemma reachable_tight cv w : reachable cv w ->
  (wf (p_kcp w.1) /\ snd_tight (p_kcp w.1)) /\ wf (p_kcp w.2) /\ snd_tight (p_kcp w.2).
Proof.
  assert (Hstep : forall net P P', pstep net P P' -> wf (p_kcp P) /\ snd_tight (p_kcp P) ->
    wf (p_kcp P') /\ snd_tight (p_kcp P')).
  { intros net P P' [o r Ho _ E] [Hw Ht]. split; [|by eapply perform_tight].
    destruct (perform_wf o _ Hw Ho) as (r' & E' & Hw'). rewrite E in E'. by injection E' as <-. }
  induction 1 as [|w w' _ IH Hs].
  - split; (split; [apply wf_fresh|done]).
  - destruct Hs as [A A' B Hs|A B B' Hs]; simpl in *; destruct IH as [I1 I2]; split; eauto.
Qed.
End SndTight.

(** *** Reading what has arrived *)

(** Data of a stream: whole and not empty. *)
Definition stream_item (x : item) : Prop := x.1.1 = IKCP_CMD_PUSH -> x.1.2 = 0 /\ x.2 <> [].

Section Drain.
Context `{BufPool} (cv : Z) (Hcv : is_u32 cv).

Lemma read_round_stream k s q :
  rcv_queue k = s :: q -> seg_frg s = 0 -> seg_data s <> [] ->
  exists k', read_round k = Ok (k', seg_data s).
Proof.
  intros Eq Ef Hd. assert (recvSize k = (k, len (seg_data s))) as Es.
  { unfold recvSize. rewrite Eq, Ef. cbn [Z.eqb]. destruct (seg_data s); [done|].
    by rewrite (proj2 (Z.eqb_neq _ _)). }
  assert (message_bytes (rcv_queue k) = seg_data s) as Em.
  { rewrite Eq. unfold message_bytes. cbn [message_count]. rewrite Ef. simpl. by rewrite app_nil_r. }
  unfold read_round. rewrite Es. destruct (Z.leb_spec (len (seg_data s)) 0) as [Hz|_].
  { destruct (seg_data s); [done|simpl in Hz; lia]. }
  rewrite Nat2Z.id, recv_ok by (by rewrite Em, length_replicate). cbn [mbind res_bind].
  rewrite Em, (drop_ge (replicate _ _)), app_nil_r by (by rewrite length_replicate). by eexists.
Qed.

(** One call takes the first segment out. *)
Lemma read_one A B s q :
  winv cv A B -> len (p_hist A) < half -> len (p_hist B) < half -> 0 < rcv_wnd (p_kcp B) ->
  rcv_queue (p_kcp B) = s :: q -> seg_frg s = 0 -> seg_data s <> [] ->
  exists B', wstep (A, B) (A, B') /\ winv cv A B' /\ keeps B B' /\ p_hist B' = p_hist B /\
    tight (p_kcp B') /\ acklist (p_kcp B') = acklist (p_kcp B) /\
    (length (rcv_queue (p_kcp B')) + length (rcv_buf (p_kcp B')) <
     length (rcv_queue (p_kcp B)) + length (rcv_buf (p_kcp B)))%nat.
Proof.
  intros Hi HhA HhB Hw Eq Ef Hd.
  destruct (read_round_stream _ _ _ Eq Ef Hd) as [k' E].
  destruct (read_round_run (p_kcp B)) as (k1 & b1 & E1 & Hset & _ & _ & Hsd & Hc).
  rewrite E in E1. injection E1 as <- <-.
  set (B' := after B (mkOutcome k' [] [] (seg_data s))).
  assert (does ORead B B') as Hdo by (eexists; split; [cbn [perform]; by rewrite E|done]).
  assert (snd_nxt k' = snd_nxt (p_kcp B)) as Hnx by by apply snd_side_eq in Hsd as (_ & ? & _).
  assert (p_hist B' = p_hist B) as Eh by (subst B'; simpl; by rewrite numbered_now_same, app_nil_r).
  apply winv_sym in Hi. destruct (does_step cv B B' A ORead) as (_ & W & Hi'); try done.
  { by rewrite Eh. }
  exists B'. split; [done|]. split; [by apply winv_sym|]. split; [split|].
  - unfold items. rewrite Eh. simpl. by apply snd_side_eq in Hsd as (_ & _ & -> & _).
  - simpl. by rewrite app_nil_r.
  - exact Hset.
  - split; [done|]. destruct Hc as [(Hb & _)|(_ & k2 & p & Hs & Ek)]; [done|].
    set (k3 := k2<|rcv_queue := drop (message_count (rcv_queue (p_kcp B))) (rcv_queue (p_kcp B))|>) in *.
    pose proof (rcv_side_eq _ _ Hs) as (N1 & N2 & N3).
    assert (is_u32 (rcv_nxt k3)) as Hu.
    { change (rcv_nxt k3) with (rcv_nxt k2). rewrite N1. pose proof (r_nxt _ _ _ (d_recv _ _ (w_rl _ _ _ Hi))).
      unfold is_u32. lia. }
    assert (rcv_wnd k3 = rcv_wnd (p_kcp B)) as Ew.
    { rewrite Ek in Hset. apply settings_eq in Hset as (_ & _ & _ & _ & Hw2 & _).
      destruct (move_ready_frame k3) as (Hm & _). apply settings_eq in Hm as (_ & _ & _ & _ & Hw3 & _).
      rewrite <- Hw3. exact Hw2. }
    split; [|split].
    + subst B'. simpl. rewrite Ek. apply (tight_side (move_ready k3)); [done|].
      apply tight_move; [done|by rewrite Ew].
    + exact (read_round_acks _ _ _ E).
    + subst B'. simpl. rewrite Ek. destruct (move_ready_spec k3 Hu) as (c & Hc & -> & _).
      subst k3. simpl in *. rewrite N3 in Hc |- *. rewrite Eq. simpl. rewrite Ef. simpl.
      rewrite length_app, length_take, !length_drop. lia.
Qed.

Lemma drain n : forall A B,
  winv cv A B -> len (p_hist A) < half -> len (p_hist B) < half -> 0 < rcv_wnd (p_kcp B) ->
  Forall stream_item (p_hist A) -> tight (p_kcp B) ->
  (length (rcv_queue (p_kcp B)) + length (rcv_buf (p_kcp B)) <= n)%nat ->
  exists B', rtc wstep (A, B) (A, B') /\ winv cv A B' /\ keeps B B' /\ tight (p_kcp B') /\
    acklist (p_kcp B') = acklist (p_kcp B) /\ rcv_queue (p_kcp B') = [].
Proof.
  induction n as [|n IH]; intros A B Hi HhA HhB Hw Hst Ht Hn;
    destruct (rcv_queue (p_kcp B)) as [|s q] eqn:Eq; try (by exists B); [simpl in Hn; lia|].
  destruct (r_queue _ _ _ (d_recv _ _ (w_lr _ _ _ Hi)) s) as [Hp Hc]; [rewrite Eq; by left|].
  rewrite Forall_forall in Hst. destruct (Hst _ Hp Hc) as [Hf Hd].
  destruct (read_one A B s q Hi HhA HhB Hw Eq Hf Hd) as (B1 & W1 & Hi1 & K1 & E1 & T1 & A1 & L1).
  pose proof (settings_eq _ _ (kp_settings _ _ K1)) as (_ & _ & _ & _ & Ew & _).
  destruct (IH A B1) as (B2 & W2 & Hi2 & K2 & T2 & A2 & Q2); try done.
  - by rewrite E1.
  - by rewrite Ew.
  - by apply Forall_forall.
  - rewrite Eq in L1. lia.
  - exists B2. split; [by eapply rtc_l|]. split; [done|]. split; [by eapply keeps_trans|].
    split; [done|]. split; [congruence|done].
Qed.
End Drain.

(** *** From one exchange to all of them *)

Lemma sublist_missing {A} (l1 l2 : list A) x :
  l1 `sublist_of` l2 -> x ∈ l2 -> x ∉ l1 -> (length l1 < length l2)%nat.
Proof.
  induction 1 as [|y l1 l2 _ IH|y l1 l2 Hs IH]; intros Hin Hnot; simpl.
  - by apply elem_of_nil in Hin.
  - apply elem_of_cons in Hin as [->|Hin]; [destruct Hnot; by left|].
    assert (x ∉ l1) by (intros ?; apply Hnot; by right). specialize (IH Hin ltac:(done)). lia.
  - pose proof (sublist_length _ _ Hs). lia.
Qed.

Lemma sig_numbers (l : list segment) : map seg_sn l = (fun x => x.1.1) <$> map sig l.
Proof. change (_ <$> ?x) with (map (fun y : Z * item * Z => y.1.1) x). by rewrite map_map. Qed.

(** The timer of a segment is due when it says. *)
Lemma due_at s : due (u32 (seg_resendts s)) s.
Proof. right. word_lia. Qed.

Section Finish.
Context `{BufPool} (cv : Z) (Hcv : is_u32 cv).

Lemma reachable_rtc w w' : reachable cv w -> rtc wstep w w' -> reachable cv w'.
Proof. intros Hr Hs. induction Hs; [done|]. apply IHHs. by eapply reachable_step. Qed.

(** Retirement shortens what waits. *)
Lemma retired A A1 n :
  map sig (snd_buf (p_kcp A1)) `sublist_of` map sig (snd_buf (p_kcp A)) ->
  snd_queue (p_kcp A1) = snd_queue (p_kcp A) ->
  n ∈ map seg_sn (snd_buf (p_kcp A)) -> n ∉ map seg_sn (snd_buf (p_kcp A1)) ->
  waitSnd (p_kcp A1) < waitSnd (p_kcp A).
Proof.
  intros Hsub Eq Hin Hnot. rewrite !sig_numbers in Hin, Hnot.
  assert (length (map sig (snd_buf (p_kcp A1))) < length (map sig (snd_buf (p_kcp A))))%nat as Hl.
  { rewrite <- (length_fmap (fun x => x.1.1)), <- (length_fmap (fun x => x.1.1) (map sig (snd_buf (p_kcp A)))).
    eapply sublist_missing; [by apply fmap_sublist|done|done]. }
  rewrite !length_map in Hl. unfold waitSnd. rewrite Eq. lia.
Qed.

(** The two ends of a direction in which everything can be delivered. *)
Record open_way (A B : peer) : Prop := {
  ow_reach : reachable cv (A, B);
  ow_bound : len (items A) + rcv_wnd (p_kcp B) < half;
  ow_back : len (items B) < half;
  ow_rcv_wnd : 0 < rcv_wnd (p_kcp B) < 65536;
  ow_snd_wnd : 0 < snd_wnd (p_kcp A);
  ow_mtu : mtu (p_kcp A) <= 2048 /\ mtu (p_kcp B) <= 2048;
  ow_data : data_only (p_kcp A);
  ow_stream : Forall stream_item (items A);
  ow_tight : tight (p_kcp B);
  ow_window : snd_buf (p_kcp A) = [] -> snd_queue (p_kcp A) <> [] -> 0 < rmt_wnd (p_kcp A);
}.

Lemma ow_inv A B : open_way A B -> winv cv A B.
Proof.
  intros [Hr Hb Hb2 Hw _ _ _ _ _ _]. pose proof (items_length A). pose proof (items_length B).
  apply (reachable_winv cv (A, B)); try done; simpl; lia.
Qed.

(** What is missing at a reader that has read all is still in the send buffer. *)
Lemma missing_in_buffer A B :
  open_way A B -> rcv_queue (p_kcp B) = [] -> rcv_nxt (p_kcp B) < len (p_hist A) ->
  exists s, s ∈ snd_buf (p_kcp A) /\ seg_sn s = rcv_nxt (p_kcp B).
Proof.
  intros How Hq Hlt. pose proof (ow_inv A B How) as Hi. destruct How as [_ Hb _ Hw _ _ _ _ Ht _].
  rewrite items_length in Hb. pose proof (w_lr _ _ _ Hi) as [_ R1 _ _ C1]. pose proof (r_nxt _ _ _ R1) as Hn.
  destruct (C1 (rcv_nxt (p_kcp B))) as [?|[?|(s & Hs & Es)]]; [lia|done|lia|]. exfalso.
  pose proof (r_serial _ _ _ R1) as Hser.
  destruct (rcv_buf (p_kcp B)) as [|h l] eqn:Ebuf; [by apply elem_of_nil in Hs|].
  pose proof (Ht Hq h) as Hh. rewrite Ebuf in Hh. specialize (Hh eq_refl).
  assert (Hbnd : forall s, s ∈ h :: l -> rcv_nxt (p_kcp B) <= seg_sn s < half).
  { intros t Hin. rewrite <- Ebuf in Hin. destruct (r_buf _ _ _ R1 t Hin) as (Hin' & _ & Hle).
    pose proof (in_hist_bound _ _ Hin'). lia. }
  apply elem_of_cons in Hs as [->|Hs]; [congruence|].
  assert (StronglySorted below (h :: l)) as [_ Hall]%StronglySorted_inv.
  { apply (serial_plain (rcv_nxt (p_kcp B))); [done|unfold is_u32; lia|].
    intros t Hin. specialize (Hbnd t Hin). lia. }
  rewrite Forall_forall in Hall. specialize (Hall s Hs). unfold below in Hall.
  pose proof (Hbnd h ltac:(by left)). lia.
Qed.

(** A segment of the send buffer that the other end can take. *)
Lemma next_segment A B :
  open_way A B -> rcv_queue (p_kcp B) = [] -> snd_buf (p_kcp A) <> [] ->
  exists s, s ∈ snd_buf (p_kcp A) /\ seg_sn s < rcv_nxt (p_kcp B) + rcv_wnd (p_kcp B).
Proof.
  intros How Hq Hne. pose proof (ow_rcv_wnd _ _ How) as Hw.
  destruct (decide (rcv_nxt (p_kcp B) < len (p_hist A))) as [Hlt|Hge].
  - destruct (missing_in_buffer A B How Hq Hlt) as (s & Hs & Es). exists s. split; [done|lia].
  - destruct (snd_buf (p_kcp A)) as [|s l] eqn:Eb; [done|]. exists s. split; [by left|].
    destruct (s_buf _ _ _ (d_send _ _ (w_lr _ _ _ (ow_inv A B How))) s) as [Hin _]; [rewrite Eb; by left|].
    pose proof (in_hist_bound _ _ Hin). lia.
Qed.

Lemma keeps_wnd P P' : keeps P P' ->
  rcv_wnd (p_kcp P') = rcv_wnd (p_kcp P) /\ snd_wnd (p_kcp P') = snd_wnd (p_kcp P) /\
  mtu (p_kcp P') = mtu (p_kcp P) /\ len (items P') = len (items P).
Proof.
  intros [E _ Hs]. apply settings_eq in Hs as (_ & Hm & _ & Hsw & Hrw & _). by rewrite E.
Qed.

Lemma open_stream A : Forall stream_item (items A) -> Forall stream_item (p_hist A).
Proof. unfold items. by intros [? _]%Forall_app. Qed.

(** An exchange around the reader: the send buffer of [A] shortens. *)
Lemma exchange_step A B :
  open_way A B -> snd_buf (p_kcp A) <> [] ->
  exists A' B', rtc wstep (A, B) (A', B') /\ open_way A' B' /\ keeps A A' /\
    waitSnd (p_kcp A') < waitSnd (p_kcp A).
Proof.
  intros How Hne. pose proof (ow_inv A B How) as Hi.
  pose proof How as [Hre Hb Hb2 Hw Hsw [HmA HmB] Hd Hst Ht _].
  pose proof (items_length A) as LA. pose proof (items_length B) as LB.
  destruct (drain cv Hcv (length (rcv_queue (p_kcp B)) + length (rcv_buf (p_kcp B))) A B Hi) as (B1 & W1 & Hi1 & K1 & T1 & _ & Q1);
    [lia|lia|lia|by apply open_stream|done|reflexivity|].
  destruct (keeps_wnd _ _ K1) as (R1 & _ & M1 & I1). pose proof (items_length B1) as LB1.
  assert (reachable cv (A, B1)) as Hre1 by by eapply reachable_rtc.
  assert (open_way A B1) as How1 by (split; try done; rewrite ?R1, ?M1; try done; lia).
  destruct (next_segment A B1 How1 Q1 Hne) as (s & Hs & Hwin).
  assert (seg_cmd s = IKCP_CMD_PUSH) as Hc by (apply Hd, elem_of_app; by left).
  destruct (send_part cv Hcv A B1 s (u32 (seg_resendts s)) 0 Hi1) as
    (A2 & B2 & p & _ & _ & _ & Hi2 & W2 & (i & Hin & Ei) & Hin2 & Ew2 & KA2 & KB2 & _ & Hdo);
    try done; [apply u32_range|lia|lia|lia|apply due_at|].
  destruct (Hdo Hd) as [Hd2 Ht2]. specialize (Ht2 ltac:(lia) T1).
  destruct (keeps_wnd _ _ KB2) as (R2 & _ & M2 & I2). destruct (keeps_wnd _ _ KA2) as (_ & S2 & N2 & J2).
  pose proof (items_length A2) as LA2. pose proof (items_length B2) as LB2.
  destruct (drain cv Hcv (length (rcv_queue (p_kcp B2)) + length (rcv_buf (p_kcp B2))) A2 B2 Hi2) as (B3 & W3 & Hi3 & K3 & T3 & A3 & Q3);
    [lia|lia|lia|apply open_stream; by rewrite (kp_items _ _ KA2)|done|reflexivity|].
  destruct (keeps_wnd _ _ K3) as (R3 & _ & M3 & I3).
  destruct (reply_part cv Hcv A2 B3 i 0 0 Hi3) as
    (A4 & B4 & q & _ & _ & _ & Hi4 & W4 & Hout & Hsub & Eq4 & KA4 & KB4 & _ & Rs4 & Wn4);
    try done; [lia|lia|lia|by rewrite A3|].
  destruct (keeps_wnd _ _ KB4) as (R4 & _ & M4 & I4). destruct (keeps_wnd _ _ KA4) as (_ & S4 & N4 & J4).
  assert (keeps A A4) as KA by by eapply keeps_trans.
  assert (rtc wstep (A, B) (A4, B4)) as W by (do 3 (etrans; [done|]); done).
  exists A4, B4. split; [done|]. split; [|split; [done|]].
  - split; try done; rewrite ?R4, ?R3, ?R2, ?R1, ?S4, ?S2, ?J4, ?J2, ?N4, ?N2, ?M4, ?M3, ?M2, ?M1; try done; try lia.
    + by apply (reachable_rtc (A, B)).
    + apply (data_only_payload (p_kcp A2)); [|done]. intros x. rewrite !map_app, !elem_of_app, Eq4.
      intros [Hx|?]; [left|by right]. apply (elem_of_sublist _ _ _ Hx).
      assert (Hp : forall l, map payload l = (fun y : Z * item * Z => y.1.2) <$> map sig l)
        by (intros l; change (_ <$> ?x) with (map (fun y : Z * item * Z => y.1.2) x); by rewrite map_map).
      rewrite !Hp. by apply fmap_sublist.
    + by rewrite (kp_items _ _ KA).
    + by apply (tight_side (p_kcp B3)).
    + intros _ _. rewrite Wn4. unfold wnd_unused. rewrite Q3, R3, R2, R1. simpl.
      rewrite (proj2 (Z.ltb_lt _ _)) by lia. clear -Hw. word_lia.
  - rewrite <- Ew2. rewrite <- Ei in Hin2. by apply (retired A2 A4 (ack_sn i)).
Qed.

(** A flush numbers waiting segments as soon as the congestion window is open, which every
    flush sees to. *)
Lemma flush_step A B t :
  open_way A B -> is_u32 t ->
  exists A', wstep (A, B) (A', B) /\ open_way A' B /\ keeps A A' /\
    waitSnd (p_kcp A') = waitSnd (p_kcp A) /\ 1 <= cwnd (p_kcp A') /\
    (1 <= cwnd (p_kcp A) -> waitSnd (p_kcp A) <> 0 -> snd_buf (p_kcp A') <> []).
Proof.
  intros How Ht. pose proof (ow_inv A B How) as Hi. pose proof (w_wf_l _ _ _ Hi) as Hwf.
  destruct (wf_flush (p_kcp A) t Hwf) as (x & st & b & tr & gs & E & _).
  set (A' := after A (mkOutcome (flushed_kcp t (p_kcp A) x st b) tr [] [])).
  assert (does (OFlush t) A A') as Hd by (eexists; split; [cbn [perform]; by rewrite E|done]).
  destruct (flush_keeps t A x st b tr Hwf) as (K & _ & _ & Ew & Hdo). fold A' in K, Ew, Hdo.
  destruct (keeps_wnd _ _ K) as (_ & S1 & M1 & I1).
  destruct (flushed_snd_side t (p_kcp A) x st b) as (_ & _ & Eq & Eb).
  destruct (flushed_control t (p_kcp A) x st b) as (_ & _ & _ & _ & _ & _ & Er).
  assert (length (snd_buf (p_kcp A')) = length (snd_buf (p_kcp A)) + admitted_count (p_kcp A))%nat as Lb.
  { pose proof (f_equal length (kp_items _ _ K)) as L. unfold items in L.
    pose proof (f_equal length (flushed_payload t (p_kcp A) x st b)) as L2.
    rewrite !length_map, !length_app in L2. change (p_kcp A') with (flushed_kcp t (p_kcp A) x st b).
    rewrite Eq, length_drop in L2. unfold admitted_count in *. lia. }
  pose proof How as [Hre Hb Hb2 Hw Hsw Hm Hdt Hst Htt Hwin].
  pose proof (items_length A). pose proof (items_length A'). pose proof (items_length B).
  destruct (does_step cv A A' B (OFlush t)) as (W & _ & _); try done; [lia|lia|].
  exists A'. split; [done|]. split; [|split; [done|split; [done|split]]].
  - split; try done; rewrite ?S1, ?M1, ?I1; try done; auto.
    + by eapply reachable_step.
    + by rewrite (kp_items _ _ K).
    + intros E1 E2. change (rmt_wnd (p_kcp A')) with (rmt_wnd (flushed_kcp t (p_kcp A) x st b)).
      rewrite Er. apply Hwin.
      * destruct (snd_buf (p_kcp A)); [done|]. rewrite E1 in Lb. simpl in Lb. lia.
      * intros E0. apply E2. change (snd_queue (p_kcp A')) with (snd_queue (flushed_kcp t (p_kcp A) x st b)).
        by rewrite Eq, E0, drop_nil.
  - apply flushed_clock.
  - intros Hc Hwt E1. rewrite E1 in Lb. simpl in Lb.
    assert (snd_buf (p_kcp A) = []) as Eb0 by (destruct (snd_buf (p_kcp A)); [done|simpl in Lb; lia]).
    assert (snd_queue (p_kcp A) <> []) as Eq0
      by (intros E0; apply Hwt; unfold waitSnd; by rewrite Eb0, E0).
    specialize (Hwin Eb0 Eq0). destruct (reachable_tight cv (A, B) Hre) as [[_ Hu] _].
    unfold snd_tight in Hu. simpl in Hu. rewrite Eb0 in Hu.
    assert (1 <= calc_cwnd (p_kcp A)) as Hcw
      by (unfold calc_cwnd; rewrite !imin_min; destruct (nocwnd (p_kcp A) =? 0); lia).
    unfold admitted_count, window_room in Lb. rewrite Hu, dist_self in Lb.
    destruct (snd_queue (p_kcp A)); [done|]. simpl length in Lb. lia.
Qed.

(** The other end takes all that is sent. *)
Lemma finish n : forall A B, open_way A B -> waitSnd (p_kcp A) <= Z.of_nat n ->
  exists A' B', rtc wstep (A, B) (A', B') /\ open_way A' B' /\ keeps A A' /\ waitSnd (p_kcp A') = 0.
Proof.
  induction n as [|n IH]; intros A B How Hn.
  { exists A, B. split; [done|]. split; [done|]. split; [done|]. unfold waitSnd in *. lia. }
  destruct (decide (waitSnd (p_kcp A) = 0)) as [|Hz]; [by exists A, B|].
  assert (exists A1, rtc wstep (A, B) (A1, B) /\ open_way A1 B /\ keeps A A1 /\
    waitSnd (p_kcp A1) = waitSnd (p_kcp A) /\ snd_buf (p_kcp A1) <> []) as (A1 & W1 & O1 & K1 & N1 & B1).
  { assert (is_u32 0) as H0 by by split.
    destruct (flush_step A B 0 How H0) as (A1 & W1 & O1 & K1 & N1 & C1 & _).
    destruct (flush_step A1 B 0 O1 H0) as (A2 & W2 & O2 & K2 & N2 & _ & Hne).
    exists A2. split; [by eapply rtc_l, rtc_once|]. split; [done|]. split; [by eapply keeps_trans|].
    split; [congruence|]. apply Hne; [done|congruence]. }
  destruct (exchange_step A1 B O1 B1) as (A2 & B2 & W2 & O2 & K2 & N2).
  destruct (IH A2 B2 O2) as (A3 & B3 & W3 & O3 & K3 & N3); [lia|].
  exists A3, B3. split; [by do 2 (etrans; [done|])|]. split; [done|]. split; [|done].
  by do 2 (eapply keeps_trans; [done|]).
Qed.
End Finish.

(** ** Properties *)

Section Properties.
Context `{BufPool}.

(** C5. Progress: in every reachable state a data segment of the send buffer that is new or due
    and that the other end has room for is delivered and retired by one exchange, a flush, the
    arrival of one of its datagrams, a flush at the other end and the arrival of one of those,
    whatever the clocks show: the other end has it, and fewer segments wait to be sent. *)
Theorem exchange_retires cv A B s t1 t2 t3 t4 (Hcv : is_u32 cv) (Hr : reachable cv (A, B))
    (Ht1 : is_u32 t1) (Ht2 : is_u32 t2) (Ht3 : is_u32 t3) (Ht4 : is_u32 t4)
    (HA : len (items A) + rcv_wnd (p_kcp B) < half) (HB : len (items B) < half)
    (Hw : 0 <= rcv_wnd (p_kcp B)) (HmA : mtu (p_kcp A) <= 2048) (HmB : mtu (p_kcp B) <= 2048)
    (Hs : s ∈ snd_buf (p_kcp A)) (Hc : seg_cmd s = IKCP_CMD_PUSH) (Hd : due t1 s)
    (Hwin : seg_sn s < rcv_nxt (p_kcp B) + rcv_wnd (p_kcp B)) :
  exists A1 B1 A2 B2 p q,
    does (OFlush t1) A A1 /\ p ∈ p_soup A1 /\ does (OInput t2 p) B B1 /\
    does (OFlush t3) B1 B2 /\ q ∈ p_soup B2 /\ does (OInput t4 q) A1 A2 /\
    reachable cv (A2, B2) /\ has (p_kcp B2) (seg_sn s) /\
    (forall s', s' ∈ snd_buf (p_kcp A2) -> seg_sn s' <> seg_sn s) /\
    waitSnd (p_kcp A2) < waitSnd (p_kcp A).
Proof.
  pose proof (items_length A) as LA. pose proof (items_length B) as LB.
  assert (winv cv A B) as Hi by (apply (reachable_winv cv (A, B)); try done; simpl; lia).
  destruct (send_part cv Hcv A B s t1 t2 Hi) as
    (A1 & B1 & p & D1 & P1 & D2 & Hi1 & W1 & (i & Hin & Ei) & Hin1 & Ew & KA & KB & _); try done; [lia|].
  destruct (keeps_wnd _ _ KA) as (_ & _ & MA & IA). destruct (keeps_wnd _ _ KB) as (_ & _ & MB & IB).
  pose proof (items_length A1).
  destruct (reply_part cv Hcv A1 B1 i t3 t4 Hi1) as
    (A2 & B2 & q & D3 & P2 & D4 & Hi2 & W2 & Hout & Hsub & Eq & _ & _ & _ & Rs & _); try done; try lia.
  exists A1, B1, A2, B2, p, q. split_and!; try done.
  - apply (reachable_rtc cv (A1, B1)); [|done]. by apply (reachable_rtc cv (A, B)).
  - rewrite <- Ei. apply (has_side (p_kcp B1)); [done|].
    by apply (r_acks _ _ _ (d_recv _ _ (w_lr _ _ _ Hi1))).
  - intros s' Hs' E. apply Hout. rewrite Ei, <- E. by apply list_elem_of_fmap_2.
  - rewrite <- Ew. rewrite <- Ei in Hin1. by apply (retired A1 A2 (ack_sn i)).
Qed.

End Properties.

(** *** Witnesses *)

(** [A] has sent three bytes that have not arrived. *)
Lemma exchange_retires_witness :
  exists A2 B2, @reachable zero_pool 7 (A2, B2) /\ waitSnd (p_kcp A2) < waitSnd (p_kcp demo_A1).
Proof.
  destruct (snd_buf (p_kcp demo_A1)) as [|s l] eqn:Eb; [exfalso; revert Eb; vm_compute; discriminate|].
  assert (map (fun s => (seg_sn s, seg_cmd s, seg_resendts s)) (snd_buf (p_kcp demo_A1))
    = [(0, IKCP_CMD_PUSH, 210)]) as E by (vm_compute; reflexivity).
  rewrite Eb in E. simpl in E. injection E as E1 E2 E3 _.
  assert (forall t, 0 <= t < 4294967296 -> is_u32 t) as Hu by (intros t Ht; exact Ht).
  destruct (@exchange_retires zero_pool 7 demo_A1 (new_peer 7) s 210 220 230 240)
    as (A1 & B1 & A2 & B2 & p & q & _ & _ & _ & _ & _ & _ & Hr & _ & _ & Hw);
    [apply Hu; lia|exact demo_sent|apply Hu; lia|apply Hu; lia|apply Hu; lia|apply Hu; lia|
     vm_compute; reflexivity|vm_compute; reflexivity|vm_compute; discriminate|vm_compute; discriminate|
     vm_compute; discriminate|rewrite Eb; left|exact E2|right; rewrite E3; vm_compute; discriminate|
     rewrite E1; vm_compute; reflexivity|].
  exists A2, B2. split; [exact Hr|exact Hw].
Defined.

