(* ===== verification/Stall.v ===== *)
(** * Where an opening stalls

    The opening segment, CONNECT, is not delivered like data: a second copy of it is not
    acknowledged, and its arrival does not move the data that waits behind it. This file shows
    what follows when a datagram of the opening is lost, while [Progress.v] shows that nothing
    of the kind can happen to data. *)
From S2P Require Import Prelude GoInt Stats Wire Kcp Serial Send Recv Ack Input Flush Flushed Timer Session Protocol Progress.

(** ** Definitions *)

(** An end that has nothing to say: it sends no datagram until its user or the network makes
    it. *)
Record idle (k : KCP) : Prop := {
  id_buf : snd_buf k = [];
  id_queue : snd_queue k = [];
  id_nxt : snd_nxt k <> 0;
  id_acks : acklist k = [];
  id_probe : probe k = 0;
  id_wnd : rmt_wnd k <> 0;
  id_rcv : rcv_queue k = [];
  id_open : rcv_nxt k <> 0;
}.

(** The operations of an end whose user writes nothing and does not close: reading, the clock,
    the settings, and the opening, which it has behind it. *)
Definition passive (o : op) : Prop :=
  match o with OSend _ | OInput _ _ | OClose _ => False | _ => True end.

(** An end with the CONNECT alone in flight under a congestion window of one. *)
Record blocked (k : KCP) : Prop := {
  bl_buf : exists s, snd_buf k = [s] /\ seg_cmd s = IKCP_CMD_CONNECT /\ seg_fastack s = 0 /\
    seg_conv s = conv k;
  bl_room : dist (snd_una k) (snd_nxt k) = 1;
  bl_cwnd : cwnd k <= 1 /\ nocwnd k = 0 /\ 0 < flush_resent k;
  bl_acks : acklist k = [];
  bl_probe : probe k = 0;
  bl_wnd : rmt_wnd k <> 0;
  bl_rcv : rcv_queue k = [];
  bl_rcv_wnd : 0 < rcv_wnd k < 65536;
}.

(** What its user may do: write, read, close, and leave the settings of the windows alone. *)
Definition active (o : op) : Prop :=
  match o with
  | OSend _ | ORead | OUpdate _ | OFlush _ | OConnect _ | OClose _ | OStream _ => True
  | _ => False
  end.

(** A datagram of the opening: it repeats the CONNECT or acknowledges the other one. *)
Definition opening_segment (cv : Z) (s : segment) : Prop :=
  seg_conv s = cv /\ (seg_cmd s = IKCP_CMD_CONNECT \/ seg_cmd s = IKCP_CMD_ACK) /\
  u16 (seg_wnd s) <> 0.
Definition opening (cv : Z) (pkt : list byte) : Prop :=
  exists g, pkt = seg_stream g /\ g <> [] /\ Forall (opening_segment cv) g.

(** ** Lemmas *)

(** Without acknowledgements and probes a flush sends data segments alone. *)
Lemma no_control t k :
  acklist k = [] -> probe k = 0 -> rmt_wnd k <> 0 -> control_segments t k = [].
Proof.
  intros Ha Hp Hw. unfold control_segments. rewrite Ha. simpl. unfold flush_probe. simpl.
  rewrite (proj2 (Z.eqb_neq _ _) Hw). simpl. by rewrite Hp.
Qed.

Lemma sent_one p s : s ∈ sent_segments [p] -> s = p.1.
Proof.
  intros (p' & E & Hk)%list_elem_of_omap. apply list_elem_of_singleton in E as ->.
  destruct (needsend p.2); [by injection Hk as <-|discriminate].
Qed.

Section Idle.
Context `{BufPool}.

Lemma idle_flush k t k' tr :
  wf k -> idle k -> flush k t = Ok (k', tr) ->
  idle k' /\ packets_of tr = [] /\ conv k' = conv k.
Proof.
  intros Hw [I1 I2 I3 I4 I5 I6 I7 I8] E.
  destruct (wf_flush k t Hw) as (x & st & b & tr' & gs & E' & _ & Hp & Hg & Hf).
  rewrite E' in E. injection E as <- <-.
  assert (admitted_count k = 0%nat) as Hn by (unfold admitted_count; by rewrite I2).
  assert (flush_fates t k = []) as Hff.
  { unfold flush_fates. change (snd_buf (admitted t k)) with (snd_buf k ++
      admit_segments k (u32 (wnd_unused k)) t (snd_nxt k) (take (admitted_count k) (snd_queue k))).
    by rewrite I1, Hn. }
  destruct (flushed_snd_side t k x st b) as (_ & S2 & S3 & S4).
  destruct (rcv_side_eq _ _ (flushed_rcv_side t k x st b)) as (R1 & R2 & _).
  destruct (flushed_control t k x st b) as (C1 & C2 & _ & _ & _ & _ & C7).
  rewrite Hn, Z.add_0_r, u32_id in S2 by apply (snd_nxt_u32 _ (fr_inv _ (wf_ready _ Hw))).
  destruct (settings_eq _ _ (flushed_settings t k x st b)) as (T1 & _).
  split; [|split; [|exact T1]].
  - split; try congruence; [by rewrite S4, Hff|by rewrite S3, Hn, I2].
  - rewrite (no_control t k I4 I5 I6), Hff in Hg. simpl in Hg. rewrite Hp.
    destruct gs as [|g gs]; [done|]. apply Forall_cons in Hf as [[Hne _] _].
    by destruct g.
Qed.

(** Nothing the end does by itself sends anything, or lets its user read anything. *)
Lemma idle_op k o r :
  wf k -> idle k -> op_ok k o -> passive o -> perform o k = Ok r ->
  idle (o_kcp r) /\ packets_of (o_events r) = [] /\ o_read r = [] /\ o_written r = [] /\
  conv (o_kcp r) = conv k.
Proof.
  intros Hw Hi Ho Hpas E. pose proof Hi as [I1 I2 I3 I4 I5 I6 I7 I8].
  assert (Hfl : forall k0 t k' tr, wf k0 -> idle k0 -> conv k0 = conv k ->
    flush k0 t = Ok (k', tr) -> idle k' /\ packets_of tr = [] /\ conv k' = conv k).
  { intros k0 t k' tr Hw0 Hi0 <- Ef. by apply (idle_flush k0 t k' tr). }
  destruct o as [b| |t pkt|t|t|t|t|sw rw|nd itv re nc|m|e]; cbn [perform op_ok passive] in *; try done.
  - unfold read_round, recvSize in E. rewrite I7 in E. injection E as <-. done.
  - apply bind_Ok_inv in E as ([k' tr] & E1 & [= <-]). simpl.
    destruct (update_flush k t Hw Ho) as [(u & ts & Hu & Eu)|Eu]; rewrite Eu in E1.
    + destruct (Hfl (k<|updated := u|><|ts_flush := ts|>) t k' tr) as (J1 & J2 & J3); try done.
      by apply wf_clock.
    + by injection E1 as <- <-.
  - apply bind_Ok_inv in E as ([k' tr] & E1 & [= <-]). simpl.
    by destruct (Hfl k t k' tr) as (J1 & J2 & J3).
  - apply bind_Ok_inv in E as ([k' tr] & E1 & [= <-]). simpl.
    rewrite sendConnectFlush_eq, (proj2 (Z.eqb_neq (snd_nxt k) 0) I3), andb_false_r in E1.
    by injection E1 as <- <-.
  - injection E as <-. simpl. unfold setWndSize.
    destruct (sw >? 0), (rw >? 0); simpl; (split; [by split|done]).
  - apply Ok_inj in E as <-. cbn [o_kcp o_events o_read o_written].
    unfold setNoDelay.
    destruct (nd >=? 0), (itv >=? 0), (re >=? 0), (nc >=? 0); try destruct (nd =? 0);
      (split; [by split|done]).
  - apply bind_Ok_inv in E as ([k' c] & E1 & [= <-]). simpl. unfold setMtu in E1.
    destruct (_ || _); [by injection E1 as <- _|].
    apply bind_Ok_inv in E1 as (bf & _ & [= <- _]). split; [by split|done].
  - injection E as <-. simpl. split; [by split|done].
Qed.

(** A datagram of the opening changes nothing in it. *)
Lemma idle_segment k a h d k' r :
  idle k -> len d = h_len h -> len d <= 2048 -> h_wnd h <> 0 ->
  h_cmd h = IKCP_CMD_CONNECT \/ h_cmd h = IKCP_CMD_ACK ->
  input_segment k a h d = Ok (k', r) -> idle k'.
Proof.
  intros [I1 I2 I3 I4 I5 I6 I7 I8] Hl Hle Hw Hc. rewrite input_segment_eq by done. cbv zeta.
  assert (forall k, snd_buf k = [] -> shrink_buf k = k<|snd_una := snd_nxt k|>) as Hsh
    by (intros k0 E; unfold shrink_buf; by rewrite E).
  assert (input_ack_part k h = k<|rmt_wnd := h_wnd h|><|snd_una := snd_nxt k|>) as ->.
  { unfold input_ack_part, parse_una. simpl. rewrite I1. simpl. rewrite Hsh by done. simpl.
    clear -I1. destruct k. simpl in *. by subst. }
  set (k0 := k<|rmt_wnd := h_wnd h|><|snd_una := snd_nxt k|>).
  assert (idle k0) as H0 by by split.
  destruct Hc as [-> | ->]; cbn [Z.eqb].
  - change (IKCP_CMD_CONNECT =? IKCP_CMD_CONNECT) with true. cbv iota.
    rewrite (proj2 (Z.eqb_neq (rcv_nxt k0) 0)) by exact I8. by intros [= <- _].
  - change (IKCP_CMD_ACK =? IKCP_CMD_CONNECT) with false. change (IKCP_CMD_ACK =? IKCP_CMD_ACK) with true.
    cbv iota. intros [= <- _]. unfold parse_ack. destruct (_ || _); [by rewrite Hsh|].
    change (snd_buf k0) with (snd_buf k). rewrite I1. simpl. by rewrite Hsh.
Qed.

Lemma idle_segments cv g : forall k a k' r,
  Forall (opening_segment cv) g -> len (seg_stream g) <= 2048 -> idle k ->
  input_segments k a g = Ok (k', r) -> idle k'.
Proof.
  induction g as [|s g IH]; intros k a k' r Hg Hl Hi; cbn [input_segments]; [by intros [= <- _]|].
  apply Forall_cons in Hg as [(_ & Hc & Hwn) Hg]. rewrite seg_stream_cons, length_app, wire_length in Hl.
  intros E. apply bind_Ok_inv in E as ([k2 r2] & E2 & E).
  assert (idle k2) as Hi2.
  { eapply (idle_segment k a (header_of s)); [done|apply header_len; lia|lia|done| |exact E2].
    simpl. destruct Hc as [-> | ->]; [by left|by right]. }
  destruct r2 as [a2|c]; [|by injection E as <- _]. eapply (IH k2 a2); [done|lia|done|exact E].
Qed.

Lemma idle_input k t pkt k' code :
  wf k -> is_u32 (conv k) -> idle k -> opening (conv k) pkt -> len pkt <= 2048 ->
  input k t pkt true = Ok (k', code) -> idle k'.
Proof.
  intros Hw Hcv Hi (g & -> & Hne & Hg) Hl E.
  destruct (input_stream k t g k' code) as (k1 & r & E1 & Hsame); try done.
  - apply Hw.
  - eapply Forall_impl; [exact Hg|]. intros s (Hc & [Hs|Hs] & _); (split; [rewrite Hc; by apply u32_id|by rewrite Hs]).
  - destruct (idle_segments (conv k) g k _ k1 r Hg Hl Hi E1) as [I1 I2 I3 I4 I5 I6 I7 I8].
    destruct Hsame as [Sn Sq _ Sr Sa Sw Sp Sb]. apply rcv_side_eq in Sr as (R1 & R2 & _).
    split; try congruence. rewrite I1 in Sb. by destruct (snd_buf k').
Qed.

(** A segment without duplicate acknowledgements is sent for the first time, after a timeout,
    or not at all. *)
Lemma flush_segment_plain k t resent pend s :
  seg_fastack s = 0 -> 0 < resent ->
  let p := flush_segment k t resent pend s in
  seg_fastack p.1 = 0 /\ (p.2 = SFirst \/ p.2 = SLost \/ p.2 = SNone).
Proof.
  intros Hf Hr. unfold flush_segment. rewrite Hf.
  destruct (seg_xmit s =? 0); [simpl; auto|]. destruct (_ >=? 0); [destruct (_ =? 0); simpl; auto|].
  destruct (Z.geb_spec 0 resent); [lia|]. simpl. auto.
Qed.

Lemma flush_cwnd_small cw resent kind k :
  cwnd k <= 1 -> kind = SFirst \/ kind = SLost \/ kind = SNone ->
  cwnd (flush_cwnd cw resent (count_sending kind (mkCounts 0 false 0 0 0)) k) <= 1.
Proof.
  intros Hc Hk. unfold flush_cwnd.
  assert (change (count_sending kind (mkCounts 0 false 0 0 0)) = 0) as ->
    by (destruct Hk as [-> | [-> | ->]]; done).
  destruct (lost _); simpl; [done|]. by destruct (Z.ltb_spec (cwnd k) 1).
Qed.

Lemma blocked_flush k t k' tr :
  wf k -> blocked k -> flush k t = Ok (k', tr) ->
  blocked k' /\ conv k' = conv k /\ Forall (opening (conv k)) (packets_of tr) /\
  snd_nxt k' = snd_nxt k.
Proof.
  intros Hw [(s & Eb & Es & Ef & Ec) Br (Bc & Bn & Bf) Ba Bp Bw Bq Bv] E.
  destruct (wf_flush k t Hw) as (x & st & b & tr' & gs & E' & _ & Hp & Hg & Hf).
  rewrite E' in E. injection E as <- <-.
  assert (admitted_count k = 0%nat) as Hn.
  { unfold admitted_count, window_room. rewrite Br. unfold calc_cwnd. rewrite Bn. simpl.
    rewrite imin_min. lia. }
  set (f := flushed (admitted t k) t (flush_resent k) (u32 (wnd_unused k)) (0 <? admitted_count k)%nat) in *.
  assert (flush_fates t k = [f s]) as Hff.
  { unfold flush_fates. change (snd_buf (admitted t k)) with (snd_buf k ++
      admit_segments k (u32 (wnd_unused k)) t (snd_nxt k) (take (admitted_count k) (snd_queue k))).
    rewrite Eb. replace (take (admitted_count k) (snd_queue k)) with (@nil segment) by (by rewrite Hn).
    reflexivity. }
  destruct (flushed_data (admitted t k) t (flush_resent k) (u32 (wnd_unused k)) (0 <? admitted_count k)%nat s)
    as (_ & _ & Fc & _ & Fv). fold f in Fc, Fv.
  destruct (flush_segment_plain (admitted t k) t (flush_resent k) (0 <? admitted_count k)%nat s Ef Bf) as [Pf Pk].
  assert (seg_fastack (f s).1 = 0 /\ (f s).2 = (flush_segment (admitted t k) t (flush_resent k)
    (0 <? admitted_count k)%nat s).2) as [Ff Fk] by (subst f; unfold flushed; by destruct (needsend _)).
  rewrite <- Fk in Pk. clear Pf Fk. clearbody f.
  destruct (flushed_snd_side t k x st b) as (S1 & S2 & S3 & S4).
  destruct (rcv_side_eq _ _ (flushed_rcv_side t k x st b)) as (_ & R2 & _).
  destruct (flushed_control t k x st b) as (C1 & C2 & _ & _ & _ & _ & C7).
  destruct (settings_eq _ _ (flushed_settings t k x st b)) as (T1 & _ & _ & _ & T5 & _ & _ & _ & T9 & T10 & _).
  rewrite Hn, Z.add_0_r, u32_id in S2 by apply (snd_nxt_u32 _ (fr_inv _ (wf_ready _ Hw))).
  split; [|split; [exact T1|split; [|done]]].
  - split; try congruence.
    + exists (f s).1. rewrite S4, Hff. split_and!; try done; congruence.
    + split; [|split; [congruence|unfold flush_resent in *; by rewrite T9]].
      unfold flushed_kcp, flush_counts. rewrite Hff. simpl. apply flush_cwnd_small; [|exact Pk].
      change (cwnd (flushed_base t k x st b)) with (cwnd (controlled t k)).
      by rewrite (proj1 (proj2 (proj2 (controlled_windows t k)))).
  - rewrite (no_control t k Ba Bp Bw), Hff in Hg. rewrite Hp. apply Forall_map, Forall_forall.
    intros g Hin. rewrite Forall_forall in Hf. destruct (Hf g Hin) as [Hne _]. exists g. split; [done|].
    split; [done|]. apply Forall_forall. intros s' Hs'. pose proof (elem_of_concat gs g s' Hin Hs') as Hc.
    rewrite Hg in Hc. pose proof (flush_wnd k t s') as Hwd. rewrite (no_control t k Ba Bp Bw), Hff in Hwd.
    specialize (Hwd Hc). apply sent_one in Hc as ->. split; [congruence|]. split; [left; congruence|].
    rewrite Hwd. unfold wnd_unused. rewrite Bq. simpl. rewrite (proj2 (Z.ltb_lt _ _)) by lia.
    clear -Bv. word_lia.
Qed.

(** Whatever its user does, the CONNECT stays alone in flight. *)
Lemma blocked_op k o r :
  wf k -> blocked k -> op_ok k o -> active o -> perform o k = Ok r ->
  blocked (o_kcp r) /\ conv (o_kcp r) = conv k /\
  Forall (opening (conv k)) (packets_of (o_events r)) /\ numbered_now k (o_kcp r) = [] /\
  o_read r = [].
Proof.
  intros Hw Hb Ho Hact E. pose proof Hb as [(s & Eb & _) _ _ _ _ _ Bq _].
  assert (Hfl : forall k0 t k' tr, wf k0 -> blocked k0 -> snd_nxt k0 = snd_nxt k -> conv k0 = conv k ->
    flush k0 t = Ok (k', tr) ->
    blocked k' /\ conv k' = conv k /\ Forall (opening (conv k)) (packets_of tr) /\ numbered_now k k' = []).
  { intros k0 t k' tr Hw0 Hb0 Hn Hc Ef.
    destruct (blocked_flush k0 t k' tr Hw0 Hb0 Ef) as (J1 & J2 & J3 & J4). rewrite Hc in J2, J3.
    split; [done|]. split; [done|]. split; [done|]. apply numbered_now_same. congruence. }
  destruct o as [b| |t pkt|t|t|t|t|sw rw|nd itv re nc|m|e]; cbn [perform op_ok active] in *; try done.
  - destruct (wf_send k b Hw Ho) as (k1 & c & E' & _ & Hk & _). rewrite E' in E. injection E as <-.
    cbn [o_kcp o_events o_read]. rewrite Hk, numbered_now_same by done. clear -Hb. by destruct Hb.
  - unfold read_round, recvSize in E. rewrite Bq in E. injection E as <-. simpl.
    rewrite numbered_now_same by done. by split_and!.
  - apply bind_Ok_inv in E as ([k' tr] & E1 & [= <-]). simpl.
    destruct (update_flush k t Hw Ho) as [(u & ts & Hu & Eu)|Eu]; rewrite Eu in E1.
    + destruct (Hfl (k<|updated := u|><|ts_flush := ts|>) t k' tr) as (J1 & J2 & J3 & J4); try done;
        [by apply wf_clock|by destruct Hb].
    + injection E1 as <- <-. rewrite numbered_now_same by done. by split_and!.
  - apply bind_Ok_inv in E as ([k' tr] & E1 & [= <-]). simpl.
    destruct (Hfl k t k' tr) as (J1 & J2 & J3 & J4); try done.
  - apply bind_Ok_inv in E as ([k' tr] & E1 & [= <-]). simpl.
    rewrite sendConnectFlush_eq in E1. unfold waitSnd in E1. rewrite Eb in E1.
    rewrite (proj2 (Z.eqb_neq _ 0)) in E1 by (simpl; lia). injection E1 as <- <-.
    rewrite numbered_now_same by done. by split_and!.
  - apply bind_Ok_inv in E as ([k' tr] & E1 & [= <-]). simpl.
    destruct (isStateConnected k && negb (isStateLocalClosed k)) eqn:Hc.
    + rewrite sendCloseFlush_eq in E1 by done.
      destruct (Hfl (closing k) t k' tr) as (J1 & J2 & J3 & J4); try done;
        [by apply wf_closing|clear -Hb; by destruct Hb].
    + unfold sendCloseFlush in E1. rewrite Hc in E1. injection E1 as <- <-.
      rewrite numbered_now_same by done. by split_and!.
  - injection E as <-. simpl. rewrite numbered_now_same by done.
    split; [clear -Hb; by destruct Hb|by split_and!].
Qed.
End Idle.

(** ** After a lost acknowledgement *)

Section Silence.
Context `{BufPool} (gone : list (list byte)).

(** What both ends may do when the datagrams [gone] are lost: the left end is [passive], the
    right one [active], and everything else that was sent may arrive. *)
Inductive goes_on : peer * peer -> peer * peer -> Prop :=
  | goes_left A B o r :
      op_ok (p_kcp A) o -> passive o \/ (exists t pkt, o = OInput t pkt /\ pkt ∈ p_soup B) ->
      perform o (p_kcp A) = Ok r -> goes_on (A, B) (after A r, B)
  | goes_right A B o r :
      op_ok (p_kcp B) o ->
      active o \/ (exists t pkt, o = OInput t pkt /\ pkt ∈ p_soup A /\ pkt ∉ gone) ->
      perform o (p_kcp B) = Ok r -> goes_on (A, B) (A, after B r).

Record stalled (cv : Z) (A B : peer) : Prop := {
  st_wf_l : wf (p_kcp A);
  st_wf_r : wf (p_kcp B);
  st_conv_l : conv (p_kcp A) = cv;
  st_conv_r : conv (p_kcp B) = cv;
  st_idle : idle (p_kcp A);
  st_blocked : blocked (p_kcp B);
  st_gone : Forall (fun pkt => pkt ∈ gone) (p_soup A);
  st_soup : Forall (opening cv) (p_soup B);
}.

Lemma input_conv k t pkt k' c :
  wf k -> len pkt <= 2048 -> input k t pkt true = Ok (k', c) -> conv k' = conv k.
Proof.
  intros Hw Hl E. destruct (input_ok k t pkt true) as (k1 & c1 & E1 & Hs & _); [apply Hw|pose proof (wf_mss_range k Hw); rewrite u32_id by (unfold is_u32; lia); lia|done|].
  rewrite E in E1. injection E1 as <- _. by apply settings_eq in Hs as (? & _).
Qed.

Lemma stalled_step cv A B A' B' :
  is_u32 cv -> stalled cv A B -> goes_on (A, B) (A', B') ->
  stalled cv A' B' /\ p_soup A' = p_soup A /\ p_hist B' = p_hist B /\ p_read A' = p_read A.
Proof.
  intros Hcv Hst E. pose proof Hst as [W1 W2 C1 C2 I1 B1 G1 S1].
  assert (Hwf : forall o k r, wf k -> op_ok k o -> perform o k = Ok r -> wf (o_kcp r)).
  { intros o k r Hw Ho Ep. destruct (perform_wf o k Hw Ho) as (r' & E' & Hr).
    rewrite Ep in E'. by injection E' as <-. }
  inversion E as [A0 B0 o r Ho Hc Ep|A0 B0 o r Ho Hc Ep]; subst.
  - assert (idle (o_kcp r) /\ conv (o_kcp r) = conv (p_kcp A) /\ packets_of (o_events r) = [] /\ o_read r = [])
      as (J1 & J2 & J3 & J4).
    { destruct Hc as [Hp|(t & pkt & -> & Hin)].
      - destruct (idle_op (p_kcp A) o r W1 I1 Ho Hp Ep) as (J1 & J2 & J3 & _ & J4).
        by split_and!.
      - cbn [perform op_ok] in *. destruct Ho as [_ Hl].
        apply bind_Ok_inv in Ep as ([k' c] & E1 & [= <-]). simpl. split_and!; try done.
        + apply (idle_input (p_kcp A) t pkt k' c W1); try done.
          rewrite Forall_forall in S1. by apply S1.
        + by apply (input_conv _ t pkt k' c). }
    simpl. rewrite J3, J4, !app_nil_r. split; [|done]. split; simpl; try done.
    + by apply (Hwf o (p_kcp A)).
    + by rewrite J3, app_nil_r.
  - destruct Hc as [Hp|(t & pkt & -> & Hin & Hno)].
    + destruct (blocked_op (p_kcp B) o r W2 B1 Ho Hp Ep) as (J1 & J2 & J3 & J4 & _).
      simpl. rewrite J4, app_nil_r. split; [|done]. split; simpl; try done.
      * by apply (Hwf o (p_kcp B)).
      * by rewrite J2.
      * rewrite C2 in J3. apply Forall_app. by split.
    + exfalso. rewrite Forall_forall in G1. by apply Hno, G1.
Qed.
End Silence.

(** ** Two idle ends *)

Section Rest.
Context `{BufPool} (gone_l gone_r : list (list byte)).

(** Neither user writes or closes any more, and the datagrams sent so far do not come again;
    what is sent from now on may arrive. *)
Inductive rests : peer * peer -> peer * peer -> Prop :=
  | rests_left A B o r :
      op_ok (p_kcp A) o ->
      passive o \/ (exists t pkt, o = OInput t pkt /\ pkt ∈ p_soup B /\ pkt ∉ gone_r) ->
      perform o (p_kcp A) = Ok r -> rests (A, B) (after A r, B)
  | rests_right A B o r :
      op_ok (p_kcp B) o ->
      passive o \/ (exists t pkt, o = OInput t pkt /\ pkt ∈ p_soup A /\ pkt ∉ gone_l) ->
      perform o (p_kcp B) = Ok r -> rests (A, B) (A, after B r).

Record resting (gone : list (list byte)) (P : peer) : Prop := {
  rs_wf : wf (p_kcp P);
  rs_idle : idle (p_kcp P);
  rs_gone : Forall (fun pkt => pkt ∈ gone) (p_soup P);
}.

Lemma resting_step gone gone' P Q o r :
  resting gone P -> resting gone' Q -> op_ok (p_kcp P) o ->
  passive o \/ (exists t pkt, o = OInput t pkt /\ pkt ∈ p_soup Q /\ pkt ∉ gone') ->
  perform o (p_kcp P) = Ok r -> resting gone (after P r) /\ p_read (after P r) = p_read P.
Proof.
  intros [Hw Hi Hg] [_ _ Hg'] Ho Hc E. destruct Hc as [Hp|(t & pkt & _ & Hin & Hno)].
  - destruct (idle_op (p_kcp P) o r Hw Hi Ho Hp E) as (J1 & J2 & J3 & _).
    simpl. rewrite J3, app_nil_r. split; [|done]. split; simpl; [|done|by rewrite J2, app_nil_r].
    destruct (perform_wf o _ Hw Ho) as (r' & E' & Hr). rewrite E in E'. by injection E' as <-.
  - exfalso. rewrite Forall_forall in Hg'. by apply Hno, Hg'.
Qed.

Lemma rests_read w w' :
  rtc rests w w' -> resting gone_l w.1 -> resting gone_r w.2 ->
  p_read w'.1 = p_read w.1 /\ p_read w'.2 = p_read w.2.
Proof.
  induction 1 as [|w w1 w' Hs _ IH]; [done|]. intros Hl Hr.
  destruct Hs as [A B o r Ho Hc E|A B o r Ho Hc E]; simpl in *.
  - destruct (resting_step gone_l gone_r A B o r Hl Hr Ho Hc E) as [H1 E1].
    destruct (IH H1 Hr) as [-> ->]. simpl in E1. by rewrite E1.
  - destruct (resting_step gone_r gone_l B A o r Hr Hl Ho Hc E) as [H1 E1].
    destruct (IH Hl H1) as [-> ->]. simpl in E1. by rewrite E1.
Qed.

Lemma rests_right_read A B A' B' :
  rtc rests (A, B) (A', B') -> resting gone_l A -> resting gone_r B -> p_read B' = p_read B.
Proof. intros Hr HA HB. by destruct (rests_read _ _ Hr HA HB). Qed.
End Rest.

(** *** A run that gets there: the opening of both ends, with the acknowledgement of the right
    one's CONNECT lost *)

Definition stall_A1 : peer := foldl run1 (new_peer 7) [OConnect 0; OFlush 10].
Definition stall_d0 : list byte := default [] (head (p_soup stall_A1)).
Definition stall_B : peer := foldl run1 (new_peer 7) [OInput 12 stall_d0; OConnect 20; OFlush 30].
Definition stall_d1 : list byte := default [] (p_soup stall_B !! 0%nat).
Definition stall_d2 : list byte := default [] (p_soup stall_B !! 1%nat).
Definition stall_A : peer := foldl run1 stall_A1 [OInput 40 stall_d1; OInput 41 stall_d2; OFlush 50].

(** What follows: the right user writes, its CONNECT is sent again and arrives. *)
Definition stall_B1 : peer := run1 (run1 stall_B (OSend [Byte.x41])) (OFlush 300).
Definition stall_d3 : list byte := default [] (p_soup stall_B1 !! 2%nat).
Definition stall_A2 : peer := run1 (run1 stall_A (OInput 310 stall_d3)) (OFlush 320).

Lemma stall_reachable : @reachable zero_pool 7 (stall_A, stall_B).
Proof.
  assert (H0 : forall t, 0 <= t < 4294967296 -> is_u32 t) by done.
  assert (H1 : @reachable zero_pool 7 (stall_A1, stall_B)).
  { unfold stall_B. cbn [foldl].
    apply run_right; [|apply H0; lia|discriminate|vm_compute; reflexivity].
    apply run_right; [|apply H0; lia|discriminate|vm_compute; reflexivity].
    destruct (arrive_ok (p_kcp (new_peer 7)) (p_soup stall_A1) 12 stall_d0 0) as [Ho Hin];
      [apply H0; lia|vm_compute; discriminate|vm_compute; reflexivity|].
    apply run_right; [|exact Ho|exact Hin|vm_compute; reflexivity].
    unfold stall_A1. cbn [foldl].
    apply run_left; [|apply H0; lia|discriminate|vm_compute; reflexivity].
    apply run_left; [|apply H0; lia|discriminate|vm_compute; reflexivity].
    apply reachable_new. }
  unfold stall_A. cbn [foldl].
  apply run_left; [|apply H0; lia|discriminate|vm_compute; reflexivity].
  destruct (arrive_ok (p_kcp (run1 stall_A1 (OInput 40 stall_d1))) (p_soup stall_B) 41 stall_d2 1) as [Ho Hin];
    [apply H0; lia|vm_compute; discriminate|vm_compute; reflexivity|].
  apply run_left; [|exact Ho|exact Hin|vm_compute; reflexivity]. clear Ho Hin.
  destruct (arrive_ok (p_kcp stall_A1) (p_soup stall_B) 40 stall_d1 0) as [Ho Hin];
    [apply H0; lia|vm_compute; discriminate|vm_compute; reflexivity|].
  apply run_left; [|exact Ho|exact Hin|vm_compute; reflexivity]. exact H1.
Qed.

Lemma goes_run_left gone A B o w :
  op_ok (p_kcp A) o -> passive o \/ (exists t pkt, o = OInput t pkt /\ pkt ∈ p_soup B) ->
  runs (@perform zero_pool o (p_kcp A)) = true ->
  rtc (@goes_on zero_pool gone) (run1 A o, B) w -> rtc (@goes_on zero_pool gone) (A, B) w.
Proof.
  intros Ho Hc Hr. apply rtc_l. unfold run1. destruct (@perform zero_pool o (p_kcp A)) eqn:E; try discriminate.
  by eapply goes_left.
Qed.

Lemma goes_run_right gone A B o w :
  op_ok (p_kcp B) o -> active o -> runs (@perform zero_pool o (p_kcp B)) = true ->
  rtc (@goes_on zero_pool gone) (A, run1 B o) w -> rtc (@goes_on zero_pool gone) (A, B) w.
Proof.
  intros Ho Hc Hr. apply rtc_l. unfold run1. destruct (@perform zero_pool o (p_kcp B)) eqn:E; try discriminate.
  eapply goes_right; [done|by left|done].
Qed.

(** A datagram of one segment. *)
Definition opening_of (cmd ts una : Z) : segment :=
  segment0<|seg_conv := 7|><|seg_cmd := cmd|><|seg_wnd := 128|><|seg_ts := ts|><|seg_una := una|>.

Lemma reachable_wf `{BufPool} cv A B : reachable cv (A, B) -> wf (p_kcp A) /\ wf (p_kcp B).
Proof. intros Hr. by destruct (reachable_tight cv (A, B) Hr) as [[WA _] [WB _]]. Qed.

Lemma stall_stalled : @stalled (p_soup stall_A) 7 stall_A stall_B.
Proof.
  destruct (@reachable_wf zero_pool 7 stall_A stall_B stall_reachable) as [WA WB].
  split; [exact WA|exact WB|vm_compute; reflexivity|vm_compute; reflexivity| | |by apply Forall_forall|].
  - split; vm_compute; (reflexivity || discriminate).
  - split; try (vm_compute; reflexivity).
    + destruct (snd_buf (p_kcp stall_B)) as [|s [|s' l]] eqn:Eb;
        try (exfalso; revert Eb; vm_compute; discriminate).
      assert (map (fun s => (seg_cmd s, seg_fastack s, seg_conv s)) (snd_buf (p_kcp stall_B))
        = [(IKCP_CMD_CONNECT, 0, 7)]) as E by (vm_compute; reflexivity).
      assert (conv (p_kcp stall_B) = 7) as Ec by (vm_compute; reflexivity).
      rewrite Eb in E. injection E as E1 E2 E3. exists s. rewrite Ec.
      split; [reflexivity|]. split; [exact E1|]. split; [exact E2|exact E3].
    + split; [vm_compute; discriminate|]. split; vm_compute; reflexivity.
    + vm_compute. discriminate.
    + split; vm_compute; reflexivity.
  - assert (p_soup stall_B = [seg_stream [opening_of IKCP_CMD_ACK 10 1];
                              seg_stream [opening_of IKCP_CMD_CONNECT 30 1]]) as ->
      by (vm_compute; reflexivity).
    constructor; [|constructor; [|constructor]]; (eexists; split; [reflexivity|]; split; [discriminate|]);
      (constructor; [|constructor]); (split; [reflexivity|]; split; [|vm_compute; discriminate]);
      [by right|by left].
Qed.

(** *** A run in which data overtakes the CONNECT: the left end has no congestion window and
    writes at once; its data arrives and is acknowledged before its CONNECT arrives *)

Definition sent (P : peer) (i : nat) : list byte := default [] (p_soup P !! i).

Definition over_B1 : peer := run1 (run1 (new_peer 7) (OConnect 0)) (OFlush 10).
Definition over_A1 : peer :=
  run1 (run1 (run1 (run1 (run1 (new_peer 7) (ONoDelay (-1) (-1) (-1) 1))
    (OInput 12 (sent over_B1 0))) (OConnect 20)) (OSend [Byte.x41])) (OFlush 30).
Definition over_B2 : peer := run1 (run1 over_B1 (OInput 35 (sent over_A1 1))) (OFlush 40).
Definition over_B : peer := run1 (run1 over_B2 (OInput 50 (sent over_A1 0))) (OFlush 60).
Definition over_A : peer :=
  run1 (run1 over_A1 (OInput 65 (sent over_B 1))) (OInput 70 (sent over_B 2)).

(** The [i]-th datagram of the other end arrives. *)
Lemma arrive_left A B t i :
  @reachable zero_pool 7 (A, B) -> 0 <= t < 4294967296 ->
  (match p_soup B !! i with Some p => len p <=? 2048 | None => false end) = true ->
  runs (@perform zero_pool (OInput t (sent B i)) (p_kcp A)) = true ->
  @reachable zero_pool 7 (run1 A (OInput t (sent B i)), B).
Proof.
  intros Hr Ht Hl He. destruct (p_soup B !! i) as [p|] eqn:Ei; [|discriminate].
  assert (sent B i = p) as Es by (unfold sent; by rewrite Ei). rewrite Es in *.
  destruct (arrive_ok (p_kcp A) (p_soup B) t p i) as [Ho Hin]; try done; [by apply Z.leb_le|].
  by apply run_left.
Qed.

Lemma arrive_right A B t i :
  @reachable zero_pool 7 (A, B) -> 0 <= t < 4294967296 ->
  (match p_soup A !! i with Some p => len p <=? 2048 | None => false end) = true ->
  runs (@perform zero_pool (OInput t (sent A i)) (p_kcp B)) = true ->
  @reachable zero_pool 7 (A, run1 B (OInput t (sent A i))).
Proof.
  intros Hr Ht Hl He. destruct (p_soup A !! i) as [p|] eqn:Ei; [|discriminate].
  assert (sent A i = p) as Es by (unfold sent; by rewrite Ei). rewrite Es in *.
  destruct (arrive_ok (p_kcp B) (p_soup A) t p i) as [Ho Hin]; try done; [by apply Z.leb_le|].
  by apply run_right.
Qed.

Lemma over_reachable : @reachable zero_pool 7 (over_A, over_B).
Proof.
  assert (H0 : forall t, 0 <= t < 4294967296 -> is_u32 t) by done.
  unfold over_A.
  apply arrive_left; [apply arrive_left; [|lia|vm_compute; reflexivity|vm_compute; reflexivity]
                     |lia|vm_compute; reflexivity|vm_compute; reflexivity].
  unfold over_B. apply run_right; [|apply H0; lia|discriminate|vm_compute; reflexivity].
  apply arrive_right; [|lia|vm_compute; reflexivity|vm_compute; reflexivity].
  unfold over_B2. apply run_right; [|apply H0; lia|discriminate|vm_compute; reflexivity].
  apply arrive_right; [|lia|vm_compute; reflexivity|vm_compute; reflexivity].
  unfold over_A1. apply run_left; [|apply H0; lia|discriminate|vm_compute; reflexivity].
  apply run_left; [|vm_compute; reflexivity|discriminate|vm_compute; reflexivity].
  apply run_left; [|apply H0; lia|discriminate|vm_compute; reflexivity].
  apply arrive_left; [|lia|vm_compute; reflexivity|vm_compute; reflexivity].
  apply run_left; [|exact I|discriminate|vm_compute; reflexivity].
  unfold over_B1. apply run_right; [|apply H0; lia|discriminate|vm_compute; reflexivity].
  apply run_right; [|apply H0; lia|discriminate|vm_compute; reflexivity].
  apply reachable_new.
Qed.

Lemma over_resting :
  resting (p_soup over_A) over_A /\ resting (p_soup over_B) over_B.
Proof.
  destruct (@reachable_wf zero_pool 7 over_A over_B over_reachable) as [WA WB].
  split; (split; [assumption| |by apply Forall_forall]); split; vm_compute; (reflexivity || discriminate).
Qed.

(** ** Properties *)

Section Properties.
Context `{BufPool}.

(** C7. A lost acknowledgement of the opening stops the sender for ever. The right end has its
    CONNECT alone in flight with a congestion window of one, the left end has taken the CONNECT
    and has nothing to say, and the datagrams it has sent are lost. Then, although every datagram
    sent from now on may arrive, and whatever the right user writes, the left end sends no
    datagram any more, the right end numbers no segment, and the left user reads nothing: the
    repeated CONNECT is not acknowledged a second time. *)
Theorem lost_ack_stalls cv A B A' B' (Hcv : is_u32 cv) (Hs : stalled (p_soup A) cv A B)
    (Hr : rtc (goes_on (p_soup A)) (A, B) (A', B')) :
  p_soup A' = p_soup A /\ p_hist B' = p_hist B /\ p_read A' = p_read A /\
  0 < waitSnd (p_kcp B').
Proof.
  remember (A, B) as w eqn:Ew. remember (A', B') as w' eqn:Ew'. set (gone := p_soup A) in *.
  assert (p_soup A = gone) as E0 by done. clearbody gone.
  enough (stalled gone cv A' B' /\ p_soup A' = gone /\ p_hist B' = p_hist B /\ p_read A' = p_read A)
    as ([_ _ _ _ _ Hb _ _] & ? & ? & ?).
  { split_and!; try done. destruct Hb as [(s & Eb & _)]. unfold waitSnd. rewrite Eb. simpl. lia. }
  revert A B A' B' Ew Ew' Hs E0. induction Hr as [w|w [A1 B1] w' Hstep Hr IH]; intros A B A' B' -> Ew Hs E0.
  - by injection Ew as <- <-.
  - destruct (stalled_step gone cv A B A1 B1 Hcv Hs Hstep) as (Hs1 & E1 & E2 & E3).
    destruct (IH A1 B1 A' B') as (I1 & I2 & I3 & I4); try done; [congruence|].
    split; [done|]. split; [done|]. split; congruence.
Qed.

(** C6. Acknowledged data can be lost to its reader. There is a reachable state in which the left
    end has written a byte, everything it sent has arrived and been acknowledged, nothing waits
    to be sent at either end, and yet the right user has read nothing and never will, as long as
    the two users wait: the data overtook the CONNECT, and the arrival of the CONNECT advances
    [rcv_nxt] without moving what waits behind it. *)
Theorem connect_strands_data :
  exists (pool : BufPool) A B, @reachable pool 7 (A, B) /\ p_wrote A = [Byte.x41] /\
    waitSnd (p_kcp A) = 0 /\ waitSnd (p_kcp B) = 0 /\ p_read B = [] /\
    (exists s, s ∈ rcv_buf (p_kcp B) /\ seg_data s = [Byte.x41] /\ seg_sn s = rcv_nxt (p_kcp B)) /\
    forall A' B', rtc (@rests pool (p_soup A) (p_soup B)) (A, B) (A', B') -> p_read B' = [].
Proof.
  exists zero_pool, over_A, over_B. split; [exact over_reachable|].
  do 4 (split; [vm_compute; reflexivity|]). split.
  - assert (map (fun s => (seg_data s, seg_sn s)) (rcv_buf (p_kcp over_B)) = [([Byte.x41], 1)]) as E
      by (vm_compute; reflexivity).
    assert (rcv_nxt (p_kcp over_B) = 1) as -> by (vm_compute; reflexivity).
    destruct (rcv_buf (p_kcp over_B)) as [|s l]; [discriminate|]. injection E as E1 E2 _.
    exists s. split; [left|by split].
  - intros A' B' Hr. destruct over_resting as [HA HB].
    rewrite (rests_right_read _ _ over_A over_B A' B' Hr HA HB). vm_compute. reflexivity.
Qed.
End Properties.

Lemma lost_ack_stalls_witness :
  @reachable zero_pool 7 (stall_A, stall_B) /\ p_wrote stall_B1 = [Byte.x41] /\
  p_soup stall_A2 = p_soup stall_A /\ 0 < waitSnd (p_kcp stall_B1).
Proof.
  split; [exact stall_reachable|]. split; [vm_compute; reflexivity|].
  destruct (@lost_ack_stalls zero_pool 7 stall_A stall_B stall_A2 stall_B1) as (E & _ & _ & W);
    [by split|exact stall_stalled| |split; [exact E|exact W]].
  unfold stall_A2, stall_B1.
  apply (goes_run_right _ _ _ (OSend [Byte.x41])); [vm_compute; reflexivity|exact I|vm_compute; reflexivity|].
  apply (goes_run_right _ _ _ (OFlush 300)); [by split|exact I|vm_compute; reflexivity|].
  apply (goes_run_left _ _ _ (OInput 310 stall_d3));
    [split; [by split|vm_compute; discriminate]| |vm_compute; reflexivity|].
  { right. exists 310, stall_d3. split; [exact eq_refl|]. apply (list_elem_of_lookup_2 _ 2%nat).
    vm_compute. reflexivity. }
  apply (goes_run_left _ _ _ (OFlush 320)); [by split|by left|vm_compute; reflexivity|]. apply rtc_refl.
Defined.
