(* ===== verification/Buffer.v ===== *)
(** * The byte buffer ([buffer.go])

    A queue of bytes in one backing array: [arr] is the memory from the start of the
    slice to its capacity, [blen] the length of the slice, [off] the read position.
    The abstract contents are the bytes between [off] and [blen]; the class
    [ByteQueue] is the contract that the connection and the buffered reader rely on. *)
From S2P Require Import Prelude GoInt.

(** ** Definitions *)

Record Buffer := mkBuffer { arr : list byte; blen : Z; off : Z }.
#[export] Instance eta_Buffer : Eta Buffer := fun b => mkBuffer (arr b) (blen b) (off b).

(** [new(Buffer)] *)
Definition Buffer0 : Buffer := mkBuffer [] 0 0.

(** [NewBuffer(buf)], where [spare] is what lies between length and capacity. *)
Definition NewBuffer (buf spare : list byte) : Buffer := mkBuffer (buf ++ spare) (len buf) 0.

(** [b.buf[lo:hi]] as bytes: the upper bound may be anything up to the capacity. *)
Definition slice_buf (lo hi : Z) (b : Buffer) : res (list byte) :=
  if (0 <=? lo) && (lo <=? hi) && (hi <=? len (arr b))
  then Ok (take (Z.to_nat (hi - lo)) (drop (Z.to_nat lo) (arr b))) else Panic PSlice.

Definition Bytes (b : Buffer) : res (list byte) := slice_buf (off b) (blen b) b.
Definition Len (b : Buffer) : Z := blen b - off b.
Definition Cap (b : Buffer) : Z := len (arr b).

(** [b.buf = b.buf[0:e]] *)
Definition resize (e : Z) (b : Buffer) : res Buffer :=
  if (0 <=? e) && (e <=? len (arr b)) then Ok (b<|blen := e|>) else Panic PSlice.

Definition Truncate (n : Z) (b : Buffer) : res Buffer :=
  if (n <? 0) || (n >? Len b) then Panic (PUser "bytes.Buffer: truncation out of range")
  else
    let b := if n =? 0 then b<|off := 0|> else b in
    resize (off b + n) b.

Definition Reset (b : Buffer) : res Buffer := Truncate 0 b.

(** The bytes [d] written into the array from index [m] on. *)
Definition put (m : Z) (d : list byte) (b : Buffer) : Buffer :=
  b<|arr := take (Z.to_nat m) (arr b) ++ d ++ drop (Z.to_nat m + length d) (arr b)|>.

Definition grow (n : Z) (b : Buffer) : res (Buffer * Z) :=
  let m := Len b in
  b ← (if (m =? 0) && negb (off b =? 0) then Truncate 0 b else Ok b);
  b ← (if i64 (blen b + n) >? Cap b then
         if i64 (m + n) <=? Cap b / 2 then
           src ← Bytes b;
           let b := put 0 (take (Z.to_nat (blen b)) src) b in
           b ← resize m b;
           Ok (b<|off := 0|>)
         else
           buf ← go_make (i64 (2 * Cap b + n));
           src ← Bytes b;
           Ok (mkBuffer (go_copy buf src) (len buf) 0)
       else Ok b);
  b ← resize (i64 (off b + m + n)) b;
  Ok (b, off b + m).

Definition Grow (n : Z) (b : Buffer) : res Buffer :=
  if n <? 0 then Panic (PUser "bytes.Buffer.Grow: negative count")
  else '(b, m) ← grow n b; resize m b.

(** [Extend(n)]: the buffer and the index at which the returned slice, the rest of the
    buffer from there on, starts. *)
Definition Extend (n : Z) (b : Buffer) : res (Buffer * Z) :=
  '(b, m) ← grow n b;
  _ ← slice_buf m (blen b) b;
  Ok (b, m).

Definition Write (p : list byte) (b : Buffer) : res (Buffer * Z) :=
  '(b, m) ← grow (len p) b;
  dst ← slice_buf m (blen b) b;
  let d := take (length dst) p in
  Ok (put m d b, len d).

Definition Next (n : Z) (b : Buffer) : res (Buffer * list byte) :=
  let m := Len b in
  let n := if n >? m then m else n in
  data ← slice_buf (off b) (off b + n) b;
  Ok (b<|off := off b + n|>, data).

(** [Read(p)] with [len(p) = k]: the buffer, the bytes copied to [p], and whether the
    error is [io.EOF]. *)
Definition Read (k : nat) (b : Buffer) : res (Buffer * list byte * bool) :=
  if off b >=? blen b then
    b ← Truncate 0 b;
    if (k =? 0)%nat then Ok (b, [], false) else Ok (b, [], true)
  else
    src ← Bytes b;
    let d := take k src in
    Ok (b<|off := off b + len d|>, d, false).

(** [copy(b.Extend(n), d)]: room for [n] bytes of which the first are set to [d]. *)
Definition fill (n : Z) (d : list byte) (b : Buffer) : res Buffer :=
  '(b, m) ← Extend n b; Ok (put m d b).

(** ** Sequences of operations *)

Inductive bop :=
  | BWrite (p : list byte)
  | BFill (d : list byte)   (** [Extend(len(d))], the slice filled by the caller *)
  | BNext (n : Z)
  | BRead (k : nat)
  | BTruncate (n : Z)
  | BReset
  | BGrow (n : Z).

(** An operation with the bytes it hands out and whether it reports [io.EOF]. *)
Definition bstep (o : bop) (b : Buffer) : res (Buffer * (list byte * bool)) :=
  match o with
  | BWrite p => '(b, _) ← Write p b; Ok (b, ([], false))
  | BFill d => b ← fill (len d) d b; Ok (b, ([], false))
  | BNext n => '(b, d) ← Next n b; Ok (b, (d, false))
  | BRead k => '(b, d, eof) ← Read k b; Ok (b, (d, eof))
  | BTruncate n => b ← Truncate n b; Ok (b, ([], false))
  | BReset => b ← Reset b; Ok (b, ([], false))
  | BGrow n => b ← Grow n b; Ok (b, ([], false))
  end.

(** The same on the plain list of unread bytes. *)
Definition qstep (o : bop) (s : list byte) : res (list byte * (list byte * bool)) :=
  match o with
  | BWrite d | BFill d => Ok (s ++ d, ([], false))
  | BNext n => if n <? 0 then Panic PSlice
               else Ok (drop (Z.to_nat n) s, (take (Z.to_nat n) s, false))
  | BRead k => Ok (drop k s, (take k s, bool_decide (s = []) && negb (k =? 0)%nat))
  | BTruncate n => if (n <? 0) || (n >? len s)
                   then Panic (PUser "bytes.Buffer: truncation out of range")
                   else Ok (take (Z.to_nat n) s, ([], false))
  | BReset => Ok ([], ([], false))
  | BGrow n => if n <? 0 then Panic (PUser "bytes.Buffer.Grow: negative count")
               else Ok (s, ([], false))
  end.

Definition run_ops {S : Type} (step : bop -> S -> res (S * (list byte * bool))) :
    list bop -> S -> res (S * list (list byte * bool)) :=
  fix go ops s :=
    match ops with
    | [] => Ok (s, [])
    | o :: ops => '(s, out) ← step o s; '(s, outs) ← go ops s; Ok (s, out :: outs)
    end.

(** The bytes an operation asks room for. *)
Definition asks (o : bop) : Z :=
  match o with BWrite d | BFill d => len d | BGrow n => Z.max 0 n | _ => 0 end.
Definition asked (ops : list bop) : Z := foldr (fun o z => asks o + z) 0 ops.

(** ** The contract *)

(** What the callers rely on. [q_ok u q]: the queue is well formed and can hold [u] bytes;
    [q_fill n d] is [Extend(n)] whose slice is then filled with [d] from the front, so that
    the rest of the slice is unspecified. *)
Class ByteQueue (Q : Type) := {
  q_ok : Z -> Q -> Prop;
  q_contents : Q -> list byte;
  q_empty : Q;
  q_len : Q -> Z;
  q_fill : Z -> list byte -> Q -> res Q;
  q_truncate : Z -> Q -> res Q;
  q_read : nat -> Q -> res (Q * list byte * bool);
  q_empty_ok u : 0 <= u <= 17592186044416 -> q_ok u q_empty;
  q_empty_contents : q_contents q_empty = [];
  q_len_ok u q : q_ok u q -> q_len q = len (q_contents q);
  q_fill_ok u q n d : q_ok u q -> len (q_contents q) + n <= u -> len d <= n ->
    exists q' rest, q_fill n d q = Ok q' /\ q_ok u q' /\
      q_contents q' = q_contents q ++ d ++ rest /\ len d + len rest = n;
  q_truncate_ok u q n : q_ok u q -> 0 <= n <= len (q_contents q) ->
    exists q', q_truncate n q = Ok q' /\ q_ok u q' /\
      q_contents q' = take (Z.to_nat n) (q_contents q);
  q_read_ok u q k : q_ok u q ->
    exists q', q_read k q = Ok (q', take k (q_contents q),
                 bool_decide (q_contents q = []) && negb (k =? 0)%nat) /\ q_ok u q' /\
      q_contents q' = drop k (q_contents q);
}.

(** ** Invariant *)

Record buffer_ok (b : Buffer) : Prop := {
  b_off : 0 <= off b <= blen b;
  b_cap : blen b <= len (arr b);
}.

(** The bytes not read yet. *)
Definition contents (b : Buffer) : list byte :=
  take (Z.to_nat (blen b - off b)) (drop (Z.to_nat (off b)) (arr b)).

(** Growing by [n] stays within what can be allocated. *)
Definition room (b : Buffer) (n : Z) : Prop := 0 <= n /\ 2 * Cap b + n <= 281474976710656.

(** Room for [u] bytes: the array is at most five times as large. *)
Definition holds (u : Z) (b : Buffer) : Prop :=
  buffer_ok b /\ Cap b <= 5 * u /\ u <= 17592186044416.

(** ** Lemmas *)

Lemma slice_buf_ok lo hi b :
  0 <= lo <= hi -> hi <= len (arr b) ->
  slice_buf lo hi b = Ok (take (Z.to_nat (hi - lo)) (drop (Z.to_nat lo) (arr b))).
Proof.
  intros H1 H2. unfold slice_buf.
  by rewrite !(proj2 (Z.leb_le _ _)) by lia.
Qed.

Lemma resize_ok e b : 0 <= e <= len (arr b) -> resize e b = Ok (b<|blen := e|>).
Proof. intros H. unfold resize. by rewrite !(proj2 (Z.leb_le _ _)) by lia. Qed.

Lemma contents_length b : buffer_ok b -> len (contents b) = Len b.
Proof.
  intros [H1 H2]. unfold contents, Len. rewrite length_take, length_drop. lia.
Qed.

Lemma Bytes_ok b : buffer_ok b -> Bytes b = Ok (contents b).
Proof. intros [H1 H2]. unfold Bytes. by rewrite slice_buf_ok by lia. Qed.

(** Writing at the end of the contents, inside the array. *)
Lemma put_contents b m d n :
  buffer_ok b -> off b <= m -> len d <= n -> blen b = m + n ->
  exists rest,
    contents (put m d b) = take (Z.to_nat (m - off b)) (drop (Z.to_nat (off b)) (arr b)) ++ d ++ rest /\
    len d + len rest = n /\ buffer_ok (put m d b).
Proof.
  intros [H1 H2] Hm Hd Hn. unfold contents, put. simpl.
  exists (take (Z.to_nat (n - len d)) (drop (Z.to_nat m + length d) (arr b))).
  split; [|split].
  - rewrite drop_app_le by (rewrite length_take; lia).
    rewrite skipn_firstn_comm.
    replace (Z.to_nat m - Z.to_nat (off b))%nat with (Z.to_nat (m - off b)) by lia.
    set (pre := take (Z.to_nat (m - off b)) (drop (Z.to_nat (off b)) (arr b))).
    assert (length pre = Z.to_nat (m - off b)) as Hp
      by (subst pre; rewrite length_take, length_drop; lia).
    rewrite take_app, Hp, (take_ge pre) by lia. f_equal.
    rewrite take_app, take_ge by lia. f_equal. f_equal. lia.
  - rewrite length_take, length_drop. lia.
  - split; simpl; [done|]. rewrite !length_app, length_take, length_drop. lia.
Qed.

(** What [grow] promises: the contents stay, [n] bytes more are in the slice, and the
    index is where they start. *)
Lemma grow_ok n b :
  buffer_ok b -> room b n ->
  exists b' m, grow n b = Ok (b', m) /\ buffer_ok b' /\ m = off b' + Len b /\
    blen b' = m + n /\
    take (Z.to_nat (m - off b')) (drop (Z.to_nat (off b')) (arr b')) = contents b /\
    (blen b + n <= Cap b -> arr b' = arr b) /\
    Cap b' <= Z.max (Cap b) (5 * (Len b + n)).
Proof.
  intros Hb [Hn Hr]. pose proof Hb as [H1 H2]. unfold grow. cbv zeta.
  pose proof (contents_length b Hb) as Hlen. unfold Cap in *.
  set (m := Len b) in *.
  (* the reset of an empty buffer *)
  assert (exists b1, (if (m =? 0) && negb (off b =? 0) then Truncate 0 b else Ok b) = Ok b1 /\
    buffer_ok b1 /\ arr b1 = arr b /\ contents b1 = contents b /\ Len b1 = m /\ blen b1 <= blen b)
    as (b1 & -> & Hb1 & Ea1 & Ec1 & El1 & Hle1).
  { destruct (Z.eqb_spec m 0) as [Hm0|]; cbn [andb]; [|by exists b].
    destruct (Z.eqb_spec (off b) 0) as [|Ho]; cbn [negb]; [by exists b|].
    unfold Truncate. fold m. rewrite Hm0. cbn [Z.ltb Z.gtb Z.compare orb Z.eqb].
    rewrite resize_ok by (simpl; lia). eexists. split; [done|].
    split; [split; simpl; lia|]. split; [done|]. split; [|split; simpl; [done|lia]].
    assert (contents b = []) as -> by (apply length_zero_iff_nil; lia). done. }
  cbn [mbind res_bind]. pose proof Hb1 as [H3 H4]. rewrite Ea1 in *.
  unfold Len in El1.
  (* the three ways to make room *)
  set (G := if i64 (blen b1 + n) >? len (arr b) then _ else _).
  assert (exists b2, G = Ok b2 /\ buffer_ok b2 /\ off b2 + m + n <= len (arr b2) /\
    len (arr b2) < 9223372036854775808 /\
    take (Z.to_nat m) (drop (Z.to_nat (off b2)) (arr b2)) = contents b /\
    (blen b + n <= len (arr b) -> arr b2 = arr b) /\
    len (arr b2) <= Z.max (len (arr b)) (5 * (m + n)))
    as (b2 & -> & Hb2 & Hfit & Hbig & Hc2 & Ha2 & Hcap).
  { subst G. rewrite i64_id by (unfold is_i64; lia).
    destruct (Z.gtb_spec (blen b1 + n) (len (arr b))) as [Hgt|Hle].
    - rewrite i64_id by (unfold is_i64; lia). rewrite (Bytes_ok b1 Hb1), Ec1.
      destruct (Z.leb_spec (m + n) (len (arr b) / 2)) as [Hslide|Hnew].
      + cbn [mbind res_bind].
        rewrite take_ge by (unfold contents, Len in *; lia).
        assert (arr (put 0 (contents b) b1) = contents b ++ drop (length (contents b)) (arr b))
          as E3 by (unfold put; simpl; by rewrite Ea1).
        set (b3 := put 0 (contents b) b1) in *. clearbody b3.
        assert (length (arr b3) = length (arr b)) as Hla.
        { rewrite E3, length_app, length_drop. lia. }
        rewrite resize_ok by (Z.div_mod_to_equations; lia).
        cbn [mbind res_bind]. eexists. split; [done|]. simpl. rewrite Hla.
        split; [split; simpl; lia|]. split; [Z.div_mod_to_equations; lia|]. split; [lia|].
        split; [|split; [intros Hx; exfalso; lia|lia]].
        change (drop (Z.to_nat 0) (arr b3)) with (arr b3). rewrite E3.
        replace (Z.to_nat m) with (length (contents b)) by lia. by rewrite take_app_length.
      + rewrite i64_id by (unfold is_i64; lia). unfold go_make.
        rewrite !(proj2 (Z.leb_le _ _)) by lia. cbn [mbind res_bind andb].
        eexists. split; [done|].
        set (zs := replicate _ _). assert (len zs = 2 * len (arr b) + n) as Hz
          by (subst zs; rewrite length_replicate; lia).
        assert (length (go_copy zs (contents b)) = length zs) as Hgl by apply go_copy_length.
        split; [split; simpl; lia|]. split; [simpl; lia|]. split; [simpl; lia|]. split.
        * simpl. unfold go_copy. replace (Z.to_nat m) with (length (contents b)) by lia.
          rewrite (take_ge (contents b)) by lia.
          change (drop (Z.to_nat 0) ?x) with x. by rewrite take_app_length.
        * split; [intros Hx; exfalso; lia|]. simpl. rewrite Hgl, Hz.
          Z.div_mod_to_equations. lia.
    - eexists. split; [done|]. split; [done|]. split; [rewrite Ea1; lia|].
      split; [rewrite Ea1; lia|]. split; [|split; [done|rewrite Ea1; lia]].
      rewrite <- Ec1. unfold contents. by rewrite Ea1, El1. }
  cbn [mbind res_bind]. pose proof Hb2 as [H5 H6].
  rewrite i64_id by (unfold is_i64; lia). rewrite resize_ok by lia. cbn [mbind res_bind].
  do 2 eexists. split; [done|]. split; [split; simpl; lia|]. simpl.
  split; [done|]. split; [done|]. split; [|done].
  by replace (off b2 + m - off b2) with m by lia.
Qed.

Lemma Truncate_ok n b :
  buffer_ok b -> 0 <= n <= len (contents b) ->
  exists b', Truncate n b = Ok b' /\ buffer_ok b' /\
    contents b' = take (Z.to_nat n) (contents b) /\ arr b' = arr b.
Proof.
  intros Hb Hn. rewrite contents_length in Hn by done. pose proof Hb as [H1 H2].
  unfold Truncate. rewrite (proj2 (Z.ltb_ge n 0)) by lia.
  destruct (Z.gtb_spec n (Len b)); [lia|]. cbn [orb]. unfold Len in *.
  destruct (Z.eqb_spec n 0) as [->|].
  - rewrite resize_ok by (simpl; lia). eexists. split; [done|].
    split; [split; simpl; lia|]. done.
  - rewrite resize_ok by lia. eexists. split; [done|].
    split; [split; simpl; lia|]. split; [|done]. unfold contents. simpl.
    rewrite take_take. f_equal. lia.
Qed.

Lemma Truncate_refused n b :
  buffer_ok b -> ~ 0 <= n <= len (contents b) ->
  Truncate n b = Panic (PUser "bytes.Buffer: truncation out of range").
Proof.
  intros Hb Hn. rewrite contents_length in Hn by done. unfold Truncate.
  destruct (Z.ltb_spec n 0); [done|]. destruct (Z.gtb_spec n (Len b)); [done|lia].
Qed.

Lemma Next_ok n b :
  buffer_ok b -> 0 <= n ->
  exists b', Next n b = Ok (b', take (Z.to_nat n) (contents b)) /\ buffer_ok b' /\
    contents b' = drop (Z.to_nat n) (contents b) /\ arr b' = arr b.
Proof.
  intros Hb Hn. pose proof Hb as [H1 H2]. unfold Next. cbv zeta.
  set (k := if n >? Len b then _ else _).
  assert (k = Z.min n (Len b)) as -> by (subst k; destruct (Z.gtb_spec n (Len b)); lia).
  pose proof (contents_length b Hb) as Hl. unfold Len in *.
  rewrite slice_buf_ok by lia. cbn [mbind res_bind]. eexists. split.
  - do 2 f_equal. unfold contents. rewrite take_take. f_equal. lia.
  - split; [split; simpl; lia|]. split; [|done]. unfold contents. simpl.
    rewrite skipn_firstn_comm, drop_drop.
    destruct (decide (n <= blen b - off b)).
    + f_equal; [lia|f_equal; lia].
    + replace (Z.to_nat (blen b - (off b + _))) with 0%nat by lia.
      by replace (Z.to_nat (blen b - off b) - Z.to_nat n)%nat with 0%nat by lia.
Qed.

Lemma Read_ok k b :
  buffer_ok b ->
  exists b', Read k b = Ok (b', take k (contents b),
      bool_decide (contents b = []) && negb (k =? 0)%nat) /\
    buffer_ok b' /\ contents b' = drop k (contents b) /\ arr b' = arr b.
Proof.
  intros Hb. pose proof Hb as [H1 H2]. pose proof (contents_length b Hb) as Hl.
  unfold Read, Len in *. destruct (Z.geb_spec (off b) (blen b)) as [Hge|Hlt].
  - destruct (Truncate_ok 0 b Hb) as (b' & -> & Hb' & Hc' & Ha'); [lia|].
    assert (contents b = []) as Hnil by (apply length_zero_iff_nil; lia).
    rewrite Hnil, take_nil, drop_nil in *. exists b'. cbn [mbind res_bind].
    by destruct (k =? 0)%nat.
  - rewrite (Bytes_ok b Hb). cbn [mbind res_bind]. rewrite bool_decide_eq_false_2 by
      (intros Hnil; rewrite Hnil in Hl; simpl in Hl; lia).
    cbn [andb]. eexists. split; [done|]. rewrite length_take.
    split; [split; simpl; lia|]. split; [|done].
    unfold contents in *. simpl. rewrite skipn_firstn_comm, drop_drop.
    destruct (decide (k <= Z.to_nat (blen b - off b))%nat).
    + f_equal; [lia|f_equal; lia].
    + replace (Z.to_nat (blen b - (off b + _))) with 0%nat by lia.
      by replace (Z.to_nat (blen b - off b) - k)%nat with 0%nat by lia.
Qed.

(** [Extend] and the bytes written to the returned slice. *)
Lemma fill_ok n d b :
  buffer_ok b -> room b n -> len d <= n ->
  exists b' rest, fill n d b = Ok b' /\ buffer_ok b' /\
    contents b' = contents b ++ d ++ rest /\ len d + len rest = n /\
    Cap b' <= Z.max (Cap b) (5 * (len (contents b) + n)) /\
    (blen b + n <= Cap b -> Cap b' = Cap b).
Proof.
  intros Hb Hr Hd. rewrite contents_length by done.
  destruct (grow_ok n b Hb Hr) as (b' & m & Hg & Hb' & Hm & Hl & Hc & Ha & Hcap).
  unfold fill, Extend. rewrite Hg. cbn [mbind res_bind].
  destruct Hr as [Hn _]. pose proof Hb as [H3 H4]. pose proof Hb' as [H1 H2].
  unfold Len in *. rewrite slice_buf_ok by lia. cbn [mbind res_bind].
  destruct (put_contents b' m d n Hb') as (rest & Hp & Hlr & Hok); [lia..|].
  assert (Cap (put m d b') = Cap b') as Hcp.
  { unfold Cap, put. simpl. rewrite !length_app, length_take, length_drop. lia. }
  do 2 eexists. split; [done|]. split; [done|]. split; [by rewrite Hp, Hc|].
  split; [done|]. rewrite Hcp. split; [done|].
  intros Hle. unfold Cap in *. by rewrite Ha.
Qed.

Lemma Write_fill p b :
  buffer_ok b -> room b (len p) -> exists b', Write p b = Ok (b', len p) /\ fill (len p) p b = Ok b'.
Proof.
  intros Hb Hr. destruct (grow_ok _ b Hb Hr) as (b' & m & Hg & [H1 H2] & Hm & Hl & _).
  unfold Write, fill, Extend. rewrite Hg. cbn [mbind res_bind].
  pose proof Hb as [H3 H4]. unfold Len in *. rewrite slice_buf_ok by lia. cbn [mbind res_bind].
  rewrite length_take, length_drop. rewrite take_ge by lia. by eexists.
Qed.

Lemma Write_ok p b :
  buffer_ok b -> room b (len p) ->
  exists b', Write p b = Ok (b', len p) /\ buffer_ok b' /\ contents b' = contents b ++ p /\
    Cap b' <= Z.max (Cap b) (5 * (len (contents b) + len p)) /\
    (blen b + len p <= Cap b -> Cap b' = Cap b).
Proof.
  intros Hb Hr. destruct (Write_fill p b Hb Hr) as (b1 & HW & HF).
  destruct (fill_ok (len p) p b Hb Hr) as (b' & rest & HF' & Hok & Hc & Hl & Hx); [lia|].
  rewrite HF in HF'. apply Ok_inj in HF' as ->.
  assert (rest = []) as -> by (apply length_zero_iff_nil; lia).
  rewrite app_nil_r in Hc. by exists b'.
Qed.

Lemma Grow_ok n b :
  buffer_ok b -> room b n ->
  exists b', Grow n b = Ok b' /\ buffer_ok b' /\ contents b' = contents b /\
    blen b' + n <= Cap b' /\ Cap b' <= Z.max (Cap b) (5 * (len (contents b) + n)).
Proof.
  intros Hb Hr. pose proof Hr as [Hn _]. rewrite contents_length by done.
  destruct (grow_ok n b Hb Hr) as (b' & m & Hg & [H1 H2] & Hm & Hl & Hc & _ & Hcap).
  pose proof Hb as [H3 H4]. unfold Grow. rewrite (proj2 (Z.ltb_ge n 0)), Hg by lia.
  cbn [mbind res_bind]. unfold Len in *. rewrite resize_ok by lia. eexists. split; [done|].
  split; [split; simpl; lia|]. unfold Cap in *. simpl. split; [exact Hc|]. split; [lia|done].
Qed.

Lemma holds_room u b n : holds u b -> 0 <= n <= u -> room b n.
Proof. intros (_ & H & H') Hn. split; lia. Qed.

#[export] Program Instance Buffer_queue : ByteQueue Buffer := {|
  q_ok := holds; q_contents := contents; q_empty := Buffer0; q_len := Len; q_fill := fill;
  q_truncate := Truncate; q_read := Read |}.
Next Obligation. intros u Hu. split; [by split|]. unfold Cap. simpl. lia. Qed.
Next Obligation. done. Qed.
Next Obligation. intros u b [Hb _]. by rewrite contents_length. Qed.
Next Obligation.
  intros u b n d Hu Hn Hd. pose proof (holds_room u b n Hu) as Hr. destruct Hu as (Hb & ? & ?).
  destruct (fill_ok n d b Hb) as (b' & rest & ? & ? & ? & ? & Hc & _); [apply Hr; lia|done|].
  exists b', rest. repeat split; try done; try apply H2. lia.
Qed.
Next Obligation.
  intros u b n (Hb & Hc & ?) Hn. destruct (Truncate_ok n b Hb Hn) as (b' & ? & ? & ? & Ha).
  exists b'. unfold holds, Cap in *. by rewrite Ha.
Qed.
Next Obligation.
  intros u b k (Hb & Hc & ?). destruct (Read_ok k b Hb) as (b' & ? & ? & ? & Ha).
  exists b'. unfold holds, Cap in *. by rewrite Ha.
Qed.

(** ** One operation refines the step on lists *)

Lemma bstep_refines o b :
  buffer_ok b -> room b (asks o) ->
  match qstep o (contents b) with
  | Ok (s, out) => exists b', bstep o b = Ok (b', out) /\ buffer_ok b' /\ contents b' = s /\
      Cap b' <= Z.max (Cap b) (5 * (len (contents b) + asks o))
  | r => bstep o b = Panic PSlice /\ r = Panic PSlice \/
         exists msg, bstep o b = Panic (PUser msg) /\ r = Panic (PUser msg)
  end.
Proof.
  intros Hb Hr. destruct o as [d|d|n|k|n| |n]; cbn [bstep qstep asks] in *.
  - destruct (Write_ok d b Hb Hr) as (b' & -> & ?). exists b'. tauto.
  - destruct (fill_ok (len d) d b Hb Hr) as (b' & rest & -> & Hok & Hc & Hl & ?); [lia|].
    assert (rest = []) as -> by (apply length_zero_iff_nil; lia). rewrite app_nil_r in Hc.
    exists b'. tauto.
  - destruct (Z.ltb_spec n 0) as [Hn|Hn].
    + left. split; [|done]. pose proof (b_off b Hb). unfold Next. cbv zeta.
      destruct (Z.gtb_spec n (Len b)); [unfold Len in *; lia|]. unfold slice_buf.
      by rewrite (proj2 (Z.leb_gt (off b) (off b + n))), andb_false_r by lia.
    + destruct (Next_ok n b Hb Hn) as (b' & -> & Hok & Hc & Ha). exists b'.
      unfold Cap in *. rewrite Ha. repeat split; try done; apply Hok || lia.
  - destruct (Read_ok k b Hb) as (b' & -> & Hok & Hc & Ha). exists b'.
    unfold Cap in *. rewrite Ha. split; [done|]. split; [done|]. split; [done|lia].
  - destruct (Z.ltb_spec n 0) as [Hn|Hn]; [|destruct (Z.gtb_spec n (len (contents b)))]; cbn [orb].
    + right. eexists. rewrite Truncate_refused by (done || lia). done.
    + right. eexists. rewrite Truncate_refused by (done || lia). done.
    + destruct (Truncate_ok n b Hb) as (b' & -> & Hok & Hc & Ha); [lia|]. exists b'.
      unfold Cap in *. rewrite Ha. split; [done|]. split; [done|]. split; [done|lia].
  - unfold Reset. destruct (Truncate_ok 0 b Hb) as (b' & -> & Hok & Hc & Ha); [lia|]. exists b'.
    unfold Cap in *. rewrite Ha. split; [done|]. split; [done|]. split; [done|lia].
  - destruct (Z.ltb_spec n 0) as [Hn|Hn].
    + right. eexists. unfold Grow. by rewrite (proj2 (Z.ltb_lt n 0)) by done.
    + rewrite (Z.max_r 0 n) in * by done.
      destruct (Grow_ok n b Hb Hr) as (b' & -> & ?). exists b'. tauto.
Qed.

Lemma asks_nonneg o : 0 <= asks o.
Proof. destruct o; simpl; lia. Qed.

Lemma asked_nonneg ops : 0 <= asked ops.
Proof. induction ops as [|o ops IH]; simpl; [lia|pose proof (asks_nonneg o); lia]. Qed.

Lemma qstep_len o s s' out : qstep o s = Ok (s', out) -> len s' <= len s + asks o.
Proof.
  destruct o; simpl; repeat case_match; intros [= <- <-];
    rewrite ?length_app, ?length_drop, ?length_take; simpl; lia.
Qed.

(** Running from a buffer that has been asked for [used] bytes so far. *)
Lemma run_refines ops b used :
  buffer_ok b -> len (contents b) <= used -> Cap b <= 5 * used ->
  used + asked ops <= 17592186044416 ->
  match run_ops qstep ops (contents b) with
  | Ok (s, outs) => exists b', run_ops bstep ops b = Ok (b', outs) /\ buffer_ok b' /\
      contents b' = s /\ Cap b' <= 5 * (used + asked ops)
  | Panic p => run_ops bstep ops b = Panic p
  | OutOfFuel => False
  end.
Proof.
  revert b used. induction ops as [|o ops IH]; intros b used Hb Hl Hc Hu; simpl in *.
  { exists b. repeat split; try done; try apply Hb. lia. }
  pose proof (asks_nonneg o). pose proof (asked_nonneg ops).
  assert (room b (asks o)) as Hr by (split; lia).
  pose proof (bstep_refines o b Hb Hr) as Hs. pose proof (qstep_len o (contents b)) as Hq.
  destruct (qstep o (contents b)) as [[s out]|p|].
  - specialize (Hq s out eq_refl). destruct Hs as (b' & -> & Hb' & <- & Hc').
    cbn [mbind res_bind]. specialize (IH b' (used + asks o) Hb').
    destruct (run_ops qstep ops (contents b')) as [[s2 outs]|p|]; cbn [mbind res_bind].
    + destruct IH as (b2 & -> & Hb2 & Hc2 & Hcap); [lia..|]. exists b2.
      cbn [mbind res_bind]. split; [done|]. split; [done|]. split; [done|lia].
    + by rewrite IH by lia.
    + exfalso. apply IH; lia.
  - cbn [mbind res_bind]. by destruct Hs as [[-> [= ->]]|(msg & -> & [= ->])].
  - by destruct Hs as [[_ [=]]|(msg & _ & [=])].
Qed.

(** ** Properties *)

(** C22. The buffer is a queue of bytes: any sequence of [Write], [Extend], [Next], [Read],
    [Truncate], [Reset] and [Grow] on a new buffer hands out exactly the bytes, the end-of-file
    marks and the panics that the same sequence gives on a plain list, whatever sliding and
    reallocation happens underneath; and the memory held never exceeds five times the bytes
    asked for. *)
Theorem buffer_refines (ops : list bop) (Hall : asked ops <= 17592186044416) :
  match run_ops qstep ops [] with
  | Ok (s, outs) => exists b, run_ops bstep ops Buffer0 = Ok (b, outs) /\ Bytes b = Ok s /\
      Len b = len s /\ Cap b <= 5 * asked ops
  | r => exists p, r = Panic p /\ run_ops bstep ops Buffer0 = Panic p
  end.
Proof.
  assert (buffer_ok Buffer0) as H0 by done.
  pose proof (run_refines ops Buffer0 0 H0) as H.
  change (contents Buffer0) with (@nil byte) in H.
  destruct (run_ops qstep ops []) as [[s outs]|p|].
  - destruct H as (b & Hr & Hb & Hc & Hcap); [simpl; unfold Cap; simpl; lia..|].
    exists b. rewrite Bytes_ok, <- Hc, contents_length by done. done.
  - exists p. split; [done|]. apply H; simpl; unfold Cap; simpl; lia.
  - exfalso. apply H; simpl; unfold Cap; simpl; lia.
Qed.

Lemma buffer_refines_witness :
  exists b, run_ops bstep [BWrite [Byte.x01; Byte.x02; Byte.x03]; BNext 2; BWrite [Byte.x04; Byte.x05]; BRead 2] Buffer0 =
    Ok (b, [([], false); ([Byte.x01; Byte.x02], false); ([], false); ([Byte.x03; Byte.x04], false)]) /\
    Bytes b = Ok [Byte.x05].
Proof.
  assert (asked [BWrite [Byte.x01; Byte.x02; Byte.x03]; BNext 2; BWrite [Byte.x04; Byte.x05]; BRead 2] <= 17592186044416)
    as H by (vm_compute; discriminate).
  destruct (buffer_refines _ H) as (b & Hr & Hb & _). by exists b.
Defined.

(** [Grow(n)] keeps its promise: on a well-formed buffer it leaves the contents alone, and
    whatever is written next, up to [n] bytes, is appended without another allocation. *)
Theorem grow_reserves (n : Z) (p : list byte) (b : Buffer)
    (Hb : buffer_ok b) (Hn : 0 <= n) (Hr : Cap b + n <= 17592186044416) (Hp : len p <= n) :
  exists b1 b2, Grow n b = Ok b1 /\ Write p b1 = Ok (b2, len p) /\
    contents b1 = contents b /\ contents b2 = contents b ++ p /\ Cap b2 = Cap b1.
Proof.
  pose proof (contents_length b Hb) as Hl. pose proof Hb as [H1 H2]. unfold Len in Hl.
  assert (room b n) as Hrn by (split; lia).
  destruct (Grow_ok n b Hb Hrn) as (b1 & HG & Hb1 & Hc1 & Hroom & Hcap).
  assert (room b1 (len p)) as Hr1.
  { split; [lia|]. unfold Cap in *. lia. }
  destruct (Write_ok p b1 Hb1 Hr1) as (b2 & HW & Hb2 & Hc2 & _ & Hsame).
  exists b1, b2. rewrite Hc2, Hc1. repeat split; try done. apply Hsame. lia.
Qed.

Lemma grow_reserves_witness :
  exists b1 b2, Grow 4 Buffer0 = Ok b1 /\ Write [Byte.x01; Byte.x02] b1 = Ok (b2, 2) /\
    Cap b2 = Cap b1.
Proof.
  assert (buffer_ok Buffer0) as Hb by done.
  destruct (grow_reserves 4 [Byte.x01; Byte.x02] Buffer0 Hb) as (b1 & b2 & H1 & H2 & _ & _ & H3);
    [lia|vm_compute; discriminate|simpl; lia|]. by exists b1, b2.
Defined.
