(* ===== verification/BufConn.v ===== *)
(** * The buffered reader ([bufconn.go])

    A connection that reads ahead into a byte queue, so that the first bytes of a stream
    can be inspected before they are consumed. The wrapped [net.Conn] is a parameter; the
    queue is any implementation of [ByteQueue], the buffer of [Buffer.v] among them. *)
From S2P Require Import Prelude GoInt Buffer.

(** ** Definitions *)

Section BufConn.
Context {Q : Type} `{ByteQueue Q}.

(** The wrapped connection: its state, its errors, and [Read(p)] with [len(p) = k], which
    leaves the connection in a state, stores bytes at the front of [p] and may report an
    error. *)
Context {C E : Type} (conn_read : C -> nat -> C * list byte * option E).

Record BufferConn := mkBufferConn { buf : Q; conn : C }.

Definition NewBufferConn (c : C) : BufferConn := mkBufferConn q_empty c.

Definition BufferBytes (c : BufferConn) : list byte := q_contents (buf c).
Definition BufferLen (c : BufferConn) : Z := q_len (buf c).

(** [ReadToBuffer(sz)]; the bytes that the wrapped connection delivered are returned beside
    the code's results [n] and [err]. A negative [sz] panics in [Extend]. *)
Definition ReadToBuffer (sz : Z) (c : BufferConn) :
    res (BufferConn * Z * option E * list byte) :=
  if sz <? 0 then Panic PSlice else
  let '(s, d, err) := conn_read (conn c) (Z.to_nat sz) in
  let n := len d in
  q ← q_fill sz d (buf c);
  q ← (match err with
       | None => q_truncate (q_len q - (sz - n)) q
       | Some _ => q_truncate (q_len q - sz) q
       end);
  Ok (mkBufferConn q s, n, err, d).

(** What the wrapped connection gave in one [Read]: for [ReadToBuffer], or directly to the caller
    of [Read]. *)
Inductive arrival := Ahead (d : list byte) (err : option E) | Direct (d : list byte) (err : option E).

(** [Read(b)] with [len(b) = k], and beside its results what the wrapped connection gave; an
    [io.EOF] of the queue cannot happen, since the queue
    is read only when it is not empty. *)
Definition ReadConn (k : nat) (c : BufferConn) :
    res (BufferConn * list byte * option E * list arrival) :=
  if q_len (buf c) >? 0 then
    '(q, d, _) ← q_read k (buf c);
    Ok (mkBufferConn q (conn c), d, None, [])
  else
    let '(s, d, err) := conn_read (conn c) k in
    Ok (mkBufferConn (buf c) s, d, err, [Direct d err]).

(** Sequences of the two, with the bytes handed to the caller and what the wrapped connection
    gave. *)
Inductive cop := CReadToBuffer (sz : Z) | CRead (k : nat).

Definition cstep (o : cop) (c : BufferConn) : res (BufferConn * list byte * list arrival) :=
  match o with
  | CReadToBuffer sz => '(c, _, err, d) ← ReadToBuffer sz c; Ok (c, [], [Ahead d err])
  | CRead k => '(c, out, _, arrived) ← ReadConn k c; Ok (c, out, arrived)
  end.

Fixpoint run_conn (ops : list cop) (c : BufferConn) : res (BufferConn * list byte * list arrival) :=
  match ops with
  | [] => Ok (c, [], [])
  | o :: ops =>
      '(c, out, arrived) ← cstep o c;
      '(c, outs, arrivals) ← run_conn ops c;
      Ok (c, out ++ outs, arrived ++ arrivals)
  end.

(** The bytes the connection delivered; and those of them that did not come to [ReadToBuffer]
    together with an error. *)
Definition bytes_of (a : arrival) : list byte := match a with Ahead d _ | Direct d _ => d end.
Definition kept_of (a : arrival) : list byte := match a with Ahead _ (Some _) => [] | _ => bytes_of a end.
Definition delivered (l : list arrival) : list byte := concat (map bytes_of l).
Definition kept (l : list arrival) : list byte := concat (map kept_of l).

(** [l] is what reading from the connection gives, one call after the other, without a gap. *)
Inductive gives : C -> list arrival -> C -> Prop :=
  | gives_none s : gives s [] s
  | gives_one s s' s'' k d err a l :
      conn_read s k = (s', d, err) -> a = Ahead d err \/ a = Direct d err ->
      gives s' l s'' -> gives s (a :: l) s''.

(** The bytes the operations make room for; none is negative. *)
Definition cask (o : cop) : Z := match o with CReadToBuffer sz => sz | CRead _ => 0 end.
Definition casked (ops : list cop) : Z := foldr (fun o z => cask o + z) 0 ops.

(** ** Lemmas *)

(** [io.Reader]: no more bytes than asked for. *)
Hypothesis conn_fits : forall s k, (length (conn_read s k).1.2 <= k)%nat.

Lemma ReadToBuffer_ok u sz c :
  q_ok u (buf c) -> 0 <= sz -> len (q_contents (buf c)) + sz <= u ->
  let '(s, d, err) := conn_read (conn c) (Z.to_nat sz) in
  exists c', ReadToBuffer sz c = Ok (c', len d, err, d) /\ q_ok u (buf c') /\ conn c' = s /\
    BufferBytes c' = BufferBytes c ++ (if err is Some _ then [] else d).
Proof.
  intros Hq Hsz Hu. pose proof (conn_fits (conn c) (Z.to_nat sz)) as Hf.
  destruct (conn_read (conn c) (Z.to_nat sz)) as [[s d] err] eqn:Er. simpl in Hf.
  unfold ReadToBuffer, BufferBytes. rewrite (proj2 (Z.ltb_ge sz 0)), Er by done.
  destruct (q_fill_ok u (buf c) sz d Hq Hu) as (q1 & rest & -> & Hq1 & Hc1 & Hl); [lia|].
  cbn [mbind res_bind].
  assert (len (q_contents q1) = len (q_contents (buf c)) + sz) as Hl1
    by (rewrite Hc1, !length_app; lia).
  rewrite (q_len_ok u) by done.
  destruct err as [e|].
  - destruct (q_truncate_ok u q1 (len (q_contents q1) - sz) Hq1) as (q2 & -> & Hq2 & Hc2); [lia|].
    eexists. split; [done|]. split; [done|]. split; [done|]. simpl.
    rewrite app_nil_r, Hc2, Hl1, Hc1.
    replace (Z.to_nat _) with (length (q_contents (buf c))) by lia. apply take_app_length.
  - destruct (q_truncate_ok u q1 (len (q_contents q1) - (sz - len d)) Hq1)
      as (q2 & -> & Hq2 & Hc2); [lia|].
    eexists. split; [done|]. split; [done|]. split; [done|]. simpl.
    rewrite Hc2, Hl1, Hc1, app_assoc.
    replace (Z.to_nat _) with (length (q_contents (buf c) ++ d)) by (rewrite length_app; lia).
    apply take_app_length.
Qed.

Lemma ReadConn_ok u k c :
  q_ok u (buf c) ->
  exists c' out err arrived, ReadConn k c = Ok (c', out, err, arrived) /\ q_ok u (buf c') /\
    out ++ BufferBytes c' = BufferBytes c ++ kept arrived /\
    len (BufferBytes c') <= len (BufferBytes c) /\ gives (conn c) arrived (conn c') /\
    (BufferBytes c <> [] -> err = None /\ conn c' = conn c /\ out = take k (BufferBytes c)) /\
    (BufferBytes c = [] -> (conn c', out, err) = conn_read (conn c) k).
Proof.
  intros Hq. unfold ReadConn, BufferBytes. rewrite (q_len_ok u) by done.
  destruct (q_contents (buf c)) as [|x s] eqn:Hc.
  - destruct (conn_read (conn c) k) as [[s d] err] eqn:E1. cbn [length Z.of_nat Z.gtb Z.compare].
    do 4 eexists. split; [done|]. split; [done|]. unfold kept. simpl. rewrite Hc, !app_nil_r.
    split_and!; try done. eapply gives_one; [exact E1|by right|constructor].
  - destruct (Z.gtb_spec (len (x :: s)) 0); [|simpl in *; lia].
    destruct (q_read_ok u (buf c) k Hq) as (q' & -> & Hq' & Hc'). cbn [mbind res_bind].
    do 4 eexists. split; [done|]. split; [done|]. simpl buf. rewrite Hc', Hc, take_drop, app_nil_r.
    split; [done|]. split; [rewrite length_drop; lia|]. split; [constructor|]. done.
Qed.

Lemma gives_app s1 l1 s2 l2 s3 : gives s1 l1 s2 -> gives s2 l2 s3 -> gives s1 (l1 ++ l2) s3.
Proof. intros Hg. induction Hg; intros Hg2; [done|]. simpl. eapply gives_one; eauto. Qed.

Lemma kept_app l1 l2 : kept (l1 ++ l2) = kept l1 ++ kept l2.
Proof. unfold kept. by rewrite map_app, concat_app. Qed.

Lemma kept_all l : (forall d e, Ahead d (Some e) ∈ l -> d = []) -> kept l = delivered l.
Proof.
  intros Hp. unfold kept, delivered. f_equal. apply map_ext_in. intros a Ha%list_elem_of_In.
  destruct a as [d [e|]|]; [|done..]. simpl. by rewrite (Hp d e).
Qed.

Lemma cstep_ok u o c :
  q_ok u (buf c) -> 0 <= cask o -> len (BufferBytes c) + cask o <= u ->
  exists c' out arrived, cstep o c = Ok (c', out, arrived) /\ q_ok u (buf c') /\
    out ++ BufferBytes c' = BufferBytes c ++ kept arrived /\
    len (BufferBytes c') <= len (BufferBytes c) + cask o /\ gives (conn c) arrived (conn c').
Proof.
  intros Hq H0 Hu. destruct o as [sz|k]; simpl in *.
  - pose proof (ReadToBuffer_ok u sz c Hq H0 Hu) as Hr.
    pose proof (conn_fits (conn c) (Z.to_nat sz)) as Hf.
    destruct (conn_read (conn c) (Z.to_nat sz)) as [[s d] err] eqn:E1. simpl in *.
    destruct Hr as (c' & -> & Hq' & Hs & Hc'). do 3 eexists. split; [done|]. split; [done|].
    assert (kept [Ahead d err] = if err is Some _ then [] else d) as Hk
      by (unfold kept; simpl; rewrite app_nil_r; by destruct err).
    rewrite Hc', Hk, !length_app. split; [done|]. split; [destruct err; simpl; lia|].
    rewrite Hs. eapply gives_one; [exact E1|by left|constructor].
  - destruct (ReadConn_ok u k c Hq) as (c' & out & err & arrived & -> & Hq' & Hc & Hle & Hg & _).
    do 3 eexists. split; [done|]. split; [done|]. split; [done|]. split; [lia|done].
Qed.

Lemma run_conn_ok u ops c :
  q_ok u (buf c) -> Forall (fun o => 0 <= cask o) ops -> len (BufferBytes c) + casked ops <= u ->
  exists c' outs arrivals, run_conn ops c = Ok (c', outs, arrivals) /\ q_ok u (buf c') /\
    outs ++ BufferBytes c' = BufferBytes c ++ kept arrivals /\ gives (conn c) arrivals (conn c').
Proof.
  revert c. induction ops as [|o ops IH]; intros c Hq Hn Hu; simpl in *.
  { exists c, [], []. rewrite app_nil_r. split_and!; try done. constructor. }
  apply Forall_cons in Hn as [Ho Hn].
  assert (0 <= casked ops) as Hp
    by (clear -Hn; induction Hn; simpl in *; lia).
  destruct (cstep_ok u o c Hq Ho) as (c1 & out & arrived & -> & Hq1 & Hc1 & Hl1 & Hg1); [lia|].
  destruct (IH c1 Hq1 Hn) as (c2 & outs & arrivals & Hr & Hq2 & Hc2 & Hg2); [lia|].
  cbn [mbind res_bind]. rewrite Hr. cbn [mbind res_bind].
  do 3 eexists. split; [done|]. split; [done|]. split; [|by eapply gives_app].
  by rewrite <- app_assoc, Hc2, app_assoc, Hc1, <- app_assoc, kept_app.
Qed.

(** ** Properties *)

(** C23. What reading ahead does to a stream, on any queue and over any wrapped connection that
    keeps to the length it is asked for: a sequence of [ReadToBuffer] and [Read] on a new reader
    never panics, takes from the connection one call after the other, and the bytes handed to
    the caller followed by the bytes still buffered are, in order, the bytes the connection
    delivered, without those that it delivered to a [ReadToBuffer] together with an error, and
    with nothing else missing. So nothing is lost when no data comes with an error; that some is
    lost when it does, as [io.Reader] allows, is [ReadToBuffer_drops]. *)
Theorem readahead_stream (ops : list cop) (s : C)
    (Hops : Forall (fun o => 0 <= cask o) ops) (Hask : casked ops <= 17592186044416) :
  exists c outs arrivals, run_conn ops (NewBufferConn s) = Ok (c, outs, arrivals) /\
    gives s arrivals (conn c) /\ BufferLen c = len (BufferBytes c) /\
    outs ++ BufferBytes c = kept arrivals /\
    ((forall d e, Ahead d (Some e) ∈ arrivals -> d = []) ->
     outs ++ BufferBytes c = delivered arrivals).
Proof.
  assert (q_ok 17592186044416 (buf (NewBufferConn s))) as Hq by (apply q_empty_ok; lia).
  assert (BufferBytes (NewBufferConn s) = []) as Hb by apply q_empty_contents.
  destruct (run_conn_ok _ ops (NewBufferConn s) Hq Hops) as (c & outs & arrivals & Hr & Hq' & Hc & Hg).
  { rewrite Hb. simpl. lia. }
  exists c, outs, arrivals. split; [done|]. split; [done|].
  split; [by apply (q_len_ok 17592186044416)|]. rewrite Hc, Hb. split; [done|].
  intros Hp. by apply kept_all.
Qed.
End BufConn.

(** What [ReadToBuffer] does on each branch: without an error the delivered bytes are
    appended to the buffer; with an error the buffer is as before and whatever was delivered
    with the error is gone, although the code reports its length. *)
Theorem ReadToBuffer_drops {Q} `{ByteQueue Q} {C E} (conn_read : C -> nat -> C * list byte * option E)
    (u sz : Z) (c : BufferConn) (conn_fits : forall s k, (length (conn_read s k).1.2 <= k)%nat)
    (Hq : q_ok u (buf c)) (Hsz : 0 <= sz) (Hu : len (BufferBytes c) + sz <= u) :
  let '(s, d, err) := conn_read (conn c) (Z.to_nat sz) in
  exists c', ReadToBuffer conn_read sz c = Ok (c', len d, err, d) /\ conn c' = s /\
    BufferBytes c' = match err with None => BufferBytes c ++ d | Some _ => BufferBytes c end.
Proof.
  pose proof (ReadToBuffer_ok conn_read conn_fits u sz c Hq Hsz Hu) as Hr.
  destruct (conn_read (conn c) (Z.to_nat sz)) as [[s d] err].
  destruct Hr as (c' & Hr & _ & Hs & Hb). exists c'. split; [done|]. split; [done|].
  rewrite Hb. destruct err; [apply app_nil_r|done].
Qed.

(** *** Witnesses *)

Definition demo_bytes : list byte :=
  [Byte.x01; Byte.x02; Byte.x03; Byte.x04; Byte.x05; Byte.x06; Byte.x07].

(** A connection whose last bytes come with the error. *)
Definition rude_read (s : list byte) (k : nat) : list byte * list byte * option unit :=
  (drop k s, take k s, if (length s <=? k)%nat then Some tt else None).

Lemma rude_fits s k : (length (rude_read s k).1.2 <= k)%nat.
Proof. simpl. rewrite length_take. lia. Qed.

(** Six bytes are read ahead, five of them read, and the last byte comes with the error. *)
Lemma readahead_stream_witness :
  exists c : BufferConn (Q := Buffer),
    run_conn rude_read [CReadToBuffer 6; CRead 3; CRead 2; CReadToBuffer 5; CRead 9; CRead 4]
      (NewBufferConn demo_bytes) = Ok (c, take 6 demo_bytes,
        [Ahead (take 6 demo_bytes) None; Ahead (drop 6 demo_bytes) (Some tt); Direct [] (Some tt)]) /\
    BufferLen c = 0.
Proof.
  assert (Forall (fun o => 0 <= cask o)
    [CReadToBuffer 6; CRead 3; CRead 2; CReadToBuffer 5; CRead 9; CRead 4]) as H1
    by (repeat constructor; vm_compute; discriminate).
  assert (casked [CReadToBuffer 6; CRead 3; CRead 2; CReadToBuffer 5; CRead 9; CRead 4]
    <= 17592186044416) as H2 by (vm_compute; discriminate).
  destruct (readahead_stream (Q := Buffer) rude_read rude_fits _ demo_bytes H1 H2)
    as (c & outs & arrivals & Hr & _ & Hl & Hk & _).
  exists c. split; [|rewrite Hl]; vm_compute in Hr; injection Hr as <- <- <-; vm_compute; done.
Defined.

Lemma ReadToBuffer_drops_witness :
  exists c, ReadToBuffer (Q := Buffer) rude_read 9 (NewBufferConn demo_bytes) =
      Ok (c, 7, Some tt, demo_bytes) /\ BufferBytes c = [] /\ conn c = [].
Proof.
  assert (q_ok 100 (buf (NewBufferConn (Q := Buffer) demo_bytes))) as Hq by (apply q_empty_ok; lia).
  destruct (ReadToBuffer_drops (Q := Buffer) rude_read 100 9 (NewBufferConn demo_bytes) rude_fits Hq)
    as (c & Hr & Hs & Hb); [lia|vm_compute; discriminate|].
  exists c. split; [exact Hr|]. by split.
Defined.
