(* ===== verification/Conn.v ===== *)
(** * A connection ([kcpconn.go], type [KCPConn])

    The operations of one connection, each from taking the mutex to releasing it. The
    methods that block ([Read], [Write]) loop: one round of the loop either returns or
    says that it waits. The packet socket is a parameter; the read buffer is any
    [ByteQueue]. What sequences of these operations do is in [Calls.v], how the threads of
    a connection wait for each other in [Threads.v]. *)
From stdpp Require Import pretty.
From S2P Require Import Prelude GoInt Stats Wire Kcp Serial Send Recv Ack Input Flush Flushed Timer Session Buffer.

(** ** Definitions *)

(** The errors the methods return. *)
Inductive goerr := EEOF | ETimeout | EBrokenPipe.

#[export] Instance goerr_eq_dec : EqDecision goerr.
Proof. solve_decision. Defined.

(** [currentTickMs], of a clock in nanoseconds. *)
Definition currentTickMs (now : Z) : Z := u32 (Z.quot now 1000000).

(** What a round of [Read] or [Write] comes to: the method returns, or it waits for its
    event, for [die], and for the deadline when there is one. *)
Inductive round (A : Type) := Return (a : A) (err : option goerr) | Wait (deadline : option Z).
Arguments Return {A} a err.
Arguments Wait {A} deadline.

Section Conn.
Context `{BufPool} {Q : Type} `{ByteQueue Q}.

(** The packet socket: [WriteTo(p, remoteAddr)] says whether it succeeded. *)
Context {Sock : Type} (WriteTo : Sock -> list byte -> Sock * bool).

(** An event channel has one slot and carries no data: whether the slot is full. [die]
    says whether the channel is closed. A deadline is a time in nanoseconds. *)
Record KCPConn := mkKCPConn {
  kcp : KCP;
  listener : bool;
  isClient : bool;
  conn : option Sock;
  deadlineRead : option Z;
  deadlineWrite : option Z;
  bufRead : Q;
  die : bool;
  chReadEvent : bool;
  chWriteEvent : bool;
  chKcpFlushEvent : bool;
  chUdpInput : list (list byte);
}.
#[global] Instance eta_KCPConn : Eta KCPConn := fun s =>
  mkKCPConn (kcp s) (listener s) (isClient s) (conn s) (deadlineRead s) (deadlineWrite s)
    (bufRead s) (die s) (chReadEvent s) (chWriteEvent s) (chKcpFlushEvent s) (chUdpInput s).

Definition newKCPConn : res KCPConn :=
  k ← new_session 0;
  Ok (mkKCPConn k false false None None None q_empty false false false false []).

Definition notifyReadEvent (s : KCPConn) : KCPConn := s<|chReadEvent := true|>.
Definition notifyWriteEvent (s : KCPConn) : KCPConn := s<|chWriteEvent := true|>.
Definition notifyFlushEvent (s : KCPConn) : KCPConn := s<|chKcpFlushEvent := true|>.

(** [s.kcp.stats.f += ...] *)
Definition count (f : KcpConnStats -> KcpConnStats) (s : KCPConn) : res KCPConn :=
  k ← with_stats f (kcp s); Ok (s<|kcp := k|>).

Definition kcpOutput (pkt : list byte) (s : KCPConn) : res (KCPConn * list event) :=
  match conn s with
  | None => Panic PNil
  | Some c =>
      let '(c, sent) := WriteTo c pkt in
      let s := s<|conn := Some c|> in
      if sent : bool then
        s ← count (fun st => st<|PacketOut := i64 (PacketOut st + 1)|>
                               <|ByteOut := i64 (ByteOut st + len pkt)|>) s;
        Ok (s, [EOutput pkt; EAdd CPacketOut 1; EAdd CByteOut (len pkt)])
      else
        s ← count (fun st => st<|ErrorOutput := i64 (ErrorOutput st + 1)|>) s;
        Ok (s, [EAdd CErrorOutput 1])
  end.

(** The calls of [s.kcp.output] that an operation of the control block made. The counters
    of [kcpOutput] are not read or written by the control block, so that running the calls
    after the operation gives the same counters as running them during it. *)
Fixpoint outputs (tr : list event) (s : KCPConn) : res (KCPConn * list event) :=
  match tr with
  | [] => Ok (s, [])
  | EOutput pkt :: tr =>
      '(s, t1) ← kcpOutput pkt s; '(s, t2) ← outputs tr s; Ok (s, t1 ++ t2)
  | EAdd c d :: tr => '(s, t2) ← outputs tr s; Ok (s, EAdd c d :: t2)
  end.

(** An operation of the control block, with its output. *)
Definition on_kcp (f : KCP -> res (KCP * list event)) (s : KCPConn) : res (KCPConn * list event) :=
  '(k, tr) ← f (kcp s); outputs tr (s<|kcp := k|>).

(** *** Opening and closing *)

(** [accept] and [connect] up to the start of the goroutines. *)
Definition accept (cv : Z) (c : Sock) (s : KCPConn) : KCPConn * list event :=
  (s<|listener := true|><|isClient := false|><|conn := Some c|>
    <|kcp := (kcp s)<|conv := cv|>|>, [EAdd CTotalAccept 1]).

Definition connect (cv : Z) (c : Sock) (s : KCPConn) : KCPConn * list event :=
  (s<|isClient := true|><|conn := Some c|><|kcp := (kcp s)<|conv := cv|>|>,
   [EAdd CTotalConnect 1]).

(** The critical section of [connect]; what follows it is a receive from [chWriteEvent]. *)
Definition connect_flush (now : Z) (s : KCPConn) : res (KCPConn * list event) :=
  on_kcp (fun k => sendConnectFlush k (currentTickMs now)) s.

Definition closeInternal (now : Z) (s : KCPConn) : res (KCPConn * list event * option goerr) :=
  if (if conn s is None then true else false) || isStateLocalClosed (kcp s)
  then Ok (s, [], Some EBrokenPipe)
  else if die s then Panic PClosed
  else
    '(s, tr) ← on_kcp (fun k => sendCloseFlush k (currentTickMs now)) (s<|die := true|>);
    Ok (s, tr, None).

Definition Close (now : Z) (s : KCPConn) : res (KCPConn * list event * option goerr) :=
  closeInternal now s.

(** *** Reading *)

(** The inner loop of [Read]: every complete message goes to [bufRead]. *)
Fixpoint drain (fuel : nat) (s : KCPConn) : res (KCPConn * list event) :=
  match fuel with
  | O => OutOfFuel
  | S fuel =>
      let '(k, n) := recvSize (kcp s) in
      let s := s<|kcp := k|> in
      if n <=? 0 then Ok (s, [])
      else
        '(k, b, _) ← recv (kcp s) (replicate (Z.to_nat n) Byte.x00);
        let s := s<|kcp := k|> in
        q ← q_fill n b (bufRead s);
        let s := s<|bufRead := q|> in
        s ← count (fun st => st<|ByteRx := i64 (ByteRx st + n)|>) s;
        '(s, tr) ← drain fuel s;
        Ok (s, EAdd CByteRx n :: tr)
  end.

(** Every message takes a segment out of the two receive lists. *)
Definition drain_fuel (s : KCPConn) : nat :=
  S (length (rcv_queue (kcp s)) + length (rcv_buf (kcp s))).

(** [Read(b)] with [len(b) = n]. *)
Definition Read (now : Z) (n : nat) (s : KCPConn) : res (KCPConn * list event * round (list byte)) :=
  '(s, t1) ← (if q_len (bufRead s) <? Z.of_nat n then drain (drain_fuel s) s else Ok (s, []));
  '(s, t2) ← (if shouldClose (kcp s) then '(s, tr, _) ← closeInternal now s; Ok (s, tr)
              else Ok (s, []));
  let tr := t1 ++ t2 in
  if q_len (bufRead s) >? 0 then
    '(q, d, eof) ← q_read n (bufRead s);
    Ok (s<|bufRead := q|>, tr, Return d (if eof : bool then Some EEOF else None))
  else if isStateLocalClosed (kcp s) then Ok (s, tr, Return [] (Some EEOF))
  else match deadlineRead s with
       | Some d => if d - now <=? 0 then Ok (s, tr, Return [] (Some ETimeout))
                   else Ok (s, tr, Wait (Some d))
       | None => Ok (s, tr, Wait None)
       end.

(** *** Writing *)

Definition canKcpSendInternal (s : KCPConn) : bool :=
  (waitSnd (kcp s) <? snd_wnd (kcp s)) && isStateConnected (kcp s).

(** [Write(b)]: what it returns is the number of bytes. The source releases [mu] after [send];
    the count of the bytes and the notification of [run], which follow without it, belong to the
    same step here: they touch [stats.ByteTx], which [Write] alone changes, and [chFlushEvent], and
    a flush of [run] that comes before the notification only makes it superfluous. *)
Definition Write (now : Z) (b : list byte) (s : KCPConn) : res (KCPConn * list event * round Z) :=
  if isStateLocalClosed (kcp s) then Ok (s, [], Return 0 (Some EBrokenPipe))
  else if canKcpSendInternal s then
    '(k, ret) ← send (kcp s) b;
    let s := s<|kcp := k|> in
    if ret <? 0 then Panic (PUser ("internal bug, kcp send: " +:+ pretty ret))
    else
      s ← count (fun st => st<|ByteTx := i64 (ByteTx st + len b)|>) s;
      let s := if sndBufAvail (kcp s) >? 0 then notifyFlushEvent s else s in
      Ok (s, [EAdd CByteTx (len b)], Return (len b) None)
  else match deadlineWrite s with
       | Some d => if d - now <=? 0 then Ok (s, [], Return 0 (Some ETimeout))
                   else Ok (s, [], Wait (Some d))
       | None => Ok (s, [], Wait None)
       end.

(** *** Datagrams *)

(** The three parts of [doKcpInput] after [input]: an error is counted, ... *)
Definition count_error (ret : Z) (s : KCPConn) : res (KCPConn * list event) :=
  if negb (ret =? 0)
  then s ← count (fun st => st<|ErrorInput := i64 (ErrorInput st + 1)|>) s;
       Ok (s, [EAdd CErrorInput 1])
  else Ok (s, []).

(** ... the datagram that connects is answered and lets [connect] and [Write] go on, ... *)
Definition answer_connect (alreadyConnected : bool) (now : Z) (s : KCPConn) :
    res (KCPConn * list event) :=
  if negb alreadyConnected && isStateConnected (kcp s)
  then '(s, tr) ← on_kcp (fun k => sendConnectFlush k (currentTickMs now)) s;
       Ok (notifyWriteEvent s, tr)
  else Ok (s, []).

(** ... and a reader is told when it has something to do. *)
Definition wake_reader (s : KCPConn) : KCPConn :=
  let '(k, n) := recvSize (kcp s) in
  let s := s<|kcp := k|> in
  if (n >? 0) || shouldClose (kcp s) then notifyReadEvent s else s.

(** [doKcpInput(data)]; the clock is read at [now] and, for a new connection, at [now']. *)
Definition doKcpInput (now now' : Z) (data : list byte) (s : KCPConn) :
    res (KCPConn * list event) :=
  let alreadyConnected := isStateConnected (kcp s) in
  '(k, ret) ← input (kcp s) (currentTickMs now) data true;
  let s := s<|kcp := k|> in
  '(s, t1) ← count_error ret s;
  '(s, t2) ← answer_connect alreadyConnected now' s;
  let s := wake_reader s in
  s ← count (fun st => st<|PacketIn := i64 (PacketIn st + 1)|><|ByteIn := i64 (ByteIn st + len data)|>) s;
  Ok (s, t1 ++ t2 ++ [EAdd CPacketIn 1; EAdd CByteIn (len data)]).

(** *** The critical sections of [run] *)

(** Of the main loop. *)
Definition run_main (now : Z) (doKcpFlush : bool) (s : KCPConn) : res (KCPConn * list event) :=
  let doKcpFlush := if sndBufAvail (kcp s) >? 0 then true else doKcpFlush in
  '(s, tr) ← on_kcp (fun k => if doKcpFlush then flush k (currentTickMs now)
                              else update k (currentTickMs now)) s;
  Ok (if canKcpSendInternal s then notifyWriteEvent s else s, tr).

(** Between the loops: the close is announced if that has not been done. *)
Definition run_closing (now : Z) (s : KCPConn) : res (KCPConn * list event) :=
  '(s, tr) ← (if negb (isStateLocalClosed (kcp s))
              then on_kcp (fun k => sendCloseFlush k (currentTickMs now)) s
              else Ok (s, []));
  Ok (s, EAdd CConnClosing 1 :: tr).

(** Of the closing loop: whether the peer is dead, the next delay, and whether something
    is still outstanding. *)
Definition run_close (now : Z) (s : KCPConn) :
    res (KCPConn * list event * bool * bool) :=
  '(s, tr) ← on_kcp (fun k => update k (currentTickMs now)) s;
  Ok (s, tr, isStateDead (kcp s), (waitSnd (kcp s) >? 0) || negb (isStateRemoteClosed (kcp s))).

(** *** Settings *)

Definition SetDeadline (t : option Z) (s : KCPConn) : KCPConn :=
  notifyWriteEvent (notifyReadEvent (s<|deadlineRead := t|><|deadlineWrite := t|>)).
Definition SetReadDeadline (t : option Z) (s : KCPConn) : KCPConn :=
  notifyReadEvent (s<|deadlineRead := t|>).
Definition SetWriteDeadline (t : option Z) (s : KCPConn) : KCPConn :=
  notifyWriteEvent (s<|deadlineWrite := t|>).
Definition SetWindowSize (sndwnd rcvwnd : Z) (s : KCPConn) : KCPConn :=
  s<|kcp := (setWndSize sndwnd rcvwnd (kcp s)).1|>.
Definition SetMtu (m : Z) (s : KCPConn) : res KCPConn :=
  '(k, _) ← setMtu m (kcp s); Ok (s<|kcp := k|>).
Definition SetStreamMode (enable : bool) (s : KCPConn) : KCPConn :=
  s<|kcp := (kcp s)<|stream := if enable then 1 else 0|>|>.
Definition SetNoDelay (nd itv resend nc : Z) (s : KCPConn) : KCPConn :=
  s<|kcp := (setNoDelay nd itv resend nc (kcp s)).1|>.
Definition GetConv (s : KCPConn) : Z := conv (kcp s).
End Conn.

(** ** Lemmas: what the control block keeps *)

(** The bytes received and not yet handed over, in order. *)
Definition received (k : KCP) : list byte := seg_bytes (rcv_queue k ++ rcv_buf k).
Definition held (k : KCP) : nat := length (rcv_queue k ++ rcv_buf k).

Lemma received_side k k' : rcv_side k = rcv_side k' -> received k = received k' /\ held k = held k'.
Proof. intros (_ & E1 & E2)%rcv_side_eq. unfold received, held. by rewrite E1, E2. Qed.

Lemma move_ready_conserves k :
  rcv_queue (move_ready k) ++ rcv_buf (move_ready k) = rcv_queue k ++ rcv_buf k.
Proof.
  unfold move_ready. destruct (ready _ _ _ _ _) as [nxt c]. simpl.
  by rewrite <- app_assoc, take_drop.
Qed.

Lemma move_ready_state k : state (move_ready k) = state k.
Proof. unfold move_ready. by destruct (ready _ _ _ _ _). Qed.

Lemma message_count_pos q : q <> [] -> (0 < message_count q)%nat.
Proof. destruct q; [done|]. simpl. lia. Qed.

(** [recvSize] changes the state only when the end of the stream is reached. *)
Lemma recvSize_state k :
  let '(k', n) := recvSize k in
  state k' = state k \/ n = 0 /\ state k' = Z.lor (state k) IKCP_STATE_REMOTE_CLOSED.
Proof.
  unfold recvSize. destruct (rcv_queue k) as [|s q]; [by left|].
  destruct (seg_frg s =? 0); [|destruct (_ <? _); by left].
  destruct (Z.eqb_spec (len (seg_data s)) 0); [by right|by left].
Qed.

Lemma recvSize_twice k : (recvSize (recvSize k).1).2 = (recvSize k).2.
Proof.
  unfold recvSize. destruct (rcv_queue k) as [|s q] eqn:E; [simpl; by rewrite E|].
  destruct (seg_frg s =? 0) eqn:Ef.
  - destruct (len (seg_data s) =? 0); simpl; by rewrite E, Ef.
  - rewrite <- E. destruct (_ <? _) eqn:El; simpl; rewrite E, Ef, <- E, El; done.
Qed.

(** The size depends on the receive queue alone. *)
Lemma recvSize_queue k k' : rcv_queue k' = rcv_queue k -> (recvSize k').2 = (recvSize k).2.
Proof.
  intros E. unfold recvSize. rewrite E. destruct (rcv_queue k); [done|].
  destruct (_ =? 0); [by destruct (_ =? 0)|]. by destruct (_ <? _).
Qed.

(** A message taken: everything else stays, and the state too. *)
Lemma message_taken k n k1 :
  recvSize k = (k1, n) -> 0 < n ->
  exists k2, recv k1 (replicate (Z.to_nat n) Byte.x00) =
      Ok (k2, message_bytes (rcv_queue k), n) /\ n = len (message_bytes (rcv_queue k)) /\
    settings k2 = settings k /\ stats k2 = stats k /\ rest k2 = rest k /\
    snd_side k2 = snd_side k /\ state k2 = state k /\
    received k = message_bytes (rcv_queue k) ++ received k2 /\ (held k2 < held k)%nat.
Proof.
  intros E Hn. apply recvSize_cases in E as [(-> & _)|(-> & Hk)]; [lia|].
  assert (k1 = k) as ->.
  { rewrite Hk. destruct (rcv_queue k) as [|s q] eqn:Eq; [done|].
    destruct (seg_frg s =? 0) eqn:Ef; [|done]. destruct (Z.eqb_spec (len (seg_data s)) 0); [|done].
    exfalso. unfold message_bytes in Hn. simpl in Hn. rewrite Ef in Hn. simpl in Hn.
    rewrite app_nil_r in Hn. lia. }
  rewrite Nat2Z.id.
  destruct (recv_run k (replicate (length (message_bytes (rcv_queue k))) Byte.x00))
    as (k' & -> & p & Hk'); [by rewrite length_replicate|].
  rewrite drop_ge, app_nil_r by (by rewrite length_replicate). clear Hk.
  set (k3 := k<|rcv_queue := _|>) in Hk'.
  destruct (move_ready_frame k3) as (M1 & M2 & M3). pose proof (move_ready_rest k3) as M4.
  pose proof (move_ready_conserves k3) as M5. pose proof (move_ready_state k3) as M6.
  exists k'. rewrite Hk'. split; [done|]. split; [done|].
  split; [exact M1|]. split; [exact M3|]. split; [exact M4|]. split; [exact M2|].
  split; [exact M6|].
  set (k4 := move_ready k3) in *. clearbody k4.
  change (received k4<|probe := p|>) with (received k4). change (held k4<|probe := p|>) with (held k4).
  unfold received, held. rewrite M5. subst k3. simpl.
  rewrite !seg_bytes_app.
  split.
  - rewrite app_assoc. f_equal. unfold message_bytes. fold (seg_bytes (take (message_count (rcv_queue k)) (rcv_queue k))).
    by rewrite <- seg_bytes_app, take_drop.
  - rewrite !length_app, length_drop.
    assert (rcv_queue k <> []) as Hne by (intros Hq; rewrite Hq in Hn; simpl in Hn; lia).
    pose proof (message_count_pos _ Hne). destruct (rcv_queue k); [done|]. simpl length. lia.
Qed.

Lemma flag_lor a i : 0 <= i -> Z.testbit (Z.lor a (2 ^ i)) i = true.
Proof. intros Hi. by rewrite Z.lor_spec, Z.pow2_bits_true, orb_true_r. Qed.

Lemma flag_lor_other a i j : 0 <= i -> i <> j -> Z.testbit (Z.lor a (2 ^ i)) j = Z.testbit a j.
Proof. intros Hi Hn. by rewrite Z.lor_spec, Z.pow2_bits_false, orb_false_r. Qed.

(** *** [input] *)

Section Keep.
Context `{BufPool}.

Lemma parse_data_state k seg k' : parse_data k seg = Ok k' -> state k' = state k.
Proof.
  unfold parse_data. destruct (_ || _); [by intros [= <-]|].
  destruct (find_slot _ _); intros E; res_inv; subst; rewrite move_ready_state; [done|].
  by apply with_stats_Ok_inv in E0 as [st ->].
Qed.

Lemma shrink_buf_state k : state (shrink_buf k) = state k.
Proof. unfold shrink_buf. by destruct (snd_buf k). Qed.

Lemma input_segment_state k a h d k' r :
  len d = h_len h -> len d <= 2048 -> input_segment k a h d = Ok (k', r) ->
  state k' = state k \/ state k' = Z.lor (state k) IKCP_STATE_CONNECTED.
Proof.
  intros Hl Hle. rewrite input_segment_eq by done. cbv zeta.
  assert (state (input_ack_part k h) = state k) as Hs.
  { unfold input_ack_part. by rewrite shrink_buf_state. }
  rewrite <- Hs. set (k0 := input_ack_part k h). clearbody k0. clear Hs.
  destruct (_ =? IKCP_CMD_CONNECT); [destruct (_ =? 0); intros [= <- _]; [by right|by left]|].
  destruct (_ =? IKCP_CMD_ACK).
  { intros [= <- _]. left. rewrite shrink_buf_state. unfold parse_ack.
    destruct (_ || _); [done|]. by destruct (ack_index _ _ _). }
  destruct (_ =? IKCP_CMD_PUSH).
  { destruct (_ <? 0); intros E; res_inv; subst; left; [destruct (_ >=? 0)|].
    - by apply parse_data_state in E0.
    - by apply with_stats_Ok_inv in E0 as [st ->].
    - by apply with_stats_Ok_inv in E0 as [st ->]. }
  destruct (_ =? IKCP_CMD_WASK); [intros [= <- _]; by left|].
  destruct (_ =? IKCP_CMD_WINS); intros [= <- _]; by left.
Qed.

Lemma input_state k t pkt upd k' code :
  len pkt <= 2048 -> input k t pkt upd = Ok (k', code) ->
  state k' = state k \/ state k' = Z.lor (state k) IKCP_STATE_CONNECTED.
Proof.
  intros Hl. set (P := fun x => state x = state k \/ state x = Z.lor (state k) IKCP_STATE_CONNECTED).
  apply (input_ind P); [..|by left|done].
  - intros x a h d x' r Hx _ _ _ Hd Hle E. unfold P in *.
    destruct (input_segment_state _ _ _ _ _ _ Hd Hle E) as [->| ->]; [exact Hx|].
    destruct Hx as [->| ->]; right; [done|]. by rewrite <- Z.lor_assoc, Z.lor_diag.
  - intros x sn Hx. unfold P, parse_fastack. by destruct (_ || _).
  - intros x rtt Hx. unfold P, update_ack. destruct (rx_srtt x =? 0); [done|].
    simpl. by destruct (_ <? 1).
  - intros x una x' Hx. unfold P, input_cwnd. destruct (_ && _); [|by intros [= <-]].
    cbv zeta. intros E. apply bind_Ok_inv in E as (y & E1 & E).
    assert (state y = state x) as Hy.
    { destruct (cwnd x <? ssthresh x); [by injection E1 as <-|].
      apply bind_Ok_inv in E1 as (u & _ & E1).
      destruct (_ <=? _); injection E1 as <-; by destruct (_ <? _). }
    assert (state x' = state y) as -> by (destruct (_ >? _); by injection E as <-).
    by rewrite Hy.
Qed.

(** *** The operations that flush *)

(** What a flush leaves: the connection reads no more of its result than this. *)
Record quiet (k k' : KCP) : Prop := {
  quiet_wf : wf k';
  quiet_state : state k' = state k;
  quiet_rcv : rcv_side k' = rcv_side k;
  quiet_settings : settings k' = settings k;
}.

Lemma quiet_refl k : wf k -> quiet k k.
Proof. by split. Qed.

Lemma flush_quiet k t : wf k -> exists k' tr, flush k t = Ok (k', tr) /\ quiet k k'.
Proof.
  intros Hw. destruct (wf_flush k t Hw) as (x & st & b & tr & gs & -> & Hw' & _).
  do 2 eexists. split; [done|]. split; [done|apply flushed_control|apply flushed_rcv_side|
    apply flushed_settings].
Qed.

Lemma update_quiet k t :
  wf k -> is_u32 t -> exists k' tr, update k t = Ok (k', tr) /\ quiet k k'.
Proof.
  intros Hw Ht. pose proof (wf_ts _ Hw) as Hts. pose proof (wf_interval _ Hw) as Hi.
  rewrite update_eq by (done || lia). destruct (flush_due k t); [|eauto using quiet_refl].
  set (k1 := k<|updated := _|><|ts_flush := next_flush k t|>).
  assert (is_u32 (next_flush k t)) as Hn by (unfold next_flush; destruct (_ && _); apply u32_range).
  assert (wf k1) as Hw1 by by apply wf_clock.
  destruct (flush_quiet k1 t Hw1) as (k' & tr & E & [? Hs Hr Hset]). exists k', tr.
  split; [exact E|]. split; [done|exact Hs|exact Hr|exact Hset].
Qed.

Lemma connect_quiet k t :
  wf k -> exists k' tr, sendConnectFlush k t = Ok (k', tr) /\ quiet k k'.
Proof.
  intros Hw. rewrite sendConnectFlush_eq. destruct (_ && _); [|eauto using quiet_refl].
  destruct (flush_quiet _ t (wf_connecting k Hw)) as (k' & tr & E & [? Hs Hr Hset]).
  exists k', tr. split; [exact E|]. split; [done|exact Hs|exact Hr|exact Hset].
Qed.

(** [sendCloseFlush] of a connected block closes the local side. *)
Lemma close_quiet k t :
  wf k -> exists k' tr, sendCloseFlush k t = Ok (k', tr) /\ wf k' /\
    rcv_side k' = rcv_side k /\ settings k' = settings k /\
    state k' = (if isStateConnected k && negb (isStateLocalClosed k)
                then Z.land (Z.lor (state k) IKCP_STATE_LOCAL_CLOSED)
                       (u32 (Z.lnot IKCP_STATE_CONNECTED)) else state k).
Proof.
  intros Hw. destruct (isStateConnected k && negb (isStateLocalClosed k)) eqn:Hc.
  - rewrite sendCloseFlush_eq by done.
    destruct (flush_quiet _ t (wf_closing k Hw)) as (k' & tr & E & [? Hs Hr Hset]).
    exists k', tr. done.
  - unfold sendCloseFlush. rewrite Hc. by do 2 eexists.
Qed.

Lemma wf_stats k st : wf k -> wf (k<|stats := Some st|>).
Proof. intros Hw. apply (wf_frame k); try done. by eexists. Qed.
End Keep.

(** ** Lemmas: the flags *)

Lemma closed_flags a :
  let b := Z.land (Z.lor a IKCP_STATE_LOCAL_CLOSED) (u32 (Z.lnot IKCP_STATE_CONNECTED)) in
  Z.testbit b 0 = false /\ Z.testbit b 1 = Z.testbit a 1 /\ Z.testbit b 2 = true /\
  Z.testbit b 3 = Z.testbit a 3.
Proof.
  cbv zeta. change (u32 (Z.lnot IKCP_STATE_CONNECTED)) with 4294967294.
  rewrite !Z.land_spec. change (Z.testbit 4294967294 0) with false.
  change (Z.testbit 4294967294 1) with true. change (Z.testbit 4294967294 2) with true.
  change (Z.testbit 4294967294 3) with true. rewrite !andb_true_r, andb_false_r.
  change IKCP_STATE_LOCAL_CLOSED with (2 ^ 2).
  rewrite (flag_lor a 2), (flag_lor_other a 2 1), (flag_lor_other a 2 3) by lia. done.
Qed.

(** The connection has been opened: it is connected, or was and has been closed here. *)
Definition open_flags (k : KCP) : bool := isStateConnected k || isStateLocalClosed k.

(** How the flags of a block may change under an operation, and that the conversation does
    not. *)
Record flags_move (k k' : KCP) : Prop := {
  fm_conv : conv k' = conv k;
  fm_open : open_flags k = true -> open_flags k' = true;
  fm_local : isStateLocalClosed k = true -> isStateLocalClosed k' = true;
  fm_remote : isStateRemoteClosed k = true -> isStateRemoteClosed k' = true;
  fm_dead : isStateDead k' = isStateDead k;
}.

Lemma flags_move_eq k k' : state k' = state k -> conv k' = conv k -> flags_move k k'.
Proof.
  intros E Ec. split; [done|..]; unfold open_flags, isStateConnected, isStateLocalClosed,
    isStateRemoteClosed, isStateDead; by rewrite E.
Qed.

Lemma settings_conv k k' : settings k' = settings k -> conv k' = conv k.
Proof. by intros (? & _)%settings_eq. Qed.

Lemma flags_move_trans k k' k'' : flags_move k k' -> flags_move k' k'' -> flags_move k k''.
Proof. intros [E0 ? ? ? E] [E0' ? ? ? E']. split; auto; by etrans. Qed.

Lemma flags_move_lor k k' i :
  (i = 0 \/ i = 1) -> state k' = Z.lor (state k) (2 ^ i) -> conv k' = conv k -> flags_move k k'.
Proof.
  intros Hi E Ec. split; [done|..]; unfold open_flags;
    rewrite ?isStateConnected_bit, ?isStateLocalClosed_bit, ?isStateRemoteClosed_bit,
      ?isStateDead_bit, E; rewrite !Z.lor_spec; destruct Hi as [-> | ->];
    simpl (Z.testbit (2 ^ _) _); rewrite ?orb_false_r, ?orb_true_r; done.
Qed.

Lemma flags_move_close k k' :
  state k' = Z.land (Z.lor (state k) IKCP_STATE_LOCAL_CLOSED) (u32 (Z.lnot IKCP_STATE_CONNECTED)) ->
  conv k' = conv k ->
  flags_move k k' /\ isStateLocalClosed k' = true /\ isStateConnected k' = false.
Proof.
  intros E Ecv. destruct (closed_flags (state k)) as (B0 & B1 & B2 & B3). rewrite <- E in *.
  rewrite <- isStateConnected_bit in B0. rewrite <- !isStateRemoteClosed_bit in B1.
  rewrite <- isStateLocalClosed_bit in B2. rewrite <- !isStateDead_bit in B3.
  split; [|done]. split; [done|..]; unfold open_flags; rewrite ?B0, ?B1, ?B2, ?B3; done.
Qed.

Section ConnLemmas.
Context `{BufPool} {Q : Type} `{ByteQueue Q} {Sock : Type} (WriteTo : Sock -> list byte -> Sock * bool).
#[local] Abbreviation KCPConn := (KCPConn (Q := Q) (Sock := Sock)).
Implicit Types s : KCPConn.

(** The fields beside the control block and the socket. *)
Definition shell s :=
  (listener s, isClient s, deadlineRead s, deadlineWrite s, bufRead s, die s,
   (chReadEvent s, chWriteEvent s, chKcpFlushEvent s, chUdpInput s)).

Lemma shell_eq s s' : shell s' = shell s ->
  deadlineRead s' = deadlineRead s /\ deadlineWrite s' = deadlineWrite s /\
  bufRead s' = bufRead s /\ die s' = die s /\ chReadEvent s' = chReadEvent s /\
  chWriteEvent s' = chWriteEvent s /\ chKcpFlushEvent s' = chKcpFlushEvent s /\
  chUdpInput s' = chUdpInput s.
Proof. unfold shell. by intros [= _ _ -> -> -> -> -> -> -> ->]. Qed.

(** What only [run], the network and the writer look at. *)
Definition inbox s := (chUdpInput s, chWriteEvent s).

Lemma inbox_eq s s' : inbox s' = inbox s ->
  chUdpInput s' = chUdpInput s /\ chWriteEvent s' = chWriteEvent s.
Proof. by intros [= -> ->]. Qed.

Lemma shell_inbox s s' : shell s' = shell s -> inbox s' = inbox s.
Proof. intros (_ & _ & _ & _ & _ & E1 & _ & E2)%shell_eq. unfold inbox. by rewrite E1, E2. Qed.

Lemma count_ok f s :
  has_stats (kcp s) -> exists st, count f s = Ok (s<|kcp := (kcp s)<|stats := Some st|>|>).
Proof. intros Hs. unfold count. destruct (with_stats_ok f _ Hs) as [st ->]. by exists st. Qed.

(** Output changes the counters and the socket, and whether or not the socket takes them,
    sends nothing but the datagrams it is given. *)
Lemma outputs_ok tr s :
  is_Some (conn s) -> has_stats (kcp s) ->
  exists s' tr' st, outputs WriteTo tr s = Ok (s', tr') /\ shell s' = shell s /\
    is_Some (conn s') /\ kcp s' = (kcp s)<|stats := Some st|> /\
    packets_of tr' ⊆ packets_of tr.
Proof.
  revert s. induction tr as [|[pkt|c d] tr IH]; intros s Hc Hs; simpl.
  - destruct Hs as [st Hst]. exists s, [], st. split_and!; try done.
    rewrite <- Hst. by destruct (kcp s).
  - unfold kcpOutput. destruct Hc as [c Hc]. rewrite Hc. destruct (WriteTo c pkt) as [c' sent].
    set (s1 := s<|conn := Some c'|>).
    assert (forall f (t1 : list event), packets_of t1 ⊆ [pkt] -> exists s' tr' st,
      (p1 ← (s2 ← count f s1; Ok (s2, t1));
       p2 ← outputs WriteTo tr p1.1; Ok (p2.1, p1.2 ++ p2.2)) = Ok (s', tr') /\
      shell s' = shell s /\ is_Some (conn s') /\ kcp s' = (kcp s)<|stats := Some st|> /\
      packets_of tr' ⊆ pkt :: packets_of tr) as Hgo.
    { intros f t1 Ht1. destruct (count_ok f s1 Hs) as [st ->]. cbn [mbind res_bind fst snd].
      set (s2 := s1<|kcp := _|>).
      destruct (IH s2) as (s' & tr' & st' & -> & Hsh & Hc' & Hk & Hp); [by eexists|by eexists|].
      cbn [mbind res_bind fst snd]. exists s', (t1 ++ tr'), st'. split; [done|]. split; [exact Hsh|].
      split; [done|]. split; [exact Hk|]. rewrite packets_of_app.
      intros x [Hx|Hx]%elem_of_app; [|right; by apply Hp].
      apply Ht1, list_elem_of_singleton in Hx as ->. left. }
    destruct sent.
    + destruct (Hgo (fun st => st<|PacketOut := i64 (PacketOut st + 1)|>
                                 <|ByteOut := i64 (ByteOut st + len pkt)|>)
        [EOutput pkt; EAdd CPacketOut 1; EAdd CByteOut (len pkt)]) as (s' & tr' & st & E & Hr); [done|].
      exists s', tr', st. split; [|exact Hr]. revert E.
      destruct (count _ _) as [s2| |]; cbn [mbind res_bind]; [|done..].
      by destruct (outputs _ _ _) as [[]| |].
    + destruct (Hgo (fun st => st<|ErrorOutput := i64 (ErrorOutput st + 1)|>) [EAdd CErrorOutput 1])
        as (s' & tr' & st & E & Hr); [by intros x ?%elem_of_nil|].
      exists s', tr', st. split; [|exact Hr]. revert E.
      destruct (count _ _) as [s2| |]; cbn [mbind res_bind]; [|done..].
      by destruct (outputs _ _ _) as [[]| |].
  - destruct (IH s Hc Hs) as (s' & tr' & st & -> & Hsh & Hc' & Hk & Hp).
    cbn [mbind res_bind]. by exists s', (EAdd c d :: tr'), st.
Qed.

Lemma on_kcp_ok f s k tr :
  f (kcp s) = Ok (k, tr) -> is_Some (conn s) -> wf k ->
  exists s' tr' st, on_kcp WriteTo f s = Ok (s', tr') /\ shell s' = shell s /\
    is_Some (conn s') /\ kcp s' = k<|stats := Some st|> /\ wf (kcp s') /\
    packets_of tr' ⊆ packets_of tr.
Proof.
  intros E Hc Hw. unfold on_kcp. rewrite E. cbn [mbind res_bind].
  pose proof (fr_stats _ (wf_ready _ Hw)) as Hst. set (s1 := s<|kcp := k|>).
  destruct (outputs_ok tr s1 Hc Hst)
    as (s' & tr' & st & E' & Hsh & Hc' & Hk & Hp).
  exists s', tr', st. split; [exact E'|]. split; [exact Hsh|]. split; [done|].
  split; [exact Hk|]. split; [|done]. rewrite Hk. by apply wf_stats.
Qed.

(** ** Invariant *)

Definition memory := 17592186044416.

Record conn_ok s : Prop := {
  ok_wf : wf (kcp s);
  ok_conn : is_Some (conn s);
  ok_buf : q_ok memory (bufRead s);
  ok_die : die s = true -> isStateLocalClosed (kcp s) = true;
  ok_dead : isStateDead (kcp s) = false;
}.

(** The stream on its way to the reader: what [bufRead] holds, then what the control block
    has received. *)
Definition stored s : list byte := q_contents (bufRead s) ++ received (kcp s).

Lemma conn_ok_quiet s s' k st :
  conn_ok s -> quiet (kcp s) k -> kcp s' = k<|stats := Some st|> -> wf (kcp s') ->
  shell s' = shell s -> is_Some (conn s') ->
  conn_ok s' /\ stored s' = stored s /\ flags_move (kcp s) (kcp s') /\ state (kcp s') = state (kcp s).
Proof.
  intros [H1 H2 H3 H4 H5] [_ Hs Hr Hset%settings_conv] Hk Hw Hsh Hc.
  destruct (shell_eq _ _ Hsh) as (_ & _ & Eb & Ed & _).
  assert (state (kcp s') = state (kcp s)) as Es by (by rewrite Hk).
  assert (conv (kcp s') = conv (kcp s)) as Ecv by (by rewrite Hk).
  pose proof (flags_move_eq _ _ Es Ecv) as Hf.
  split; [split|split; [|done]]; rewrite ?Eb, ?Ed; try done.
  - intros Hd. by apply (fm_local _ _ Hf), H4.
  - by rewrite (fm_dead _ _ Hf).
  - unfold stored. rewrite Eb. f_equal. apply received_side. rewrite Hk. exact Hr.
Qed.
(** *** Closing *)

Lemma close_refused now s :
  isStateLocalClosed (kcp s) = true ->
  closeInternal WriteTo now s = Ok (s, [], Some EBrokenPipe).
Proof. intros Hl. unfold closeInternal. by rewrite Hl, orb_true_r. Qed.

Lemma close_ok now s :
  conn_ok s -> isStateConnected (kcp s) = true -> isStateLocalClosed (kcp s) = false ->
  exists s' tr, closeInternal WriteTo now s = Ok (s', tr, None) /\ conn_ok s' /\
    stored s' = stored s /\ flags_move (kcp s) (kcp s') /\ die s' = true /\
    isStateLocalClosed (kcp s') = true /\ isStateConnected (kcp s') = false /\
    bufRead s' = bufRead s /\ chReadEvent s' = chReadEvent s /\
    deadlineRead s' = deadlineRead s /\ deadlineWrite s' = deadlineWrite s /\
    (recvSize (kcp s')).2 = (recvSize (kcp s)).2 /\ inbox s' = inbox s.
Proof.
  intros [H1 H2 H3 H4 H5] Hcon Hl. unfold closeInternal. destruct H2 as [c H2]. rewrite H2, Hl.
  assert (die s = false) as -> by (destruct (die s); [by rewrite H4 in Hl by done|done]).
  cbn [orb]. destruct (close_quiet (kcp s) (currentTickMs now) H1) as (k & tr & E & Hw & Hr & Hset%settings_conv & Hst).
  rewrite Hcon, Hl in Hst. cbn [andb negb] in Hst. set (s1 := s<|die := true|>).
  destruct (on_kcp_ok (fun k => sendCloseFlush k (currentTickMs now)) s1 k tr E) as
    (s' & tr' & st & -> & Hsh & Hc & Hk & Hw' & _); [by exists c|done|].
  cbn [mbind res_bind]. exists s', tr'. split; [done|].
  assert (state (kcp s') = state k) as Es by (by rewrite Hk). rewrite Hst in Es.
  assert (conv (kcp s') = conv (kcp s)) as Ecv by (rewrite Hk; exact Hset).
  destruct (flags_move_close _ _ Es Ecv) as (Hf & Hl' & Hc').
  destruct (shell_eq _ _ Hsh) as (E1 & E2 & Eb & Ed & Er & _).
  assert (rcv_side (kcp s') = rcv_side (kcp s)) as Hr' by (rewrite Hk; exact Hr).
  split; [split; rewrite ?Eb; try done; by rewrite (fm_dead _ _ Hf)|].
  split; [unfold stored; rewrite Eb; f_equal; by apply received_side|].
  do 8 (split; [done|]). split; [|by apply (shell_inbox s1)]. apply recvSize_queue. by apply rcv_side_eq in Hr' as (_ & ? & _).
Qed.

(** *** Draining *)

(** What the inner loop of [Read] keeps besides moving bytes from the control block to
    [bufRead]. *)
Record drained s s' : Prop := {
  dr_ok : conn_ok s';
  dr_stored : stored s' = stored s;
  dr_flags : flags_move (kcp s) (kcp s');
  dr_connected : isStateConnected (kcp s') = isStateConnected (kcp s);
  dr_closed : isStateLocalClosed (kcp s') = isStateLocalClosed (kcp s);
  dr_die : die s' = die s;
  dr_event : chReadEvent s' = chReadEvent s;
  dr_deadline : deadlineRead s' = deadlineRead s;
  dr_empty : (recvSize (kcp s')).2 <= 0;
  dr_inbox : inbox s' = inbox s;
}.

(** One message on its way from the control block to [bufRead]. *)
Lemma drain_message s k n :
  conn_ok s -> recvSize (kcp s) = (k, n) -> 0 < n -> len (stored s) <= memory ->
  exists k2 d q st, recv k (replicate (Z.to_nat n) Byte.x00) = Ok (k2, d, n) /\
    q_fill n d (bufRead s) = Ok q /\ q_contents q = q_contents (bufRead s) ++ d /\
    let s1 := s<|kcp := k|><|kcp := k2|><|bufRead := q|> in
    let s2 := s1<|kcp := k2<|stats := Some st|>|> in
    count (fun st => st<|ByteRx := i64 (ByteRx st + n)|>) s1 = Ok s2 /\
    conn_ok s2 /\ stored s2 = stored s /\ (held (kcp s2) < held (kcp s))%nat /\
    state (kcp s2) = state (kcp s) /\ conv (kcp s2) = conv (kcp s).
Proof.
  intros [H1 H2 H3 H4 H5] E Hn Hm.
  destruct (message_taken _ _ _ E Hn) as (k2 & E2 & Hnl & G1 & G2 & G3 & G4 & G5 & G6 & G7).
  assert (len (stored s) = len (q_contents (bufRead s)) + n + len (received k2)) as Hls
    by (unfold stored; rewrite G6, !length_app; lia).
  destruct (q_fill_ok memory (bufRead s) n (message_bytes (rcv_queue (kcp s))) H3)
    as (q & rest & Eq & Hq & Hcq & Hlr); [lia|lia|].
  assert (rest = []) as -> by (apply length_zero_iff_nil; lia). rewrite app_nil_r in Hcq.
  assert (wf k2) as Hw2.
  { apply (wf_frame (kcp s)); try done. unfold has_stats. rewrite G2. apply H1. }
  destruct (count_ok (fun st => st<|ByteRx := i64 (ByteRx st + n)|>) (s<|kcp := k|><|kcp := k2|><|bufRead := q|>))
    as [st Ec]; [apply Hw2|].
  exists k2, (message_bytes (rcv_queue (kcp s))), q, st. do 3 (split; [done|]). cbv zeta.
  split; [exact Ec|]. set (s2 := _<|kcp := k2<|stats := Some st|>|>).
  assert (flags_move (kcp s) (kcp s2)) as Hfm
    by (apply flags_move_eq; [done|exact (settings_conv _ _ G1)]).
  split.
  { split; try done.
    - apply (wf_stats k2 st Hw2).
    - intros Hd. by apply (fm_local _ _ Hfm), H4.
    - by rewrite (fm_dead _ _ Hfm). }
  split; [|split; [done|split; [done|exact (settings_conv _ _ G1)]]].
  unfold stored. change (bufRead s2) with q. change (received (kcp s2)) with (received k2).
  by rewrite Hcq, G6, app_assoc.
Qed.

Lemma drain_ok fuel s :
  conn_ok s -> (held (kcp s) < fuel)%nat -> len (stored s) <= memory ->
  exists s' tr, drain fuel s = Ok (s', tr) /\ drained s s' /\ packets_of tr = [].
Proof.
  revert s. induction fuel as [|fuel IH]; intros s Hok Hf Hm; [lia|].
  pose proof Hok as [H1 H2 H3 H4 H5]. cbn [drain].
  destruct (recvSize (kcp s)) as [k n] eqn:E.
  destruct (recvSize_frame _ _ _ E) as (F1 & F2 & F3 & F4 & F5).
  pose proof (recvSize_state (kcp s)) as Hst. rewrite E in Hst.
  destruct (Z.leb_spec n 0) as [Hn|Hn].
  - pose proof (settings_conv _ _ F1) as Ecv.
    set (s1 := s<|kcp := k|>). exists s1, []. split; [done|]. split; [|done].
    assert (flags_move (kcp s) k /\ isStateConnected k = isStateConnected (kcp s) /\
      isStateLocalClosed k = isStateLocalClosed (kcp s)) as (Hfm & Hc & Hl).
    { destruct Hst as [Es|[_ Es]].
      - split; [by apply flags_move_eq|]. unfold isStateConnected, isStateLocalClosed. by rewrite Es.
      - split; [apply (flags_move_lor _ _ 1); auto|].
        rewrite !isStateConnected_bit, !isStateLocalClosed_bit, Es.
        by rewrite (flag_lor_other _ 1 0), (flag_lor_other _ 1 2) by lia. }
    split; try done.
    + split; try done; [|by intros Hd; change (isStateLocalClosed k = true); rewrite Hl; auto
        |by change (isStateDead k = false); rewrite (fm_dead _ _ Hfm)].
      apply (wf_frame (kcp s)); try done. unfold has_stats. change (kcp s1) with k. rewrite F2. apply H1.
    + unfold stored. change (kcp s1) with k. f_equal. by apply received_side.
    + change (kcp s1) with k. pose proof (recvSize_twice (kcp s)) as Ht. rewrite E in Ht. simpl in Ht.
      lia.
  - destruct (drain_message s k n Hok E Hn Hm) as (k2 & d & q & st & E2 & Eq & _ & Ec & Hok2 & Hs2 & Hh & Hst2 & Hcv).
    change (kcp (s<|kcp := k|>)) with k. rewrite E2. cbn [mbind res_bind].
    change (bufRead (s<|kcp := k|><|kcp := k2|>)) with (bufRead s). rewrite Eq. cbn [mbind res_bind].
    rewrite Ec. cbn [mbind res_bind]. set (s2 := _<|kcp := k2<|stats := Some st|>|>) in *.
    assert (flags_move (kcp s) (kcp s2)) as Hfm by by apply flags_move_eq.
    destruct (IH s2 Hok2) as (s' & tr & -> & [D1 D2 D3 D4 D5 D6 D7 D8 D9 D10] & Hp);
      [lia|by rewrite Hs2|].
    exists s', (EAdd CByteRx n :: tr). split; [done|]. split; [|done].
    split; try done; try congruence.
    + by eapply flags_move_trans.
    + rewrite D4. unfold isStateConnected. by rewrite Hst2.
    + rewrite D5. unfold isStateLocalClosed. by rewrite Hst2.
Qed.
(** *** Reading *)

(** The end of the stream can only be acted on when the connection is open (see
    [Calls.unopened_close_panics] for a peer that ends the stream without opening it). *)
Definition may_read s : Prop :=
  open_flags (kcp s) = true \/ (rcv_queue (kcp s) = [] /\ isStateRemoteClosed (kcp s) = false).

(** The part of [Read] before it looks at [bufRead]. *)
Definition read_prepare (now : Z) (n : nat) s : res (KCPConn * list event) :=
  '(s, t1) ← (if q_len (bufRead s) <? Z.of_nat n then drain (drain_fuel s) s else Ok (s, []));
  '(s, t2) ← (if shouldClose (kcp s) then '(s, tr, _) ← closeInternal WriteTo now s; Ok (s, tr)
              else Ok (s, []));
  Ok (s, t1 ++ t2).

Lemma Read_eq now n s :
  Read WriteTo now n s =
    '(s, tr) ← read_prepare now n s;
    if q_len (bufRead s) >? 0 then
      '(q, d, eof) ← q_read n (bufRead s);
      Ok (s<|bufRead := q|>, tr, Return d (if eof : bool then Some EEOF else None))
    else if isStateLocalClosed (kcp s) then Ok (s, tr, Return [] (Some EEOF))
    else match deadlineRead s with
         | Some d => if d - now <=? 0 then Ok (s, tr, Return [] (Some ETimeout))
                     else Ok (s, tr, Wait (Some d))
         | None => Ok (s, tr, Wait None)
         end.
Proof.
  unfold Read, read_prepare.
  destruct (if q_len (bufRead s) <? Z.of_nat n then _ else _) as [[s1 t1]| |]; [|done..].
  cbn [mbind res_bind]. destruct (if shouldClose (kcp s1) then _ else _) as [[s2 t2]| |]; done.
Qed.

Lemma drain_nothing fuel s :
  rcv_queue (kcp s) = [] -> drain (S fuel) s = Ok (s, []).
Proof.
  intros Hq. cbn [drain]. unfold recvSize. rewrite Hq. simpl. by destruct s.
Qed.

Lemma read_prepare_ok now n s :
  conn_ok s -> may_read s -> len (stored s) <= memory ->
  exists s' tr, read_prepare now n s = Ok (s', tr) /\ conn_ok s' /\ stored s' = stored s /\
    flags_move (kcp s) (kcp s') /\ chReadEvent s' = chReadEvent s /\
    deadlineRead s' = deadlineRead s /\
    (len (q_contents (bufRead s')) < Z.of_nat n -> (recvSize (kcp s')).2 <= 0) /\
    (isStateRemoteClosed (kcp s') = true -> isStateLocalClosed (kcp s') = true) /\
    (isStateLocalClosed (kcp s) = false -> isStateLocalClosed (kcp s') = true ->
       isStateRemoteClosed (kcp s') = true /\ die s' = true) /\ inbox s' = inbox s /\
    (isStateLocalClosed (kcp s) = true -> die s' = die s).
Proof.
  intros Hok Hr Hm. unfold read_prepare. rewrite (q_len_ok memory) by apply Hok.
  set (D := if len (q_contents (bufRead s)) <? Z.of_nat n then _ else _).
  assert (exists s1 t1, D = Ok (s1, t1) /\ conn_ok s1 /\ stored s1 = stored s /\
    flags_move (kcp s) (kcp s1) /\ chReadEvent s1 = chReadEvent s /\
    deadlineRead s1 = deadlineRead s /\ isStateConnected (kcp s1) = isStateConnected (kcp s) /\
    isStateLocalClosed (kcp s1) = isStateLocalClosed (kcp s) /\ (may_read s1) /\
    (inbox s1 = inbox s /\ die s1 = die s) /\ (len (q_contents (bufRead s1)) < Z.of_nat n -> (recvSize (kcp s1)).2 <= 0))
    as (s1 & t1 & -> & Hok1 & Hs1 & Hf1 & He1 & Hd1 & Hc1 & Hl1 & Hr1 & [Hi1 Hdi1] & Hn1).
  { subst D. destruct (Z.ltb_spec (len (q_contents (bufRead s))) (Z.of_nat n)) as [Hlt|Hge].
    - destruct (drain_ok (drain_fuel s) s Hok) as (s1 & t1 & E & [D1 D2 D3 D4 D5 D6 D7 D8 D9 D10] & _);
        [unfold held, drain_fuel; rewrite length_app; lia|done|].
      exists s1, t1. rewrite E. do 8 (split; [done|]). split; [|by split].
      destruct Hr as [Ho|[Hq Hrc]]; [left; by apply (fm_open _ _ D3)|].
      unfold drain_fuel in E. rewrite drain_nothing in E by done. injection E as <- _. by right.
    - exists s, []. do 8 (split; [done|]). split; [done|]. split; [done|]. lia. }
  cbn [mbind res_bind]. rewrite shouldClose_flags.
  destruct (isStateRemoteClosed (kcp s1)) eqn:Erc, (isStateLocalClosed (kcp s1)) eqn:Elc; cbn [andb negb].
  - exists s1, (t1 ++ []). split; [done|]. do 6 (split; [done|]). split; [congruence|]. split; [congruence|by split].
  - destruct Hr1 as [Ho|[_ Hx]]; [|congruence].
    unfold open_flags in Ho. rewrite Elc, orb_false_r in Ho.
    destruct (close_ok now s1 Hok1 Ho Elc) as
      (s2 & t2 & -> & Hok2 & Hs2 & Hf2 & Hdie & Hl2 & _ & Hb2 & He2 & Hd2 & _ & Hz2 & Hi2).
    cbn [mbind res_bind]. exists s2, (t1 ++ t2). split; [done|]. split; [done|].
    split; [congruence|]. split; [by eapply flags_move_trans|]. split; [congruence|].
    split; [congruence|]. split; [|split; [done|split; [|split; congruence]]].
    + rewrite Hb2, Hz2. done.
    + intros _ _. split; [|done]. by apply (fm_remote _ _ Hf2).
  - exists s1, (t1 ++ []). split; [done|]. do 6 (split; [done|]). split; [congruence|]. split; [congruence|by split].
  - exists s1, (t1 ++ []). split; [done|]. do 6 (split; [done|]). split; [congruence|]. split; [congruence|by split].
Qed.

(** What one round of [Read] comes to. *)
Definition read_result (now : Z) (n : nat) s s' (r : round (list byte)) : Prop :=
  match r with
  | Return d err =>
      stored s = d ++ stored s' /\ (length d <= n)%nat /\
      match err with
      | None => n <> 0%nat -> d <> []
      | Some EEOF => d = [] /\ isStateLocalClosed (kcp s') = true /\ q_contents (bufRead s') = [] /\
          (n <> 0%nat -> (recvSize (kcp s')).2 <= 0)
      | Some ETimeout => d = [] /\ exists t, deadlineRead s = Some t /\ t <= now
      | Some EBrokenPipe => False
      end
  | Wait dl =>
      stored s' = stored s /\ q_contents (bufRead s') = [] /\ dl = deadlineRead s /\
      (n <> 0%nat -> (recvSize (kcp s')).2 <= 0) /\
      isStateLocalClosed (kcp s') = false /\ isStateRemoteClosed (kcp s') = false
  end.

Lemma Read_round_ok now n s :
  conn_ok s -> may_read s -> len (stored s) <= memory ->
  exists s' tr r, Read WriteTo now n s = Ok (s', tr, r) /\ conn_ok s' /\
    flags_move (kcp s) (kcp s') /\ (deadlineRead s' = deadlineRead s /\ inbox s' = inbox s /\
      (isStateLocalClosed (kcp s) = true -> die s' = die s)) /\
    read_result now n s s' r.
Proof.
  intros Hok Hr Hm. rewrite Read_eq.
  destruct (read_prepare_ok now n s Hok Hr Hm) as
    (s1 & tr & -> & Hok1 & Hs1 & Hf1 & He1 & Hd1 & Hn1 & Hc1 & _ & Hi1 & Hdi1).
  cbn [mbind res_bind]. rewrite (q_len_ok memory) by apply Hok1.
  destruct (Z.gtb_spec (len (q_contents (bufRead s1))) 0) as [Hgt|Hle].
  - destruct (q_read_ok memory (bufRead s1) n (ok_buf _ Hok1)) as (q & -> & Hq & Hcq).
    cbn [mbind res_bind].
    assert (q_contents (bufRead s1) <> []) as Hne by (intros E; rewrite E in Hgt; simpl in Hgt; lia).
    rewrite (bool_decide_eq_false_2 _ Hne). cbn [andb].
    set (s2 := s1<|bufRead := q|>). do 3 eexists. split; [done|].
    split; [by destruct Hok1; split|]. split; [done|]. split; [done|].
    cbn [read_result]. split; [|split].
    + rewrite <- Hs1. unfold stored. change (bufRead s2) with q. change (kcp s2) with (kcp s1).
      by rewrite Hcq, app_assoc, take_drop.
    + rewrite length_take. lia.
    + intros Hn0. destruct (q_contents (bufRead s1)), n; done.
  - assert (q_contents (bufRead s1) = []) as Hnil by (apply length_zero_iff_nil; lia).
    rewrite Hnil in Hn1. simpl in Hn1.
    destruct (isStateLocalClosed (kcp s1)) eqn:El.
    { do 3 eexists. split; [done|]. do 3 (split; [done|]). simpl.
      split; [done|]. split; [lia|]. do 3 (split; [done|]). intros Hn0. apply Hn1. lia. }
    assert (read_result now n s s1 (Wait (deadlineRead s))) as Hwait.
    { simpl. do 3 (split; [done|]). split; [intros Hn0; apply Hn1; lia|]. split; [done|].
      destruct (isStateRemoteClosed (kcp s1)); [|done]. by specialize (Hc1 eq_refl). }
    rewrite Hd1. destruct (deadlineRead s) as [t|] eqn:Ed.
    + destruct (Z.leb_spec (t - now) 0).
      * do 3 eexists. split; [done|]. do 3 (split; [done|]). simpl. rewrite Hs1.
        split; [done|]. split; [lia|]. split; [done|]. exists t. split; [done|lia].
      * by do 3 eexists.
    + by do 3 eexists.
Qed.
(** Nothing that a waiting reader looks at has changed. *)
Record undisturbed s s' : Prop := {
  ud_buf : bufRead s' = bufRead s;
  ud_die : die s' = die s;
  ud_deadline : deadlineRead s' = deadlineRead s;
  ud_event : chReadEvent s' = chReadEvent s;
  ud_state : state (kcp s') = state (kcp s);
  ud_rcv : rcv_side (kcp s') = rcv_side (kcp s);
}.

Lemma undisturbed_refl s : undisturbed s s.
Proof. done. Qed.

Lemma undisturbed_shell s s' :
  shell s' = shell s -> state (kcp s') = state (kcp s) -> rcv_side (kcp s') = rcv_side (kcp s) ->
  undisturbed s s'.
Proof. intros (? & _ & ? & ? & ? & _)%shell_eq ? ?. done. Qed.

(** *** Writing *)

(** What [kcp.send] accepts. *)
Definition sendable (k : KCP) (b : list byte) : Prop :=
  b <> [] /\ (stream k = 0 -> len (chunks (Z.to_nat (mss k)) b) <= 255).

Lemma send_accepts k b :
  wf k -> len b < 4294967296 -> sendable k b ->
  exists k', send k b = Ok (k', 0) /\ wf k' /\ k' = k<|snd_queue := snd_queue k'|> /\
    seg_bytes (snd_queue k') = seg_bytes (snd_queue k) ++ b.
Proof.
  intros Hw Hb [Hne Hfr]. destruct (wf_send k b Hw Hb) as (k' & code & E & Hw' & Hk & Hc).
  destruct Hc as [[-> Hc]|[Hq ->]]; [|by exists k'].
  exfalso. rewrite send_ok in E by (done || by apply wf_mss_range). revert E. cbv zeta.
  destruct (Z.eqb_spec (len b) 0) as [Hz|]; [destruct b; [done|simpl in Hz; lia]|].
  destruct (Z.eqb_spec (stream k) 0) as [Hs|]; [|intros [= _ <-]; lia].
  destruct (Z.gtb_spec (len (chunks (Z.to_nat (mss k)) b)) 255); [specialize (Hfr Hs); lia|].
  intros [= _ <-]. lia.
Qed.

Definition write_result (now : Z) (b : list byte) s s' (r : round Z) : Prop :=
  match r with
  | Return n None =>
      n = len b /\ isStateLocalClosed (kcp s) = false /\ canKcpSendInternal s = true /\
      seg_bytes (snd_queue (kcp s')) = seg_bytes (snd_queue (kcp s)) ++ b /\
      (sndBufAvail (kcp s') > 0 -> chKcpFlushEvent s' = true)
  | Return n (Some EBrokenPipe) => s' = s /\ n = 0 /\ isStateLocalClosed (kcp s) = true
  | Return n (Some ETimeout) => s' = s /\ n = 0 /\ canKcpSendInternal s = false /\
      exists t, deadlineWrite s = Some t /\ t <= now
  | Return _ (Some EEOF) => False
  | Wait dl => s' = s /\ canKcpSendInternal s = false /\ isStateLocalClosed (kcp s) = false /\
      dl = deadlineWrite s
  end.

Lemma Write_round_ok now b s :
  conn_ok s -> len b < 4294967296 -> sendable (kcp s) b ->
  exists s' tr r, Write now b s = Ok (s', tr, r) /\ conn_ok s' /\ stored s' = stored s /\
    flags_move (kcp s) (kcp s') /\ (undisturbed s s' /\ inbox s' = inbox s) /\ write_result now b s s' r.
Proof.
  intros Hok Hb Hsd. unfold Write. pose proof (flags_move_eq (kcp s) (kcp s) eq_refl eq_refl) as Hf.
  destruct (isStateLocalClosed (kcp s)) eqn:El; [by do 3 eexists|].
  destruct (canKcpSendInternal s) eqn:Ec.
  - destruct (send_accepts (kcp s) b (ok_wf _ Hok) Hb Hsd) as (k & -> & Hw & Hk & Hq).
    cbn [mbind res_bind]. cbn [Z.ltb Z.compare]. set (s1 := s<|kcp := k|>).
    destruct (count_ok (fun st => st<|ByteTx := i64 (ByteTx st + len b)|>) s1) as [st ->]; [apply Hw|].
    cbn [mbind res_bind]. set (s2 := s1<|kcp := (kcp s1)<|stats := Some st|>|>).
    set (s3 := if sndBufAvail (kcp s2) >? 0 then _ else s2).
    assert (kcp s3 = k<|stats := Some st|> /\ bufRead s3 = bufRead s /\ die s3 = die s /\
      conn s3 = conn s /\ (chReadEvent s3 = chReadEvent s /\ deadlineRead s3 = deadlineRead s) /\
      (sndBufAvail (kcp s3) > 0 -> chKcpFlushEvent s3 = true)) as (Ek & Eb & Ed & Ecn & [Er Edl] & Ef).
    { subst s3. destruct (Z.gtb_spec (sndBufAvail (kcp s2)) 0); do 5 (split; [done|]); [done|lia]. }
    assert (undisturbed s s3 /\ inbox s3 = inbox s) as Hud.
    { split; [split; try done; by rewrite Ek, Hk|]. subst s3. by destruct (_ >? 0). }
    assert (flags_move (kcp s) (kcp s3)) as Hf3 by (apply flags_move_eq; by rewrite Ek, Hk).
    do 3 eexists. split; [done|]. split; [|split; [|split; [done|split; [done|]]]].
    + destruct Hok. split; rewrite ?Eb, ?Ed, ?Ecn; try done.
      * rewrite Ek. by apply wf_stats.
      * intros Hd. by apply (fm_local _ _ Hf3), ok_die0.
      * by rewrite (fm_dead _ _ Hf3).
    + unfold stored. rewrite Eb. f_equal. apply received_side. by rewrite Ek, Hk.
    + do 3 (split; [done|]). split; [by rewrite Ek|done].
  - destruct (deadlineWrite s) as [t|] eqn:Ed.
    + destruct (Z.leb_spec (t - now) 0).
      * do 3 eexists. split; [done|]. do 4 (split; [done|]). simpl. do 3 (split; [done|]).
        exists t. split; [done|lia].
      * by do 3 eexists.
    + by do 3 eexists.
Qed.

(** *** Datagrams *)

(** What the parts of [doKcpInput] after [input] leave alone. *)
Record kept s s' : Prop := {
  kp_wf : wf (kcp s');
  kp_conn : is_Some (conn s');
  kp_buf : bufRead s' = bufRead s;
  kp_die : die s' = die s;
  kp_deadlines : deadlineRead s' = deadlineRead s /\ deadlineWrite s' = deadlineWrite s;
  kp_flush : chKcpFlushEvent s' = chKcpFlushEvent s;
  kp_input : chUdpInput s' = chUdpInput s;
  kp_rcv : rcv_side (kcp s') = rcv_side (kcp s);
  kp_conv : conv (kcp s') = conv (kcp s);
}.

Lemma kept_trans s s' s'' : kept s s' -> kept s' s'' -> kept s s''.
Proof. intros [? ? ? ? [] ? ? ? ?] [? ? ? ? [] ? ? ? ?]. split; try done; try split; congruence. Qed.

Lemma kept_shell s s' :
  shell s' = shell s -> wf (kcp s') -> is_Some (conn s') -> rcv_side (kcp s') = rcv_side (kcp s) ->
  conv (kcp s') = conv (kcp s) -> kept s s'.
Proof. intros Hsh ? ? ? ?. by destruct (shell_eq _ _ Hsh) as (? & ? & ? & ? & ? & ? & ? & ?). Qed.

Lemma count_kept f s :
  wf (kcp s) -> is_Some (conn s) ->
  exists s', count f s = Ok s' /\ kept s s' /\ state (kcp s') = state (kcp s) /\
    chReadEvent s' = chReadEvent s /\ chWriteEvent s' = chWriteEvent s.
Proof.
  intros Hw Hc. destruct (count_ok f s (fr_stats _ (wf_ready _ Hw))) as [st ->].
  eexists. split; [done|]. split; [|done]. by apply kept_shell; [|apply (wf_stats (kcp s))|..].
Qed.

Lemma count_error_ok ret s :
  wf (kcp s) -> is_Some (conn s) ->
  exists s' tr, count_error ret s = Ok (s', tr) /\ kept s s' /\ state (kcp s') = state (kcp s) /\
    chReadEvent s' = chReadEvent s /\ chWriteEvent s' = chWriteEvent s.
Proof.
  intros Hw Hc. unfold count_error. destruct (negb _); [|by exists s, []].
  destruct (count_kept (fun st => st<|ErrorInput := i64 (ErrorInput st + 1)|>) s Hw Hc) as (s' & -> & Hs').
  by exists s', [EAdd CErrorInput 1].
Qed.

Lemma answer_connect_ok already now s :
  wf (kcp s) -> is_Some (conn s) ->
  exists s' tr, answer_connect WriteTo already now s = Ok (s', tr) /\ kept s s' /\
    state (kcp s') = state (kcp s) /\ chReadEvent s' = chReadEvent s /\
    chWriteEvent s' = (chWriteEvent s || (negb already && isStateConnected (kcp s))).
Proof.
  intros Hw Hc. unfold answer_connect. destruct (negb _ && _).
  - destruct (connect_quiet (kcp s) (currentTickMs now) Hw) as (k & tr & E & [Q1 Q2 Q3 Q4%settings_conv]).
    destruct (on_kcp_ok (fun k => sendConnectFlush k (currentTickMs now)) s k tr E Hc Q1)
      as (s' & tr' & st & -> & Hsh & Hc' & Hk & Hw' & _).
    cbn [mbind res_bind]. do 2 eexists. split; [done|].
    destruct (shell_eq _ _ Hsh) as (? & ? & ? & ? & ? & ? & ? & ?).
    split; [split; try done; simpl; rewrite Hk; [exact Q3|exact Q4]|].
    split; [simpl; rewrite Hk; exact Q2|]. rewrite orb_true_r. by simpl.
  - exists s, []. by rewrite orb_false_r.
Qed.

Lemma wake_reader_ok s :
  wf (kcp s) -> is_Some (conn s) ->
  kept s (wake_reader s) /\ flags_move (kcp s) (kcp (wake_reader s)) /\
  isStateConnected (kcp (wake_reader s)) = isStateConnected (kcp s) /\
  isStateLocalClosed (kcp (wake_reader s)) = isStateLocalClosed (kcp s) /\
  chWriteEvent (wake_reader s) = chWriteEvent s /\
  chReadEvent (wake_reader s) = (chReadEvent s || ((recvSize (kcp (wake_reader s))).2 >? 0) ||
                                 shouldClose (kcp (wake_reader s))).
Proof.
  intros Hw Hc. unfold wake_reader. destruct (recvSize (kcp s)) as [k n] eqn:E.
  destruct (recvSize_frame _ _ _ E) as (F1 & F2 & F3 & F4 & F5).
  pose proof (recvSize_state (kcp s)) as Hst. rewrite E in Hst.
  pose proof (recvSize_twice (kcp s)) as Htw. rewrite E in Htw. simpl in Htw.
  assert (wf k) as Hwk by (apply (wf_frame (kcp s)); try done; unfold has_stats; rewrite F2; apply Hw).
  pose proof (settings_conv _ _ F1) as Ecv.
  assert (flags_move (kcp s) k) as Hf.
  { destruct Hst as [|[_ ?]]; [by apply flags_move_eq|by apply (flags_move_lor _ _ 1); auto]. }
  assert (isStateConnected k = isStateConnected (kcp s) /\
    isStateLocalClosed k = isStateLocalClosed (kcp s)) as [Hcn Hlc].
  { rewrite !isStateConnected_bit, !isStateLocalClosed_bit. destruct Hst as [->|[_ ->]]; [done|].
    by rewrite (flag_lor_other _ 1 0), (flag_lor_other _ 1 2) by lia. }
  change (kcp (s<|kcp := k|>)) with k.
  destruct ((n >? 0) || shouldClose k) eqn:En; simpl; rewrite Htw.
  - split; [by split|]. do 4 (split; [done|]). rewrite <- orb_assoc, En. by rewrite orb_true_r.
  - split; [by split|]. do 4 (split; [done|]). rewrite <- orb_assoc, En. by rewrite orb_false_r.
Qed.

Lemma doKcpInput_ok now now' pkt s :
  conn_ok s -> len pkt <= 2048 ->
  exists s' tr k code, doKcpInput WriteTo now now' pkt s = Ok (s', tr) /\ conn_ok s' /\
    input (kcp s) (currentTickMs now) pkt true = Ok (k, code) /\
    rcv_side (kcp s') = rcv_side k /\ flags_move (kcp s) (kcp s') /\
    bufRead s' = bufRead s /\ die s' = die s /\ deadlineRead s' = deadlineRead s /\
    chUdpInput s' = chUdpInput s /\
    isStateLocalClosed (kcp s') = isStateLocalClosed (kcp s) /\
    isStateConnected (kcp s') = isStateConnected k /\
    chReadEvent s' = (chReadEvent s || ((recvSize (kcp s')).2 >? 0) || shouldClose (kcp s')) /\
    chWriteEvent s' = (chWriteEvent s || (negb (isStateConnected (kcp s)) && isStateConnected k)).
Proof.
  intros Hok Hl. pose proof Hok as [H1 H2 H3 H4 H5]. unfold doKcpInput.
  destruct (input_ok (kcp s) (currentTickMs now) pkt true) as (k & code & E & Hset%settings_conv & _);
    [apply H1|pose proof (wf_mss_range _ H1); rewrite u32_id; unfold is_u32; lia|done|].
  pose proof (wf_input _ _ _ _ _ _ H1 Hl E) as Hw.
  pose proof (input_state _ _ _ _ _ _ Hl E) as Hst. rewrite E. cbn [mbind res_bind].
  assert (flags_move (kcp s) k) as Hf.
  { destruct Hst; [by apply flags_move_eq|by apply (flags_move_lor _ _ 0); auto]. }
  set (s1 := s<|kcp := k|>). assert (kept s1 s1) as K1 by by split.
  destruct (count_error_ok code s1 Hw H2) as (s2 & t1 & -> & K2 & S2 & R2 & W2).
  cbn [mbind res_bind].
  destruct (answer_connect_ok (isStateConnected (kcp s)) now' s2 (kp_wf _ _ K2) (kp_conn _ _ K2))
    as (s3 & t2 & -> & K3 & S3 & R3 & W3).
  cbn [mbind res_bind].
  destruct (wake_reader_ok s3 (kp_wf _ _ K3) (kp_conn _ _ K3)) as (K4 & F4 & C4 & L4 & W4 & R4).
  set (s4 := wake_reader s3) in *.
  destruct (count_kept (fun st => st<|PacketIn := i64 (PacketIn st + 1)|><|ByteIn := i64 (ByteIn st + len pkt)|>)
    s4 (kp_wf _ _ K4) (kp_conn _ _ K4)) as (s5 & -> & K5 & S5 & R5 & W5).
  cbn [mbind res_bind].
  pose proof (kept_trans _ _ _ K2 (kept_trans _ _ _ K3 (kept_trans _ _ _ K4 K5)))
    as [P1 P2 P3 P4 [P5 _] _ P7 P8 P9].
  assert (state (kcp s3) = state k) as S3' by (by rewrite S3, S2).
  assert (flags_move (kcp s) (kcp s5)) as Hf5.
  { eapply flags_move_trans; [exact Hf|]. eapply flags_move_trans;
      [|apply flags_move_eq; [exact S5|exact (kp_conv _ _ K5)]].
    eapply flags_move_trans; [|exact F4]. apply flags_move_eq; [done|].
    rewrite (kp_conv _ _ K3). exact (kp_conv _ _ K2). }
  assert (isStateLocalClosed (kcp s3) = isStateLocalClosed (kcp s)) as L3.
  { unfold isStateLocalClosed at 1. rewrite S3'. fold (isStateLocalClosed k).
    rewrite !isStateLocalClosed_bit. destruct Hst as [->| ->]; [done|].
    by apply (flag_lor_other _ 0 2). }
  assert (isStateLocalClosed (kcp s5) = isStateLocalClosed (kcp s4)) as L5
    by (unfold isStateLocalClosed; by rewrite S5).
  do 4 eexists. split; [done|].
  split.
  { split; rewrite ?P3, ?P4; try done; [intros Hd; by apply (fm_local _ _ Hf5), H4|].
    by rewrite (fm_dead _ _ Hf5). }
  split; [done|]. split; [exact P8|]. split; [done|]. split; [exact P3|]. split; [exact P4|].
  split; [exact P5|]. split; [exact P7|]. split; [by rewrite L5, L4, L3|].
  assert (isStateConnected (kcp s3) = isStateConnected k) as C3 by (unfold isStateConnected; by rewrite S3').
  assert (isStateConnected (kcp s5) = isStateConnected (kcp s4)) as C5
    by (unfold isStateConnected; by rewrite S5).
  assert ((recvSize (kcp s5)).2 = (recvSize (kcp s4)).2) as Z5
    by (apply recvSize_queue; by pose proof (kp_rcv _ _ K5) as (_ & ? & _)%rcv_side_eq).
  assert (shouldClose (kcp s5) = shouldClose (kcp s4)) as Sc5 by (unfold shouldClose; by rewrite S5).
  split; [by rewrite C5, C4|]. split.
  - rewrite R5, R4, R3, R2, Z5, Sc5. done.
  - rewrite W5, W4, W3, W2. unfold isStateConnected at 2. rewrite S2. done.
Qed.
(** *** The critical sections of [run] *)

Lemma tick_range now : is_u32 (currentTickMs now).
Proof. apply u32_range. Qed.

(** An operation that leaves the flags and the receive side alone. *)
Lemma on_kcp_quiet f s k tr :
  conn_ok s -> f (kcp s) = Ok (k, tr) -> quiet (kcp s) k ->
  exists s' tr', on_kcp WriteTo f s = Ok (s', tr') /\ conn_ok s' /\ shell s' = shell s /\
    stored s' = stored s /\ flags_move (kcp s) (kcp s') /\ state (kcp s') = state (kcp s) /\
    rcv_side (kcp s') = rcv_side (kcp s).
Proof.
  intros Hok E Hq.
  destruct (on_kcp_ok f s k tr E (ok_conn _ Hok) (quiet_wf _ _ Hq))
    as (s' & tr' & st & -> & Hsh & Hc & Hk & Hw & _).
  destruct (conn_ok_quiet s s' k st Hok Hq Hk Hw Hsh Hc) as (? & ? & ? & ?).
  exists s', tr'. do 6 (split; [done|]). rewrite Hk. exact (quiet_rcv _ _ Hq).
Qed.

Lemma run_main_ok now fl s :
  conn_ok s ->
  exists s' tr, run_main WriteTo now fl s = Ok (s', tr) /\ conn_ok s' /\ stored s' = stored s /\
    flags_move (kcp s) (kcp s') /\ undisturbed s s' /\ chUdpInput s' = chUdpInput s /\
    chWriteEvent s' = (chWriteEvent s || canKcpSendInternal s').
Proof.
  intros Hok. unfold run_main. cbv zeta. set (b := if sndBufAvail (kcp s) >? 0 then true else fl).
  set (f := fun k => if b then _ else _).
  assert (exists k tr, f (kcp s) = Ok (k, tr) /\ quiet (kcp s) k) as (k & tr & E & Hq).
  { subst f. simpl. destruct b; [apply flush_quiet, Hok|].
    apply update_quiet; [apply Hok|apply tick_range]. }
  destruct (on_kcp_quiet f s k tr Hok E Hq) as (s' & tr' & -> & Hok' & Hsh & Hs & Hf & Hst & Hr).
  cbn [mbind res_bind].
  destruct (shell_eq _ _ Hsh) as (E1 & _ & E3 & E4 & E5 & E6 & _ & E8).
  destruct (canKcpSendInternal s') eqn:Ec.
  - exists (notifyWriteEvent s'), tr'. split; [done|]. split; [by destruct Hok'; split|].
    do 4 (split; [done|]). simpl. change (canKcpSendInternal (notifyWriteEvent s')) with (canKcpSendInternal s').
    by rewrite Ec, orb_true_r.
  - exists s', tr'. do 4 (split; [done|]). split; [by apply undisturbed_shell|]. split; [done|].
    by rewrite Ec, orb_false_r.
Qed.

Lemma run_closing_ok now s :
  conn_ok s ->
  exists s' tr, run_closing WriteTo now s = Ok (s', tr) /\ conn_ok s' /\ stored s' = stored s /\
    flags_move (kcp s) (kcp s') /\ shell s' = shell s /\
    (isStateConnected (kcp s) = true -> isStateLocalClosed (kcp s') = true /\
       isStateConnected (kcp s') = isStateConnected (kcp s) && isStateLocalClosed (kcp s)) /\
    rcv_side (kcp s') = rcv_side (kcp s).
Proof.
  intros Hok. pose proof Hok as [H1 H2 H3 H4 H5]. unfold run_closing.
  destruct (isStateLocalClosed (kcp s)) eqn:El; cbn [negb].
  { exists s, [EAdd CConnClosing 1]. split; [done|]. do 2 (split; [done|]).
    split; [by apply flags_move_eq|]. split; [done|]. split; [|done]. intros Hc. by rewrite Hc. }
  destruct (close_quiet (kcp s) (currentTickMs now) H1) as (k & tr & E & Hw & Hr & Hset%settings_conv & Hst).
  rewrite El, andb_true_r in Hst.
  destruct (on_kcp_ok (fun k => sendCloseFlush k (currentTickMs now)) s k tr E H2 Hw) as
    (s' & tr' & st & -> & Hsh & Hc & Hk & Hw' & _).
  cbn [mbind res_bind]. exists s', (EAdd CConnClosing 1 :: tr'). split; [done|].
  assert (state (kcp s') = state k) as Es by (by rewrite Hk). rewrite Hst in Es.
  assert (rcv_side (kcp s') = rcv_side (kcp s)) as Hr' by (rewrite Hk; exact Hr).
  destruct (shell_eq _ _ Hsh) as (_ & _ & Eb & Ed & _).
  assert (conv (kcp s') = conv (kcp s)) as Ecv by (rewrite Hk; exact Hset).
  assert (flags_move (kcp s) (kcp s') /\ (isStateConnected (kcp s) = true ->
    isStateLocalClosed (kcp s') = true /\ isStateConnected (kcp s') = false)) as [Hf Hcl].
  { destruct (isStateConnected (kcp s)); [|split; [by apply flags_move_eq|done]].
    by destruct (flags_move_close _ _ Es Ecv) as (? & ? & ?). }
  split; [split; rewrite ?Eb, ?Ed; try done|].
  { intros Hd. by apply H4 in Hd. }
  { by rewrite (fm_dead _ _ Hf). }
  split; [unfold stored; rewrite Eb; f_equal; by apply received_side|].
  do 2 (split; [done|]). split; [|done]. intros Hcn. rewrite Hcn, andb_false_r. by apply Hcl.
Qed.

Lemma run_close_ok now s :
  conn_ok s ->
  exists s' tr wait, run_close WriteTo now s = Ok (s', tr, false, wait) /\ conn_ok s' /\
    stored s' = stored s /\ flags_move (kcp s) (kcp s') /\ shell s' = shell s /\
    state (kcp s') = state (kcp s) /\ rcv_side (kcp s') = rcv_side (kcp s).
Proof.
  intros Hok. unfold run_close.
  destruct (update_quiet (kcp s) (currentTickMs now) (ok_wf _ Hok) (tick_range now))
    as (k & tr & E & Hq).
  destruct (on_kcp_quiet (fun k => update k (currentTickMs now)) s k tr Hok E Hq)
    as (s' & tr' & -> & Hok' & Hsh & Hs & Hf & Hst & Hr).
  cbn [mbind res_bind]. rewrite (ok_dead _ Hok'). by do 3 eexists.
Qed.

Lemma connect_flush_ok now s :
  conn_ok s ->
  exists s' tr, connect_flush WriteTo now s = Ok (s', tr) /\ conn_ok s' /\
    stored s' = stored s /\ flags_move (kcp s) (kcp s') /\ shell s' = shell s.
Proof.
  intros Hok. unfold connect_flush.
  destruct (connect_quiet (kcp s) (currentTickMs now) (ok_wf _ Hok)) as (k & tr & E & Hq).
  destruct (on_kcp_quiet (fun k => sendConnectFlush k (currentTickMs now)) s k tr Hok E Hq)
    as (s' & tr' & -> & Hok' & Hsh & Hs & Hf & _).
  by exists s', tr'.
Qed.
End ConnLemmas.
