(* ===== verification/Calls.v ===== *)
(** * Sequences of calls on a connection ([kcpconn.go], type [KCPConn])

    The critical sections that the threads of a connection enter, in any order: what holds
    of every connection they can lead to, and what [Read], [Write] and [Close] do on one. *)
From S2P Require Import Prelude GoInt Stats Wire Kcp Serial Send Recv Ack Input Flush Flushed Timer Session Buffer Conn.

(** ** Definitions *)

Section Calls.
Context `{BufPool} {Q : Type} `{ByteQueue Q} {Sock : Type} (WriteTo : Sock -> list byte -> Sock * bool).
#[local] Abbreviation KCPConn := (KCPConn (Q := Q) (Sock := Sock)).
Implicit Types s : KCPConn.

(** The critical sections that threads enter: of the methods, of [run], and of [connect]. *)
Inductive call :=
  | KRead (now : Z) (n : nat)
  | KWrite (now : Z) (b : list byte)
  | KClose (now : Z)
  | KConnect (now : Z)
  | KInput (now now' : Z) (pkt : list byte)
  | KMain (now : Z) (doKcpFlush : bool)
  | KClosing (now : Z)
  | KCloseLoop (now : Z)
  | KDeadline (t : option Z) | KReadDeadline (t : option Z) | KWriteDeadline (t : option Z)
  | KWindow (sndwnd rcvwnd : Z)
  | KNoDelay (nd itv resend nc : Z)
  | KStream (enable : bool)
  | KMtu (m : Z).

(** The connection, the events, and the bytes handed to the reader. *)
Definition perform_call (c : call) s : res (KCPConn * list event * list byte) :=
  match c with
  | KRead now n => '(s, tr, r) ← Read WriteTo now n s;
                   Ok (s, tr, match r with Return d _ => d | Wait _ => [] end)
  | KWrite now b => '(s, tr, _) ← Write now b s; Ok (s, tr, [])
  | KClose now => '(s, tr, _) ← Close WriteTo now s; Ok (s, tr, [])
  | KConnect now => '(s, tr) ← connect_flush WriteTo now s; Ok (s, tr, [])
  | KInput now now' pkt => '(s, tr) ← doKcpInput WriteTo now now' pkt s; Ok (s, tr, [])
  | KMain now fl => '(s, tr) ← run_main WriteTo now fl s; Ok (s, tr, [])
  | KClosing now => '(s, tr) ← run_closing WriteTo now s; Ok (s, tr, [])
  | KCloseLoop now => '(s, tr, _, _) ← run_close WriteTo now s; Ok (s, tr, [])
  | KDeadline t => Ok (SetDeadline t s, [], [])
  | KReadDeadline t => Ok (SetReadDeadline t s, [], [])
  | KWriteDeadline t => Ok (SetWriteDeadline t s, [], [])
  | KWindow sw rw => Ok (SetWindowSize sw rw s, [], [])
  | KNoDelay nd itv re nc => Ok (SetNoDelay nd itv re nc s, [], [])
  | KStream b => Ok (SetStreamMode b s, [], [])
  | KMtu m => s ← SetMtu m s; Ok (s, [], [])
  end.

(** What the callers owe: [Write] gets data that [kcp.send] takes, [Close] and a [Read] that
    finds data or the end of the stream come after the connection is open, datagrams fit a
    packet buffer, and a new MTU is safe. *)
Definition call_ok s (c : call) : Prop :=
  match c with
  | KRead _ _ => may_read s /\ len (stored s) <= memory
  | KWrite _ b => len b < 4294967296 /\ sendable (kcp s) b
  | KClose _ => open_flags (kcp s) = true
  | KInput _ _ pkt => len pkt <= 2048
  | KMtu m => mtu_ok m (kcp s)
  | _ => True
  end.

(** The connections there are: made by [accept] or [connect] from a new one, and what the
    calls make of them. *)
Inductive connection : KCPConn -> Prop :=
  | conn_accept s cv c : newKCPConn = Ok s -> connection (accept cv c s).1
  | conn_connect s cv c : newKCPConn = Ok s -> connection (connect cv c s).1
  | conn_call s c s' tr d :
      connection s -> call_ok s c -> perform_call c s = Ok (s', tr, d) -> connection s'.

Lemma set_conv_twice k a b : k<|conv := a|><|conv := b|> = k<|conv := b|>.
Proof. done. Qed.

Lemma fresh_conv cv : (fresh 0)<|conv := cv|> = fresh cv.
Proof. apply set_conv_twice. Qed.

Lemma fresh_alive cv : isStateDead (fresh cv) = false.
Proof. vm_compute. reflexivity. Qed.

Lemma newKCPConn_ok s : newKCPConn = Ok s ->
  kcp s = fresh 0 /\ bufRead s = q_empty /\ die s = false.
Proof. unfold newKCPConn. rewrite new_session_eq. by intros [= <-]. Qed.

Lemma conn_ok_new s s' cv c :
  newKCPConn = Ok s -> kcp s' = (kcp s)<|conv := cv|> -> conn s' = Some c ->
  bufRead s' = bufRead s -> die s' = die s -> conn_ok s'.
Proof.
  intros (Ek & Eb & Ed)%newKCPConn_ok E1 E2 E3 E4.
  assert (kcp s' = fresh cv) as Ef by (rewrite E1, Ek; apply fresh_conv).
  pose proof (wf_fresh cv) as Hw.
  pose proof (fresh_alive cv) as Hd.
  rewrite <- Ef in Hw, Hd. split; [exact Hw|by exists c| |by rewrite E4, Ed|exact Hd].
  rewrite E3, Eb. apply q_empty_ok. unfold memory. lia.
Qed.

Lemma conn_ok_kcp s s' :
  conn_ok s -> wf (kcp s') -> state (kcp s') = state (kcp s) -> is_Some (conn s') ->
  bufRead s' = bufRead s -> die s' = die s -> conv (kcp s') = conv (kcp s) -> conn_ok s'.
Proof.
  intros [? ? ? Hd Hdd] Hw Es Hc Eb Ed Ecv. pose proof (flags_move_eq _ _ Es Ecv) as Hf.
  split; rewrite ?Eb, ?Ed; try done; [|by rewrite (fm_dead _ _ Hf)].
  intros Hx. by apply (fm_local _ _ Hf), Hd.
Qed.

(** The calls that only change settings. *)
Lemma setting_ok s s' :
  conn_ok s -> wf (kcp s') -> state (kcp s') = state (kcp s) -> is_Some (conn s') ->
  bufRead s' = bufRead s -> die s' = die s -> rcv_side (kcp s') = rcv_side (kcp s) ->
  conv (kcp s') = conv (kcp s) -> conn_ok s' /\ flags_move (kcp s) (kcp s') /\ stored s = [] ++ stored s'.
Proof.
  intros Hok Hw Es Hc Eb Ed Er Ecv. split; [by eapply conn_ok_kcp|]. split; [by apply flags_move_eq|].
  unfold stored. rewrite Eb. simpl. f_equal. by apply received_side.
Qed.

Lemma setNoDelay_state nd itv re nc k : state (setNoDelay nd itv re nc k).1 = state k.
Proof.
  unfold setNoDelay. destruct (nd >=? 0), (itv >=? 0), (re >=? 0), (nc >=? 0); try destruct (nd =? 0); done.
Qed.

Lemma setWndSize_state sw rw k :
  state (setWndSize sw rw k).1 = state k /\ rcv_side (setWndSize sw rw k).1 = rcv_side k /\
  conv (setWndSize sw rw k).1 = conv k.
Proof. unfold setWndSize. by destruct (sw >? 0), (rw >? 0). Qed.

Lemma setMtu_state m k k' code : setMtu m k = Ok (k', code) -> state k' = state k.
Proof.
  unfold setMtu. destruct (_ || _); [by intros [= <- _]|].
  destruct (go_make _); [by intros [= <- _]|done..].
Qed.

(** Every call succeeds; only a datagram changes what is stored for the reader other than by
    handing it over. *)
Lemma perform_call_ok s c :
  conn_ok s -> call_ok s c ->
  exists s' tr d, perform_call c s = Ok (s', tr, d) /\ conn_ok s' /\ flags_move (kcp s) (kcp s') /\
    (match c with KInput _ _ _ => d = [] | _ => stored s = d ++ stored s' end).
Proof.
  intros Hok Hc. pose proof (ok_wf _ Hok) as Hw. pose proof (ok_conn _ Hok) as Hcn.
  destruct c; cbn [call_ok perform_call] in *.
  - destruct Hc as [Hr Hm].
    destruct (Read_round_ok WriteTo now n s Hok Hr Hm) as (s' & tr & r & -> & Hok' & Hf & _ & Hres).
    do 3 eexists. split; [done|]. split; [done|]. split; [done|].
    destruct r as [d err|dl]; [apply Hres|]. by destruct Hres as [-> _].
  - destruct (Write_round_ok now b s Hok) as (s' & tr & r & -> & Hok' & Hs & Hf & _); [apply Hc..|].
    do 3 eexists. split; [done|]. split; [done|]. by split.
  - unfold Close. destruct (isStateLocalClosed (kcp s)) eqn:El.
    + rewrite close_refused by done. do 3 eexists. split; [done|]. split; [done|].
      split; [by apply flags_move_eq|done].
    + unfold open_flags in Hc. rewrite El, orb_false_r in Hc.
      destruct (close_ok WriteTo now s Hok Hc El) as (s' & tr & -> & Hok' & Hs & Hf & _).
      do 3 eexists. split; [done|]. split; [done|]. by split.
  - destruct (connect_flush_ok WriteTo now s Hok) as (s' & tr & -> & Hok' & Hs & Hf & _).
    do 3 eexists. split; [done|]. split; [done|]. by split.
  - destruct (doKcpInput_ok WriteTo now now' pkt s Hok Hc) as (s' & tr & k & code & -> & Hok' & _ & _ & Hf & _).
    do 3 eexists. split; [done|]. split; [done|]. by split.
  - destruct (run_main_ok WriteTo now doKcpFlush s Hok) as (s' & tr & -> & Hok' & Hs & Hf & _).
    do 3 eexists. split; [done|]. split; [done|]. by split.
  - destruct (run_closing_ok WriteTo now s Hok) as (s' & tr & -> & Hok' & Hs & Hf & _).
    do 3 eexists. split; [done|]. split; [done|]. by split.
  - destruct (run_close_ok WriteTo now s Hok) as (s' & tr & w & -> & Hok' & Hs & Hf & _).
    do 3 eexists. split; [done|]. split; [done|]. by split.
  - do 3 eexists. split; [done|]. by apply setting_ok.
  - do 3 eexists. split; [done|]. by apply setting_ok.
  - do 3 eexists. split; [done|]. by apply setting_ok.
  - do 3 eexists. split; [done|].
    destruct (setWndSize_state sndwnd rcvwnd (kcp s)) as (E1 & E2 & E3).
    apply setting_ok; try done. by apply wf_settings_wnd.
  - do 3 eexists. split; [done|].
    destruct (setNoDelay_sides nd itv resend nc (kcp s)) as (_ & E2 & E3 & _).
    apply setting_ok; try done; [by apply wf_settings_nodelay|apply setNoDelay_state].
  - do 3 eexists. split; [done|]. apply setting_ok; try done. by apply wf_stream.
  - unfold SetMtu.
    destruct (wf_settings_mtu (kcp s) m Hw Hc) as (k & code & E & Hw' & _ & Er & Ecv & _).
    rewrite E. cbn [mbind res_bind]. do 3 eexists. split; [done|].
    apply setting_ok; try done. by eapply setMtu_state.
Qed.

Lemma connection_ok s : connection s -> conn_ok s.
Proof.
  induction 1 as [s cv c E|s cv c E|s c s' tr d Hs IH Hc E].
  - by eapply (conn_ok_new s _ cv c).
  - by eapply (conn_ok_new s _ cv c).
  - destruct (perform_call_ok s c IH Hc) as (s2 & tr2 & d2 & E2 & Hok & _).
    rewrite E in E2. by injection E2 as <- _ _.
Qed.
(** Calls from [s] on. *)
Inductive later s : KCPConn -> Prop :=
  | later_refl : later s s
  | later_call s' c s'' tr d :
      later s s' -> call_ok s' c -> perform_call c s' = Ok (s'', tr, d) -> later s s''.

Lemma later_flags s s' : conn_ok s -> later s s' -> conn_ok s' /\ flags_move (kcp s) (kcp s').
Proof.
  intros Hok. induction 1 as [|s1 c s2 tr d _ [IH1 IH2] Hc E]; [split; [done|by apply flags_move_eq]|].
  destruct (perform_call_ok s1 c IH1 Hc) as (s3 & tr3 & d3 & E3 & Hok3 & Hf3 & _).
  rewrite E in E3. injection E3 as <- _ _. split; [done|]. by eapply flags_move_trans.
Qed.

(** A connection that is not open: closing it closes [die] and nothing else. *)
Lemma close_unopened now s :
  is_Some (conn s) -> open_flags (kcp s) = false -> die s = false ->
  closeInternal WriteTo now s = Ok (s<|die := true|>, [], None).
Proof.
  intros [c Hc] Ho Hd. unfold open_flags in Ho. apply orb_false_iff in Ho as [Ho1 Ho2].
  unfold closeInternal, on_kcp, sendCloseFlush. rewrite Hc, Ho2, Hd. cbn [orb].
  change (kcp (s<|die := true|>)) with (kcp s). rewrite Ho1. cbn [andb mbind res_bind outputs].
  by destruct s.
Qed.

Lemma close_again_unopened now s :
  is_Some (conn s) -> open_flags (kcp s) = false -> die s = true ->
  closeInternal WriteTo now s = Panic PClosed.
Proof.
  intros [c Hc] Ho Hd. unfold open_flags in Ho. apply orb_false_iff in Ho as [Ho1 Ho2].
  unfold closeInternal. by rewrite Hc, Ho2, Hd.
Qed.

(** ** Properties *)

(** C24. No connection whose callers keep [call_ok] panics, hangs or is taken for dead: from
    [accept] or [connect] on, whatever the sequence of critical sections of the methods and of
    [run], and whatever the socket does with what is written to it, every call that keeps
    [call_ok] returns, leads to such a connection again, never closes a channel twice, and never
    takes the connection back to unopened; and but for arriving datagrams, the bytes stored for
    the reader are those handed to it followed by those stored afterwards.

    [call_ok] asks that [Close] comes after the connection is open, and so does a [Read] once
    data has arrived or the peer has closed ([unopened_close_panics] is the panic otherwise, the
    channel [die] closed twice); that [Write] gets what [kcp.send] takes, a slice that is not
    empty and, when the connection is not in stream mode, has at most 255 segments
    ([Write_returns] has the panic otherwise); that a new MTU is safe ([mtu_ok], with the panics
    it avoids); and, of sizes, that a slice to write is below 4 GiB, a datagram at most 2048
    bytes, and what waits to be read within [memory], 16 TiB. *)
Theorem connection_safe s c (Hs : connection s) (Hc : call_ok s c) :
  exists s' tr d, perform_call c s = Ok (s', tr, d) /\ connection s' /\
    isStateDead (kcp s') = false /\ (open_flags (kcp s) = true -> open_flags (kcp s') = true) /\
    (match c with KInput _ _ _ => d = [] | _ => stored s = d ++ stored s' end).
Proof.
  destruct (perform_call_ok s c (connection_ok s Hs) Hc) as (s' & tr & d & E & Hok & Hf & Hd).
  exists s', tr, d. split; [done|]. split; [by eapply conn_call|]. split; [apply Hok|].
  split; [apply (fm_open _ _ Hf)|done].
Qed.

(** C27. What a round of [Read] comes to: bytes, at least one and at most as many as asked for,
    which are the next ones of the stream; the end of the file only when the connection is
    closed on this side and every complete message has been handed over; a timeout only past
    the deadline and with nothing to hand over; and it waits only when nothing can be handed
    over and the connection is open in both directions. *)
Theorem Read_returns now n s (Hs : connection s) (Hr : may_read s)
    (Hm : len (stored s) <= memory) :
  exists s' tr r, Read WriteTo now n s = Ok (s', tr, r) /\ connection s' /\
    match r with
    | Return d None => stored s = d ++ stored s' /\ (length d <= n)%nat /\ (n <> 0%nat -> d <> [])
    | Return d (Some EEOF) => d = [] /\ stored s' = stored s /\ isStateLocalClosed (kcp s') = true /\
        q_contents (bufRead s') = [] /\ (n <> 0%nat -> (recvSize (kcp s')).2 <= 0)
    | Return d (Some ETimeout) => d = [] /\ stored s' = stored s /\
        exists t, deadlineRead s = Some t /\ t <= now
    | Return _ (Some EBrokenPipe) => False
    | Wait dl => dl = deadlineRead s /\ stored s' = stored s /\ q_contents (bufRead s') = [] /\
        (n <> 0%nat -> (recvSize (kcp s')).2 <= 0) /\
        isStateLocalClosed (kcp s') = false /\ isStateRemoteClosed (kcp s') = false
    end.
Proof.
  destruct (Read_round_ok WriteTo now n s (connection_ok s Hs) Hr Hm)
    as (s' & tr & r & E & _ & _ & _ & Hres).
  exists s', tr, r. split; [done|]. split.
  { eapply (conn_call s (KRead now n)); [done|by split|]. cbn [perform_call]. by rewrite E. }
  destruct r as [d [[]|]|dl]; cbn [read_result] in Hres.
  - destruct Hres as (H1 & _ & -> & H2 & H3 & H4). done.
  - destruct Hres as (H1 & _ & -> & H2). done.
  - by destruct Hres as (_ & _ & []).
  - done.
  - destruct Hres as (H1 & H2 & H3 & H4 & H5 & H6). done.
Qed.

(** C28. What a round of [Write] comes to: all of the data is queued behind what was queued, or
    nothing is and the connection is unchanged, because it is closed, the deadline has passed
    or the send window is full; but data that [kcp.send] refuses, an empty slice or in message
    mode one of more than 255 fragments, panics as soon as the window has room. *)
Theorem Write_returns now b s (Hs : connection s) (Hb : len b < 4294967296) :
  (sendable (kcp s) b -> exists s' tr r, Write now b s = Ok (s', tr, r) /\ connection s' /\
     match r with
     | Return n None => n = len b /\
         seg_bytes (snd_queue (kcp s')) = seg_bytes (snd_queue (kcp s)) ++ b /\
         (sndBufAvail (kcp s') > 0 -> chKcpFlushEvent s' = true)
     | Return n (Some EBrokenPipe) => s' = s /\ n = 0 /\ isStateLocalClosed (kcp s) = true
     | Return n (Some ETimeout) => s' = s /\ n = 0 /\ canKcpSendInternal s = false /\
         exists t, deadlineWrite s = Some t /\ t <= now
     | Return _ (Some EEOF) => False
     | Wait dl => s' = s /\ dl = deadlineWrite s /\ canKcpSendInternal s = false /\
         isStateLocalClosed (kcp s) = false
     end) /\
  (~ sendable (kcp s) b -> canKcpSendInternal s = true -> isStateLocalClosed (kcp s) = false ->
     exists msg, Write now b s = Panic (PUser msg)).
Proof.
  pose proof (connection_ok s Hs) as Hok. split.
  - intros Hsd. destruct (Write_round_ok now b s Hok Hb Hsd) as (s' & tr & r & E & _ & _ & _ & _ & Hres).
    exists s', tr, r. split; [done|]. split.
    { eapply (conn_call s (KWrite now b)); [done|by split|]. cbn [perform_call]. by rewrite E. }
    destruct r as [n [[]|]|dl]; cbn [write_result] in Hres; [done..|tauto|].
    by destruct Hres as (? & ? & ? & ?).
  - intros Hns Hcan Hl. unfold Write. rewrite Hl, Hcan.
    destruct (wf_send (kcp s) b (ok_wf _ Hok) Hb) as (k & code & E & _ & _ & Hcode).
    rewrite E. cbn [mbind res_bind]. destruct (Z.ltb_spec code 0); [by eexists|].
    exfalso. apply Hns. destruct Hcode as [[_ ?]|[_ ->]]; [lia|].
    rewrite send_ok in E by (done || apply wf_mss_range, Hok). revert E. cbv zeta.
    destruct (Z.eqb_spec (len b) 0) as [|Hne]; [done|]. intros E.
    split; [by intros ->|]. intros Hst. rewrite Hst in E. cbn [Z.eqb] in E.
    destruct (Z.gtb_spec (len (chunks (Z.to_nat (mss (kcp s))) b)) 255); [done|lia].
Qed.

(** C29. Closing is final and safe to repeat: once an open connection has been closed, at every
    later moment, whatever was called and received in between, [Close] and [Write] are refused
    with a broken pipe and change nothing, and [Read] never waits again. *)
Theorem Close_final now s (Hs : connection s) (Ho : open_flags (kcp s) = true) :
  exists s' tr err, Close WriteTo now s = Ok (s', tr, err) /\
    (err = None <-> isStateLocalClosed (kcp s) = false) /\ stored s' = stored s /\
    forall s'' now' b n, later s' s'' ->
      Close WriteTo now' s'' = Ok (s'', [], Some EBrokenPipe) /\
      Write now' b s'' = Ok (s'', [], Return 0 (Some EBrokenPipe)) /\
      (may_read s'' -> len (stored s'') <= memory ->
       exists s3 tr3 d err3, Read WriteTo now' n s'' = Ok (s3, tr3, Return d err3)).
Proof.
  pose proof (connection_ok s Hs) as Hok. unfold Close.
  assert (exists s' tr err, closeInternal WriteTo now s = Ok (s', tr, err) /\
    (err = None <-> isStateLocalClosed (kcp s) = false) /\ stored s' = stored s /\
    conn_ok s' /\ isStateLocalClosed (kcp s') = true) as (s' & tr & err & E & He & Hst & Hok' & Hl).
  { destruct (isStateLocalClosed (kcp s)) eqn:El.
    - rewrite close_refused by done. by exists s, [], (Some EBrokenPipe).
    - unfold open_flags in Ho. rewrite El, orb_false_r in Ho.
      destruct (close_ok WriteTo now s Hok Ho El) as (s' & tr & E & Hok' & Hst & _ & _ & Hl & _).
      by exists s', tr, None. }
  exists s', tr, err. split; [done|]. split; [done|]. split; [done|].
  intros s'' now' b n Hlater. destruct (later_flags s' s'' Hok' Hlater) as [Hok2 Hf].
  pose proof (fm_local _ _ Hf Hl) as Hl2.
  split; [by apply close_refused|]. split; [unfold Write; by rewrite Hl2|].
  intros Hr Hm. destruct (Read_round_ok WriteTo now' n s'' Hok2 Hr Hm)
    as (s3 & tr3 & [d e|dl] & E3 & _ & Hf3 & _ & Hres); [by do 4 eexists|].
  exfalso. destruct Hres as (_ & _ & _ & _ & Hl3 & _). by rewrite (fm_local _ _ Hf3 Hl2) in Hl3.
Qed.

(** C31. Closing before the connection is open is not: [die] is closed but the state is not
    changed, so that the next attempt closes [die] again and panics. [Close] twice does it,
    and so does [Read] alone when the peer has ended the stream without opening it: the first
    round closes, the second panics. *)
Theorem unopened_close_panics now now' n s
    (Hc : is_Some (conn s)) (Ho : open_flags (kcp s) = false) (Hd : die s = false) :
  (exists s', Conn.Close WriteTo now s = Ok (s', [], None) /\ Conn.Close WriteTo now' s' = Panic PClosed) /\
  (isStateRemoteClosed (kcp s) = true -> q_ok memory (bufRead s) -> q_contents (bufRead s) = [] ->
   (recvSize (kcp s)) = (kcp s, 0) -> (0 < n)%nat -> deadlineRead s = None ->
   exists s', Conn.Read WriteTo now n s = Ok (s', [], Wait None) /\ Conn.Read WriteTo now' n s' = Panic PClosed).
Proof.
  unfold Close. rewrite close_unopened by done. split.
  { exists (s<|die := true|>). split; [done|]. by apply close_again_unopened. }
  intros Hrc Hq Hb Hz Hn Hdl. pose proof Ho as Ho'. unfold open_flags in Ho'.
  apply orb_false_iff in Ho' as [_ Hl].
  assert (Hstep : forall s1, kcp s1 = kcp s -> bufRead s1 = bufRead s ->
    drain (drain_fuel s1) s1 = Ok (s1, [])).
  { intros s1 Ek Eb. unfold drain_fuel. cbn [drain]. rewrite Ek, Hz. rewrite <- Ek. by destruct s1. }
  assert (q_len (bufRead s) = 0) as Hlen by (rewrite (q_len_ok memory) by done; by rewrite Hb).
  assert (shouldClose (kcp s) = true) as Hsc by (rewrite shouldClose_flags, Hrc, Hl; done).
  exists (s<|die := true|>). rewrite !Read_eq. unfold read_prepare.
  change (bufRead (s<|die := true|>)) with (bufRead s). rewrite Hlen.
  destruct (Z.ltb_spec 0 (Z.of_nat n)); [|lia].
  rewrite !Hstep by done. cbn [mbind res_bind]. change (kcp (s<|die := true|>)) with (kcp s).
  rewrite Hsc, close_unopened by done. split; [|by rewrite close_again_unopened].
  cbn [mbind res_bind app]. change (bufRead (s<|die := true|>)) with (bufRead s).
  change (kcp (s<|die := true|>)) with (kcp s). change (deadlineRead (s<|die := true|>)) with (deadlineRead s).
  by rewrite Hlen, Hl, Hdl.
Qed.
End Calls.

(** *** Witnesses *)

Section Witnesses.
#[local] Existing Instance zero_pool.

(** A socket that keeps what is written to it, and an accepted connection on it. *)
Definition demo_write (c : list (list byte)) (pkt : list byte) : list (list byte) * bool :=
  (c ++ [pkt], true).

Definition demo_new : KCPConn (Q := Buffer) (Sock := list (list byte)) :=
  mkKCPConn (fresh 0) false false None None None Buffer0 false false false false [].

Lemma demo_new_eq : newKCPConn = Ok demo_new.
Proof. unfold newKCPConn. by rewrite new_session_eq. Qed.

Definition demo_accepted := (accept 7 [] demo_new).1.

Lemma demo_accepted_connection : connection demo_write demo_accepted.
Proof. apply conn_accept, demo_new_eq. Qed.

(** A datagram of one segment with the given command, number and data. *)
Definition demo_pkt (cmd sn : Z) (d : list byte) : list byte :=
  seg_stream [segment0<|seg_conv := 7|><|seg_cmd := cmd|><|seg_sn := sn|><|seg_wnd := 128|>
              <|seg_data := d|>].

(** The connection after a datagram. *)
Definition demo_after (pkt : list byte) (s : KCPConn (Q := Buffer) (Sock := list (list byte))) :=
  match perform_call demo_write (KInput 0 0 pkt) s with Ok (s, _, _) => s | _ => s end.

Lemma demo_after_connection pkt s :
  connection demo_write s -> len pkt <= 2048 -> connection demo_write (demo_after pkt s).
Proof.
  intros Hs Hl. unfold demo_after.
  destruct (perform_call demo_write (KInput 0 0 pkt) s) as [[[s' tr] d]| |] eqn:E; [|done..].
  by eapply (conn_call _ s (KInput 0 0 pkt)).
Qed.

(** Open, and with data received. *)
Definition demo_open := demo_after (demo_pkt IKCP_CMD_CONNECT 0 []) demo_accepted.
Definition demo_received := demo_after (demo_pkt IKCP_CMD_PUSH 1 [Byte.x68; Byte.x69]) demo_open.

Lemma demo_open_connection : connection demo_write demo_open.
Proof.
  apply demo_after_connection; [apply demo_accepted_connection|vm_compute; discriminate].
Qed.

Lemma demo_received_connection : connection demo_write demo_received.
Proof.
  apply demo_after_connection; [apply demo_open_connection|vm_compute; discriminate].
Qed.

Lemma connection_safe_witness :
  exists s' tr d, perform_call demo_write (KInput 0 0 (demo_pkt IKCP_CMD_CONNECT 0 [])) demo_accepted =
    Ok (s', tr, d) /\ connection demo_write s' /\ isStateDead (kcp s') = false.
Proof.
  assert (call_ok demo_accepted (KInput 0 0 (demo_pkt IKCP_CMD_CONNECT 0 []))) as Hc
    by (vm_compute; discriminate).
  destruct (connection_safe demo_write demo_accepted _ demo_accepted_connection Hc)
    as (s' & tr & d & E & Hs' & Hd & _).
  exists s', tr, d. split; [exact E|]. split; [exact Hs'|exact Hd].
Defined.

Lemma Read_returns_witness :
  may_read demo_received /\ stored demo_received = [Byte.x68; Byte.x69] /\
  exists s' tr, Read demo_write 0 10 demo_received = Ok (s', tr, Return [Byte.x68; Byte.x69] None) /\
    connection demo_write s'.
Proof.
  assert (may_read demo_received) as Hr by (left; vm_compute; reflexivity).
  assert (stored demo_received = [Byte.x68; Byte.x69]) as Hst by (vm_compute; reflexivity).
  assert (len (stored demo_received) <= memory) as Hm by (rewrite Hst; vm_compute; discriminate).
  split; [exact Hr|]. split; [exact Hst|].
  destruct (Read_returns demo_write 0 10 demo_received demo_received_connection Hr Hm)
    as (s' & tr & r & E & Hs' & _).
  exists s', tr. split; [|exact Hs'].
  assert ((res_fmap _ _ snd (Read demo_write 0 10 demo_received)) =
    Ok (Return [Byte.x68; Byte.x69] None)) as E' by (vm_compute; reflexivity).
  rewrite E in E'. injection E' as ->. exact E.
Defined.

Lemma Write_returns_witness :
  (exists s', Write 0 [Byte.x68] demo_open = Ok (s', [EAdd CByteTx 1], Return 1 None) /\
     connection demo_write s') /\
  exists msg, Write 0 [] demo_open = Panic (PUser msg).
Proof.
  assert (sendable (kcp demo_open) [Byte.x68]) as Hsd by (split; [done|vm_compute; discriminate]).
  assert (len [Byte.x68] < 4294967296) as H1 by done.
  assert (len (@nil byte) < 4294967296) as H0 by done.
  split.
  - destruct (Write_returns demo_write 0 [Byte.x68] demo_open demo_open_connection H1) as [Hw _].
    destruct (Hw Hsd) as (s' & tr & r & E & Hs' & _). exists s'. split; [|exact Hs'].
    assert (res_fmap _ _ (fun x => (x.1.2, x.2)) (Write 0 [Byte.x68] demo_open) =
      Ok ([EAdd CByteTx 1], Return 1 None)) as E' by (vm_compute; reflexivity).
    rewrite E in E'. injection E' as -> ->. exact E.
  - destruct (Write_returns demo_write 0 [] demo_open demo_open_connection H0) as [_ Hp].
    apply Hp; [by intros [? _]|vm_compute; reflexivity|vm_compute; reflexivity].
Defined.

Lemma Close_final_witness :
  exists s' tr, Close demo_write 0 demo_received = Ok (s', tr, None) /\
    Close demo_write 5 s' = Ok (s', [], Some EBrokenPipe) /\
    Write 5 [Byte.x68] s' = Ok (s', [], Return 0 (Some EBrokenPipe)).
Proof.
  assert (open_flags (kcp demo_received) = true) as Ho by (vm_compute; reflexivity).
  destruct (Close_final demo_write 0 demo_received demo_received_connection Ho)
    as (s' & tr & err & E & He & _ & Hl).
  assert (isStateLocalClosed (kcp demo_received) = false) as Hn by (vm_compute; reflexivity).
  apply He in Hn as ->. exists s', tr. split; [exact E|].
  destruct (Hl s' 5 [Byte.x68] 1%nat (later_refl demo_write s')) as (H1 & H2 & _). split; [exact H1|exact H2].
Defined.

(** One datagram that ends the stream of a connection nobody opened. *)
Definition demo_attack := demo_after (demo_pkt IKCP_CMD_PUSH 0 []) demo_accepted.

Lemma unopened_close_panics_witness :
  connection demo_write demo_attack /\
  exists s', Read demo_write 0 10 demo_attack = Ok (s', [], Wait None) /\
    Read demo_write 1 10 s' = Panic PClosed.
Proof.
  split.
  { apply demo_after_connection; [apply demo_accepted_connection|vm_compute; discriminate]. }
  assert (is_Some (conn demo_attack)) as Hc by (eexists; vm_compute; reflexivity).
  assert (open_flags (kcp demo_attack) = false) as Ho by (vm_compute; reflexivity).
  assert (die demo_attack = false) as Hd by (vm_compute; reflexivity).
  destruct (unopened_close_panics demo_write 0 1 10 demo_attack Hc Ho Hd) as [_ Hr].
  apply Hr; try (vm_compute; reflexivity); [|apply Nat.ltb_lt; reflexivity].
  change (holds memory (bufRead demo_attack)).
  assert (bufRead demo_attack = Buffer0) as -> by (vm_compute; reflexivity).
  split; [by split|]. vm_compute. split; discriminate.
Defined.
End Witnesses.
