(* ===== verification/Sockets.v ===== *)
(** * What the calls of a connection do to its socket

    Whatever call is made on a connection, its socket changes only by the datagrams it is
    handed, one by one, and those it takes are the datagrams that [Deliver.v] counts as sent. *)
From S2P Require Import Prelude GoInt Stats Kcp Recv Session Buffer Conn Calls.

Section Sockets.
Context `{BufPool} {Q : Type} `{ByteQueue Q} {Sock : Type}.
Context (WriteTo : Sock -> list byte -> Sock * bool).
#[local] Abbreviation KCPConn := (KCPConn (Q := Q) (Sock := Sock)).
Implicit Types s : KCPConn.

(** A socket is handed datagrams, of which it takes those listed. *)
Inductive takes : option Sock -> list (list byte) -> option Sock -> Prop :=
  | takes_nil c : takes c [] c
  | takes_one c c1 c2 p ok ps :
      WriteTo c p = (c1, ok) -> takes (Some c1) ps c2 ->
      takes (Some c) ((if ok : bool then [p] else []) ++ ps) c2.

Lemma takes_app c ps c1 ps' c2 : takes c ps c1 -> takes c1 ps' c2 -> takes c (ps ++ ps') c2.
Proof.
  induction 1 as [|c c1 c3 p ok ps E _ IH]; [done|]. intros H2. rewrite <- app_assoc.
  eapply takes_one; eauto.
Qed.

Definition socket_takes s s' (tr : list event) : Prop := takes (conn s) (packets_of tr) (conn s').

Lemma socket_same s s' tr : conn s' = conn s -> packets_of tr = [] -> socket_takes s s' tr.
Proof. unfold socket_takes. intros -> ->. apply takes_nil. Qed.

Lemma socket_trans s s1 s' t1 t2 :
  socket_takes s s1 t1 -> socket_takes s1 s' t2 -> socket_takes s s' (t1 ++ t2).
Proof. unfold socket_takes. rewrite packets_of_app. apply takes_app. Qed.

Lemma count_conn f s s' : count f s = Ok s' -> conn s' = conn s.
Proof. unfold count. intros E. apply bind_Ok_inv in E as (k & _ & E). by injection E as <-. Qed.

Lemma outputs_socket tr : forall s s' tr', outputs WriteTo tr s = Ok (s', tr') -> socket_takes s s' tr'.
Proof.
  induction tr as [|[pkt|c d] tr IH]; intros s s' tr' E; cbn [outputs] in E.
  - injection E as <- <-. by apply socket_same.
  - apply bind_Ok_inv in E as ([s1 t1] & E1 & E). apply bind_Ok_inv in E as ([s2 t2] & E2 & E).
    injection E as <- <-. apply socket_trans with s1; [|by apply IH].
    unfold kcpOutput in E1. destruct (conn s) as [c|] eqn:Ec; [|done].
    destruct (WriteTo c pkt) as [c1 sent] eqn:Ew.
    assert (socket_takes s s1 t1 <-> takes (Some c) (packets_of t1) (conn s1)) as -> by (unfold socket_takes; by rewrite Ec).
    destruct sent; apply bind_Ok_inv in E1 as (s3 & E3 & E1); injection E1 as <- <-;
      rewrite (count_conn _ _ _ E3); [apply (takes_one c c1 _ pkt true [])|apply (takes_one c c1 _ pkt false [])];
      try done; apply takes_nil.
  - apply bind_Ok_inv in E as ([s2 t2] & E2 & E). injection E as <- <-. exact (IH _ _ _ E2).
Qed.

Lemma on_kcp_socket f s s' tr : on_kcp WriteTo f s = Ok (s', tr) -> socket_takes s s' tr.
Proof.
  unfold on_kcp. intros E. apply bind_Ok_inv in E as ([k t0] & _ & E).
  exact (outputs_socket t0 (s<|kcp := k|>) s' tr E).
Qed.

Lemma closeInternal_socket now s s' tr e : closeInternal WriteTo now s = Ok (s', tr, e) -> socket_takes s s' tr.
Proof.
  unfold closeInternal. intros E. destruct (_ || _); [injection E as <- <- _; by apply socket_same|].
  destruct (die s); [done|]. apply bind_Ok_inv in E as ([s1 t1] & E1 & E). injection E as <- <- _.
  by apply on_kcp_socket in E1.
Qed.

Lemma drain_socket fuel : forall s s' tr, drain fuel s = Ok (s', tr) -> socket_takes s s' tr.
Proof.
  induction fuel as [|fuel IH]; intros s s' tr E; [done|]. cbn [drain] in E.
  destruct (recvSize (kcp s)) as [k n]. destruct (n <=? 0); [injection E as <- <-; by apply socket_same|].
  apply bind_Ok_inv in E as ([[k2 b] m] & _ & E). apply bind_Ok_inv in E as (q & _ & E).
  apply bind_Ok_inv in E as (s2 & E2 & E). apply bind_Ok_inv in E as ([s3 t3] & E3 & E).
  injection E as <- <-. apply IH in E3. unfold socket_takes in *. by rewrite (count_conn _ _ _ E2) in E3.
Qed.

Lemma Read_socket now n s s' tr r : Read WriteTo now n s = Ok (s', tr, r) -> socket_takes s s' tr.
Proof.
  rewrite Read_eq. intros E. apply bind_Ok_inv in E as ([s1 t1] & E1 & E).
  assert (socket_takes s s1 t1) as H1.
  { unfold read_prepare in E1. apply bind_Ok_inv in E1 as ([s2 t2] & E2 & E1).
    apply bind_Ok_inv in E1 as ([s3 t3] & E3 & E1). injection E1 as <- <-.
    apply socket_trans with s2.
    - destruct (_ <? _); [by apply drain_socket in E2|injection E2 as <- <-; by apply socket_same].
    - destruct (shouldClose _); [|injection E3 as <- <-; by apply socket_same].
      apply bind_Ok_inv in E3 as ([[s4 t4] e] & E4 & E3). injection E3 as <- <-.
      by apply closeInternal_socket in E4. }
  destruct (_ >? 0).
  - apply bind_Ok_inv in E as ([[q d] eof] & _ & E). by injection E as <- <- _.
  - destruct (isStateLocalClosed _); [by injection E as <- <- _|].
    destruct (deadlineRead s1); [destruct (_ <=? 0)|]; by injection E as <- <- _.
Qed.

Lemma Write_socket now b s s' tr r : Write now b s = Ok (s', tr, r) -> socket_takes s s' tr.
Proof.
  unfold Write. intros E. destruct (isStateLocalClosed _); [injection E as <- <- _; by apply socket_same|].
  destruct (canKcpSendInternal s).
  - apply bind_Ok_inv in E as ([k c] & _ & E). destruct (_ <? 0); [done|].
    apply bind_Ok_inv in E as (s1 & E1 & E). injection E as <- <- _.
    apply socket_same; [|done]. apply count_conn in E1. by destruct (_ >? 0).
  - destruct (deadlineWrite s); [destruct (_ <=? 0)|]; injection E as <- <- _; by apply socket_same.
Qed.

Lemma doKcpInput_socket now now' pkt s s' tr :
  doKcpInput WriteTo now now' pkt s = Ok (s', tr) -> socket_takes s s' tr.
Proof.
  unfold doKcpInput. intros E. apply bind_Ok_inv in E as ([k ret] & _ & E).
  apply bind_Ok_inv in E as ([s2 t1] & E2 & E). apply bind_Ok_inv in E as ([s3 t2] & E3 & E).
  apply bind_Ok_inv in E as (s4 & E4 & E). injection E as <- <-.
  apply socket_trans with s2; [|apply socket_trans with s3].
  - unfold count_error in E2. destruct (negb _); [|injection E2 as <- <-; by apply socket_same].
    apply bind_Ok_inv in E2 as (s5 & E5 & E2). injection E2 as <- <-. apply count_conn in E5. by apply socket_same.
  - unfold answer_connect in E3. destruct (_ && _); [|injection E3 as <- <-; by apply socket_same].
    apply bind_Ok_inv in E3 as ([s5 t5] & E5 & E3). injection E3 as <- <-. by apply on_kcp_socket in E5.
  - apply socket_same; [|done]. apply count_conn in E4. rewrite E4. unfold wake_reader.
    destruct (recvSize _). by destruct (_ || _).
Qed.

(** What a call sends is what its socket takes. *)
Lemma perform_call_socket c s s' tr d :
  perform_call WriteTo c s = Ok (s', tr, d) -> socket_takes s s' tr.
Proof.
  intros E. destruct c; cbn [perform_call] in E;
    try (injection E as <- <- _; by apply socket_same).
  - apply bind_Ok_inv in E as ([[s1 t1] r] & E1 & E). injection E as <- <- _. by eapply Read_socket.
  - apply bind_Ok_inv in E as ([[s1 t1] r] & E1 & E). injection E as <- <- _. by eapply Write_socket.
  - apply bind_Ok_inv in E as ([[s1 t1] e] & E1 & E). injection E as <- <- _. exact (closeInternal_socket _ _ _ _ _ E1).
  - apply bind_Ok_inv in E as ([s1 t1] & E1 & E). injection E as <- <- _. exact (on_kcp_socket _ _ _ _ E1).
  - apply bind_Ok_inv in E as ([s1 t1] & E1 & E). injection E as <- <- _. by eapply doKcpInput_socket.
  - apply bind_Ok_inv in E as ([s1 t1] & E1 & E). injection E as <- <- _. unfold run_main in E1.
    cbv zeta in E1. apply bind_Ok_inv in E1 as ([s2 t2] & E2 & E1). injection E1 as <- <-.
    apply on_kcp_socket in E2. by destruct (canKcpSendInternal _).
  - apply bind_Ok_inv in E as ([s1 t1] & E1 & E). injection E as <- <- _. unfold run_closing in E1.
    apply bind_Ok_inv in E1 as ([s2 t2] & E2 & E1). injection E1 as <- <-.
    destruct (negb _); [by apply on_kcp_socket in E2|injection E2 as <- <-; by apply socket_same].
  - apply bind_Ok_inv in E as ([[[s1 t1] x] y] & E1 & E). injection E as <- <- _. unfold run_close in E1.
    apply bind_Ok_inv in E1 as ([s2 t2] & E2 & E1). injection E1 as <- <- _ _. by apply on_kcp_socket in E2.
  - apply bind_Ok_inv in E as (s1 & E1 & E). injection E as <- <- _. unfold SetMtu in E1.
    apply bind_Ok_inv in E1 as ([k c] & _ & E1). injection E1 as <-. by apply socket_same.
Qed.
End Sockets.
