(* ===== verification/Deliver.v ===== *)
(** * Delivery between two connections ([kcpconn.go] over [kcp.go])

    The guarantee of [Protocol.v] for the interface the program offers: the calls of two
    connections, over any network, hand to the reader of one what the writer of the other
    has written. Each call of [Calls.v] is shown to be a sequence of operations of the
    control block of which at most one numbers new segments, so that the invariant of
    [Protocol.v] holds of the control blocks of the two connections. *)
From S2P Require Import Prelude GoInt Stats Wire Kcp Serial Send Recv Ack Input Flush Flushed Timer Session Protocol Buffer Conn Calls.

(** ** Definitions *)

(** The operations that can number segments. *)
Definition flushes (o : op) : nat :=
  match o with OUpdate _ | OFlush _ | OConnect _ | OClose _ => 1 | _ => 0 end.

(** What a connection does to its control block beside whole operations: it counts, and asks
    for the size of the next message, which may note the end of the stream. *)
Definition frame (k k' : KCP) : Prop :=
  k' = k<|state := state k'|><|stats := stats k'|> /\ has_stats k'.

(** A datagram that is not for the conversation [cv]: too short, or of another one. *)
Definition foreign (cv : Z) (pkt : list byte) : Prop :=
  len pkt < IKCP_OVERHEAD \/
  exists cv' rest, ikcp_decode32u pkt = Ok (cv', rest) /\ cv' <> cv.

Section Deliver.
Context `{BufPool}.

(** Runs of the control block: how many operations could number segments, what was written,
    read and sent. *)
Inductive kruns (net : list (list byte)) (k : KCP) :
    nat -> KCP -> list byte -> list byte -> list (list byte) -> Prop :=
  | kr_nil : kruns net k 0 k [] [] []
  | kr_frame m k1 k2 w r p : kruns net k m k1 w r p -> frame k1 k2 -> kruns net k m k2 w r p
  | kr_op m k1 o x w r p :
      kruns net k m k1 w r p -> op_ok k1 o -> (forall t pkt, o = OInput t pkt -> pkt ∈ net) ->
      perform o k1 = Ok x ->
      kruns net k (m + flushes o) (o_kcp x) (w ++ o_written x) (r ++ o_read x)
        (p ++ packets_of (o_events x)).

(** ** Lemmas: runs *)

Lemma kruns_trans net k m k1 w r p m' k2 w' r' p' :
  kruns net k m k1 w r p -> kruns net k1 m' k2 w' r' p' ->
  kruns net k (m + m') k2 (w ++ w') (r ++ r') (p ++ p').
Proof.
  intros H1. induction 1 as [|m' ka kb w' r' p' H2 IH Hf|m' ka o x w' r' p' H2 IH Ho Hi E].
  - by rewrite Nat.add_0_r, !app_nil_r.
  - by eapply kr_frame.
  - rewrite Nat.add_assoc, !app_assoc. by apply kr_op with ka.
Qed.

Lemma kruns_frame net k k' : frame k k' -> kruns net k 0 k' [] [] [].
Proof. intros Hf. eapply kr_frame; [apply kr_nil|done]. Qed.

Lemma kruns_op net k o x :
  op_ok k o -> (forall t pkt, o = OInput t pkt -> pkt ∈ net) -> perform o k = Ok x ->
  kruns net k (flushes o) (o_kcp x) (o_written x) (o_read x) (packets_of (o_events x)).
Proof.
  intros Ho Hi E. pose proof (kr_op net k 0 k o x [] [] [] (kr_nil net k) Ho Hi E) as Hr. done.
Qed.

Lemma frame_refl k : has_stats k -> frame k k.
Proof. intros Hs. split; [by destruct k|done]. Qed.

Lemma frame_trans k1 k2 k3 : frame k1 k2 -> frame k2 k3 -> frame k1 k3.
Proof. intros [E1 _] [E2 Hs]. split; [|done]. rewrite E2. rewrite E1. done. Qed.

Lemma frame_stats k st : frame k (k<|stats := Some st|>).
Proof. split; [by destruct k|by eexists]. Qed.

Lemma frame_recvSize k : has_stats k -> frame k (recvSize k).1.
Proof.
  intros Hs. unfold recvSize. destruct (rcv_queue k) as [|s l]; [by apply frame_refl|].
  destruct (seg_frg s =? 0); [destruct (_ =? 0)|destruct (_ <? _)]; try by apply frame_refl.
  split; [by destruct k|done].
Qed.

Lemma frame_wf k k' : wf k -> frame k k' -> wf k'.
Proof. intros Hw [E Hs]. rewrite E in Hs |- *. by apply (wf_frame k). Qed.

(** ** Lemmas: the invariant of the protocol along a run *)

Lemma frame_fields k k' : frame k k' ->
  conv k' = conv k /\ snd_side k' = snd_side k /\ rcv_side k' = rcv_side k /\ acklist k' = acklist k.
Proof. intros [-> _]. done. Qed.

Lemma frame_winv cv A B k :
  winv cv A B -> frame (p_kcp A) k ->
  winv cv (mkPeer k (p_hist A) (p_wrote A) (p_read A) (p_soup A)) B.
Proof.
  intros Hi Hf. destruct (frame_fields _ _ Hf) as (Ec & Es & Er & Ea).
  pose proof Hi as [Hw _ _ _ [S1 R1 D1 P1 C1] [S2 R2 D2 P2 C2]].
  pose proof (kept_winv cv A B k [] [] [] [] Hi) as Hk. rewrite !app_nil_r in Hk. apply Hk.
  apply kept_same; try done. by eapply frame_wf.
Qed.

(** Only the operations that flush number segments. *)
Lemma perform_snd_nxt o k x :
  wf k -> op_ok k o -> flushes o = 0%nat -> perform o k = Ok x -> snd_nxt (o_kcp x) = snd_nxt k.
Proof.
  intros Hw Ho Hf E. destruct o as [b| |t pkt|t|t|t|t|sw rw|nd itv re nc|m|e]; try done;
    cbn [perform op_ok] in *.
  - destruct (wf_send k b Hw Ho) as (k' & c & E' & _ & Hk & _). rewrite E' in E.
    injection E as <-. simpl. by rewrite Hk.
  - destruct (read_round_run k) as (k' & b & E' & _ & _ & _ & Hs & _). rewrite E' in E.
    injection E as <-. by apply snd_side_eq in Hs as (_ & ? & _).
  - apply bind_Ok_inv in E as ([k' c] & E1 & E). injection E as <-.
    eapply input_snd_tail; [apply Hw|apply Ho|exact E1].
  - injection E as <-. unfold setWndSize. simpl. by destruct (sw >? 0), (rw >? 0).
  - apply Ok_inj in E as <-. destruct (setNoDelay_sides nd itv re nc k) as (Hs & _).
    by apply snd_side_eq in Hs as (_ & ? & _).
  - destruct (wf_settings_mtu k m Hw Ho) as (k' & c & E' & _ & Hs & _).
    rewrite E' in E. injection E as <-. by apply snd_side_eq in Hs as (_ & ? & _).
  - by injection E as <-.
Qed.

Lemma numbered_now_length k k' : len (numbered_now k k') <= dist (snd_nxt k) (snd_nxt k').
Proof.
  unfold numbered_now. pose proof (dist_range (snd_nxt k) (snd_nxt k')) as Hd. unfold is_u32 in Hd.
  rewrite length_map, length_drop. lia.
Qed.

Lemma kruns_wf net k m k' w r p : wf k -> kruns net k m k' w r p -> wf k'.
Proof.
  intros Hw. induction 1 as [|m k1 k2 w r p _ IH Hf|m k1 o x w r p _ IH Ho _ E]; [done|by eapply frame_wf|].
  destruct (perform_wf o k1 IH Ho) as (x' & E' & Hx). rewrite E in E'. by injection E' as <-.
Qed.

Lemma kruns_nxt net k m k' w r p :
  wf k -> kruns net k m k' w r p -> m = 0%nat -> snd_nxt k' = snd_nxt k.
Proof.
  intros Hw. induction 1 as [|m k1 k2 w r p _ IH Hf|m k1 o x w r p Hr IH Ho _ E]; intros Hm; [done|..].
  - destruct (frame_fields _ _ Hf) as (_ & Es & _). apply snd_side_eq in Es as (_ & -> & _). by apply IH.
  - rewrite <- IH by lia. apply (perform_snd_nxt o); [by eapply kruns_wf|done|lia|done].
Qed.

(** Along a run in which at most one operation numbers segments, the invariant holds, and the
    history grows by at most the advance of [snd_nxt]. *)
Lemma kruns_winv cv A B m k w r p :
  is_u32 cv -> winv cv A B -> kruns (p_soup B) (p_kcp A) m k w r p -> (m <= 1)%nat ->
  len (p_hist A) + dist (snd_nxt (p_kcp A)) (snd_nxt k) < half -> len (p_hist B) < half ->
  exists h, winv cv (mkPeer k (p_hist A ++ h) (p_wrote A ++ w) (p_read A ++ r) (p_soup A ++ p)) B /\
    len h <= dist (snd_nxt (p_kcp A)) (snd_nxt k).
Proof.
  intros Hcv Hi Hr. induction Hr as [|m k1 k2 w r p Hr IH Hf|m k1 o x w r p Hr IH Ho Hin E]; intros Hm HA HB.
  - exists []. rewrite !app_nil_r. split; [by destruct A|].
    pose proof (dist_range (snd_nxt (p_kcp A)) (snd_nxt (p_kcp A))) as Hd. unfold is_u32 in Hd.
    simpl. lia.
  - destruct (frame_fields _ _ Hf) as (_ & Es & _). apply snd_side_eq in Es as (_ & En & _).
    rewrite En in *. destruct (IH Hm HA HB) as (h & Hi' & Hl). exists h.
    split; [exact (frame_winv _ _ _ _ Hi' Hf)|done].
  - pose proof (kruns_wf _ _ _ _ _ _ _ (w_wf_l _ _ _ Hi) Hr) as Hw1.
    pose proof (numbered_now_length k1 (o_kcp x)) as Hn.
    assert (dist (snd_nxt (p_kcp A)) (snd_nxt k1) + dist (snd_nxt k1) (snd_nxt (o_kcp x)) =
      dist (snd_nxt (p_kcp A)) (snd_nxt (o_kcp x))) as Hd.
    { destruct (flushes o) eqn:Ef.
      - rewrite (perform_snd_nxt o k1 x Hw1 Ho Ef E), dist_self. lia.
      - rewrite (kruns_nxt _ _ _ _ _ _ _ (w_wf_l _ _ _ Hi) Hr) by lia. rewrite dist_self. lia. }
    destruct IH as (h & Hi' & Hl); [lia|lia|done|].
    set (A1 := mkPeer k1 _ _ _ _) in Hi'.
    assert (pstep (p_soup B) A1 (after A1 x)) as Hs by by apply pstep_op with o.
    exists (h ++ numbered_now k1 (o_kcp x)). rewrite length_app. split; [|lia].
    rewrite !app_assoc. apply (pstep_winv cv A1 (after A1 x) B); try done.
    simpl. rewrite !length_app. lia.
Qed.
End Deliver.

(** [input] refuses what is foreign. *)
Lemma input_refuses_foreign `{BufPool} k t pkt upd : foreign (conv k) pkt -> input k t pkt upd = Ok (k, -1).
Proof.
  intros [Hl|(cv' & rest & Hd & Hne)]; apply input_foreign; [by left|right].
  unfold ikcp_decode32u, decode_le in Hd. destruct (_ <=? _)%nat; [|done]. by injection Hd as <- _.
Qed.

(** ** Lemmas: calls are runs *)

Section CallRuns.
Context `{BufPool} {Q : Type} `{ByteQueue Q} {Sock : Type} (WriteTo : Sock -> list byte -> Sock * bool).
#[local] Abbreviation KCPConn := (KCPConn (Q := Q) (Sock := Sock)).
Implicit Types s : KCPConn.

(** A change of a connection is a run of its control block with at most one flush, what was read
    having gone to [bufRead]. *)
Definition tracks (net : list (list byte)) s s' (w : list byte) (tr : list event) : Prop :=
  exists m r p, (m <= 1)%nat /\ kruns net (kcp s) m (kcp s') w r p /\
    q_contents (bufRead s') = q_contents (bufRead s) ++ r /\ packets_of tr ⊆ p.

Lemma tracks_quiet net s s' m :
  (m <= 1)%nat -> kruns net (kcp s) m (kcp s') [] [] [] -> bufRead s' = bufRead s ->
  tracks net s s' [] [].
Proof. intros Hm Hr Eb. exists m, [], []. split; [done|]. split; [done|]. by rewrite Eb, app_nil_r. Qed.

Lemma tracks_refl net s : tracks net s s [] [].
Proof. apply (tracks_quiet net s s 0); [lia|apply kr_nil|done]. Qed.

Lemma on_kcp_tracks net f o s s' tr :
  wf (kcp s) -> is_Some (conn s) -> op_ok (kcp s) o -> (forall t pkt, o <> OInput t pkt) ->
  (perform o (kcp s) = '(k, tr) ← f (kcp s); Ok (mkOutcome k tr [] [])) ->
  on_kcp WriteTo f s = Ok (s', tr) ->
  exists p, kruns net (kcp s) (flushes o) (kcp s') [] [] p /\ packets_of tr ⊆ p /\
    bufRead s' = bufRead s.
Proof.
  intros Hw Hc Ho Hi Hf E.
  destruct (perform_wf o (kcp s) Hw Ho) as (x & Ex & Hwx). rewrite Hf in Ex.
  apply bind_Ok_inv in Ex as ([k tr0] & E1 & Ex). injection Ex as <-. simpl in Hwx.
  destruct (on_kcp_ok WriteTo f s k tr0 E1 Hc Hwx) as (s2 & tr2 & st & E2 & Hsh & _ & Hk & _ & Hp).
  rewrite E in E2. injection E2 as <- <-. destruct (shell_eq _ _ Hsh) as (_ & _ & Eb & _).
  exists (packets_of tr0). split; [|done]. eapply kr_frame; [|rewrite Hk; apply frame_stats].
  apply (kruns_op net (kcp s) o (mkOutcome k tr0 [] [])); [done|by intros t pkt ->; destruct (Hi t pkt)|].
  rewrite Hf, E1. done.
Qed.

Lemma op_tracks net f o s s' tr :
  wf (kcp s) -> is_Some (conn s) -> op_ok (kcp s) o -> (forall t pkt, o <> OInput t pkt) ->
  (perform o (kcp s) = '(k, tr) ← f (kcp s); Ok (mkOutcome k tr [] [])) ->
  on_kcp WriteTo f s = Ok (s', tr) -> tracks net s s' [] tr.
Proof.
  intros Hw Hc Ho Hi Hf E. destruct (on_kcp_tracks net f o s s' tr Hw Hc Ho Hi Hf E) as (p & Hr & Hp & Eb).
  exists (flushes o), [], p. split; [by destruct o; simpl; lia|]. split; [done|]. split; [|done].
  by rewrite Eb, app_nil_r.
Qed.

Lemma closeInternal_tracks net now s s' tr e :
  wf (kcp s) -> closeInternal WriteTo now s = Ok (s', tr, e) ->
  exists m p, (m <= 1)%nat /\ kruns net (kcp s) m (kcp s') [] [] p /\ packets_of tr ⊆ p /\
    bufRead s' = bufRead s.
Proof.
  intros Hw E. unfold closeInternal in E. destruct (conn s) as [c|] eqn:Hc; cbn [orb] in E.
  2:{ injection E as <- <- _. exists 0%nat, []. split; [lia|]. split; [apply kr_nil|done]. }
  destruct (isStateLocalClosed (kcp s)).
  { injection E as <- <- _. exists 0%nat, []. split; [lia|]. split; [apply kr_nil|done]. }
  destruct (die s); [done|]. apply bind_Ok_inv in E as ([s1 t1] & E1 & E). injection E as <- <- _.
  eapply (on_kcp_tracks net _ (OClose (currentTickMs now))) in E1 as (p & Hr & Hp & Eb);
    [|exact Hw|by exists c|apply tick_range|done|done].
  by exists 1%nat, p.
Qed.

Lemma drain_tracks net fuel : forall s s' tr,
  conn_ok s -> len (stored s) <= memory -> drain fuel s = Ok (s', tr) ->
  exists r, kruns net (kcp s) 0 (kcp s') [] r [] /\
    q_contents (bufRead s') = q_contents (bufRead s) ++ r /\ packets_of tr = [] /\ wf (kcp s').
Proof.
  induction fuel as [|fuel IH]; intros s s' tr Hok Hm E; [done|]. cbn [drain] in E.
  pose proof (fr_stats _ (wf_ready _ (ok_wf _ Hok))) as Hst.
  destruct (recvSize (kcp s)) as [k n] eqn:Ez.
  pose proof (frame_recvSize (kcp s) Hst) as Hf. rewrite Ez in Hf. simpl in Hf.
  destruct (Z.leb_spec n 0) as [Hn|Hn].
  { injection E as <- <-. exists []. rewrite app_nil_r. split; [by apply kruns_frame|].
    split; [done|]. split; [done|]. by eapply frame_wf, Hf; apply Hok. }
  destruct (drain_message s k n Hok Ez Hn Hm) as (k2 & d & q & st & E2 & Eq & Hq & Ec & Hok2 & Hs2 & _).
  change (kcp (s<|kcp := k|>)) with k in E. rewrite E2 in E. cbn [mbind res_bind] in E.
  change (bufRead (s<|kcp := k|><|kcp := k2|>)) with (bufRead s) in E. rewrite Eq in E. cbn [mbind res_bind] in E.
  rewrite Ec in E. cbn [mbind res_bind] in E.
  set (s2 := _<|kcp := k2<|stats := Some st|>|>) in *.
  apply bind_Ok_inv in E as ([s3 t3] & E3 & E). injection E as <- <-.
  destruct (IH s2 s3 t3 Hok2) as (r & Hr & Hb & Hp & Hw); [by rewrite Hs2|done|].
  exists (d ++ r). split; [|split; [by rewrite Hb, app_assoc; simpl; rewrite Hq|done]].
  apply (kruns_trans net (kcp s) 0 (kcp s2) [] d [] 0 (kcp s3) [] r []); [|exact Hr].
  eapply kr_frame; [|apply (frame_stats k2 st)].
  apply (kruns_op net (kcp s) ORead (mkOutcome k2 [] [] d)); [done|done|].
  cbn [perform]. unfold read_round. rewrite Ez. rewrite (proj2 (Z.leb_gt _ _)) by done. by rewrite E2.
Qed.

Lemma Read_tracks net now n s s' tr r :
  conn_ok s -> len (stored s) <= memory -> Read WriteTo now n s = Ok (s', tr, r) ->
  exists m b p, (m <= 1)%nat /\ kruns net (kcp s) m (kcp s') [] b p /\ packets_of tr ⊆ p /\
    q_contents (bufRead s) ++ b =
      match r with Return d _ => d | Wait _ => [] end ++ q_contents (bufRead s').
Proof.
  intros Hok Hm. rewrite Read_eq. intros E. apply bind_Ok_inv in E as ([s1 t1] & E1 & E).
  assert (exists m b p, (m <= 1)%nat /\ kruns net (kcp s) m (kcp s1) [] b p /\ packets_of t1 ⊆ p /\
    q_contents (bufRead s1) = q_contents (bufRead s) ++ b /\ q_ok memory (bufRead s1)) as
    (m & b & p & Hm1 & Hr & Hp & Hb & Hq).
  { unfold read_prepare in E1. apply bind_Ok_inv in E1 as ([s2 t2] & E2 & E1).
    apply bind_Ok_inv in E1 as ([s3 t3] & E3 & E1). injection E1 as <- <-.
    assert (exists b, kruns net (kcp s) 0 (kcp s2) [] b [] /\
      q_contents (bufRead s2) = q_contents (bufRead s) ++ b /\ packets_of t2 = [] /\ wf (kcp s2) /\
      q_ok memory (bufRead s2)) as (b & Hr & Hb & Hp & Hw & Hq).
    { destruct (_ <? _).
      - destruct (drain_tracks net _ s s2 t2 Hok Hm E2) as (b & ? & ? & ? & ?). exists b. do 4 (split; [done|]).
        destruct (drain_ok (drain_fuel s) s Hok) as (s4 & t4 & E4 & D & _);
          [unfold held, drain_fuel; rewrite length_app; lia|done|].
        rewrite E2 in E4. injection E4 as <- _. apply D.
      - injection E2 as <- <-. exists []. rewrite app_nil_r. split; [apply kr_nil|]. by destruct Hok. }
    destruct (shouldClose (kcp s2)).
    - apply bind_Ok_inv in E3 as ([[s4 t4] e] & E4 & E3). injection E3 as <- <-.
      destruct (closeInternal_tracks net now s2 s4 t4 e Hw E4) as (m & p & Hm1 & Hr2 & Hp2 & Eb).
      exists m, b, p. split; [done|]. rewrite Eb.
      pose proof (kruns_trans _ _ _ _ _ _ _ _ _ _ _ _ Hr Hr2) as Hr3. rewrite (app_nil_r b) in Hr3.
      split; [exact Hr3|]. split; [by rewrite packets_of_app, Hp|done].
    - injection E3 as <- <-. exists 0%nat, b, []. split; [lia|]. split; [done|].
      by rewrite app_nil_r, Hp. }
  exists m, b, p. split; [done|].
  destruct (Z.gtb_spec (q_len (bufRead s1)) 0).
  - apply bind_Ok_inv in E as ([[q d] eof] & Eq & E). injection E as <- <- <-.
    destruct (q_read_ok memory (bufRead s1) n Hq) as (q' & Eq' & _ & Hcq). rewrite Eq in Eq'.
    injection Eq' as -> -> _. split; [done|]. split; [done|].
    change (bufRead (s1<|bufRead := q'|>)) with q'. by rewrite <- Hb, Hcq, take_drop.
  - assert (s' = s1 /\ tr = t1 /\ match r with Return d _ => d | Wait _ => [] end = []) as (-> & -> & ->).
    { destruct (isStateLocalClosed (kcp s1)); [by injection E as <- <- <-|].
      destruct (deadlineRead s1); [destruct (_ <=? 0)|]; by injection E as <- <- <-. }
    by rewrite Hb.
Qed.

Lemma count_frame f s s' : count f s = Ok s' -> frame (kcp s) (kcp s') /\ bufRead s' = bufRead s.
Proof.
  unfold count. intros E. apply bind_Ok_inv in E as (k & E1 & E). injection E as <-.
  apply with_stats_Ok_inv in E1 as [st ->]. split; [apply frame_stats|done].
Qed.

Lemma Write_tracks net now b s s' tr r :
  conn_ok s -> len b < 4294967296 -> Write now b s = Ok (s', tr, r) ->
  tracks net s s' (match r with Return _ None => b | _ => [] end) tr.
Proof.
  intros Hok Hb E. unfold Write in E.
  destruct (isStateLocalClosed (kcp s)); [injection E as <- <- <-; apply tracks_refl|].
  destruct (canKcpSendInternal s).
  2:{ destruct (deadlineWrite s); [destruct (_ <=? 0)|]; injection E as <- <- <-; apply tracks_refl. }
  apply bind_Ok_inv in E as ([k ret] & E1 & E). change (kcp (s<|kcp := k|>)) with k in E.
  destruct (Z.ltb_spec ret 0) as [|Hret]; [done|].
  apply bind_Ok_inv in E as (s1 & E2 & E). destruct (count_frame _ _ _ E2) as [Hf Eb].
  injection E as <- <- <-.
  destruct (wf_send (kcp s) b (ok_wf _ Hok) Hb) as (k' & code & E1' & _ & _ & Hc).
  rewrite E1 in E1'. injection E1' as <- <-. destruct Hc as [[_ ?]|[_ ->]]; [lia|].
  assert (kcp (if sndBufAvail (kcp s1) >? 0 then notifyFlushEvent s1 else s1) = kcp s1 /\
    bufRead (if sndBufAvail (kcp s1) >? 0 then notifyFlushEvent s1 else s1) = bufRead s) as [Ek Eb']
    by (by destruct (_ >? 0)).
  exists 0%nat, [], []. rewrite Ek, Eb', app_nil_r. split; [lia|]. split; [|done].
  eapply kr_frame; [|exact Hf].
  apply (kruns_op net (kcp s) (OSend b) (mkOutcome k [] b [])); [done|done|].
  cbn [perform]. by rewrite E1.
Qed.

Lemma doKcpInput_tracks net now now' pkt s s' tr :
  conn_ok s -> len pkt <= 2048 -> pkt ∈ net \/ foreign (conv (kcp s)) pkt ->
  doKcpInput WriteTo now now' pkt s = Ok (s', tr) -> tracks net s s' [] tr.
Proof.
  intros Hok Hl Hin E. unfold doKcpInput in E.
  apply bind_Ok_inv in E as ([k ret] & E1 & E). apply bind_Ok_inv in E as ([s2 t1] & E2 & E).
  apply bind_Ok_inv in E as ([s3 t2] & E3 & E). apply bind_Ok_inv in E as (s4 & E4 & E).
  injection E as <- <-.
  assert (kruns net (kcp s) 0 k [] [] []) as R1.
  { destruct Hin as [Hin|Hin].
    2:{ rewrite input_refuses_foreign in E1 by done. injection E1 as <- _. apply kr_nil. }
    apply (kruns_op net (kcp s) (OInput (currentTickMs now) pkt) (mkOutcome k [] [] [])).
    - split; [apply tick_range|done].
    - by intros t p [= _ <-].
    - cbn [perform]. by rewrite E1. }
  assert (wf k) as Hwk by (by eapply (kruns_wf net _ 0), R1; apply Hok).
  assert (frame k (kcp s2) /\ bufRead s2 = bufRead s /\ is_Some (conn s2) /\ packets_of t1 = []) as (F2 & B2 & C2 & P2).
  { unfold count_error in E2. destruct (negb _).
    - apply bind_Ok_inv in E2 as (s5 & E5 & E2). injection E2 as <- <-.
      destruct (count_frame _ _ _ E5) as [Hf Eb]. split; [exact Hf|]. split; [exact Eb|]. split; [|done].
      unfold count in E5. apply bind_Ok_inv in E5 as (k5 & _ & E5). injection E5 as <-. apply (ok_conn _ Hok).
    - injection E2 as <- <-. split; [by apply frame_refl, Hwk|]. split; [done|]. split; [apply (ok_conn _ Hok)|done]. }
  assert (exists m p, (m <= 1)%nat /\ kruns net (kcp s2) m (kcp s3) [] [] p /\ packets_of t2 ⊆ p /\
    bufRead s3 = bufRead s2) as (m & p & Hm & R3 & P3 & B3).
  { unfold answer_connect in E3. destruct (_ && _).
    - apply bind_Ok_inv in E3 as ([s5 t5] & E5 & E3). injection E3 as <- <-.
      eapply (on_kcp_tracks net _ (OConnect (currentTickMs now'))) in E5 as (p & Hr & Hp & Eb);
        [|by eapply frame_wf|done|apply tick_range|done|done].
      by exists 1%nat, p.
    - injection E3 as <- <-. exists 0%nat, []. split; [lia|]. split; [apply kr_nil|done]. }
  destruct (count_frame _ _ _ E4) as [F4 B4].
  assert (wf (kcp s3)) as Hw3 by (eapply kruns_wf, R3; by eapply frame_wf).
  assert (frame (kcp s3) (kcp (wake_reader s3)) /\ bufRead (wake_reader s3) = bufRead s3) as [F5 B5].
  { pose proof (frame_recvSize (kcp s3) (fr_stats _ (wf_ready _ Hw3))) as Hf. unfold wake_reader.
    destruct (recvSize (kcp s3)) as [k5 n5]. by destruct (_ || _). }
  exists m, [], p. split; [done|]. split; [|split].
  - eapply kr_frame; [|exact F4]. eapply kr_frame; [|exact F5].
    apply (kruns_trans net (kcp s) 0 (kcp s2) [] [] [] m (kcp s3) [] [] p); [|exact R3].
    by eapply kr_frame.
  - by rewrite B4, B5, B3, B2, app_nil_r.
  - rewrite !packets_of_app, P2. simpl. by rewrite app_nil_r.
Qed.

Lemma run_main_tracks net now fl s s' tr :
  wf (kcp s) -> is_Some (conn s) -> run_main WriteTo now fl s = Ok (s', tr) -> tracks net s s' [] tr.
Proof.
  intros Hw Hc E. unfold run_main in E. cbv zeta in E.
  apply bind_Ok_inv in E as ([s1 t1] & E1 & E). injection E as <- <-.
  assert (tracks net s s1 [] t1) as (m & r & p & Hm & Hr & Hb & Hp).
  { destruct (if sndBufAvail (kcp s) >? 0 then true else fl).
    - eapply (op_tracks net _ (OFlush (currentTickMs now))) in E1; [exact E1|done|done|apply tick_range|done|done].
    - eapply (op_tracks net _ (OUpdate (currentTickMs now))) in E1; [exact E1|done|done|apply tick_range|done|done]. }
  exists m, r, p. by destruct (canKcpSendInternal s1).
Qed.

Lemma run_closing_tracks net now s s' tr :
  wf (kcp s) -> is_Some (conn s) -> run_closing WriteTo now s = Ok (s', tr) -> tracks net s s' [] tr.
Proof.
  intros Hw Hc E. unfold run_closing in E. apply bind_Ok_inv in E as ([s1 t1] & E1 & E). injection E as <- <-.
  destruct (negb _).
  - eapply (op_tracks net _ (OClose (currentTickMs now))) in E1; [exact E1|done|done|apply tick_range|done|done].
  - injection E1 as <- <-. apply tracks_refl.
Qed.

(** What a call writes. *)
Definition wrote_by (c : call) s : list byte :=
  match c with
  | KWrite now b => match Write now b s with Ok (_, _, Return _ None) => b | _ => [] end
  | _ => []
  end.

Lemma perform_call_tracks net c s s' tr d :
  conn_ok s -> call_ok s c ->
  (forall now now' pkt, c = KInput now now' pkt -> pkt ∈ net \/ foreign (conv (kcp s)) pkt) ->
  perform_call WriteTo c s = Ok (s', tr, d) ->
  exists m b p, (m <= 1)%nat /\ kruns net (kcp s) m (kcp s') (wrote_by c s) b p /\ packets_of tr ⊆ p /\
    q_contents (bufRead s) ++ b = d ++ q_contents (bufRead s').
Proof.
  intros Hok Hc Hin E.
  assert (Htr : forall w, tracks net s s' w tr -> d = [] -> exists m b p, (m <= 1)%nat /\
    kruns net (kcp s) m (kcp s') w b p /\ packets_of tr ⊆ p /\
    q_contents (bufRead s) ++ b = d ++ q_contents (bufRead s')).
  { intros w (m & b & p & Hm & Hr & Hb & Hp) ->. exists m, b, p. by rewrite Hb. }
  assert (Hset : forall o, tr = [] -> d = [] -> bufRead s' = bufRead s -> flushes o = 0%nat ->
    perform o (kcp s) = Ok (mkOutcome (kcp s') [] [] []) -> op_ok (kcp s) o ->
    (forall t pkt, o <> OInput t pkt) -> exists m b p, (m <= 1)%nat /\
    kruns net (kcp s) m (kcp s') [] b p /\ packets_of tr ⊆ p /\
    q_contents (bufRead s) ++ b = d ++ q_contents (bufRead s')).
  { intros o -> -> Eb Hf Ho Hk Hi. exists (flushes o), [], []. split; [lia|]. rewrite Eb, app_nil_r.
    split; [|done]. apply (kruns_op net (kcp s) o (mkOutcome (kcp s') [] [] [])); try done.
    intros t pkt ->. by destruct (Hi t pkt). }
  assert (Hn : kcp s' = kcp s -> tr = [] -> d = [] -> bufRead s' = bufRead s -> exists m b p, (m <= 1)%nat /\
    kruns net (kcp s) m (kcp s') [] b p /\ packets_of tr ⊆ p /\
    q_contents (bufRead s) ++ b = d ++ q_contents (bufRead s')).
  { intros -> -> -> ->. exists 0%nat, [], []. rewrite app_nil_r. split; [lia|]. split; [apply kr_nil|done]. }
  pose proof (ok_wf _ Hok) as Hw. pose proof (ok_conn _ Hok) as Hcn.
  destruct c; cbn [call_ok perform_call wrote_by] in *.
  - apply bind_Ok_inv in E as ([[s1 t1] r] & E1 & E). injection E as <- <- <-.
    apply (Read_tracks net now n s s1 t1 r Hok); [apply Hc|done].
  - apply bind_Ok_inv in E as ([[s1 t1] r] & E1 & E). injection E as <- <- <-. rewrite E1.
    apply Htr; [|done]. apply (Write_tracks net now b s s1 t1 r Hok (proj1 Hc) E1).
  - apply bind_Ok_inv in E as ([[s1 t1] e] & E1 & E). injection E as <- <- <-.
    destruct (closeInternal_tracks net now s s1 t1 e Hw E1) as (m & p & Hm & Hr & Hp & Eb).
    apply Htr; [|done]. exists m, [], p. by rewrite Eb, app_nil_r.
  - apply bind_Ok_inv in E as ([s1 t1] & E1 & E). injection E as <- <- <-. apply Htr; [|done].
    unfold connect_flush in E1.
    eapply (op_tracks net _ (OConnect (currentTickMs now))) in E1; [exact E1|done|done|apply tick_range|done|done].
  - apply bind_Ok_inv in E as ([s1 t1] & E1 & E). injection E as <- <- <-. apply Htr; [|done].
    apply (doKcpInput_tracks net now now' pkt s s1 t1 Hok Hc); [by eapply Hin|done].
  - apply bind_Ok_inv in E as ([s1 t1] & E1 & E). injection E as <- <- <-. apply Htr; [|done].
    by eapply run_main_tracks.
  - apply bind_Ok_inv in E as ([s1 t1] & E1 & E). injection E as <- <- <-. apply Htr; [|done].
    by eapply run_closing_tracks.
  - apply bind_Ok_inv in E as ([[[s1 t1] x] y] & E1 & E). injection E as <- <- <-. apply Htr; [|done].
    unfold run_close in E1. apply bind_Ok_inv in E1 as ([s2 t2] & E2 & E1). injection E1 as <- <- _ _.
    eapply (op_tracks net _ (OUpdate (currentTickMs now))) in E2; [exact E2|done|done|apply tick_range|done|done].
  - injection E as <- <- <-. by apply Hn.
  - injection E as <- <- <-. by apply Hn.
  - injection E as <- <- <-. by apply Hn.
  - injection E as <- <- <-. by apply (Hset (OWndSize sndwnd rcvwnd)).
  - injection E as <- <- <-. by apply (Hset (ONoDelay nd itv resend nc)).
  - injection E as <- <- <-. by apply (Hset (OStream enable)).
  - apply bind_Ok_inv in E as (s1 & E1 & E). injection E as <- <- <-. unfold SetMtu in E1.
    apply bind_Ok_inv in E1 as ([k c] & E2 & E1). injection E1 as <-.
    apply (Hset (OMtu m)); try done. cbn [perform]. by rewrite E2.
Qed.
End CallRuns.

(** ** Two connections *)

Section Two.
Context `{BufPool} {Q : Type} `{ByteQueue Q} {Sock : Type}.
Context (WriteTo : bool -> Sock -> list byte -> Sock * bool).
#[local] Abbreviation KCPConn := (KCPConn (Q := Q) (Sock := Sock)).

(** One end: the connection, what its [Write] has accepted and its [Read] has returned, the
    datagrams its socket has taken, and how many segments it has numbered. *)
Record endpoint := mkEnd {
  e_conn : KCPConn;
  e_wrote : list byte;
  e_read : list byte;
  e_sent : list (list byte);
  e_numbered : Z;
}.

(** The socket, the events and the queue of datagrams may be another, nothing else. *)
Definition quiet (s s' : KCPConn) : Prop :=
  kcp s' = kcp s /\ bufRead s' = bufRead s /\ die s' = die s /\ is_Some (conn s').

(** A call at the end [side], where a datagram that arrives has been sent by the other or is
    foreign; between the calls the socket, the events and the queue may change as they like. *)
Inductive estep (side : bool) (net : list (list byte)) (e : endpoint) : endpoint -> Prop :=
  | estep_call c s tr d :
      call_ok (e_conn e) c ->
      (forall now now' pkt, c = KInput now now' pkt ->
         pkt ∈ net \/ foreign (conv (kcp (e_conn e))) pkt) ->
      perform_call (WriteTo side) c (e_conn e) = Ok (s, tr, d) ->
      estep side net e (mkEnd s (e_wrote e ++ wrote_by c (e_conn e)) (e_read e ++ d)
        (e_sent e ++ packets_of tr)
        (e_numbered e + dist (snd_nxt (kcp (e_conn e))) (snd_nxt (kcp s))))
  | estep_quiet s :
      quiet (e_conn e) s ->
      estep side net e (mkEnd s (e_wrote e) (e_read e) (e_sent e) (e_numbered e)).

(** A connection just made, by [accept] or by [connect]. *)
Definition opened (cv : Z) (s : KCPConn) : Prop :=
  exists s0 c, newKCPConn = Ok s0 /\ (s = (accept cv c s0).1 \/ s = (connect cv c s0).1).

Inductive ereach (cv : Z) : endpoint -> endpoint -> Prop :=
  | er_new s1 s2 :
      opened cv s1 -> opened cv s2 -> ereach cv (mkEnd s1 [] [] [] 0) (mkEnd s2 [] [] [] 0)
  | er_left e1 e1' e2 : ereach cv e1 e2 -> estep true (e_sent e2) e1 e1' -> ereach cv e1' e2
  | er_right e1 e2 e2' : ereach cv e1 e2 -> estep false (e_sent e1) e2 e2' -> ereach cv e1 e2'.

(** The end of [Protocol.v] that a connection is. *)
Record is_peer (e : endpoint) (P : peer) : Prop := {
  ip_kcp : p_kcp P = kcp (e_conn e);
  ip_wrote : p_wrote P = e_wrote e;
  ip_read : p_read P = e_read e ++ q_contents (bufRead (e_conn e));
  ip_soup : e_sent e ⊆ p_soup P;
  ip_hist : len (p_hist P) <= e_numbered e;
}.

Definition einv (cv : Z) (e1 e2 : endpoint) : Prop :=
  conn_ok (e_conn e1) /\ conn_ok (e_conn e2) /\
  exists A B, winv cv A B /\ is_peer e1 A /\ is_peer e2 B.

Lemma einv_sym cv e1 e2 : einv cv e1 e2 -> einv cv e2 e1.
Proof.
  intros (H1 & H2 & A & B & Hi & HA & HB). do 2 (split; [done|]). exists B, A.
  split; [by apply winv_sym|done].
Qed.

Lemma estep_numbered side net e e' : estep side net e e' -> e_numbered e <= e_numbered e'.
Proof.
  intros [c s tr d _ _ _|s _]; simpl; [|lia].
  pose proof (dist_range (snd_nxt (kcp (e_conn e))) (snd_nxt (kcp s))) as Hd. unfold is_u32 in Hd. lia.
Qed.

Lemma estep_einv cv side e1 e1' e2 :
  is_u32 cv -> einv cv e1 e2 -> estep side (e_sent e2) e1 e1' ->
  e_numbered e1' < half -> e_numbered e2 < half -> einv cv e1' e2.
Proof.
  intros Hcv (Hok & Hok2 & A & B & Hi & [P1 P2 P3 P4 P5] & HB) [c s tr d Hc Hin E|s (Q1 & Q2 & Q3 & Q4)] Hn1 Hn2.
  2:{ split; [destruct Hok; split; simpl; rewrite ?Q1, ?Q2, ?Q3; done|]. split; [done|].
      exists A, B. split; [done|]. split; [split; simpl; rewrite ?Q1, ?Q2; done|done]. }
  simpl in Hn1.
  destruct (perform_call_ok (WriteTo side) (e_conn e1) c Hok Hc) as (s' & tr' & d' & E' & Hok' & _).
  rewrite E in E'. injection E' as <- <- <-. split; [done|]. split; [done|].
  destruct (perform_call_tracks (WriteTo side) (p_soup B) c (e_conn e1) s tr d Hok Hc) as
    (m & b & p & Hm & Hr & Hp & Hb); [|done|].
  { intros now now' pkt Ec. destruct (Hin now now' pkt Ec) as [Hi'|Hf]; [left|by right].
    by apply (ip_soup _ _ HB). }
  rewrite <- P1 in Hr, Hn1. pose proof (ip_hist _ _ HB).
  destruct (kruns_winv cv A B m _ _ _ _ Hcv Hi Hr Hm) as (h & Hi' & Hl); [lia|lia|].
  eexists _, B. split; [exact Hi'|]. split; [|done]. split; simpl.
  - done.
  - by rewrite P2.
  - by rewrite P3, <- !app_assoc, Hb.
  - intros x [Hx|Hx]%elem_of_app; apply elem_of_app; [left; by apply P4|right; by apply Hp].
  - rewrite length_app, <- P1. lia.
Qed.

Lemma opened_peer cv s : opened cv s ->
  conn_ok s /\ is_peer (mkEnd s [] [] [] 0) (new_peer cv).
Proof.
  intros (s0 & c & E & Hs). pose proof (newKCPConn_ok s0 E) as (Ek & Eb & _).
  assert (kcp s = fresh cv /\ bufRead s = q_empty /\ conn_ok s) as (Hk & Hb & Hok).
  { destruct Hs as [-> | ->]; (split; [simpl; rewrite Ek; apply fresh_conv|split; [exact Eb|]]);
      by eapply (conn_ok_new s0 _ cv c). }
  split; [done|]. split; simpl; [by rewrite Hk|done| |done|done].
  rewrite Hb. symmetry. apply q_empty_contents.
Qed.

Lemma ereach_einv cv e1 e2 :
  is_u32 cv -> ereach cv e1 e2 -> e_numbered e1 < half -> e_numbered e2 < half -> einv cv e1 e2.
Proof.
  intros Hcv. induction 1 as [s1 s2 H1 H2|e1 e1' e2 _ IH Hs|e1 e2 e2' _ IH Hs]; intros Hn1 Hn2.
  - destruct (opened_peer cv s1 H1) as [? ?], (opened_peer cv s2 H2) as [? ?].
    do 2 (split; [done|]). exists (new_peer cv), (new_peer cv). split; [|done].
    split; simpl; try done; try apply wf_fresh; apply dir_new.
  - pose proof (estep_numbered _ _ _ _ Hs). eapply estep_einv; try done. apply IH; [lia|done].
  - pose proof (estep_numbered _ _ _ _ Hs). apply einv_sym. eapply estep_einv; try done.
    apply einv_sym, IH; [done|lia].
Qed.

(** What the invariant says of what is read and written. *)
Lemma einv_delivers cv e1 e2 :
  einv cv e1 e2 -> e_numbered e1 < half ->
  e_read e2 `prefix_of` e_wrote e1 /\ e_read e1 `prefix_of` e_wrote e2 /\
  (waitSnd (kcp (e_conn e1)) = 0 -> e_read e2 ++ stored (e_conn e2) = e_wrote e1).
Proof.
  intros (_ & _ & A & B & Hi & [A1 A2 A3 _ A5] & [B1 B2 B3 _ B5]) H1.
  pose proof (dir_prefix A B (w_lr _ _ _ Hi)) as P1. pose proof (dir_prefix B A (w_rl _ _ _ Hi)) as P2.
  rewrite A2, B3 in P1. rewrite B2, A3 in P2.
  split; [etrans; [|exact P1]; by eexists|]. split; [etrans; [|exact P2]; by eexists|].
  intros Hw. rewrite <- A1 in Hw.
  pose proof (dir_complete A B (w_lr _ _ _ Hi)) as Hc. rewrite A2, B3, B1, <- app_assoc in Hc.
  apply Hc; [lia|done].
Qed.

(** ** Properties *)

(** C1. Reliable, ordered delivery by connections: two connections of one conversation, each made
    by [accept] or [connect], over a network that loses, delays, duplicates and reorders the
    datagrams their sockets take and brings datagrams of other conversations besides, over sockets
    that may refuse some and change by themselves; whatever calls of [Read], [Write], [Close], of
    [run] and of the settings are made at either end in whatever order. What [Read] has returned at one end is always a prefix of what [Write] has accepted
    at the other, in both directions; and when an end has nothing more to send, the other has
    returned or stores, in order, every byte written. *)
Theorem connections_deliver cv e1 e2 (Hcv : is_u32 cv) (Hr : ereach cv e1 e2)
    (H1 : e_numbered e1 < 2147483648) (H2 : e_numbered e2 < 2147483648) :
  e_read e2 `prefix_of` e_wrote e1 /\ e_read e1 `prefix_of` e_wrote e2 /\
  (waitSnd (kcp (e_conn e1)) = 0 -> e_read e2 ++ stored (e_conn e2) = e_wrote e1).
Proof.
  apply (einv_delivers cv e1 e2); [|exact H1]. by apply ereach_einv.
Qed.
End Two.

(** Of two ends with sockets of one kind either may come first. *)
Lemma ereach_sym `{BufPool} {Q : Type} `{ByteQueue Q} {Sock : Type}
    (W : Sock -> list byte -> Sock * bool) cv (e1 e2 : endpoint (Q := Q) (Sock := Sock)) :
  ereach (fun _ => W) cv e1 e2 -> ereach (fun _ => W) cv e2 e1.
Proof.
  induction 1 as [s1 s2 H1 H2|e1 e1' e2 _ IH [c s tr d Hc Hi E|s Hq]|e1 e2 e2' _ IH [c s tr d Hc Hi E|s Hq]].
  - by apply er_new.
  - eapply er_right; [exact IH|]. by apply (estep_call _ false _ e1 c s tr d).
  - eapply er_right; [exact IH|]. by apply estep_quiet.
  - eapply er_left; [exact IH|]. by apply (estep_call _ true _ e2 c s tr d).
  - eapply er_left; [exact IH|]. by apply estep_quiet.
Qed.

(** *** Witnesses *)

Section Witnesses.
#[local] Existing Instance zero_pool.
#[local] Abbreviation endpoint := (endpoint (Q := Buffer) (Sock := list (list byte))).
Implicit Types e : endpoint.

Definition demo_sockets (side : bool) := demo_write.

(** A call, and the arrival of all that the other end has sent, computed. *)
Definition do_call (c : call) e : endpoint :=
  match perform_call demo_write c (e_conn e) with
  | Ok (s, tr, d) =>
      mkEnd s (e_wrote e ++ wrote_by c (e_conn e)) (e_read e ++ d) (e_sent e ++ packets_of tr)
        (e_numbered e + dist (snd_nxt (kcp (e_conn e))) (snd_nxt (kcp s)))
  | _ => e
  end.
Definition do_input (now : Z) (pkts : list (list byte)) e : endpoint :=
  foldl (fun e pkt => do_call (KInput now now pkt) e) e pkts.

Definition demo_client0 : endpoint := mkEnd (connect 7 [] demo_new).1 [] [] [] 0.
Definition demo_server0 : endpoint := mkEnd (accept 7 [] demo_new).1 [] [] [] 0.
Definition demo_client1 := do_call (KMain 20000000 true) (do_call (KConnect 0) demo_client0).
Definition demo_server1 :=
  do_call (KMain 35000000 true) (do_input 30000000 (e_sent demo_client1) demo_server0).
Definition demo_client2 := do_input 40000000 (e_sent demo_server1) demo_client1.
Definition demo_client3 :=
  do_call (KMain 60000000 true) (do_call (KWrite 50000000 [Byte.x68; Byte.x69]) demo_client2).
Definition demo_server2 :=
  do_call (KRead 80000000 10) (do_input 70000000 (e_sent demo_client3) demo_server1).

Lemma do_call_left c e1 e2 :
  ereach demo_sockets 7 e1 e2 -> call_ok (e_conn e1) c ->
  (forall now now' pkt, c = KInput now now' pkt -> pkt ∈ e_sent e2) ->
  ereach demo_sockets 7 (do_call c e1) e2.
Proof.
  intros Hr Hc Hin. unfold do_call.
  destruct (perform_call demo_write c (e_conn e1)) as [[[s tr] d]| |] eqn:E; [|exact Hr..].
  eapply er_left; [exact Hr|]. apply (estep_call _ true _ e1 c s tr d); [done| |done].
  intros now now' pkt Ec. left. by eapply Hin.
Qed.

Lemma ereach_swap e1 e2 : ereach demo_sockets 7 e1 e2 -> ereach demo_sockets 7 e2 e1.
Proof. exact (ereach_sym demo_write 7 e1 e2). Qed.

Lemma do_input_left now pkts e1 e2 :
  ereach demo_sockets 7 e1 e2 -> (forall p, p ∈ pkts -> p ∈ e_sent e2) ->
  Forall (fun p : list byte => len p <= 2048) pkts -> ereach demo_sockets 7 (do_input now pkts e1) e2.
Proof.
  unfold do_input. revert e1. induction pkts as [|p pkts IH]; intros e1 Hr Hin Hl; [done|].
  apply Forall_cons in Hl as [Hp Hl]. simpl. apply IH; [|by intros x Hx; apply Hin; right|done].
  apply do_call_left; [done|exact Hp|]. intros t t' x [= _ _ <-]. apply Hin. by left.
Qed.

Lemma demo_opened : ereach demo_sockets 7 demo_client0 demo_server0.
Proof.
  apply er_new; exists demo_new, []; (split; [apply demo_new_eq|]); [by right|by left].
Qed.

Lemma demo_delivered : ereach demo_sockets 7 demo_client3 demo_server2.
Proof.
  assert (ereach demo_sockets 7 demo_client1 demo_server0) as H1
    by (do 2 (apply do_call_left; [|exact I|discriminate]); apply demo_opened).
  assert (ereach demo_sockets 7 demo_client1 demo_server1) as H2.
  { apply ereach_swap, do_call_left; [|exact I|discriminate]. apply do_input_left; [by apply ereach_swap|done|].
    vm_compute. repeat constructor; discriminate. }
  assert (ereach demo_sockets 7 demo_client3 demo_server1) as H3.
  { apply do_call_left; [|exact I|discriminate]. apply do_call_left; [| |discriminate].
    - apply do_input_left; [done|done|]. vm_compute. repeat constructor; discriminate.
    - split; [reflexivity|]. split; [discriminate|vm_compute; discriminate]. }
  apply ereach_swap, do_call_left; [| |discriminate].
  - apply do_input_left; [by apply ereach_swap|done|]. vm_compute. repeat constructor; discriminate.
  - split; [left; vm_compute; reflexivity|vm_compute; discriminate].
Qed.

Lemma connections_deliver_witness :
  e_wrote demo_client3 = [Byte.x68; Byte.x69] /\ e_read demo_server2 = [Byte.x68; Byte.x69] /\
  e_read demo_server2 `prefix_of` e_wrote demo_client3.
Proof.
  assert (is_u32 7) as Hcv by (split; [discriminate|reflexivity]).
  assert (e_numbered demo_client3 < 2147483648) as H1 by (vm_compute; reflexivity).
  assert (e_numbered demo_server2 < 2147483648) as H2 by (vm_compute; reflexivity).
  split; [vm_compute; reflexivity|]. split; [vm_compute; reflexivity|].
  destruct (connections_deliver demo_sockets 7 demo_client3 demo_server2 Hcv demo_delivered H1 H2) as [H _].
  exact H.
Defined.
End Witnesses.
