(* ===== verification/Threads.v ===== *)
(** * The threads of a connection ([kcpconn.go]: [run], [Read], [Write], [goRunClientRecv])

    Each step is one critical section or one receive from a channel, so that every
    interleaving of the goroutines of a connection is a sequence of steps: the loop of
    [run], a reader and a writer that wait, the receiver of datagrams, and the calls of the
    application. The event channels have one slot; who waits on them is in the state. *)
From S2P Require Import Prelude GoInt Stats Wire Kcp Serial Send Recv Ack Input Flush Flushed Timer Session Buffer Conn Calls.

(** ** Definitions *)

(** Times and delays are in nanoseconds. *)
Definition updateDelayMax : Z := 1000000000.
Definition updateDelayMin : Z := 10000000.
Definition closeWait : Z := 5000000000.
Definition rxQueueLimit : Z := 8192.

(** Where [run] stands: at the head of the main loop with the delay and whether to flush,
    in its [select], between the loops, at the head of the closing loop with its start and
    [dangling], in its [select], at the end. *)
Inductive runpc :=
  | PMain (updateDelay : Z) (doKcpFlush : bool)
  | PSelect (updateDelay : Z)
  | PClosing
  | PClose (start : Z) (dangling : bool)
  | PCloseSelect (start updateDelay : Z) (dangling : bool)
  | PEnd (dangling : bool).

(** A thread in [Read] or [Write] with its argument: outside, before a round, or waiting. *)
Inductive waiter (A : Type) := Idle | Round (a : A) | Waiting (a : A) (deadline : option Z).
Arguments Idle {A}.
Arguments Round {A} a.
Arguments Waiting {A} a deadline.

(** Who makes a step. *)
Inductive label := LRun | LReader | LWriter | LNet | LCall (c : call).

Section Threads.
Context `{BufPool} {Q : Type} `{ByteQueue Q} {Sock : Type} (WriteTo : Sock -> list byte -> Sock * bool).
#[local] Abbreviation KCPConn := (KCPConn (Q := Q) (Sock := Sock)).

Record threads := mkThreads {
  co : KCPConn;
  pc : runpc;
  reader : waiter nat;
  writer : waiter (list byte);
}.
#[global] Instance eta_threads : Eta threads := fun x => mkThreads (co x) (pc x) (reader x) (writer x).

(** The delay as the main loop bounds it. *)
Definition clamp (updateDelay : Z) : Z :=
  let updateDelay := if updateDelay >? updateDelayMax then updateDelayMax else updateDelay in
  if updateDelay <? updateDelayMin then updateDelayMin else updateDelay.

(** One pass of the main loop up to its [select]. *)
Definition main_head (now updateDelay : Z) (doKcpFlush : bool) (s : KCPConn) :
    res (KCPConn * runpc * list event) :=
  if isAllOpen (kcp s) then
    '(s, tr) ← run_main WriteTo now doKcpFlush s;
    Ok (s, PSelect (clamp updateDelay), tr)
  else Ok (s, PClosing, []).

(** One pass of the closing loop up to its [select]. *)
Definition close_head (now now' start : Z) (dangling : bool) (s : KCPConn) :
    res (KCPConn * runpc * list event) :=
  '(s, tr, isDead, wait) ← run_close WriteTo now s;
  let updateDelay := if wait : bool then 100000000 else updateDelayMax in
  let dangling := if wait : bool then dangling else false in
  let isCloseWaitTimeout := Z.abs (now' - start) >=? closeWait in
  Ok (s, if (isDead : bool) || isCloseWaitTimeout then PEnd dangling
         else PCloseSelect start updateDelay dangling, tr).

(** The next datagram of the queue. *)
Definition take_input (now now' : Z) (s : KCPConn) : res (option (KCPConn * list event)) :=
  match chUdpInput s with
  | [] => Ok None
  | data :: rest => r ← doKcpInput WriteTo now now' data (s<|chUdpInput := rest|>); Ok (Some r)
  end.

(** A pass of the goroutine of [goRunClientRecv]: a datagram is queued, or dropped when [drop]
    says that the [select] has seen [die]; a read error, [None], is counted and ends it. The
    result says whether it goes on; it is [None] while the queue is full. *)
Definition client_pass (got : option (list byte)) (drop : bool) (s : KCPConn) :
    res (option (KCPConn * bool * list event)) :=
  match got with
  | Some data =>
      if die s && drop then Ok (Some (s, true, []))
      else if len (chUdpInput s) <? rxQueueLimit
      then Ok (Some (s<|chUdpInput := chUdpInput s ++ [data]|>, true, []))
      else Ok None
  | None =>
      s ← count (fun st => st<|ErrorRead := i64 (ErrorRead st + 1)|>) s;
      Ok (Some (s, false, [EAdd CErrorRead 1]))
  end.

(** The calls the application makes besides [Read] and [Write]. *)
Definition api_call (c : call) : bool :=
  match c with
  | KClose _ | KDeadline _ | KReadDeadline _ | KWriteDeadline _ | KWindow _ _ | KNoDelay _ _ _ _
  | KStream _ | KMtu _ => true
  | _ => false
  end.

Inductive tstep : label -> threads -> threads -> Prop :=
  (* run *)
  | t_main now d fl x s p tr :
      pc x = PMain d fl -> main_head now d fl (co x) = Ok (s, p, tr) ->
      tstep LRun x (x<|co := s|><|pc := p|>)
  | t_select_input now now' d x s tr :
      pc x = PSelect d -> take_input now now' (co x) = Ok (Some (s, tr)) ->
      tstep LRun x (x<|co := s|><|pc := PMain (Z.quot d 2) false|>)
  | t_select_flush d x :
      pc x = PSelect d -> chKcpFlushEvent (co x) = true ->
      tstep LRun x (x<|co := (co x)<|chKcpFlushEvent := false|>|><|pc := PMain (Z.quot d 2) true|>)
  | t_select_timer d x :
      pc x = PSelect d -> tstep LRun x (x<|pc := PMain (d * 2) false|>)
  | t_select_die d x :
      pc x = PSelect d -> die (co x) = true -> tstep LRun x (x<|pc := PClosing|>)
  | t_closing now start x s tr :
      pc x = PClosing -> run_closing WriteTo now (co x) = Ok (s, tr) ->
      tstep LRun x (x<|co := s|><|pc := PClose start true|>)
  | t_close now now' start dg x s p tr :
      pc x = PClose start dg -> close_head now now' start dg (co x) = Ok (s, p, tr) ->
      tstep LRun x (x<|co := s|><|pc := p|>)
  | t_close_input now now' start d dg x s tr :
      pc x = PCloseSelect start d dg -> take_input now now' (co x) = Ok (Some (s, tr)) ->
      tstep LRun x (x<|co := s|><|pc := PClose start dg|>)
  | t_close_timer start d dg x :
      pc x = PCloseSelect start d dg -> tstep LRun x (x<|pc := PClose start dg|>)
  (* a reader *)
  | t_read_call n x :
      reader x = Idle -> tstep LReader x (x<|reader := Round n|>)
  | t_read_return now n x s tr d err :
      reader x = Round n -> call_ok (co x) (KRead now n) ->
      Read WriteTo now n (co x) = Ok (s, tr, Return d err) ->
      tstep LReader x (x<|co := s|><|reader := Idle|>)
  | t_read_wait now n x s tr dl :
      reader x = Round n -> call_ok (co x) (KRead now n) ->
      Read WriteTo now n (co x) = Ok (s, tr, Wait dl) ->
      tstep LReader x (x<|co := s|><|reader := Waiting n dl|>)
  | t_read_event n dl x :
      reader x = Waiting n dl -> chReadEvent (co x) = true ->
      tstep LReader x (x<|co := (co x)<|chReadEvent := false|>|><|reader := Round n|>)
  | t_read_timer n t x :
      reader x = Waiting n (Some t) -> tstep LReader x (x<|reader := Round n|>)
  | t_read_die n dl x :
      reader x = Waiting n dl -> die (co x) = true -> tstep LReader x (x<|reader := Round n|>)
  (* a writer *)
  | t_write_call b x :
      writer x = Idle -> tstep LWriter x (x<|writer := Round b|>)
  | t_write_return now b x s tr k err :
      writer x = Round b -> call_ok (co x) (KWrite now b) ->
      Write now b (co x) = Ok (s, tr, Return k err) ->
      tstep LWriter x (x<|co := s|><|writer := Idle|>)
  | t_write_wait now b x s tr dl :
      writer x = Round b -> call_ok (co x) (KWrite now b) ->
      Write now b (co x) = Ok (s, tr, Wait dl) ->
      tstep LWriter x (x<|co := s|><|writer := Waiting b dl|>)
  | t_write_event b dl x :
      writer x = Waiting b dl -> chWriteEvent (co x) = true ->
      tstep LWriter x (x<|co := (co x)<|chWriteEvent := false|>|><|writer := Round b|>)
  | t_write_timer b t x :
      writer x = Waiting b (Some t) -> tstep LWriter x (x<|writer := Round b|>)
  | t_write_die b dl x :
      writer x = Waiting b dl -> die (co x) = true -> tstep LWriter x (x<|writer := Round b|>)
  (* the network and the application *)
  | t_net pkt x :
      len pkt <= udpPacketSizeLimit -> len (chUdpInput (co x)) < rxQueueLimit ->
      tstep LNet x (x<|co := (co x)<|chUdpInput := chUdpInput (co x) ++ [pkt]|>|>)
  | t_call c x s tr d :
      api_call c = true -> call_ok (co x) c ->
      perform_call WriteTo c (co x) = Ok (s, tr, d) ->
      tstep (LCall c) x (x<|co := s|>).

(** From [go s.run()] in [accept] and [connect] on. *)
Inductive treach : threads -> Prop :=
  | tr_start s : connection WriteTo s -> chUdpInput s = [] -> treach (mkThreads s (PMain updateDelayMin false) Idle Idle)
  | tr_step l x x' : treach x -> tstep l x x' -> treach x'.

(** ** Invariant *)

(** A waiting reader either is about to be woken or has nothing to wake for. *)
Definition nothing_to_read (dl : option Z) (s : KCPConn) : Prop :=
  q_contents (bufRead s) = [] /\ (recvSize (kcp s)).2 <= 0 /\
  isStateRemoteClosed (kcp s) = false /\ isStateLocalClosed (kcp s) = false /\
  dl = deadlineRead s.

Definition reader_served (x : threads) : Prop :=
  match reader x with
  | Waiting n dl => n <> 0%nat ->
      chReadEvent (co x) = true \/ die (co x) = true \/ nothing_to_read dl (co x)
  | _ => True
  end.

Definition pc_ok (x : threads) : Prop :=
  match pc x with
  | PMain d _ => 0 <= d <= 2 * updateDelayMax
  | PSelect d => updateDelayMin <= d <= updateDelayMax
  | PClosing => isStateRemoteClosed (kcp (co x)) = true \/ isStateLocalClosed (kcp (co x)) = true \/
                die (co x) = true
  | PCloseSelect _ d _ => 0 < d <= updateDelayMax
  | _ => True
  end.

Record tinv (x : threads) : Prop := {
  ti_conn : conn_ok (co x);
  ti_input : Forall (fun p : list byte => len p <= udpPacketSizeLimit) (chUdpInput (co x));
  ti_reader : reader_served x;
  ti_pc : pc_ok x;
}.

(** ** Lemmas *)

Lemma clamp_range d : updateDelayMin <= clamp d <= updateDelayMax.
Proof.
  unfold clamp, updateDelayMin, updateDelayMax. destruct (Z.gtb_spec d 1000000000); [done|].
  destruct (Z.ltb_spec d 10000000); lia.
Qed.

Lemma nothing_undisturbed dl s s' :
  undisturbed s s' -> nothing_to_read dl s -> nothing_to_read dl s'.
Proof.
  intros [Eb _ Ed _ Es Er] (H1 & H2 & H3 & H4 & H5). apply rcv_side_eq in Er as (_ & Eq & _).
  unfold nothing_to_read, isStateRemoteClosed, isStateLocalClosed.
  rewrite Eb, Ed, Es, (recvSize_queue _ _ Eq). done.
Qed.

Lemma served_undisturbed x s' :
  undisturbed (co x) s' -> reader_served x -> reader_served (x<|co := s'|>).
Proof.
  intros Hu Hr. unfold reader_served in *. simpl. destruct (reader x); [done..|].
  intros Hn. rewrite (ud_event _ _ Hu), (ud_die _ _ Hu).
  destruct (Hr Hn) as [?|[?|?]]; [by left|right; by left|right; right]. by eapply nothing_undisturbed.
Qed.
(** A step of another thread on the connection, [run] staying where it is. *)
Lemma tinv_co x s :
  tinv x -> conn_ok s -> chUdpInput s = chUdpInput (co x) -> undisturbed (co x) s ->
  tinv (x<|co := s|>).
Proof.
  intros [Hc Hi Hr Hp] Hok Ei Hu. split; [done|by simpl; rewrite Ei|by apply served_undisturbed|].
  unfold pc_ok in *. simpl. destruct (pc x); try done.
  unfold isStateRemoteClosed, isStateLocalClosed in *. by rewrite (ud_state _ _ Hu), (ud_die _ _ Hu).
Qed.

Lemma tinv_pc x p :
  tinv x -> pc_ok (x<|pc := p|>) -> tinv (x<|pc := p|>).
Proof. intros [Hc Hi Hr _] Hp. by split. Qed.

Lemma tinv_reader x r :
  tinv x -> reader_served (x<|reader := r|>) -> tinv (x<|reader := r|>).
Proof. intros [Hc Hi _ Hp] Hr. by split. Qed.

Lemma tinv_writer x w : tinv x -> tinv (x<|writer := w|>).
Proof. intros [Hc Hi Hr Hp]. by split. Qed.

(** A datagram taken from the queue and processed. *)
Lemma take_input_ok now now' x s tr :
  tinv x -> take_input now now' (co x) = Ok (Some (s, tr)) ->
  conn_ok s /\ Forall (fun p : list byte => len p <= udpPacketSizeLimit) (chUdpInput s) /\
  reader_served (x<|co := s|>).
Proof.
  intros [Hc Hi Hr _] E. unfold take_input in E.
  destruct (chUdpInput (co x)) as [|pkt rest] eqn:Eq; [done|].
  apply Forall_cons in Hi as [Hl Hi].
  set (s0 := (co x)<|chUdpInput := rest|>) in *.
  assert (conn_ok s0) as Hok0 by by destruct Hc; split.
  destruct (doKcpInput_ok WriteTo now now' pkt s0 Hok0 Hl) as
    (s1 & tr1 & k & code & E1 & Hok & _ & _ & _ & Eb & Ed & Edl & Eci & El & _ & Er & _).
  rewrite E1 in E. cbn [mbind res_bind] in E. injection E as <- _.
  split; [done|]. split; [by rewrite Eci|].
  unfold reader_served in *. simpl. destruct (reader x); [done..|]. intros Hn.
  rewrite Ed, Er. change (chReadEvent s0) with (chReadEvent (co x)). change (die s0) with (die (co x)).
  destruct (Hr Hn) as [->|[->|(N1 & N2 & N3 & N4 & N5)]]; [by left|right; by left|].
  destruct (Z.gtb_spec (recvSize (kcp s1)).2 0); [left; by rewrite orb_true_r|].
  destruct (shouldClose (kcp s1)) eqn:Esc; [left; by rewrite orb_true_r|].
  right. right. unfold nothing_to_read. rewrite Eb, Edl, El.
  change (isStateLocalClosed (kcp s0)) with (isStateLocalClosed (kcp (co x))).
  rewrite shouldClose_flags, El in Esc.
  change (isStateLocalClosed (kcp s0)) with (isStateLocalClosed (kcp (co x))) in Esc.
  rewrite N4, andb_true_r in Esc. done.
Qed.

Lemma tinv_input x s p :
  conn_ok s /\ Forall (fun p : list byte => len p <= udpPacketSizeLimit) (chUdpInput s) /\
    reader_served (x<|co := s|>) ->
  pc_ok (x<|co := s|><|pc := p|>) -> tinv (x<|co := s|><|pc := p|>).
Proof. intros (? & ? & ?) ?. by split. Qed.

Lemma tinv_run x x' : tinv x -> tstep LRun x x' -> tinv x'.
Proof.
  intros Hi Hs. pose proof Hi as [Hc Hq Hr Hp]. unfold pc_ok in Hp.
  inversion Hs as [now d fl x0 s p tr Epc E| now now' d x0 s tr Epc E|d x0 Epc E|d x0 Epc|d x0 Epc E|
    now start x0 s tr Epc E|now now' start dg x0 s p tr Epc E|now now' start d dg x0 s tr Epc E|
    start d dg x0 Epc| | | | | | | | | | | | | |]; subst; rewrite Epc in Hp.
  - unfold main_head in E. destruct (isAllOpen (kcp (co x))) eqn:Ea.
    + destruct (run_main_ok WriteTo now fl (co x) Hc) as (s1 & tr1 & E1 & Hok & _ & _ & Hu & Ec & _).
      rewrite E1 in E. cbn [mbind res_bind] in E. injection E as <- <- _.
      apply (tinv_pc (x<|co := s1|>)); [by apply tinv_co|apply clamp_range].
    + injection E as <- <- _. assert (x<|co := co x|> = x) as Ex by by destruct x.
      rewrite Ex. apply tinv_pc; [done|]. unfold pc_ok. simpl. rewrite isAllOpen_flags in Ea.
      rewrite (ok_dead _ Hc), andb_true_r in Ea.
      apply andb_false_iff in Ea as [?%negb_false_iff|?%negb_false_iff]; auto.
  - apply tinv_input; [by eapply take_input_ok|]. unfold pc_ok. simpl. unfold updateDelayMin, updateDelayMax in *. Z.to_euclidean_division_equations; lia.
  - apply tinv_input; [|unfold pc_ok; simpl; unfold updateDelayMin, updateDelayMax in *;
      Z.to_euclidean_division_equations; lia].
    split; [by destruct Hc; split|]. split; [done|].
    apply served_undisturbed; [by split|done].
  - apply tinv_pc; [done|]. unfold pc_ok. simpl. unfold updateDelayMin, updateDelayMax in *. lia.
  - apply tinv_pc; [done|]. unfold pc_ok. simpl. auto.
  - destruct (run_closing_ok WriteTo now (co x) Hc) as (s1 & tr1 & E1 & Hok & _ & Hf & Hsh & _ & Hrs).
    rewrite E1 in E. injection E as <- _.
    destruct (shell_eq _ _ Hsh) as (Edl & _ & Eb & Ed & Ee & _ & _ & Eci).
    split; [done|by simpl; rewrite Eci| |done].
    unfold reader_served in *. simpl. destruct (reader x); [done..|]. intros Hn.
    rewrite Ee, Ed. destruct (Hr Hn) as [?|[?|(_ & _ & N3 & N4 & _)]]; [by left|right; by left|].
    right. left. destruct Hp as [Hp|[Hp|Hp]]; congruence.
  - unfold close_head in E.
    destruct (run_close_ok WriteTo now (co x) Hc) as (s1 & tr1 & w & E1 & Hok & _ & _ & Hsh & Hst & Hrs).
    rewrite E1 in E. cbn [mbind res_bind] in E. injection E as <- <- _.
    destruct (shell_eq _ _ Hsh) as (_ & _ & _ & _ & _ & _ & _ & Eci).
    apply (tinv_pc (x<|co := s1|>)); [apply tinv_co; try done; by apply undisturbed_shell|].
    unfold pc_ok. simpl. destruct (Z.abs _ >=? _); [done|]. unfold updateDelayMax. by destruct w.
  - apply tinv_input; [by eapply take_input_ok|done].
  - by apply tinv_pc.
Qed.

(** Calls of other threads: where [run] stands stays justified. *)
Lemma pc_ok_flags x s :
  conn_ok (co x) -> flags_move (kcp (co x)) (kcp s) -> pc_ok x -> pc_ok (x<|co := s|>).
Proof.
  intros Hc Hf. unfold pc_ok. simpl. destruct (pc x); try done.
  intros [Hp|[Hp|Hp]]; [left; by apply (fm_remote _ _ Hf)|right; left; by apply (fm_local _ _ Hf)|].
  right. left. apply (fm_local _ _ Hf). by apply (ok_die _ Hc).
Qed.

Lemma tinv_read x x' : tinv x -> tstep LReader x x' -> tinv x'.
Proof.
  intros Hi Hs. pose proof Hi as [Hc Hq Hr Hp].
  inversion Hs as [| | | | | | | | |n x0 Er|now n x0 s tr d err Er Hcl E|now n x0 s tr dl Er Hcl E|
    n dl x0 Er E|n t x0 Er|n dl x0 Er E| | | | | | | |]; subst.
  - by apply tinv_reader.
  - destruct (Read_round_ok WriteTo now n (co x) Hc (proj1 Hcl) (proj2 Hcl))
      as (s1 & tr1 & r & E1 & Hok & Hf & (_ & Hib & _) & _).
    rewrite E in E1. injection E1 as <- _ _. apply inbox_eq in Hib as [Ei _].
    split; [done|by simpl; rewrite Ei|done|]. exact (pc_ok_flags x s Hc Hf Hp).
  - destruct (Read_round_ok WriteTo now n (co x) Hc (proj1 Hcl) (proj2 Hcl))
      as (s1 & tr1 & r & E1 & Hok & Hf & (Hdl & Hib & _) & Hres).
    rewrite E in E1. injection E1 as <- _ <-. apply inbox_eq in Hib as [Ei _].
    split; [done|by simpl; rewrite Ei| |exact (pc_ok_flags x s Hc Hf Hp)].
    unfold reader_served. simpl. intros Hn. right. right.
    destruct Hres as (_ & R1 & R2 & R3 & R4 & R5). unfold nothing_to_read. rewrite Hdl.
    specialize (R3 Hn). done.
  - split; [by destruct Hc; split|done|done|]. exact Hp.
  - by apply tinv_reader.
  - by apply tinv_reader.
Qed.

Lemma tinv_write x x' : tinv x -> tstep LWriter x x' -> tinv x'.
Proof.
  intros Hi Hs. pose proof Hi as [Hc Hq Hr Hp].
  inversion Hs as [| | | | | | | | | | | | | | |b x0 Ew|now b x0 s tr k err Ew Hcl E|
    now b x0 s tr dl Ew Hcl E|b dl x0 Ew E|b t x0 Ew|b dl x0 Ew E| |]; subst.
  1, 5, 6: by apply tinv_writer.
  3: { apply (tinv_writer (x<|co := _|>)). apply tinv_co; [done|by destruct Hc; split|done|by split]. }
  all: destruct (Write_round_ok now b (co x) Hc (proj1 Hcl) (proj2 Hcl))
      as (s1 & tr1 & r & E1 & Hok & _ & _ & [Hu Hib] & _);
    rewrite E in E1; injection E1 as <- _ _; apply inbox_eq in Hib as [Ei _];
    apply (tinv_writer (x<|co := s|>)); by apply tinv_co.
Qed.

(** The application's calls: what they do to the events and the queue. *)
Lemma api_call_ok c s s' tr d :
  conn_ok s -> api_call c = true -> call_ok s c -> perform_call WriteTo c s = Ok (s', tr, d) ->
  conn_ok s' /\ flags_move (kcp s) (kcp s') /\ chUdpInput s' = chUdpInput s /\
  (chReadEvent s' = true \/ die s' = true \/ undisturbed s s').
Proof.
  intros Hok Ha Hc E. destruct (perform_call_ok WriteTo s c Hok Hc) as (s1 & tr1 & d1 & E1 & Hok1 & Hf & _).
  rewrite E in E1. injection E1 as <- _ _. split; [done|]. split; [done|].
  destruct c; try discriminate Ha; cbn [perform_call call_ok] in *.
  - unfold Close in E. destruct (isStateLocalClosed (kcp s)) eqn:El.
    + rewrite close_refused in E by done. injection E as <- _ _. auto using undisturbed_refl.
    + unfold open_flags in Hc. rewrite El, orb_false_r in Hc.
      destruct (close_ok WriteTo now s Hok Hc El) as
        (s2 & t2 & E2 & _ & _ & _ & Hd & _ & _ & _ & _ & _ & _ & _ & Hib).
      rewrite E2 in E. injection E as <- _ _. apply inbox_eq in Hib as [Ei _]. auto.
  - injection E as <- _ _. auto.
  - injection E as <- _ _. auto.
  - injection E as <- _ _. split; [done|]. by right; right.
  - injection E as <- _ _. split; [done|]. right; right.
    destruct (setWndSize_state sndwnd rcvwnd (kcp s)) as (E1 & E2 & _). by split.
  - injection E as <- _ _. split; [done|]. right; right.
    destruct (setNoDelay_sides nd itv resend nc (kcp s)) as (_ & E2 & _).
    split; try done. apply setNoDelay_state.
  - injection E as <- _ _. split; [done|]. by right; right.
  - unfold SetMtu in E.
    destruct (wf_settings_mtu (kcp s) m (ok_wf _ Hok) Hc) as (k & code & E1 & _ & _ & Er & _).
    rewrite E1 in E. injection E as <- _ _. split; [done|]. right; right.
    split; try done. by eapply setMtu_state.
Qed.

Lemma tinv_step l x x' : tinv x -> tstep l x x' -> tinv x'.
Proof.
  intros Hi Hs. destruct l; [by eapply tinv_run|by eapply tinv_read|by eapply tinv_write|..];
    pose proof Hi as [Hc Hq Hr Hp];
    inversion Hs as [| | | | | | | | | | | | | | | | | | | | |pkt x0 Hl Hn|c0 x0 s tr d Ha Hcl E]; subst.
  - split; [by destruct Hc; split| | |exact Hp].
    + simpl. apply Forall_app. split; [done|]. by constructor.
    + apply served_undisturbed; [by split|done].
  - destruct (api_call_ok c (co x) s tr d Hc Ha Hcl E) as (Hok & Hf & Ei & Hu).
    split; [done|by simpl; rewrite Ei| |exact (pc_ok_flags x s Hc Hf Hp)].
    unfold reader_served in *. simpl. destruct (reader x); [done..|]. intros Hn.
    destruct Hu as [?|[?|Hu]]; [by left|right; by left|].
    rewrite (ud_event _ _ Hu), (ud_die _ _ Hu).
    destruct (Hr Hn) as [?|[?|?]]; [by left|right; by left|right; right]. by eapply nothing_undisturbed.
Qed.

Lemma treach_inv x : treach x -> tinv x.
Proof.
  induction 1 as [s Hs Ei|l x x' _ IH Hs]; [|by eapply tinv_step].
  split; [by eapply connection_ok|by simpl; rewrite Ei|done|].
  unfold pc_ok, updateDelayMin, updateDelayMax. simpl. lia.
Qed.
(** *** A writer that nobody will wake *)

Definition closing_pc (p : runpc) : Prop :=
  match p with PClose _ _ | PCloseSelect _ _ _ | PEnd _ => True | _ => False end.

(** The connection is closed, [run] past its main loop, and a writer without a deadline waits
    for an event that has not been sent and a channel that is not closed. *)
Record stranded (x : threads) : Prop := {
  st_writer : exists b, writer x = Waiting b None;
  st_event : chWriteEvent (co x) = false;
  st_die : die (co x) = false;
  st_closed : isStateLocalClosed (kcp (co x)) = true;
  st_pc : closing_pc (pc x);
}.

Lemma stranded_co x s p r :
  stranded x -> chWriteEvent s = chWriteEvent (co x) -> die s = die (co x) ->
  isStateLocalClosed (kcp s) = true -> closing_pc p -> stranded (mkThreads s p r (writer x)).
Proof. intros [? ? ? ? ?] E1 E2 ? ?. split; simpl; rewrite ?E1, ?E2; done. Qed.

(** The calls that notify a writer. *)
Definition wakes_writer (l : label) : bool :=
  match l with LCall (KDeadline _) | LCall (KWriteDeadline _) => true | _ => false end.

Lemma stranded_input now now' x s tr :
  tinv x -> stranded x -> take_input now now' (co x) = Ok (Some (s, tr)) ->
  isStateConnected (kcp s) = false ->
  chWriteEvent s = chWriteEvent (co x) /\ die s = die (co x) /\ isStateLocalClosed (kcp s) = true.
Proof.
  intros Hi [_ Hw Hd Hl _] E Hcn. pose proof Hi as [Hc Hq _ _]. unfold take_input in E.
  destruct (chUdpInput (co x)) as [|pkt rest]; [done|]. apply Forall_cons in Hq as [Hle Hq].
  set (s0 := (co x)<|chUdpInput := rest|>) in *.
  assert (conn_ok s0) as Hok0 by by destruct Hc; split.
  destruct (doKcpInput_ok WriteTo now now' pkt s0 Hok0 Hle) as
    (s1 & tr1 & k & code & E1 & _ & _ & _ & _ & _ & Ed & _ & _ & El & Ec & _ & Ew).
  rewrite E1 in E. cbn [mbind res_bind] in E. injection E as <- _.
  rewrite Ec in Hcn. rewrite Hcn, andb_false_r, orb_false_r in Ew.
  split; [exact Ew|]. split; [exact Ed|]. rewrite El. exact Hl.
Qed.

Lemma stranded_call c s s' tr d :
  conn_ok s -> isStateLocalClosed (kcp s) = true -> api_call c = true -> wakes_writer (LCall c) = false ->
  call_ok s c -> perform_call WriteTo c s = Ok (s', tr, d) ->
  chWriteEvent s' = chWriteEvent s /\ die s' = die s.
Proof.
  intros Hok Hl Ha Hw Hc E. destruct c; try discriminate Ha; try discriminate Hw;
    cbn [perform_call call_ok] in *; try by injection E as <- _ _.
  - unfold Close in E. rewrite close_refused in E by done. by injection E as <- _ _.
  - unfold SetMtu in E. destruct (setMtu m (kcp s)) as [[k code]| |]; [|done..]. by injection E as <- _ _.
Qed.

Lemma stranded_step l x x' :
  tinv x -> stranded x -> tstep l x x' -> wakes_writer l = false ->
  isStateConnected (kcp (co x')) = false -> stranded x'.
Proof.
  intros Hi Hst Hs Hl Hcn. pose proof Hst as [[b Hb] Hw Hd Hlc Hpc]. pose proof (ti_conn _ Hi) as Hc.
  inversion Hs as [now d fl x0 s p tr Epc E|now now' d x0 s tr Epc E|d x0 Epc E|d x0 Epc|d x0 Epc E|
    now start x0 s tr Epc E|now now' start dg x0 s p tr Epc E|now now' start d dg x0 s tr Epc E|
    start d dg x0 Epc|n x0 Er|now n x0 s tr d err Er Hcl E|now n x0 s tr dl Er Hcl E|
    n dl x0 Er E|n t x0 Er|n dl x0 Er E|b' x0 Ew|now b' x0 s tr k err Ew Hcl E|
    now b' x0 s tr dl Ew Hcl E|b' dl x0 Ew E|b' t x0 Ew|b' dl x0 Ew E|pkt x0 Hle Hn|
    c x0 s tr d Ha Hcl E]; subst; try congruence; try (rewrite Epc in Hpc; by destruct Hpc).
  - unfold close_head in E.
    destruct (run_close_ok WriteTo now (co x) Hc) as (s1 & tr1 & w & E1 & _ & _ & _ & Hsh & Hsta & _).
    rewrite E1 in E. cbn [mbind res_bind] in E. injection E as <- <- _.
    destruct (shell_eq _ _ Hsh) as (_ & _ & _ & Ed & _ & Ew & _).
    apply (stranded_co x); [done..| |by destruct (Z.abs _ >=? _)].
    change (isStateLocalClosed (kcp s1) = true).
    by rewrite isStateLocalClosed_bit, Hsta, <- isStateLocalClosed_bit.
  - destruct (stranded_input now now' x s tr Hi Hst E Hcn) as (? & ? & ?). by apply (stranded_co x).
  - by apply (stranded_co x (co x) (PClose start dg) (reader x)).
  - by split; [exists b|..].
  - destruct (Read_round_ok WriteTo now n (co x) Hc (proj1 Hcl) (proj2 Hcl))
      as (s1 & tr1 & r & E1 & _ & Hf & (_ & Hib & Hdi) & _).
    rewrite E in E1. injection E1 as <- _ _. apply inbox_eq in Hib as [_ Ew].
    apply (stranded_co x); [done|done|by apply Hdi|by apply (fm_local _ _ Hf)|done].
  - destruct (Read_round_ok WriteTo now n (co x) Hc (proj1 Hcl) (proj2 Hcl))
      as (s1 & tr1 & r & E1 & _ & Hf & (_ & Hib & Hdi) & _).
    rewrite E in E1. injection E1 as <- _ _. apply inbox_eq in Hib as [_ Ew].
    apply (stranded_co x); [done|done|by apply Hdi|by apply (fm_local _ _ Hf)|done].
  - by split; [exists b|..].
  - by split; [exists b|..].
  - by split; [exists b|..].
  - destruct (stranded_call c (co x) s tr d Hc Hlc Ha Hl Hcl E) as [? ?].
    destruct (api_call_ok c (co x) s tr d Hc Ha Hcl E) as (_ & Hf & _).
    apply (stranded_co x s (pc x) (reader x)); try done. by apply (fm_local _ _ Hf).
Qed.

Lemma close_strands x d fl b :
  tinv x -> pc x = PMain d fl -> writer x = Waiting b None ->
  chWriteEvent (co x) = false -> die (co x) = false ->
  isStateConnected (kcp (co x)) = true -> isStateRemoteClosed (kcp (co x)) = true ->
  exists x1 x2, tstep LRun x x1 /\ tstep LRun x1 x2 /\ stranded x2.
Proof.
  intros Hi Epc Hb Hw Hd Hcn Hrc. pose proof (ti_conn _ Hi) as Hc.
  set (x1 := x<|co := co x|><|pc := PClosing|>).
  destruct (run_closing_ok WriteTo 0 (co x) Hc) as (s & tr & E & _ & _ & _ & Hsh & Hcl & _).
  destruct (shell_eq _ _ Hsh) as (_ & _ & _ & Ed & _ & Ew & _).
  exists x1, (x1<|co := s|><|pc := PClose 0 true|>). split; [|split].
  - apply (t_main 0 d fl x (co x) PClosing []); [done|]. unfold main_head.
    by rewrite isAllOpen_flags, Hrc.
  - by apply (t_closing 0 0 x1 s tr).
  - split; simpl; [by exists b|by rewrite Ew|by rewrite Ed| |done]. by apply Hcl.
Qed.

(** *** The queue of datagrams *)

(** Only [run] takes datagrams from the queue, in its two [select]s, one at a time; nobody
    but the network appends to it; nothing changes the conversation. *)
Record queue_step (x x' : threads) : Prop := {
  qs_conv : GetConv (co x') = GetConv (co x);
  qs_queue : exists pre, chUdpInput (co x) = pre ++ chUdpInput (co x') /\
    (pre = [] \/ match pc x with PSelect _ | PCloseSelect _ _ _ => True | _ => False end);
  qs_end : forall dg, pc x = PEnd dg -> pc x' = PEnd dg;
}.

Lemma queue_same x s p r w :
  conv (kcp s) = conv (kcp (co x)) -> chUdpInput s = chUdpInput (co x) ->
  (forall dg, pc x = PEnd dg -> p = PEnd dg) -> queue_step x (mkThreads s p r w).
Proof. intros Ec Eq Hp. split; [done| |done]. exists []. simpl. rewrite Eq. auto. Qed.

Lemma queue_take now now' x s tr p r w :
  tinv x -> take_input now now' (co x) = Ok (Some (s, tr)) ->
  match pc x with PSelect _ | PCloseSelect _ _ _ => True | _ => False end ->
  queue_step x (mkThreads s p r w).
Proof.
  intros [Hc Hq _ _] E Hp. unfold take_input in E.
  destruct (chUdpInput (co x)) as [|pkt rest] eqn:Eq; [done|]. apply Forall_cons in Hq as [Hle _].
  set (s0 := (co x)<|chUdpInput := rest|>) in *.
  assert (conn_ok s0) as Hok0 by by destruct Hc; split.
  destruct (doKcpInput_ok WriteTo now now' pkt s0 Hok0 Hle) as
    (s1 & tr1 & k & code & E1 & _ & _ & _ & Hf & _ & _ & _ & Eci & _).
  rewrite E1 in E. cbn [mbind res_bind] in E. injection E as <- _.
  split; [exact (fm_conv _ _ Hf)| |by intros dg Ee; rewrite Ee in Hp].
  exists [pkt]. simpl. rewrite Eq, Eci. auto.
Qed.

Lemma tstep_queue l x x' : tinv x -> tstep l x x' -> l <> LNet -> queue_step x x'.
Proof.
  intros Hi Hs Hl. pose proof (ti_conn _ Hi) as Hc.
  inversion Hs as [now d fl x0 s p tr Epc E|now now' d x0 s tr Epc E|d x0 Epc E|d x0 Epc|d x0 Epc E|
    now start x0 s tr Epc E|now now' start dg x0 s p tr Epc E|now now' start d dg x0 s tr Epc E|
    start d dg x0 Epc|n x0 Er|now n x0 s tr d err Er Hcl E|now n x0 s tr dl Er Hcl E|
    n dl x0 Er E|n t x0 Er|n dl x0 Er E|b' x0 Ew|now b' x0 s tr k err Ew Hcl E|
    now b' x0 s tr dl Ew Hcl E|b' dl x0 Ew E|b' t x0 Ew|b' dl x0 Ew E|pkt x0 Hle Hn|
    c x0 s tr d Ha Hcl E]; subst;
    try done; try (apply queue_same; [done|done|first [done|congruence]]).
  - unfold main_head in E. destruct (isAllOpen _).
    + destruct (run_main_ok WriteTo now fl (co x) Hc) as (s1 & tr1 & E1 & _ & _ & Hf & _ & Ec & _).
      rewrite E1 in E. injection E as <- _ _. apply queue_same; [apply (fm_conv _ _ Hf)|done|congruence].
    + injection E as <- _ _. by apply queue_same; [..|congruence].
  - eapply queue_take; [done|done|by rewrite Epc].
  - destruct (run_closing_ok WriteTo now (co x) Hc) as (s1 & tr1 & E1 & _ & _ & Hf & Hsh & _).
    rewrite E1 in E. injection E as <- _. destruct (shell_eq _ _ Hsh) as (_ & _ & _ & _ & _ & _ & _ & Eq).
    apply queue_same; [apply (fm_conv _ _ Hf)|done|congruence].
  - unfold close_head in E.
    destruct (run_close_ok WriteTo now (co x) Hc) as (s1 & tr1 & w & E1 & _ & _ & Hf & Hsh & _).
    rewrite E1 in E. injection E as <- _ _. destruct (shell_eq _ _ Hsh) as (_ & _ & _ & _ & _ & _ & _ & Eq).
    apply queue_same; [apply (fm_conv _ _ Hf)|done|congruence].
  - eapply queue_take; [done|done|by rewrite Epc].
  - destruct (Read_round_ok WriteTo now n (co x) Hc (proj1 Hcl) (proj2 Hcl))
      as (s1 & tr1 & r & E1 & _ & Hf & (_ & Hib & _) & _).
    rewrite E in E1. injection E1 as <- _ _. apply inbox_eq in Hib as [Eq _].
    apply queue_same; [apply (fm_conv _ _ Hf)|done|done].
  - destruct (Read_round_ok WriteTo now n (co x) Hc (proj1 Hcl) (proj2 Hcl))
      as (s1 & tr1 & r & E1 & _ & Hf & (_ & Hib & _) & _).
    rewrite E in E1. injection E1 as <- _ _. apply inbox_eq in Hib as [Eq _].
    apply queue_same; [apply (fm_conv _ _ Hf)|done|done].
  - destruct (Write_round_ok now b' (co x) Hc (proj1 Hcl) (proj2 Hcl))
      as (s1 & tr1 & r & E1 & _ & _ & Hf & [_ Hib] & _).
    rewrite E in E1. injection E1 as <- _ _. apply inbox_eq in Hib as [Eq _].
    apply queue_same; [apply (fm_conv _ _ Hf)|done|done].
  - destruct (Write_round_ok now b' (co x) Hc (proj1 Hcl) (proj2 Hcl))
      as (s1 & tr1 & r & E1 & _ & _ & Hf & [_ Hib] & _).
    rewrite E in E1. injection E1 as <- _ _. apply inbox_eq in Hib as [Eq _].
    apply queue_same; [apply (fm_conv _ _ Hf)|done|done].
  - destruct (api_call_ok c (co x) s tr d Hc Ha Hcl E) as (_ & Hf & Eq & _).
    apply queue_same; [apply (fm_conv _ _ Hf)|done|done].
Qed.

(** ** Properties *)

(** C25. No wake-up is lost: in every state the threads can reach, a reader that waits either
    has its event pending or [die] closed, so that it runs again, or there is nothing to run
    for: no buffered byte, no complete message, the stream open in both directions, and the
    deadline it waits for still the one that is set. *)
Theorem reader_not_forgotten x n dl (Hx : treach x) (Hw : reader x = Waiting n dl)
    (Hn : n <> 0%nat) :
  (exists x', tstep LReader x x' /\ reader x' = Round n) /\ (chReadEvent (co x) = true \/ die (co x) = true)
  \/ (q_contents (bufRead (co x)) = [] /\ (recvSize (kcp (co x))).2 <= 0 /\
      isStateRemoteClosed (kcp (co x)) = false /\ isStateLocalClosed (kcp (co x)) = false /\
      dl = deadlineRead (co x)).
Proof.
  pose proof (ti_reader _ (treach_inv x Hx)) as Hr. unfold reader_served in Hr. rewrite Hw in Hr.
  destruct (Hr Hn) as [He|[Hd|?]]; [left|left|by right].
  - split; [|by left]. eexists. split; [by apply (t_read_event n dl x)|done].
  - split; [|by right]. eexists. split; [by apply (t_read_die n dl x)|done].
Qed.

(** A pass of the main loop never blocks or panics: an open connection is flushed or
    updated, a writer is notified when the window has room and data can be sent, and [run]
    waits between ten milliseconds and one second; a connection closed by either side leaves
    the loop. *)
Theorem main_pass x d fl now (Hx : treach x) (Hpc : pc x = PMain d fl) :
  exists s p tr, main_head now d fl (co x) = Ok (s, p, tr) /\
    tstep LRun x (x<|co := s|><|pc := p|>) /\
    if isAllOpen (kcp (co x)) then
      exists d', p = PSelect d' /\ 10000000 <= d' <= 1000000000 /\
        (canKcpSendInternal s = true -> chWriteEvent s = true)
    else p = PClosing /\ s = co x.
Proof.
  pose proof (ti_conn _ (treach_inv x Hx)) as Hc.
  assert (exists s p tr, main_head now d fl (co x) = Ok (s, p, tr) /\
    if isAllOpen (kcp (co x)) then
      exists d', p = PSelect d' /\ 10000000 <= d' <= 1000000000 /\
        (canKcpSendInternal s = true -> chWriteEvent s = true)
    else p = PClosing /\ s = co x) as (s & p & tr & E & Hp).
  { unfold main_head. destruct (isAllOpen (kcp (co x))); [|by do 3 eexists].
    destruct (run_main_ok WriteTo now fl (co x) Hc) as (s & tr & -> & _ & _ & _ & _ & _ & Ew).
    cbn [mbind res_bind]. do 3 eexists. split; [done|]. exists (clamp d). split; [done|].
    split; [apply clamp_range|]. intros Hcan. by rewrite Ew, Hcan, orb_true_r. }
  exists s, p, tr. split; [done|]. split; [by apply (t_main now d fl x s p tr)|done].
Qed.

(** C30. The closing loop ends: a pass never blocks or panics; five seconds or more after its
    start it is the last one, and before that it waits at most a second, for less while data
    is unacknowledged or the peer has not closed; the connection counts as dangling only if
    every pass found something outstanding. *)
Theorem close_pass_ends x start dg now now' (Hx : treach x) (Hpc : pc x = PClose start dg) :
  exists s p tr wait, close_head now now' start dg (co x) = Ok (s, p, tr) /\
    tstep LRun x (x<|co := s|><|pc := p|>) /\
    wait = ((waitSnd (kcp s) >? 0) || negb (isStateRemoteClosed (kcp s))) /\
    p = if Z.abs (now' - start) >=? 5000000000 then PEnd (if wait : bool then dg else false)
        else PCloseSelect start (if wait then 100000000 else 1000000000) (if wait then dg else false).
Proof.
  pose proof (ti_conn _ (treach_inv x Hx)) as Hc.
  destruct (run_close_ok WriteTo now (co x) Hc) as (s & tr & w & E & _).
  assert (w = ((waitSnd (kcp s) >? 0) || negb (isStateRemoteClosed (kcp s)))) as Hw.
  { unfold run_close in E. destruct (on_kcp _ _ _) as [[s1 t1]| |]; [|done..]. by injection E as -> _ _ <-. }
  assert (close_head now now' start dg (co x) = Ok (s, if Z.abs (now' - start) >=? closeWait
    then PEnd (if w then dg else false)
    else PCloseSelect start (if w then 100000000 else updateDelayMax) (if w then dg else false), tr)) as Eh.
  { unfold close_head. rewrite E. by destruct w. }
  do 3 eexists. exists w. split; [exact Eh|]. split; [by eapply (t_close now now' start dg x)|by split].
Qed.

(** C32. Closing by the peer strands a writer: when the peer's close is seen while a writer
    without a deadline waits for room in the window, [run] closes the local side without
    notifying it and without closing [die]; and from then on no step of any thread wakes it,
    neither [Close] nor [Read] nor a datagram, unless a write deadline is set or the
    connection is opened again. *)
Theorem close_strands_writer x b d fl (Hx : treach x) (Hpc : pc x = PMain d fl)
    (Hb : writer x = Waiting b None)
    (Hw : chWriteEvent (co x) = false) (Hd : die (co x) = false)
    (Hcn : isStateConnected (kcp (co x)) = true) (Hrc : isStateRemoteClosed (kcp (co x)) = true) :
  (exists x1 x2, tstep LRun x x1 /\ tstep LRun x1 x2 /\ treach x2 /\ stranded x2) /\
  (forall x2 l x3, treach x2 -> stranded x2 -> tstep l x2 x3 ->
     wakes_writer l = false -> isStateConnected (kcp (co x3)) = false -> stranded x3).
Proof.
  split.
  - destruct (close_strands x d fl b (treach_inv x Hx) Hpc Hb Hw Hd Hcn Hrc) as (x1 & x2 & S1 & S2 & Hst).
    exists x1, x2. do 2 (split; [done|]). split; [|done].
    eapply tr_step; [|exact S2]. eapply tr_step; [exact Hx|exact S1].
  - intros x2 l x3 Hx2 Hst Hs. apply (stranded_step l x2); [by apply treach_inv|done|done].
Qed.
End Threads.

(** *** Witnesses *)

Section Witnesses.
#[local] Existing Instance zero_pool.
#[local] Abbreviation threads := (threads (Q := Buffer) (Sock := list (list byte))).
Implicit Types x : threads.

(** A reader that waits on an accepted connection, and the datagram that opens it, in the
    queue of [run]. *)
Definition demo_start := mkThreads demo_accepted (PMain updateDelayMin false) Idle Idle.

Lemma demo_start_reach : treach demo_write demo_start.
Proof. apply tr_start; [apply demo_accepted_connection|done]. Qed.

(** One step of [run], of the reader and of the writer, computed. *)
Definition go_main (now : Z) (x : threads) : threads :=
  match pc x with
  | PMain d fl => match main_head demo_write now d fl (co x) with
                  | Ok (s, p, _) => x<|co := s|><|pc := p|> | _ => x end
  | _ => x
  end.
Definition go_input (pkt : list byte) (x : threads) : threads :=
  let x := x<|co := (co x)<|chUdpInput := chUdpInput (co x) ++ [pkt]|>|> in
  match pc x with
  | PSelect d => match take_input demo_write 0 0 (co x) with
                 | Ok (Some (s, _)) => x<|co := s|><|pc := PMain (Z.quot d 2) false|> | _ => x end
  | _ => x
  end.
Definition go_round (b : list byte) (x : threads) : threads :=
  match Write 0 b (co x) with
  | Ok (s, _, Return _ _) => x<|co := s|><|writer := Idle|>
  | Ok (s, _, Wait dl) => x<|co := s|><|writer := Waiting b dl|>
  | _ => x
  end.
Definition go_write (b : list byte) (x : threads) : threads := go_round b (x<|writer := Round b|>).
Definition go_wake (b : list byte) (x : threads) : threads :=
  go_round b (x<|co := (co x)<|chWriteEvent := false|>|><|writer := Round b|>).
Definition go_read (n : nat) (x : threads) : threads :=
  let x := x<|reader := Round n|> in
  match Read demo_write 0 n (co x) with
  | Ok (s, _, Return _ _) => x<|co := s|><|reader := Idle|>
  | Ok (s, _, Wait dl) => x<|co := s|><|reader := Waiting n dl|>
  | _ => x
  end.

(** A function that makes a step of [run] or none. *)
Definition run_step (f : threads -> threads) : Prop :=
  forall x, f x = x \/ tstep demo_write LRun x (f x).

Definition go_take x : threads :=
  match pc x with
  | PSelect d => match take_input demo_write 0 0 (co x) with
                 | Ok (Some (s, _)) => x<|co := s|><|pc := PMain (Z.quot d 2) false|> | _ => x end
  | _ => x
  end.
Lemma go_main_run now : run_step (go_main now).
Proof.
  intros x. unfold go_main. destruct (pc x) as [d fl|d| | | |] eqn:Ep; try by left.
  destruct (main_head demo_write now d fl (co x)) as [[[s p] tr]| |] eqn:E; [|by left..].
  right. by eapply t_main.
Qed.

Lemma go_take_run : run_step go_take.
Proof.
  intros x. unfold go_take. destruct (pc x) as [d fl|d| | | |] eqn:Ep; try by left.
  destruct (take_input demo_write 0 0 (co x)) as [[[s tr]|]| |] eqn:E; [|by left..].
  right. by eapply (t_select_input _ 0 0 d).
Qed.

Lemma go_main_reach now x : treach demo_write x -> treach demo_write (go_main now x).
Proof.
  intros Hx. unfold go_main. destruct (pc x) as [d fl|d| | | |] eqn:Ep; try exact Hx.
  destruct (main_head demo_write now d fl (co x)) as [[[s p] tr]| |] eqn:E; [|exact Hx..].
  eapply tr_step; [exact Hx|]. by eapply t_main.
Qed.

Lemma go_input_reach pkt x :
  treach demo_write x -> len pkt <= 2048 -> chUdpInput (co x) = [] -> treach demo_write (go_input pkt x).
Proof.
  intros Hx Hl He. unfold go_input.
  set (x1 := x<|co := (co x)<|chUdpInput := chUdpInput (co x) ++ [pkt]|>|>).
  assert (treach demo_write x1) as Hx1.
  { eapply tr_step; [exact Hx|]. by apply t_net; [|rewrite He]. }
  change (pc x1) with (pc x) in *. destruct (pc x) as [d fl|d| | | |] eqn:Ep; try exact Hx1.
  destruct (take_input demo_write 0 0 (co x1)) as [[[s tr]|]| |] eqn:E; [|exact Hx1..].
  eapply tr_step; [exact Hx1|]. by eapply (t_select_input _ 0 0 d).
Qed.

Lemma go_round_reach b x :
  treach demo_write x -> writer x = Round b -> call_ok (co x) (KWrite 0 b) ->
  treach demo_write (go_round b x).
Proof.
  intros Hx Hw Hc. unfold go_round.
  destruct (Write 0 b (co x)) as [[[s tr] [k err|dl]]| |] eqn:E; [..|exact Hx|exact Hx].
  - eapply tr_step; [exact Hx|]. by eapply (t_write_return _ 0 b x).
  - eapply tr_step; [exact Hx|]. by eapply (t_write_wait _ 0 b x).
Qed.

Lemma go_write_reach b x :
  treach demo_write x -> writer x = Idle -> call_ok (co x) (KWrite 0 b) ->
  treach demo_write (go_write b x).
Proof.
  intros Hx Hw Hc. apply go_round_reach; [|done|done].
  eapply tr_step; [exact Hx|]. by apply t_write_call.
Qed.

Lemma go_wake_reach b dl x :
  treach demo_write x -> writer x = Waiting b dl -> chWriteEvent (co x) = true ->
  call_ok (co x) (KWrite 0 b) -> treach demo_write (go_wake b x).
Proof.
  intros Hx Hw He Hc. apply go_round_reach; [|done|done].
  eapply tr_step; [exact Hx|]. by apply (t_write_event _ b dl).
Qed.

Lemma go_read_reach n x :
  treach demo_write x -> reader x = Idle -> call_ok (co x) (KRead 0 n) ->
  treach demo_write (go_read n x).
Proof.
  intros Hx Hw Hc. unfold go_read. set (x1 := x<|reader := Round n|>).
  assert (treach demo_write x1) as Hx1 by (eapply tr_step; [exact Hx|]; by apply t_read_call).
  change (co x1) with (co x) in *.
  destruct (Read demo_write 0 n (co x)) as [[[s tr] [k err|dl]]| |] eqn:E; [..|exact Hx1|exact Hx1].
  - eapply tr_step; [exact Hx1|]. by eapply (t_read_return _ 0 n x1).
  - eapply tr_step; [exact Hx1|]. by eapply (t_read_wait _ 0 n x1).
Qed.

Lemma go_call_reach c s tr d x :
  treach demo_write x -> api_call c = true -> call_ok (co x) c ->
  perform_call demo_write c (co x) = Ok (s, tr, d) -> treach demo_write (x<|co := s|>).
Proof. intros Hx ? ? ?. eapply tr_step; [exact Hx|]. by eapply (t_call _ c x s tr d). Qed.

(** A reader waits; the connection opens; two bytes arrive. *)
Definition demo_reader : threads :=
  go_input (demo_pkt IKCP_CMD_PUSH 1 [Byte.x68; Byte.x69])
    (go_main 0 (go_input (demo_pkt IKCP_CMD_CONNECT 0 []) (go_main 0 (go_read 10 demo_start)))).

Lemma demo_reader_reach : treach demo_write demo_reader.
Proof.
  repeat (apply go_input_reach; [|vm_compute; discriminate|vm_compute; reflexivity];
          apply go_main_reach).
  apply go_read_reach; [apply demo_start_reach|reflexivity|].
  split; [right; split; vm_compute; reflexivity|vm_compute; discriminate].
Qed.

Lemma reader_not_forgotten_witness :
  reader demo_reader = Waiting 10%nat None /\ (recvSize (kcp (co demo_reader))).2 = 2 /\
  exists x', tstep demo_write LReader demo_reader x' /\ reader x' = Round 10%nat.
Proof.
  assert (reader demo_reader = Waiting 10%nat None) as Hw by (vm_compute; reflexivity).
  assert ((recvSize (kcp (co demo_reader))).2 = 2) as Hz by (vm_compute; reflexivity).
  split; [exact Hw|]. split; [exact Hz|].
  destruct (reader_not_forgotten demo_write demo_reader 10 None demo_reader_reach Hw)
    as [[H _]|(_ & H & _)]; [discriminate|exact H|].
  rewrite Hz in H. exfalso. by apply H.
Defined.

Lemma main_pass_witness :
  exists s p tr, main_head demo_write 0 updateDelayMin false (co demo_start) = Ok (s, p, tr) /\
    p = PSelect 10000000.
Proof.
  assert (pc demo_start = PMain updateDelayMin false) as Hpc by reflexivity.
  destruct (main_pass demo_write demo_start updateDelayMin false 0 demo_start_reach Hpc)
    as (s & p & tr & E & _).
  exists s, p, tr. split; [exact E|].
  assert (res_fmap _ _ (fun r => r.1.2) (main_head demo_write 0 updateDelayMin false (co demo_start))
    = Ok (PSelect 10000000)) as E' by (vm_compute; reflexivity).
  rewrite E in E'. injection E' as ->. reflexivity.
Defined.

(** The connection opens, the window is set to two segments of which the opening
    takes one, two writes follow; the second
    waits, is woken by the event of the opening and waits again; then the peer closes. *)
Definition demo_opened : threads :=
  go_input (demo_pkt IKCP_CMD_CONNECT 0 []) (go_main 0 demo_start).
Definition demo_window : threads := demo_opened<|co := SetWindowSize 2 0 (co demo_opened)|>.
Definition demo_first : threads := go_write [Byte.x61] demo_window.

Lemma demo_first_reach : treach demo_write demo_first.
Proof.
  apply go_write_reach; [|reflexivity|].
  - apply (go_call_reach (KWindow 2 0) _ [] []); [|reflexivity|exact I|reflexivity].
    apply go_input_reach; [|vm_compute; discriminate|vm_compute; reflexivity].
    apply go_main_reach, demo_start_reach.
  - split; [reflexivity|]. split; [discriminate|vm_compute; discriminate].
Qed.

Definition demo_second : threads := go_wake [Byte.x62] (go_write [Byte.x62] demo_first).

Lemma demo_second_reach : treach demo_write demo_second.
Proof.
  assert (call_ok (co demo_first) (KWrite 0 [Byte.x62])) as Hc.
  { split; [reflexivity|]. split; [discriminate|vm_compute; discriminate]. }
  apply (go_wake_reach _ None); [|vm_compute; reflexivity|vm_compute; reflexivity|].
  - apply go_write_reach; [apply demo_first_reach|vm_compute; reflexivity|exact Hc].
  - split; [reflexivity|]. split; [discriminate|vm_compute; discriminate].
Qed.

Definition demo_closed : threads := go_input (demo_pkt IKCP_CMD_PUSH 1 []) (go_main 0 demo_second).

Lemma demo_closed_reach : treach demo_write demo_closed.
Proof.
  apply go_input_reach; [|vm_compute; discriminate|vm_compute; reflexivity].
  apply go_main_reach, demo_second_reach.
Qed.

Lemma close_strands_writer_witness :
  writer demo_closed = Waiting [Byte.x62] None /\
  exists x1 x2, tstep demo_write LRun demo_closed x1 /\ tstep demo_write LRun x1 x2 /\
    treach demo_write x2 /\ stranded x2.
Proof.
  assert (writer demo_closed = Waiting [Byte.x62] None) as Hb by (vm_compute; reflexivity).
  split; [exact Hb|].
  assert (pc demo_closed = PMain (Z.quot 10000000 2) false) as Hpc by (vm_compute; reflexivity).
  assert (chWriteEvent (co demo_closed) = false) as Hw by (vm_compute; reflexivity).
  assert (die (co demo_closed) = false) as Hd by (vm_compute; reflexivity).
  assert (isStateConnected (kcp (co demo_closed)) = true) as Hcn by (vm_compute; reflexivity).
  assert (isStateRemoteClosed (kcp (co demo_closed)) = true) as Hrc by (vm_compute; reflexivity).
  destruct (close_strands_writer demo_write demo_closed [Byte.x62] (Z.quot 10000000 2) false
    demo_closed_reach Hpc Hb Hw Hd Hcn Hrc) as [H _].
  exact H.
Defined.

(** The same connection in its closing loop. *)
Definition go_closing (x : threads) : threads :=
  match run_closing demo_write 0 (co x) with
  | Ok (s, _) => x<|co := s|><|pc := PClose 0 true|>
  | _ => x
  end.

Lemma go_closing_reach x :
  treach demo_write x -> pc x = PClosing -> treach demo_write (go_closing x).
Proof.
  intros Hx Hp. unfold go_closing. destruct (run_closing demo_write 0 (co x)) as [[s tr]| |] eqn:E;
    [|exact Hx..].
  eapply tr_step; [exact Hx|]. by eapply (t_closing _ 0 0 x s tr).
Qed.

Definition demo_closing : threads := go_closing (go_main 0 demo_closed).

Lemma close_pass_ends_witness :
  pc demo_closing = PClose 0 true /\
  exists s p tr, close_head demo_write 6000000000 6000000000 0 true (co demo_closing) = Ok (s, p, tr) /\
    exists dg, p = PEnd dg.
Proof.
  assert (pc demo_closing = PClose 0 true) as Hp by (vm_compute; reflexivity).
  assert (treach demo_write demo_closing) as Hx.
  { apply go_closing_reach; [apply go_main_reach, demo_closed_reach|vm_compute; reflexivity]. }
  split; [exact Hp|].
  destruct (close_pass_ends demo_write demo_closing 0 true 6000000000 6000000000 Hx Hp)
    as (s & p & tr & w & E & _ & _ & Hpe).
  exists s, p, tr. split; [exact E|]. eexists. exact Hpe.
Defined.
End Witnesses.
