(* ===== verification/Dial.v ===== *)
(** * The dialer ([kcpconn.go], [DialTimeout])

    The goroutine that resolves the address, opens the socket and connects, the caller that
    waits for it or for the timeout, and the threads of the connection meanwhile. The name
    resolution, the socket and the conversation number are what the environment gives. *)
From S2P Require Import Prelude GoInt Stats Wire Kcp Serial Send Recv Ack Input Flush Flushed Timer Session Buffer Conn Calls Threads.

(** ** Definitions *)

(** Where the goroutine stands: before [ResolveUDPAddr], before [DialUDP], before the critical
    section of [connect], at its receive from [chWriteEvent], at the send to [chKcpConn] of a
    connection or of [nil], at its end. *)
Inductive dialpc := DResolve | DSocket | DFlush | DWait | DSend (found : bool) | DEnd.

Section Dial.
Context `{BufPool} {Q : Type} `{ByteQueue Q} {Sock : Type} (WriteTo : Sock -> list byte -> Sock * bool).
#[local] Abbreviation threads := (threads (Q := Q) (Sock := Sock)).
#[local] Abbreviation KCPConn := (KCPConn (Q := Q) (Sock := Sock)).
Implicit Types x : threads.

(** [derr] is the variable [err] that the goroutine and the caller share; [drecv] says whether
    the receiver of datagrams runs; [dret] is what the caller has returned: whether there is a
    connection, and the error. *)
Record dial := mkDial {
  dpc : dialpc;
  derr : option string;
  dth : option threads;
  drecv : bool;
  dret : option (bool * option string);
}.
#[global] Instance eta_dial : Eta dial := fun d =>
  mkDial (dpc d) (derr d) (dth d) (drecv d) (dret d).

Definition DialTimeout : dial := mkDial DResolve None None false None.

(** A step that fails: [err] is set, and [nil] sent. *)
Definition dial_fail (e : string) (d : dial) : dial := d<|derr := Some e|><|dpc := DSend false|>.

(** [newKCPConn] and [connect] up to the start of the two goroutines. *)
Definition dial_connect (cv : Z) (c : Sock) (d : dial) : res dial :=
  s ← newKCPConn;
  let x := mkThreads (connect cv c s).1 (PMain updateDelayMin false) Idle Idle in
  Ok (d<|dth := Some x|><|drecv := true|><|dpc := DFlush|>).

(** [timeout] is zero when there is none. *)
Inductive dstep (timeout : Z) : dial -> dial -> Prop :=
  | d_resolve_fail d e : dpc d = DResolve -> dstep timeout d (dial_fail e d)
  | d_resolve d : dpc d = DResolve -> dstep timeout d (d<|dpc := DSocket|>)
  | d_socket_fail d e : dpc d = DSocket -> dstep timeout d (dial_fail e d)
  | d_socket d cv c d' : dpc d = DSocket -> dial_connect cv c d = Ok d' -> dstep timeout d d'
  | d_flush d x now s tr :
      dpc d = DFlush -> dth d = Some x -> connect_flush WriteTo now (co x) = Ok (s, tr) ->
      dstep timeout d (d<|dth := Some (x<|co := s|>)|><|dpc := DWait|>)
  | d_event d x :
      dpc d = DWait -> dth d = Some x -> chWriteEvent (co x) = true ->
      dstep timeout d (d<|dth := Some (x<|co := (co x)<|chWriteEvent := false|>|>)|><|dpc := DSend true|>)
  | d_handover d found :
      dpc d = DSend found -> dret d = None ->
      dstep timeout d (d<|dpc := DEnd|><|dret := Some (found, derr d)|>)
  | d_timeout d :
      timeout <> 0 -> dret d = None -> dstep timeout d (d<|dret := Some (false, Some "timeout"%string)|>)
  | d_run d x x' :
      dth d = Some x -> tstep WriteTo LRun x x' -> dstep timeout d (d<|dth := Some x'|>)
  | d_recv d x got drop s go tr :
      dth d = Some x -> drecv d = true -> (forall p, got = Some p -> len p <= udpPacketSizeLimit) ->
      client_pass got drop (co x) = Ok (Some (s, go, tr)) ->
      dstep timeout d (d<|dth := Some (x<|co := s|>)|><|drecv := go|>).

Inductive dreach (timeout : Z) : dial -> Prop :=
  | dr_start : dreach timeout DialTimeout
  | dr_step d d' : dreach timeout d -> dstep timeout d d' -> dreach timeout d'.

(** ** Invariant *)

(** A connection that nobody has yet: the write event is sent only once it is open. *)
Record young (x : threads) : Prop := {
  yg_inv : tinv x;
  yg_reader : reader x = Idle;
  yg_event : chWriteEvent (co x) = true -> open_flags (kcp (co x)) = true;
}.

Definition is_open (d : dial) : Prop :=
  exists x, dth d = Some x /\ open_flags (kcp (co x)) = true.

Record dinv (d : dial) : Prop := {
  di_young : forall x, dth d = Some x -> young x;
  di_pc : match dpc d with
          | DResolve | DSocket => dth d = None /\ derr d = None
          | DFlush | DWait => is_Some (dth d) /\ derr d = None
          | DSend true => is_open d /\ derr d = None
          | DSend false => is_Some (derr d)
          | DEnd => is_Some (dret d)
          end;
  di_ret : match dret d with
           | Some (true, e) => e = None /\ is_open d /\ dpc d = DEnd
           | Some (false, e) => is_Some e
           | None => True
           end;
}.

(** ** Lemmas *)

(** A step of [run] never takes back that the connection is open, and sends the write event only
    when it is. *)
Lemma run_opens x x' :
  tinv x -> tstep WriteTo LRun x x' ->
  flags_move (kcp (co x)) (kcp (co x')) /\ reader x' = reader x /\
  (chWriteEvent (co x') = true -> chWriteEvent (co x) = true \/ open_flags (kcp (co x')) = true).
Proof.
  intros Hi Hs. pose proof Hi as [Hc Hq _ _].
  assert (Hinput : forall now now' s tr, take_input WriteTo now now' (co x) = Ok (Some (s, tr)) ->
    flags_move (kcp (co x)) (kcp s) /\
    (chWriteEvent s = true -> chWriteEvent (co x) = true \/ open_flags (kcp s) = true)).
  { intros now now' s tr E. unfold take_input in E. destruct (chUdpInput (co x)) as [|p rest]; [done|].
    apply Forall_cons in Hq as [Hl _]. set (s0 := (co x)<|chUdpInput := rest|>) in *.
    assert (conn_ok s0) as Hok0 by by destruct Hc; split.
    destruct (doKcpInput_ok WriteTo now now' p s0 Hok0 Hl) as
      (s1 & tr1 & k & code & E1 & _ & _ & _ & Hf & _ & _ & _ & _ & _ & Ecn & _ & Ew).
    rewrite E1 in E. cbn [mbind res_bind] in E. injection E as <- _. split; [exact Hf|].
    rewrite Ew. change (chWriteEvent s0) with (chWriteEvent (co x)).
    intros [?|[_ Hk]%andb_true_iff]%orb_true_iff; [by left|right].
    unfold open_flags. by rewrite Ecn, Hk. }
  assert (flags_move (kcp (co x)) (kcp (co x))) as Hrefl by by apply flags_move_eq.
  inversion Hs as [now d fl x0 s p tr Epc E| now now' d x0 s tr Epc E|d x0 Epc E|d x0 Epc|d x0 Epc E|
    now start x0 s tr Epc E|now now' start dg x0 s p tr Epc E|now now' start d dg x0 s tr Epc E|
    start d dg x0 Epc| | | | | | | | | | | | | |]; subst; simpl.
  - unfold main_head in E. destruct (isAllOpen _).
    + destruct (run_main_ok WriteTo now fl (co x) Hc) as (s1 & tr1 & E1 & _ & _ & Hf & _ & _ & Ew).
      rewrite E1 in E. cbn [mbind res_bind] in E. injection E as <- _ _. split; [done|]. split; [done|].
      rewrite Ew. intros [?|Hk]%orb_true_iff; [by left|right].
      unfold canKcpSendInternal in Hk. apply andb_true_iff in Hk as [_ Hk].
      unfold open_flags. by rewrite Hk.
    + injection E as <- _ _. split; [done|]. split; [done|]. by left.
  - destruct (Hinput _ _ _ _ E). by split.
  - split; [done|]. split; [done|]. by left.
  - split; [done|]. split; [done|]. by left.
  - split; [done|]. split; [done|]. by left.
  - destruct (run_closing_ok WriteTo now (co x) Hc) as (s1 & tr1 & E1 & _ & _ & Hf & Hsh & _).
    rewrite E1 in E. injection E as <- _. split; [done|]. split; [done|].
    destruct (shell_eq _ _ Hsh) as (_ & _ & _ & _ & _ & -> & _). by left.
  - unfold close_head in E.
    destruct (run_close_ok WriteTo now (co x) Hc) as (s1 & tr1 & w & E1 & _ & _ & Hf & Hsh & _).
    rewrite E1 in E. cbn [mbind res_bind] in E. injection E as <- _ _. split; [done|]. split; [done|].
    destruct (shell_eq _ _ Hsh) as (_ & _ & _ & _ & _ & -> & _). by left.
  - destruct (Hinput _ _ _ _ E). by split.
  - split; [done|]. split; [done|]. by left.
Qed.

Lemma young_run x x' : young x -> tstep WriteTo LRun x x' -> young x'.
Proof.
  intros [Hi Hr He] Hs. destruct (run_opens x x' Hi Hs) as (Hf & Hr' & Hw).
  split; [by eapply tinv_step|by rewrite Hr'|].
  intros Hev. destruct (Hw Hev) as [?|?]; [|done]. by apply (fm_open _ _ Hf), He.
Qed.

(** A connection with another thread's change, no reader being there. *)
Lemma young_co x s :
  young x -> conn_ok s -> flags_move (kcp (co x)) (kcp s) ->
  Forall (fun p : list byte => len p <= udpPacketSizeLimit) (chUdpInput s) ->
  (chWriteEvent s = true -> chWriteEvent (co x) = true) -> young (x<|co := s|>).
Proof.
  intros [[Hc Hq Hr Hp] Hrd He] Hok Hf Hin Hev. split; [|done|].
  - split; [done|done| |by eapply pc_ok_flags].
    unfold reader_served. simpl. by rewrite Hrd.
  - simpl. intros Hw. by apply (fm_open _ _ Hf), He, Hev.
Qed.

Lemma client_pass_ok got drop (s s' : KCPConn) go tr :
  conn_ok s -> Forall (fun p : list byte => len p <= udpPacketSizeLimit) (chUdpInput s) ->
  (forall p, got = Some p -> len p <= udpPacketSizeLimit) ->
  client_pass got drop s = Ok (Some (s', go, tr)) ->
  conn_ok s' /\ flags_move (kcp s) (kcp s') /\ chWriteEvent s' = chWriteEvent s /\
  Forall (fun p : list byte => len p <= udpPacketSizeLimit) (chUdpInput s').
Proof.
  intros Hok Hq Hg E. pose proof Hok as [H1 H2 H3 H4 H5]. unfold client_pass in E.
  destruct got as [data|].
  - destruct (die s && drop); [injection E as <- _ _; split; [done|split; [by apply flags_move_eq|done]]|].
    destruct (_ <? _); [|done]. injection E as <- _ _. split; [by split|].
    split; [by apply flags_move_eq|]. split; [done|]. simpl. apply Forall_app. split; [done|].
    constructor; [by apply Hg|done].
  - apply bind_Ok_inv in E as (s1 & E1 & E). injection E as <- _ _.
    destruct (count_kept (fun st => st<|ErrorRead := i64 (ErrorRead st + 1)|>) s H1 H2) as (s2 & E2 & K & Es & _ & Ew).
    rewrite E1 in E2. injection E2 as <-.
    assert (flags_move (kcp s) (kcp s1)) as Hf by (apply flags_move_eq; [done|apply (kp_conv _ _ K)]).
    split; [|split; [done|split; [done|by rewrite (kp_input _ _ K)]]].
    split; [apply (kp_wf _ _ K)|apply (kp_conn _ _ K)|by rewrite (kp_buf _ _ K)| |by rewrite (fm_dead _ _ Hf)].
    rewrite (kp_die _ _ K). intros Hd. by apply (fm_local _ _ Hf), H4.
Qed.

(** The caller has not been given a connection while the goroutine is on its way. *)
Lemma ret_early d : dinv d -> dpc d <> DEnd ->
  match dret d with Some (true, _) => False | Some (false, e) => is_Some e | None => True end.
Proof.
  intros [_ _ Hr] Hp. destruct (dret d) as [[[|] e]|]; [|done..]. by destruct Hr as (_ & _ & ?).
Qed.

(** The connection of a dial moves. *)
Lemma dinv_young d x x' r :
  dinv d -> dth d = Some x -> young x' -> flags_move (kcp (co x)) (kcp (co x')) ->
  dinv (d<|dth := Some x'|><|drecv := r|>).
Proof.
  intros [Hy Hp Hr] Hx Hx' Hf.
  assert (is_open d -> is_open (d<|dth := Some x'|><|drecv := r|>)) as Ho.
  { intros (y & Hy' & Hop). rewrite Hx in Hy'. injection Hy' as <-. exists x'. split; [done|].
    by apply (fm_open _ _ Hf). }
  split; simpl.
  - by intros y [= <-].
  - destruct (dpc d) as [| | | |[|]|]; try done.
    + rewrite Hx in Hp. by destruct Hp.
    + rewrite Hx in Hp. by destruct Hp.
    + split; [by eexists|apply Hp].
    + split; [by eexists|apply Hp].
    + split; [apply Ho|]; apply Hp.
  - destruct (dret d) as [[[|] e]|]; [|done..]. destruct Hr as (? & ? & ?). auto.
Qed.

Lemma dinv_step timeout d d' : dinv d -> dstep timeout d d' -> dinv d'.
Proof.
  intros Hi Hs. pose proof Hi as [Hy Hp Hr].
  destruct Hs as [d e Epc|d Epc|d e Epc|d cv c d' Epc E|d x now s tr Epc Hx E|d x Epc Hx Hev|
    d found Epc Er|d Hto Er|d x x' Hx Hst|d x got drop s go tr Hx Hrc Hg E].
  - pose proof (ret_early d Hi) as He. rewrite Epc in *. specialize (He ltac:(done)).
    split; simpl; [|by eexists|by destruct (dret d) as [[[|] ?]|]].
    intros x. by destruct Hp as [-> _].
  - pose proof (ret_early d Hi) as He. rewrite Epc in *. specialize (He ltac:(done)).
    split; simpl; [done|done|by destruct (dret d) as [[[|] ?]|]].
  - pose proof (ret_early d Hi) as He. rewrite Epc in *. specialize (He ltac:(done)).
    split; simpl; [|by eexists|by destruct (dret d) as [[[|] ?]|]].
    intros x. by destruct Hp as [-> _].
  - pose proof (ret_early d Hi) as He. rewrite Epc in *. specialize (He ltac:(done)).
    unfold dial_connect in E. apply bind_Ok_inv in E as (s & Es & E). injection E as <-.
    pose proof (newKCPConn_ok s Es) as (Ek & Eb & Ed).
    assert (connection WriteTo (connect cv c s).1) as Hc by by apply conn_connect.
    assert (chUdpInput s = [] /\ chWriteEvent s = false) as [Eq Ew].
    { unfold newKCPConn in Es. rewrite new_session_eq in Es. by injection Es as <-. }
    split; simpl; [|split; [by eexists|apply Hp]|by destruct (dret d) as [[[|] ?]|]].
    intros x [= <-]. split; [|done|simpl; by rewrite Ew].
    apply (treach_inv WriteTo), tr_start; [done|exact Eq].
  - pose proof (ret_early d Hi) as He. rewrite Epc in *. specialize (He ltac:(done)).
    pose proof (Hy x Hx) as Hyx. pose proof (ti_conn _ (yg_inv _ Hyx)) as Hok.
    destruct (connect_flush_ok WriteTo now (co x) Hok) as (s1 & tr1 & E1 & Hok1 & _ & Hf & Hsh).
    rewrite E in E1. injection E1 as <- _.
    destruct (shell_eq _ _ Hsh) as (_ & _ & _ & _ & _ & Ew & _ & Ei).
    split; simpl; [|split; [by eexists|apply Hp]|by destruct (dret d) as [[[|] ?]|]].
    intros y [= <-]. apply young_co; try done; [rewrite Ei; apply (ti_input _ (yg_inv _ Hyx))|by rewrite Ew].
  - pose proof (ret_early d Hi) as He. rewrite Epc in *. specialize (He ltac:(done)).
    pose proof (Hy x Hx) as Hyx. pose proof (yg_event _ Hyx Hev) as Ho.
    pose proof (yg_inv _ Hyx) as [Hok Hq _ _].
    split; simpl; [|split; [by eexists|apply Hp]|by destruct (dret d) as [[[|] ?]|]].
    intros y [= <-]. apply young_co; try done. by destruct Hok; split.
  - rewrite Epc in Hp. split; simpl; [done|by eexists|].
    destruct found; [|exact Hp]. destruct Hp as [Ho ->]. done.
  - split; simpl; [done| |by eexists].
    destruct (dpc d) as [| | | |[|]|]; try done.
  - pose proof (Hy x Hx) as Hyx. destruct (run_opens x x' (yg_inv _ Hyx) Hst) as (Hf & _).
    pose proof (dinv_young d x x' (drecv d) Hi Hx (young_run x x' Hyx Hst) Hf) as Hd. by destruct d.
  - pose proof (Hy x Hx) as Hyx. pose proof (yg_inv _ Hyx) as [Hok Hq _ _].
    destruct (client_pass_ok got drop (co x) s go tr Hok Hq Hg E) as (Hok' & Hf & Ew & Hq').
    apply (dinv_young d x); [done|done| |done]. apply young_co; try done. by rewrite Ew.
Qed.

Lemma dreach_inv timeout d : dreach timeout d -> dinv d.
Proof. induction 1; [by split|by eapply dinv_step]. Qed.

(** ** Properties *)

(** C38. What dialing returns: a connection only together with no error, and then one that has been
    opened by the peer's answer, so that [Close] on it, now or at any later moment of its threads,
    does not panic as it does on one that is not open; and an error whenever there is no
    connection. *)
Theorem dial_returns_open timeout d found err (Hd : dreach timeout d)
    (Hr : dret d = Some (found, err)) :
  if found : bool then
    err = None /\ exists x, dth d = Some x /\ open_flags (kcp (co x)) = true /\
      forall now, exists s tr e, Close WriteTo now (co x) = Ok (s, tr, e) /\ conn_ok s
  else is_Some err.
Proof.
  pose proof (dreach_inv timeout d Hd) as [Hy _ Hret]. rewrite Hr in Hret.
  destruct found; [|done]. destruct Hret as (-> & (x & Hx & Ho) & _). split; [done|].
  exists x. split; [done|]. split; [done|]. intros now.
  pose proof (ti_conn _ (yg_inv _ (Hy x Hx))) as Hok. unfold Close.
  destruct (isStateLocalClosed (kcp (co x))) eqn:El.
  { rewrite close_refused by done. eauto. }
  unfold open_flags in Ho. rewrite El, orb_false_r in Ho.
  destruct (close_ok WriteTo now (co x) Hok Ho El) as (s & tr & E & Hs & _). eauto.
Qed.

(** A dial that times out leaks: once the caller has returned, the goroutine that connects can
    only get as far as its send to [chKcpConn], which nobody receives; it stays there through
    every later step, with a connection that is open and that nobody can close. *)
Theorem dial_timeout_leaks timeout d e (Hd : dreach timeout d) (Hr : dret d = Some (false, e))
    (Hp : dpc d <> DEnd) :
  forall d', rtc (dstep timeout) d d' -> dret d' = Some (false, e) /\ dpc d' <> DEnd /\
    (dpc d = DSend true -> dpc d' = DSend true /\ is_open d').
Proof.
  intros d' Hs. induction Hs as [d|d d1 d' Hs _ IH].
  - split; [done|]. split; [done|]. intros E. pose proof (di_pc _ (dreach_inv timeout d Hd)) as Hpc.
    rewrite E in Hpc. by split; [|apply Hpc].
  - assert (dret d1 = Some (false, e) /\ dpc d1 <> DEnd /\ (dpc d = DSend true -> dpc d1 = DSend true))
      as (H1 & H2 & H3).
    { destruct Hs as [d e0 Epc|d Epc|d e0 Epc|d cv c d1 Epc E|d x now s tr Epc Hx E|d x Epc Hx Hev|
        d found Epc Er|d Hto Er|d x x' Hx Hst|d x got drop s go tr Hx Hrc Hg E]; try congruence; try done;
        try (by split; [exact Hr|split; [done|congruence]]).
      unfold dial_connect in E. apply bind_Ok_inv in E as (s & _ & E). injection E as <-.
      split; [exact Hr|]. split; [done|congruence]. }
    destruct IH as (I1 & I2 & I3); [by eapply dr_step|done|done|]. auto.
Qed.
End Dial.

(** *** Witnesses *)

Section Witnesses.
#[local] Existing Instance zero_pool.
#[local] Abbreviation dial := (dial (Q := Buffer) (Sock := list (list byte))).
#[local] Abbreviation threads := (threads (Q := Buffer) (Sock := list (list byte))).
Implicit Types (d : dial) (x : threads).

(** Steps, computed. *)
Definition go_connect d : dial :=
  match dpc d with
  | DResolve => d<|dpc := DSocket|>
  | DSocket => match dial_connect 7 [] d with Ok d => d | _ => d end
  | DFlush => match dth d with
              | Some x => match connect_flush demo_write 0 (co x) with
                          | Ok (s, _) => d<|dth := Some (x<|co := s|>)|><|dpc := DWait|> | _ => d end
              | None => d end
  | DWait => match dth d with
             | Some x => if chWriteEvent (co x)
                 then d<|dth := Some (x<|co := (co x)<|chWriteEvent := false|>|>)|><|dpc := DSend true|> else d
             | None => d end
  | DSend found => if dret d is None then d<|dpc := DEnd|><|dret := Some (found, derr d)|> else d
  | DEnd => d
  end.
Definition go_thread (f : threads -> threads) d : dial :=
  match dth d with Some x => d<|dth := Some (f x)|> | None => d end.
Definition go_recv (pkt : list byte) d : dial :=
  match dth d with
  | Some x => if drecv d then
      match client_pass (Some pkt) false (co x) with
      | Ok (Some (s, go, _)) => d<|dth := Some (x<|co := s|>)|><|drecv := go|> | _ => d end else d
  | None => d
  end.

Lemma go_connect_reach timeout d : dreach demo_write timeout d -> dreach demo_write timeout (go_connect d).
Proof.
  intros Hd. unfold go_connect. destruct (dpc d) eqn:Ep.
  - eapply dr_step; [exact Hd|]. by apply d_resolve.
  - destruct (dial_connect 7 [] d) as [d'| |] eqn:E; [|exact Hd..].
    eapply dr_step; [exact Hd|]. by apply (d_socket _ _ d 7 []).
  - destruct (dth d) as [x|] eqn:Hx; [|exact Hd].
    destruct (connect_flush demo_write 0 (co x)) as [[s tr]| |] eqn:E; [|exact Hd..].
    eapply dr_step; [exact Hd|]. by apply (d_flush _ _ d x 0 s tr).
  - destruct (dth d) as [x|] eqn:Hx; [|exact Hd]. destruct (chWriteEvent (co x)) eqn:E; [|exact Hd].
    eapply dr_step; [exact Hd|]. by apply (d_event _ _ d x).
  - destruct (dret d) eqn:Er; [exact Hd|]. eapply dr_step; [exact Hd|]. by apply d_handover.
  - exact Hd.
Qed.

Lemma go_dial_reach timeout f d :
  run_step f -> dreach demo_write timeout d -> dreach demo_write timeout (go_thread f d).
Proof.
  intros Hf Hd. unfold go_thread. destruct (dth d) as [x|] eqn:Hx; [|exact Hd].
  destruct (Hf x) as [E|Hs].
  - rewrite E, <- Hx. by destruct d.
  - eapply dr_step; [exact Hd|]. by apply (d_run _ _ d x (f x)).
Qed.

Lemma go_recv_reach timeout pkt d :
  len pkt <= 2048 -> dreach demo_write timeout d -> dreach demo_write timeout (go_recv pkt d).
Proof.
  intros Hl Hd. unfold go_recv. destruct (dth d) as [x|] eqn:Hx; [|exact Hd].
  destruct (drecv d) eqn:Hr; [|exact Hd].
  destruct (client_pass (Some pkt) false (co x)) as [[[[s go] tr]|]| |] eqn:E; [|exact Hd..].
  eapply dr_step; [exact Hd|]. apply (d_recv _ _ d x (Some pkt) false s go tr); try done.
  by intros p [= <-].
Qed.

(** The peer answers the dial; the goroutine is about to hand the connection over. *)
Definition demo_answered : dial :=
  go_connect (go_thread go_take (go_thread (go_main 10000000)
    (go_recv (demo_pkt IKCP_CMD_CONNECT 0 []) (go_connect (go_connect (go_connect DialTimeout)))))).

Lemma demo_answered_reach timeout : dreach demo_write timeout demo_answered.
Proof.
  apply go_connect_reach, go_dial_reach; [apply go_take_run|].
  apply go_dial_reach; [apply go_main_run|]. apply go_recv_reach; [vm_compute; discriminate|].
  do 3 apply go_connect_reach. apply dr_start.
Qed.

Definition demo_dialed : dial := go_connect demo_answered.

Lemma dial_returns_open_witness :
  dret demo_dialed = Some (true, None) /\
  exists x, dth demo_dialed = Some x /\ open_flags (kcp (co x)) = true.
Proof.
  assert (dret demo_dialed = Some (true, None)) as Hr by (vm_compute; reflexivity).
  split; [exact Hr|].
  assert (dreach demo_write 0 demo_dialed) as Hd by (apply go_connect_reach, demo_answered_reach).
  destruct (dial_returns_open demo_write 0 demo_dialed true None Hd Hr) as (_ & x & Hx & Ho & _).
  exists x. split; [exact Hx|exact Ho].
Defined.

(** The same dial when the caller's timeout came first. *)
Definition demo_late : dial := demo_answered<|dret := Some (false, Some "timeout"%string)|>.

Lemma dial_timeout_leaks_witness :
  dpc demo_late = DSend true /\
  forall d', rtc (dstep demo_write 1000) demo_late d' -> dpc d' = DSend true.
Proof.
  assert (dpc demo_late = DSend true) as Hp by (vm_compute; reflexivity).
  assert (dreach demo_write 1000 demo_late) as Hd.
  { assert (dret demo_answered = None) as Hn by (vm_compute; reflexivity).
    assert (1000 <> 0) as Ht by discriminate.
    exact (dr_step demo_write 1000 demo_answered demo_late (demo_answered_reach 1000)
      (d_timeout demo_write 1000 demo_answered Ht Hn)). }
  assert (dret demo_late = Some (false, Some "timeout"%string)) as Hr by reflexivity.
  assert (dpc demo_late <> DEnd) as Hn by (rewrite Hp; discriminate).
  split; [exact Hp|]. intros d' Hs.
  destruct (dial_timeout_leaks demo_write 1000 demo_late _ Hd Hr Hn d' Hs) as (_ & _ & H).
  destruct (H Hp) as [H' _]. exact H'.
Defined.
End Witnesses.
