(* ===== verification/Listener.v ===== *)
(** * The server ([kcpconn.go], type [Listener])

    The session table of [Listener.server] and the connections it makes. An address is the
    string that [Addr.String] gives; a connection, a Go pointer, is the number under which
    the store [conns] keeps it together with its address and its threads. The steps are
    those of the loop of [server], those of the threads of every connection, and the calls
    of [AcceptKCP] and [Close]. *)
From S2P Require Import Prelude GoInt Stats Wire Kcp Serial Send Recv Ack Input Flush Flushed Timer Session Buffer Conn Calls Threads.

(** ** Definitions *)

(** The capacity of [chAccepts] and of [chDeadConns]. *)
Definition chanLimit : Z := 4096.

(** Where [server] stands: in its [select], about to send a new connection to [chAccepts],
    about to send a datagram to a connection, past the loop. *)
Inductive serverpc :=
  | SSelect
  | SAccept (id : nat) (data : list byte)
  | SDeliver (id : nat) (data : list byte)
  | SDone.

Section Listener.
Context `{BufPool} {Q : Type} `{ByteQueue Q} {Sock : Type} (WriteTo : Sock -> list byte -> Sock * bool).
#[local] Abbreviation threads := (threads (Q := Q) (Sock := Sock)).

(** [ldie] says whether [die] is closed. [handed] is what [AcceptKCP] has returned so far,
    [gone] the connections whose [run] has sent itself to [chDeadConns]. *)
Record Listener := mkListener {
  lconn : Sock;
  sessions : gmap string nat;
  chAccepts : list nat;
  chDeadConns : list nat;
  ldie : bool;
  spc : serverpc;
  conns : gmap nat (string * threads);
  next : nat;
  rd : option Z;
  wd : option Z;
  handed : list nat;
  gone : gset nat;
}.
#[global] Instance eta_Listener : Eta Listener := fun l =>
  mkListener (lconn l) (sessions l) (chAccepts l) (chDeadConns l) (ldie l) (spc l) (conns l)
    (next l) (rd l) (wd l) (handed l) (gone l).

(** [ServeConn(conn)] *)
Definition ServeConn (c : Sock) : Listener := mkListener c ∅ [] [] false SSelect ∅ 0 None None [] ∅.

(** A new session: [newKCPConn], [accept] and the entry in the table. *)
Definition new_connection (from : string) (cv : Z) (data : list byte) (l : Listener) : res Listener :=
  s ← newKCPConn;
  let s := (accept cv (lconn l) s).1 in
  let id := next l in
  let l := l<|conns := <[id := (from, mkThreads s (PMain updateDelayMin false) Idle Idle)]> (conns l)|> in
  let l := l<|next := S id|> in
  let l := l<|sessions := <[from := id]> (sessions l)|> in
  Ok (l<|spc := SAccept id data|>).

(** The case of a datagram, up to the sends to channels. A table entry without a connection
    would be a nil pointer. *)
Definition server_packet (from : string) (data : list byte) (l : Listener) : res Listener :=
  if len data <? IKCP_OVERHEAD then Ok l
  else
    '(cv, _) ← ikcp_decode32u data;
    match sessions l !! from with
    | Some id =>
        match conns l !! id with
        | None => Panic PNil
        | Some (_, x) =>
            if negb (GetConv (co x) =? cv) then
              if negb (isRemoteOpen (kcp (co x))) then
                let l := l<|sessions := delete from (sessions l)|> in
                new_connection from cv data l
              else Ok l
            else Ok (l<|spc := SDeliver id data|>)
        end
    | None => new_connection from cv data l
    end.

(** The case of a dead connection: its own entry goes, and only that. *)
Definition server_dead (id : nat) (l : Listener) : res Listener :=
  match conns l !! id with
  | None => Panic PNil
  | Some (addr, _) =>
      match sessions l !! addr with
      | Some id' => Ok (if (id' =? id)%nat then l<|sessions := delete addr (sessions l)|> else l)
      | None => Ok l
      end
  end.

(** The two sends: they block while the channel is full. *)
Definition send_accept (l : Listener) : option Listener :=
  match spc l with
  | SAccept id data =>
      if len (chAccepts l) <? chanLimit
      then Some (l<|chAccepts := chAccepts l ++ [id]|><|spc := SDeliver id data|>) else None
  | _ => None
  end.

Definition send_data (l : Listener) : option Listener :=
  match spc l with
  | SDeliver id data =>
      match conns l !! id with
      | Some (addr, x) =>
          if len (chUdpInput (co x)) <? rxQueueLimit
          then Some (l<|conns := <[id := (addr, x<|co := (co x)<|chUdpInput := chUdpInput (co x) ++ [data]|>|>)]> (conns l)|>
                      <|spc := SSelect|>)
          else None
      | None => None
      end
  | _ => None
  end.

(** [Close] of the listener. *)
Definition Close (l : Listener) : res Listener :=
  if ldie l then Panic PClosed else Ok (l<|ldie := true|>).

(** [AcceptKCP] by the case its [select] takes: the timer, which fires at [now] when a deadline
    is set and has come, a connection, or [die]; [None] while that case is not ready. *)
Inductive accept_case := ATimer | AConn | ADie.

Definition AcceptKCP (now : Z) (c : accept_case) (l : Listener) :
    option (Listener * (option nat * option goerr)) :=
  match c with
  | ATimer => match rd l with
              | Some t => if t <=? now then Some (l, (None, Some ETimeout)) else None
              | None => None
              end
  | AConn => match chAccepts l with
             | id :: rest => Some (l<|chAccepts := rest|><|handed := handed l ++ [id]|>, (Some id, None))
             | [] => None
             end
  | ADie => if ldie l then Some (l, (None, Some EBrokenPipe)) else None
  end.

Definition SetReadDeadline (t : option Z) (l : Listener) : Listener := l<|rd := t|>.
Definition SetWriteDeadline (t : option Z) (l : Listener) : Listener := l<|wd := t|>.
Definition SetDeadline (t : option Z) (l : Listener) : Listener :=
  SetWriteDeadline t (SetReadDeadline t l).

(** A step of the loop of [server] but for datagrams, of [run] where it ends, or of a method. *)
Inductive lmain : Listener -> Listener -> Prop :=
  | l_accept l l' : send_accept l = Some l' -> lmain l l'
  | l_deliver l l' : send_data l = Some l' -> lmain l l'
  | l_dead id rest l l' :
      spc l = SSelect -> chDeadConns l = id :: rest ->
      server_dead id (l<|chDeadConns := rest|>) = Ok l' -> lmain l l'
  | l_stop l : spc l = SSelect -> ldie l = true -> lmain l (l<|spc := SDone|>)
  | l_end id addr x dg l :
      conns l !! id = Some (addr, x) -> pc x = PEnd dg -> id ∉ gone l ->
      len (chDeadConns l) < chanLimit ->
      lmain l (l<|chDeadConns := chDeadConns l ++ [id]|><|gone := {[id]} ∪ gone l|>)
  | l_end_die id addr x dg l :
      conns l !! id = Some (addr, x) -> pc x = PEnd dg -> id ∉ gone l -> ldie l = true ->
      lmain l (l<|gone := {[id]} ∪ gone l|>)
  | l_AcceptKCP now c r l l' : AcceptKCP now c l = Some (l', r) -> lmain l l'
  | l_deadline r w l : lmain l (l<|rd := r|><|wd := w|>)
  | l_close l l' : Close l = Ok l' -> lmain l l'.

(** One of those, or of the threads of a connection. *)
Inductive lown : Listener -> Listener -> Prop :=
  | l_main l l' : lmain l l' -> lown l l'
  | l_thread id addr x x' lb l :
      conns l !! id = Some (addr, x) -> lb <> LNet -> tstep WriteTo lb x x' ->
      lown l (l<|conns := <[id := (addr, x')]> (conns l)|>).

(** A step: a datagram arrives, or one of those; [Server.v] has the goroutine that reads them. *)
Inductive lstep : Listener -> Listener -> Prop :=
  | l_packet from data l l' :
      spc l = SSelect -> len data <= udpPacketSizeLimit -> server_packet from data l = Ok l' ->
      lstep l l'
  | l_own l l' : lown l l' -> lstep l l'.

Inductive lreach : Listener -> Prop :=
  | lr_start c : lreach (ServeConn c)
  | lr_step l l' : lreach l -> lstep l l' -> lreach l'.

(** ** Invariant *)

(** The conversation a datagram is for. *)
Definition conv_of (data : list byte) : option Z :=
  match ikcp_decode32u data with Ok (cv, _) => Some cv | _ => None end.

(** A datagram that is right for a connection. *)
Definition right_for (x : threads) (data : list byte) : Prop :=
  IKCP_OVERHEAD <= len data <= udpPacketSizeLimit /\ conv_of data = Some (GetConv (co x)).

Record linv (l : Listener) : Prop := {
  (* an entry of the table is the connection of that address *)
  li_table : forall from id, sessions l !! from = Some id -> exists x, conns l !! id = Some (from, x);
  li_next : forall id, is_Some (conns l !! id) <-> (id < next l)%nat;
  (* every connection is one the threads can reach *)
  li_reach : forall id addr x, conns l !! id = Some (addr, x) -> treach WriteTo x;
  (* and is sent only datagrams of its conversation *)
  li_right : forall id addr x, conns l !! id = Some (addr, x) -> Forall (right_for x) (chUdpInput (co x));
  li_pc : match spc l with
          | SAccept id data | SDeliver id data =>
              exists addr x, conns l !! id = Some (addr, x) /\ right_for x data
          | _ => True
          end;
  (* connections are accepted once each, in the order they were made *)
  li_order : handed l ++ chAccepts l ++ match spc l with SAccept id _ => [id] | _ => [] end
             = seq 0 (next l);
}.

(** ** Lemmas *)

Lemma decode_conv data :
  IKCP_OVERHEAD <= len data -> exists cv, ikcp_decode32u data = Ok (cv, drop 4 data) /\ conv_of data = Some cv.
Proof.
  intros Hl. unfold IKCP_OVERHEAD in Hl. unfold conv_of, ikcp_decode32u.
  destruct (decode_le_total 4 data) as [cv ->]; [lia|]. by exists cv.
Qed.

(** What the new session is. *)
Lemma new_connection_ok from cv data l :
  exists x, new_connection from cv data l =
    Ok (l<|conns := <[next l := (from, x)]> (conns l)|><|next := S (next l)|>
         <|sessions := <[from := next l]> (sessions l)|><|spc := SAccept (next l) data|>) /\
  treach WriteTo x /\ GetConv (co x) = cv /\ chUdpInput (co x) = [].
Proof.
  unfold new_connection.
  destruct newKCPConn as [s| |] eqn:E; [|by unfold newKCPConn in E; rewrite new_session_eq in E..].
  cbn [mbind res_bind]. eexists. split; [done|].
  assert (chUdpInput s = []) as Hq
    by (unfold newKCPConn in E; rewrite new_session_eq in E; by injection E as <-).
  split; [|by split]. apply tr_start; [by apply conn_accept|exact Hq].
Qed.

Lemma right_for_queue x x' :
  queue_step x x' -> Forall (right_for x) (chUdpInput (co x)) -> Forall (right_for x') (chUdpInput (co x')).
Proof.
  intros [Ec (pre & Eq & _) _] Hf. rewrite Eq in Hf. apply Forall_app in Hf as [_ Hf].
  eapply Forall_impl; [exact Hf|]. unfold right_for. by rewrite Ec.
Qed.

Lemma right_for_conv x x' data : GetConv (co x') = GetConv (co x) -> right_for x data -> right_for x' data.
Proof. unfold right_for. by intros ->. Qed.

(** A connection of the store moves. *)
Lemma linv_conn l id addr x x' :
  linv l -> conns l !! id = Some (addr, x) -> treach WriteTo x' ->
  GetConv (co x') = GetConv (co x) -> Forall (right_for x') (chUdpInput (co x')) ->
  linv (l<|conns := <[id := (addr, x')]> (conns l)|>).
Proof.
  intros [H1 H2 H3 H4 H5 H6] Hx Hr Hc Hf. split; simpl; try done.
  - intros from id' Hs. destruct (H1 from id' Hs) as [y Hy]. destruct (decide (id' = id)) as [->|Hne].
    + rewrite lookup_insert_eq. rewrite Hx in Hy. injection Hy as -> _. eauto.
    + rewrite lookup_insert_ne by done. eauto.
  - intros id'. rewrite <- H2. destruct (decide (id' = id)) as [->|Hne].
    + rewrite lookup_insert_eq, Hx. split; eauto.
    + by rewrite lookup_insert_ne.
  - intros id' a y. rewrite lookup_insert_Some. intros [(<- & [= <- <-])|[_ ?]]; [done|eauto].
  - intros id' a y. rewrite lookup_insert_Some. intros [(<- & [= <- <-])|[_ ?]]; [done|eauto].
  - assert (Hpc : forall id' data,
      (exists a y, conns l !! id' = Some (a, y) /\ right_for y data) ->
      exists a y, <[id:=(addr, x')]> (conns l) !! id' = Some (a, y) /\ right_for y data).
    { intros id' data (a & y & Hy & Hd). destruct (decide (id' = id)) as [->|Hne].
      - rewrite lookup_insert_eq. do 2 eexists. split; [done|]. rewrite Hx in Hy. injection Hy as <- <-.
        by eapply right_for_conv.
      - rewrite lookup_insert_ne by done. eauto. }
    destruct (spc l); auto.
Qed.

Lemma linv_new l from cv data l' :
  linv l -> spc l = SSelect -> IKCP_OVERHEAD <= len data <= udpPacketSizeLimit ->
  conv_of data = Some cv -> new_connection from cv data l = Ok l' -> linv l'.
Proof.
  intros [H1 H2 H3 H4 H5 H6] Hpc Hl Hcv E.
  destruct (new_connection_ok from cv data l) as (x & E' & Hr & Hc & Hq).
  rewrite E' in E. injection E as <-.
  assert (conns l !! next l = None) as Hnone.
  { destruct (conns l !! next l) eqn:Hx; [|done]. assert (next l < next l)%nat; [|lia].
    apply H2. by rewrite Hx. }
  split; simpl.
  - intros f id. rewrite lookup_insert_Some. intros [(<- & <-)|[Hne Hs]].
    + rewrite lookup_insert_eq. eauto.
    + destruct (H1 f id Hs) as [y Hy]. exists y. rewrite lookup_insert_ne; [done|]. by intros <-; rewrite Hnone in Hy.
  - intros id. destruct (decide (id = next l)) as [->|Hne].
    + rewrite lookup_insert_eq. split; [lia|by eexists].
    + rewrite lookup_insert_ne, H2 by done. lia.
  - intros id a y. rewrite lookup_insert_Some. intros [(_ & [= _ <-])|[_ ?]]; [done|eauto].
  - intros id a y. rewrite lookup_insert_Some. intros [(_ & [= _ <-])|[_ ?]]; [by rewrite Hq|eauto].
  - exists from, x. rewrite lookup_insert_eq. split; [done|]. split; [done|]. by rewrite Hc.
  - rewrite Hpc, app_nil_r in H6. rewrite app_assoc, H6. symmetry. apply (seq_S (next l) 0).
Qed.

Lemma linv_delete l from : linv l -> linv (l<|sessions := delete from (sessions l)|>).
Proof.
  intros [H1 H2 H3 H4 H5 H6]. split; simpl; try done.
  intros f id Hs. apply lookup_delete_Some in Hs as [_ Hs]. eauto.
Qed.

Lemma linv_packet from data l l' :
  linv l -> spc l = SSelect -> len data <= udpPacketSizeLimit ->
  server_packet from data l = Ok l' -> linv l'.
Proof.
  intros Hi Hpc Hle E. unfold server_packet in E.
  destruct (Z.ltb_spec (len data) IKCP_OVERHEAD) as [_|Hge]; [by injection E as <-|].
  destruct (decode_conv data Hge) as (cv & Ed & Ecv). rewrite Ed in E. cbn [mbind res_bind] in E.
  destruct (sessions l !! from) as [id|] eqn:Es; [|by eapply (linv_new l from cv data)].
  destruct (li_table _ Hi _ _ Es) as [x Hx]. rewrite Hx in E.
  destruct (Z.eqb_spec (GetConv (co x)) cv) as [Hc|_]; cbn [negb] in E.
  - injection E as <-. pose proof Hi as [H1 H2 H3 H4 H5 H6]. split; simpl; try done.
    + exists from, x. split; [done|]. split; [done|]. by rewrite Hc.
    + by rewrite Hpc in H6.
  - destruct (isRemoteOpen _); cbn [negb] in E; [by injection E as <-|].
    eapply (linv_new (l<|sessions := delete from (sessions l)|>)); [by apply linv_delete|done..].
Qed.

Lemma linv_dead id l l' : linv l -> server_dead id l = Ok l' -> linv l'.
Proof.
  intros Hi E. unfold server_dead in E. destruct (conns l !! id) as [[a x]|]; [|done].
  destruct (sessions l !! a) as [id'|]; [|by injection E as <-].
  destruct (_ =? _)%nat; injection E as <-; [by apply linv_delete|done].
Qed.

Lemma linv_step l l' : linv l -> lstep l l' -> linv l'.
Proof.
  intros Hi Hs. pose proof Hi as [H1 H2 H3 H4 H5 H6].
  destruct Hs as [from data l l' Hpc Hle E|? ? [? ? [l l' E|l l' E|id rest l l' Hpc Hd E|l Hpc Hd|
    id addr x dg l Hx Hp Hg Hn|id addr x dg l Hx Hp Hg Hdie|
    now c r l l' Ha|r w l|l l' E]|id addr x x' lb l Hx Hlb Hst]].
  - by eapply linv_packet.
  - unfold send_accept in E. destruct (spc l) as [|id data| |] eqn:Epc; try done.
    destruct (_ <? _); [|done]. injection E as <-. split; simpl; try done.
    by rewrite app_nil_r.
  - unfold send_data in E. destruct (spc l) as [| |id data|] eqn:Epc; try done.
    destruct (conns l !! id) as [[addr x]|] eqn:Hx; [|done].
    destruct (Z.ltb_spec (len (chUdpInput (co x))) rxQueueLimit) as [Hlim|]; [|done].
    injection E as <-. destruct H5 as (a & y & Hy & Hd). injection Hy as <- <-.
    set (x' := x<|co := _|>).
    assert (treach WriteTo x') as Hr'.
    { eapply tr_step; [by eapply H3|]. apply t_net; [|done]. apply Hd. }
    assert (linv (l<|conns := <[id := (addr, x')]> (conns l)|>)) as [G1 G2 G3 G4 _ G6].
    { apply (linv_conn l id addr x); try done. simpl. apply Forall_app. split; [exact (H4 _ _ _ Hx)|].
      by constructor. }
    by split.
  - eapply linv_dead; [|exact E]. by split.
  - split; simpl; try done. by rewrite Hpc in H6.
  - by split.
  - by split.
  - unfold AcceptKCP in Ha. destruct c; [destruct (rd l) as [t|]; [destruct (t <=? now)|]| |destruct (ldie l)];
      try done; try (injection Ha as <- _; by split).
    destruct (chAccepts l) as [|id rest] eqn:Eq; [done|]. injection Ha as <- _.
    split; simpl; try done. by rewrite <- app_assoc.
  - by split.
  - unfold Close in E. destruct (ldie l); [done|]. injection E as <-. by split.
  - pose proof (H3 _ _ _ Hx) as Hr. pose proof (tstep_queue WriteTo lb x x' (treach_inv _ _ Hr) Hst Hlb) as Hq.
    apply (linv_conn l id addr x); try done.
    + by eapply tr_step.
    + apply (qs_conv _ _ Hq).
    + eapply right_for_queue; [exact Hq|by eapply H4].
Qed.

Lemma lreach_inv l : lreach l -> linv l.
Proof.
  induction 1 as [c|l l' _ IH Hs]; [|by eapply linv_step].
  split; simpl; try done.
  intros id. rewrite lookup_empty. split; [by intros [? ?]|lia].
Qed.

(** The datagram that [server] is about to hand to the connection [id]. *)
Definition pending (l : Listener) (id : nat) (data : list byte) : Prop :=
  spc l = SAccept id data \/ spc l = SDeliver id data.

(** The connections under a step of the listener: none is made, and at most one is given a datagram. *)
Lemma lmain_conns l l' : lmain l l' ->
  next l' = next l /\
  (conns l' = conns l /\ (forall id data, pending l' id data -> pending l id data) \/
   exists id addr x data, spc l = SDeliver id data /\ conns l !! id = Some (addr, x) /\
     conns l' = <[id := (addr, x<|co := (co x)<|chUdpInput := chUdpInput (co x) ++ [data]|>|>)]> (conns l) /\
     spc l' = SSelect).
Proof.
  unfold pending.
  intros [l0 l1 E|l0 l1 E|id rest l0 l1 _ _ E|l0 _ _|id addr x dg l0 _ _ _ _|
    id addr x dg l0 _ _ _ _|now c r l0 l1 E|r w l0|l0 l1 E].
  - unfold send_accept in E. destruct (spc l0) eqn:Ep; try done. destruct (_ <? _); [|done]. injection E as <-.
    split; [done|]. left. split; [done|]. simpl. intros i d [?|[= <- <-]]; [done|by left].
  - unfold send_data in E. destruct (spc l0) eqn:Ep; try done. destruct (conns l0 !! _) as [[a x]|] eqn:Hx; [|done].
    destruct (_ <? _); [|done]. injection E as <-. split; [done|]. right. by exists id, a, x, data.
  - unfold server_dead in E. destruct (conns _ !! _) as [[a x]|]; [|done].
    destruct (sessions _ !! a); [destruct (_ =? _)%nat|]; injection E as <-; (split; [done|by left]).
  - split; [done|]. left. split; [done|]. by intros i d [?|?].
  - split; [done|by left].
  - split; [done|by left].
  - unfold AcceptKCP in E. destruct c; [destruct (rd l0); [destruct (_ <=? _)|]|destruct (chAccepts l0)|
      destruct (ldie l0)]; try done; injection E as <- _; (split; [done|by left]).
  - split; [done|by left].
  - unfold Close in E. destruct (ldie l0); [done|]. injection E as <-. split; [done|by left].
Qed.

(** No datagram makes the server panic. *)
Lemma server_packet_total from data l : lreach l -> exists l', server_packet from data l = Ok l'.
Proof.
  intros Hl. pose proof (lreach_inv l Hl) as Hi. unfold server_packet.
  destruct (Z.ltb_spec (len data) IKCP_OVERHEAD) as [|Hge]; [by eexists|].
  destruct (decode_conv data Hge) as (cv & -> & _). cbn [mbind res_bind].
  assert (forall k, exists l', new_connection from cv data k = Ok l') as Hn
    by (intros k; destruct (new_connection_ok from cv data k) as (x & -> & _); by eexists).
  destruct (sessions l !! from) as [id|] eqn:Es; [|apply Hn].
  destruct (li_table _ Hi _ _ Es) as [x ->].
  destruct (negb (_ =? _)); [destruct (negb _)|]; first [apply Hn|by eexists].
Qed.

(** *** A server that waits for a connection that has ended *)

(** A connection of the table whose [run] has ended, with [q] datagrams in its queue. *)
Definition finished (l : Listener) (from : string) (id : nat) (q : list (list byte)) (cv : Z) : Prop :=
  sessions l !! from = Some id /\
  exists x dg, conns l !! id = Some (from, x) /\ pc x = PEnd dg /\ chUdpInput (co x) = q /\
    GetConv (co x) = cv.

(** The server is sending to a connection that has ended and whose queue is full. *)
Definition blocked (l : Listener) (id : nat) : Prop :=
  (exists data, spc l = SDeliver id data) /\
  exists addr x dg, conns l !! id = Some (addr, x) /\ pc x = PEnd dg /\
    rxQueueLimit <= len (chUdpInput (co x)).

Lemma server_packet_deliver from data l id q cv :
  finished l from id q cv -> IKCP_OVERHEAD <= len data -> conv_of data = Some cv ->
  server_packet from data l = Ok (l<|spc := SDeliver id data|>).
Proof.
  intros (Hs & x & dg & Hx & _ & _ & Hc) Hl Hcv. unfold server_packet.
  rewrite (proj2 (Z.ltb_ge _ _)) by lia. destruct (decode_conv data Hl) as (cv' & -> & Hcv').
  rewrite Hcv in Hcv'. injection Hcv' as <-. cbn [mbind res_bind].
  rewrite Hs, Hx, Hc, Z.eqb_refl. done.
Qed.

(** One datagram more, or the server blocks. *)
Lemma flood_once l from id q cv data :
  finished l from id q cv -> spc l = SSelect -> IKCP_OVERHEAD <= len data <= udpPacketSizeLimit ->
  conv_of data = Some cv ->
  if len q <? rxQueueLimit
  then exists l', rtc lstep l l' /\ finished l' from id (q ++ [data]) cv /\ spc l' = SSelect
  else exists l', rtc lstep l l' /\ blocked l' id.
Proof.
  intros Hf Hpc Hl Hcv. pose proof (server_packet_deliver from data l id q cv Hf (proj1 Hl) Hcv) as E.
  set (l1 := l<|spc := SDeliver id data|>) in *.
  assert (lstep l l1) as S1 by (apply (l_packet from data); [done|apply Hl|exact E]).
  destruct Hf as (Hs & x & dg & Hx & Hp & Hq & Hc). subst q.
  destruct (Z.ltb_spec (len (chUdpInput (co x))) rxQueueLimit) as [Hlt|Hge].
  - set (x' := x<|co := (co x)<|chUdpInput := chUdpInput (co x) ++ [data]|>|>).
    exists (l1<|conns := <[id := (from, x')]> (conns l1)|><|spc := SSelect|>). split; [|split; [|done]].
    + eapply rtc_l; [exact S1|]. apply rtc_once, l_own, l_main, l_deliver. unfold send_data.
      change (spc l1) with (SDeliver id data). cbv beta iota.
      change (conns l1) with (conns l). rewrite Hx.
      by rewrite (proj2 (Z.ltb_lt _ _)) by done.
    + split; [done|]. exists x', dg. split; [apply lookup_insert_eq|done].
  - exists l1. split; [by apply rtc_once|]. split; [by exists data|]. by exists from, x, dg.
Qed.

Lemma flood n : forall l from id q cv data,
  finished l from id q cv -> spc l = SSelect -> IKCP_OVERHEAD <= len data <= udpPacketSizeLimit ->
  conv_of data = Some cv -> rxQueueLimit <= len q + Z.of_nat n ->
  exists l', rtc lstep l l' /\ blocked l' id.
Proof.
  induction n as [|n IH]; intros l from id q cv data Hf Hpc Hl Hcv Hn;
    pose proof (flood_once l from id q cv data Hf Hpc Hl Hcv) as H1;
    destruct (Z.ltb_spec (len q) rxQueueLimit) as [Hlt|Hge]; try exact H1; [lia|].
  destruct H1 as (l1 & S1 & Hf1 & Hpc1).
  destruct (IH l1 from id (q ++ [data]) cv data Hf1 Hpc1 Hl Hcv) as (l2 & S2 & Hb);
    [rewrite length_app; simpl; lia|].
  exists l2. split; [by etrans|done].
Qed.

Lemma blocked_step l l' id : linv l -> blocked l id -> lstep l l' -> blocked l' id.
Proof.
  intros Hi ((data & Hpc) & a & x & dg & Hx & Hp & Hq) Hs.
  destruct Hs as [from data' l l' Hpc' Hle E|? ? [? ? [l l' E|l l' E|id' rest l l' Hpc' Hd E|l Hpc' Hd|
    id' addr x0 dg' l Hx' Hp' Hg Hn|id' addr x0 dg' l Hx' Hp' Hg Hdie|
    now c r l l' Ha|r w l|l l' E]|id' addr x0 x' lb l Hx' Hlb Hst]]; try congruence.
  - unfold send_accept in E. by rewrite Hpc in E.
  - unfold send_data in E. rewrite Hpc, Hx in E. by rewrite (proj2 (Z.ltb_ge _ _)) in E by done.
  - split; [by exists data|]. by exists a, x, dg.
  - split; [by exists data|]. by exists a, x, dg.
  - unfold AcceptKCP in Ha. destruct c; [destruct (rd l) as [t|]; [destruct (t <=? now)|]| |destruct (ldie l)];
      try done; [|destruct (chAccepts l); [done|]|]; injection Ha as <- _;
      (split; [by exists data|by exists a, x, dg]).
  - split; [by exists data|]. by exists a, x, dg.
  - unfold Close in E. destruct (ldie l); [done|]. injection E as <-.
    split; [by exists data|]. by exists a, x, dg.
  - split; [by exists data|]. simpl. destruct (decide (id' = id)) as [->|Hne].
    + rewrite Hx in Hx'. injection Hx' as <- <-.
      pose proof (tstep_queue WriteTo lb x x' (treach_inv _ _ (li_reach _ Hi _ _ _ Hx)) Hst Hlb)
        as [_ (pre & Eq & Hpre) He].
      rewrite Hp in Hpre. destruct Hpre as [->|[]]. simpl in Eq.
      exists a, x', dg. rewrite lookup_insert_eq. split; [done|]. split; [by apply He|]. by rewrite <- Eq.
    + exists a, x, dg. by rewrite lookup_insert_ne.
Qed.

(** ** Properties *)

(** C26. The session table is consistent in every state of the server, whatever arrives from
    whatever address and however the threads of the connections run: an entry leads to a
    connection of that very address; every connection is in a state its own threads can
    reach, and holds only datagrams of its own conversation and of a size it can process;
    and the connections are handed to [AcceptKCP] once each, in the order they were made. *)
Theorem sessions_consistent l (Hl : lreach l) :
  (forall from id, sessions l !! from = Some id -> exists x, conns l !! id = Some (from, x)) /\
  (forall id addr x, conns l !! id = Some (addr, x) -> treach WriteTo x /\
     forall p, p ∈ chUdpInput (co x) ->
       24 <= len p <= 2048 /\ conv_of p = Some (GetConv (co x))) /\
  handed l ++ chAccepts l ++ match spc l with SAccept id _ => [id] | _ => [] end = seq 0 (next l).
Proof.
  destruct (lreach_inv l Hl) as [H1 _ H3 H4 _ H6]. split; [done|]. split; [|done].
  intros id addr x Hx. split; [by eapply H3|]. intros p Hp.
  pose proof (H4 _ _ _ Hx) as Hf. rewrite Forall_forall in Hf. exact (Hf p Hp).
Qed.

(** Where a datagram goes: nowhere if it is shorter than a header; to the connection of its
    address if the conversation is the same; nowhere if another conversation is still open
    with that address; and otherwise to a new connection, which takes the place of the old
    one in the table and nobody else's. The server never panics on one. *)
Theorem server_packet_routes from data l (Hl : lreach l) (Hpc : spc l = SSelect) :
  exists l', server_packet from data l = Ok l' /\
  if len data <? 24 then l' = l
  else exists cv, conv_of data = Some cv /\
    let makes_new := exists x, l' = l<|conns := <[next l := (from, x)]> (conns l)|>
          <|next := S (next l)|><|sessions := <[from := next l]> (sessions l)|>
          <|spc := SAccept (next l) data|> /\ conns l !! next l = None /\
          GetConv (co x) = cv /\ chUdpInput (co x) = [] in
    match sessions l !! from with
    | Some id => exists x, conns l !! id = Some (from, x) /\
        if GetConv (co x) =? cv then l' = l<|spc := SDeliver id data|>
        else if isRemoteOpen (kcp (co x)) then l' = l else makes_new
    | None => makes_new
    end.
Proof.
  pose proof (lreach_inv l Hl) as Hi. unfold server_packet. change IKCP_OVERHEAD with 24.
  destruct (Z.ltb_spec (len data) 24) as [|Hge]; [by exists l|].
  destruct (decode_conv data Hge) as (cv & -> & Ecv). cbn [mbind res_bind].
  assert (conns l !! next l = None) as Hnone.
  { destruct (conns l !! next l) eqn:Hx; [|done]. assert (next l < next l)%nat; [|lia].
    apply (li_next _ Hi). by rewrite Hx. }
  destruct (new_connection_ok from cv data l) as (x0 & E0 & _ & Hc0 & Hq0).
  destruct (sessions l !! from) as [id|] eqn:Es.
  - destruct (li_table _ Hi _ _ Es) as [x Hx]. rewrite Hx.
    destruct (GetConv (co x) =? cv) eqn:Ec; cbn [negb].
    { eexists. split; [done|]. exists cv. split; [done|]. exists x. by rewrite Ec. }
    destruct (isRemoteOpen (kcp (co x))) eqn:Er; cbn [negb].
    { eexists. split; [done|]. exists cv. split; [done|]. exists x. by rewrite Ec, Er. }
    destruct (new_connection_ok from cv data (l<|sessions := delete from (sessions l)|>))
      as (x1 & E1 & _ & Hc1 & Hq1).
    rewrite E1. eexists. split; [done|]. exists cv. split; [done|]. exists x. rewrite Ec, Er.
    split; [done|]. exists x1. split; [|done]. simpl. rewrite insert_delete_eq. by destruct l.
  - rewrite E0. eexists. split; [done|]. exists cv. split; [done|]. by exists x0.
Qed.

(** A dead connection takes only itself out of the table: the entry of a newer connection
    that has replaced it at the same address stays, as do all others, and nothing else changes. *)
Theorem server_dead_keeps_successor id l (Hl : lreach l) (Hid : (id < next l)%nat) :
  exists l', server_dead id l = Ok l' /\ conns l' = conns l /\ spc l' = spc l /\
    forall from id', sessions l' !! from = Some id' <-> sessions l !! from = Some id' /\ id' <> id.
Proof.
  pose proof (lreach_inv l Hl) as Hi. apply (li_next _ Hi) in Hid as [[a x] Hx].
  unfold server_dead. rewrite Hx.
  assert (forall from, sessions l !! from = Some id -> from = a) as Ha.
  { intros from Hs. destruct (li_table _ Hi _ _ Hs) as [y Hy]. rewrite Hx in Hy. by injection Hy as <- _. }
  destruct (sessions l !! a) as [id'|] eqn:Es.
  - destruct (Nat.eqb_spec id' id) as [->|Hne].
    + eexists. split; [done|]. split; [done|]. split; [done|]. intros from id'. simpl.
      rewrite lookup_delete_Some. split.
      * intros [Hn Hs]. split; [done|]. intros ->. apply Hn. symmetry. by apply Ha.
      * intros [Hs Hn]. split; [|done]. intros <-. by rewrite Es in Hs; injection Hs as <-.
    + eexists. split; [done|]. split; [done|]. split; [done|]. intros from id''.
      split; [|tauto]. intros Hs. split; [done|]. intros ->. pose proof (Ha _ Hs) as ->. congruence.
  - eexists. split; [done|]. split; [done|]. split; [done|]. intros from id''.
    split; [|tauto]. intros Hs. split; [done|]. intros ->. pose proof (Ha _ Hs) as ->. congruence.
Qed.

(** C33. The server can be stopped by datagrams of one peer: while a connection whose [run] has
    ended is still in the table, enough datagrams of its conversation fill its queue, which
    nobody reads any more, and make the server wait for room in it; and no step of any thread,
    of the server, of [AcceptKCP] or of [Close] ever ends that wait. *)
Theorem full_queue_blocks_server l from id q cv data (Hl : lreach l) (Hpc : spc l = SSelect)
    (Hf : finished l from id q cv) (Hd : 24 <= len data <= 2048) (Hcv : conv_of data = Some cv) :
  (exists l', rtc lstep l l' /\ blocked l' id) /\
  (forall l1 l2, lreach l1 -> blocked l1 id -> lstep l1 l2 -> blocked l2 id).
Proof.
  split; [apply (flood (Z.to_nat rxQueueLimit) l from id q cv data); try done; lia|].
  intros l1 l2 H1. apply blocked_step. by apply lreach_inv.
Qed.

(** C34. A conversation that has ended can be opened again by any of its datagrams: once the
    connection that [run] has left is out of the table, a datagram of its address and its
    conversation, an old one that the network delivers late or twice say, is taken for the
    first of a new session, whatever its command; [AcceptKCP] is given a second connection of
    the same conversation, with the old datagram in its queue. *)
Theorem ended_conversation_reopens l id rest addr x data (Hl : lreach l) (Hpc : spc l = SSelect)
    (Hd : chDeadConns l = id :: rest) (Hx : conns l !! id = Some (addr, x))
    (Hs : sessions l !! addr = Some id) (Hroom : len (chAccepts l) < chanLimit)
    (Hle : 24 <= len data <= 2048) (Hcv : conv_of data = Some (GetConv (co x))) :
  exists l' y, rtc lstep l l' /\ id <> next l /\
    conns l' !! id = Some (addr, x) /\ conns l' !! next l = Some (addr, y) /\
    GetConv (co y) = GetConv (co x) /\ chUdpInput (co y) = [data] /\
    chAccepts l' = chAccepts l ++ [next l].
Proof.
  pose proof (lreach_inv l Hl) as Hi.
  assert (id < next l)%nat as Hid by (apply (li_next _ Hi); by rewrite Hx).
  set (l1 := l<|chDeadConns := rest|><|sessions := delete addr (sessions l)|>).
  assert (lstep l l1) as S1.
  { apply l_own, l_main, (l_dead id rest); [done|done|]. unfold server_dead.
    change (conns (l<|chDeadConns := rest|>)) with (conns l). rewrite Hx.
    change (sessions (l<|chDeadConns := rest|>)) with (sessions l). by rewrite Hs, Nat.eqb_refl. }
  destruct (new_connection_ok addr (GetConv (co x)) data l1) as (y & E & _ & Hcy & Hqy).
  set (l2 := l1<|conns := _|><|next := _|><|sessions := _|><|spc := _|>) in E.
  assert (lstep l1 l2) as S2.
  { apply (l_packet addr data); [done|apply Hle|]. unfold server_packet.
    rewrite (proj2 (Z.ltb_ge _ _)) by apply Hle.
    destruct (decode_conv data) as (cv & -> & Ecv); [apply Hle|]. rewrite Hcv in Ecv. injection Ecv as <-.
    cbn [mbind res_bind]. change (sessions l1) with (delete addr (sessions l)). by rewrite lookup_delete_eq. }
  set (l3 := l2<|chAccepts := chAccepts l ++ [next l]|><|spc := SDeliver (next l) data|>).
  assert (lstep l2 l3) as S3.
  { apply l_own, l_main, l_accept. unfold send_accept. cbn [spc l2].
    by rewrite (proj2 (Z.ltb_lt _ _)) by exact Hroom. }
  set (y' := y<|co := (co y)<|chUdpInput := chUdpInput (co y) ++ [data]|>|>).
  assert (lstep l3 (l3<|conns := <[next l := (addr, y')]> (conns l3)|><|spc := SSelect|>)) as S4.
  { apply l_own, l_main, l_deliver. unfold send_data. change (spc l3) with (SDeliver (next l) data). cbv beta iota.
    change (conns l3) with (<[next l := (addr, y)]> (conns l)). rewrite lookup_insert_eq.
    rewrite (proj2 (Z.ltb_lt _ _)) by (rewrite Hqy; vm_compute; reflexivity). reflexivity. }
  eexists _, y'. split; [by eapply rtc_l, rtc_l, rtc_l, rtc_once|]. split; [lia|]. simpl.
  split; [by rewrite !lookup_insert_ne by lia|]. split; [apply lookup_insert_eq|].
  split; [exact Hcy|]. split; [by rewrite Hqy|done].
Qed.
End Listener.

(** *** Witnesses *)

Section Witnesses.
#[local] Existing Instance zero_pool.
#[local] Abbreviation Listener := (Listener (Q := Buffer) (Sock := list (list byte))).
#[local] Abbreviation threads := (threads (Q := Buffer) (Sock := list (list byte))).
Implicit Types (l : Listener) (x : threads).

(** One step of the server and of the first connection, computed. *)
Definition go_packet (from : string) (data : list byte) l : Listener :=
  match server_packet from data l with Ok l' => l' | _ => l end.
Definition go_send (f : Listener -> option Listener) l : Listener :=
  match f l with Some l' => l' | None => l end.
Definition go_thread (f : threads -> threads) l : Listener :=
  match conns l !! 0%nat with
  | Some (a, x) => l<|conns := <[0%nat := (a, f x)]> (conns l)|>
  | None => l
  end.

Definition go_to_close x : threads :=
  match pc x with PClosing => go_closing x | _ => x end.
Definition go_close (now : Z) x : threads :=
  match pc x with
  | PClose start dg => match close_head demo_write now now start dg (co x) with
                       | Ok (s, p, _) => x<|co := s|><|pc := p|> | _ => x end
  | _ => x
  end.

Lemma go_to_close_run : run_step go_to_close.
Proof.
  intros x. unfold go_to_close. destruct (pc x) eqn:Ep; try by left.
  unfold go_closing. destruct (run_closing demo_write 0 (co x)) as [[s tr]| |] eqn:E; [|by left..].
  right. by eapply (t_closing _ 0 0 x s tr).
Qed.

Lemma go_close_run now : run_step (go_close now).
Proof.
  intros x. unfold go_close. destruct (pc x) eqn:Ep; try by left.
  destruct (close_head demo_write now now start dangling (co x)) as [[[s p] tr]| |] eqn:E; [|by left..].
  right. by eapply (t_close _ now now start dangling x).
Qed.

Lemma go_packet_reach from data l :
  lreach demo_write l -> spc l = SSelect -> len data <= 2048 -> lreach demo_write (go_packet from data l).
Proof.
  intros Hl Hp Hd. unfold go_packet. destruct (server_packet from data l) as [l'| |] eqn:E; [|done..].
  eapply lr_step; [exact Hl|]. by eapply (l_packet _ from data).
Qed.

Lemma go_accept_reach l : lreach demo_write l -> lreach demo_write (go_send send_accept l).
Proof.
  intros Hl. unfold go_send. destruct (send_accept l) as [l'|] eqn:E; [|done].
  eapply lr_step; [exact Hl|]. by apply l_own, l_main, l_accept.
Qed.

Lemma go_deliver_reach l : lreach demo_write l -> lreach demo_write (go_send send_data l).
Proof.
  intros Hl. unfold go_send. destruct (send_data l) as [l'|] eqn:E; [|done].
  eapply lr_step; [exact Hl|]. by apply l_own, l_main, l_deliver.
Qed.

Lemma go_thread_reach f l : run_step f -> lreach demo_write l -> lreach demo_write (go_thread f l).
Proof.
  intros Hf Hl. unfold go_thread. destruct (conns l !! 0%nat) as [[a x]|] eqn:Hx; [|done].
  destruct (Hf x) as [E|Hs].
  - rewrite E, insert_id by done. by destruct l.
  - eapply lr_step; [exact Hl|]. by apply l_own, (l_thread _ 0 a x (f x) LRun).
Qed.

(** A peer's first datagram ends the stream, and the connection it has opened runs to its end. *)
Definition demo_served : Listener :=
  go_send send_data (go_send send_accept
    (go_packet "peer" (demo_pkt IKCP_CMD_PUSH 0 []) (ServeConn []))).
Definition demo_finished : Listener :=
  go_thread (go_close 6000000000) (go_thread go_to_close (go_thread (go_main 0)
    (go_thread go_take (go_thread (go_main 0) demo_served)))).

Lemma demo_served_reach : lreach demo_write demo_served.
Proof.
  apply go_deliver_reach, go_accept_reach, go_packet_reach;
    [apply lr_start|reflexivity|vm_compute; discriminate].
Qed.

Lemma demo_finished_reach : lreach demo_write demo_finished.
Proof.
  apply go_thread_reach; [apply go_close_run|]. apply go_thread_reach; [apply go_to_close_run|].
  apply go_thread_reach; [apply go_main_run|]. apply go_thread_reach; [apply go_take_run|].
  apply go_thread_reach; [apply go_main_run|]. apply demo_served_reach.
Qed.

(** The connection that has ended is out of [run], and waits to be taken out of the table. *)
Definition demo_left : Listener :=
  demo_finished<|chDeadConns := chDeadConns demo_finished ++ [0%nat]|><|gone := {[0%nat]} ∪ gone demo_finished|>.

Lemma left_conns l dead g : conns (l<|chDeadConns := dead|><|gone := g|>) = conns l.
Proof. done. Qed.

Lemma demo_finished_conn : exists x, conns demo_finished !! 0%nat = Some ("peer"%string, x) /\
  pc x = PEnd false /\ chUdpInput (co x) = [] /\ GetConv (co x) = 7.
Proof.
  destruct (conns demo_finished !! 0%nat) as [[a x]|] eqn:Hx;
    [|exfalso; revert Hx; vm_compute; discriminate].
  assert ((fmap (fun r => (r.1, pc r.2, chUdpInput (co r.2), GetConv (co r.2)))
    (conns demo_finished !! 0%nat)) = Some ("peer"%string, PEnd false, [], 7)) as E
    by (vm_compute; reflexivity).
  rewrite Hx in E. simpl in E. injection E as E1 E2 E3 E4. subst a.
  exists x. split; [reflexivity|]. split; [exact E2|]. split; [exact E3|exact E4].
Qed.

Lemma demo_left_reach : lreach demo_write demo_left.
Proof.
  destruct demo_finished_conn as (x & Hx & Hp & _). eapply lr_step; [exact demo_finished_reach|].
  eapply l_own, l_main, l_end; [exact Hx|exact Hp| |vm_compute; reflexivity].
  assert (gone demo_finished = ∅) as -> by (vm_compute; reflexivity). apply not_elem_of_empty.
Qed.

Lemma sessions_consistent_witness :
  sessions demo_served !! "peer"%string = Some 0%nat /\
  exists x, conns demo_served !! 0%nat = Some ("peer"%string, x) /\ treach demo_write x /\
    chAccepts demo_served = [0%nat].
Proof.
  assert (sessions demo_served !! "peer"%string = Some 0%nat) as Hs by (vm_compute; reflexivity).
  split; [exact Hs|].
  destruct (sessions_consistent demo_write demo_served demo_served_reach) as (H1 & H2 & _).
  destruct (H1 _ _ Hs) as [x Hx]. exists x. split; [exact Hx|]. split; [apply (H2 _ _ _ Hx)|].
  vm_compute. reflexivity.
Defined.

Lemma server_packet_routes_witness :
  exists l', server_packet "other" (demo_pkt IKCP_CMD_CONNECT 0 []) demo_served = Ok l' /\
    sessions l' !! "other"%string = Some 1%nat.
Proof.
  assert (spc demo_served = SSelect) as Hp by (vm_compute; reflexivity).
  destruct (server_packet_routes demo_write "other" (demo_pkt IKCP_CMD_CONNECT 0 []) demo_served
    demo_served_reach Hp) as (l' & E & Hr).
  exists l'. split; [exact E|].
  change (len (demo_pkt IKCP_CMD_CONNECT 0 [])) with 24 in Hr. cbn [Z.ltb Z.compare] in Hr.
  destruct Hr as (cv & _ & Hr).
  assert (sessions demo_served !! "other"%string = None) as Hn by (vm_compute; reflexivity).
  rewrite Hn in Hr. destruct Hr as (x & -> & _).
  assert (next demo_served = 1%nat) as -> by (vm_compute; reflexivity). apply lookup_insert_eq.
Defined.

Lemma server_dead_keeps_successor_witness :
  exists l', server_dead 0 demo_served = Ok l' /\ sessions l' !! "peer"%string = None.
Proof.
  assert (0 < next demo_served)%nat as Hn by (apply Nat.ltb_lt; vm_compute; reflexivity).
  destruct (server_dead_keeps_successor demo_write 0 demo_served demo_served_reach Hn)
    as (l' & E & _ & _ & Hs).
  exists l'. split; [exact E|].
  destruct (sessions l' !! "peer"%string) as [id|] eqn:El; [|reflexivity].
  apply Hs in El as [El Hne].
  assert (sessions demo_served !! "peer"%string = Some 0%nat) as E0 by (vm_compute; reflexivity).
  rewrite E0 in El. injection El as <-. by destruct Hne.
Defined.

Lemma full_queue_blocks_server_witness :
  exists l', rtc (lstep demo_write) demo_finished l' /\ blocked l' 0.
Proof.
  assert (spc demo_finished = SSelect) as Hp by (vm_compute; reflexivity).
  assert (finished demo_finished "peer" 0 [] 7) as Hf.
  { split; [vm_compute; reflexivity|]. destruct demo_finished_conn as (x & H). exists x, false. exact H. }
  assert (24 <= len (demo_pkt IKCP_CMD_PUSH 1 []) <= 2048) as Hd by (vm_compute; split; discriminate).
  assert (conv_of (demo_pkt IKCP_CMD_PUSH 1 []) = Some 7) as Hc by (vm_compute; reflexivity).
  destruct (full_queue_blocks_server demo_write demo_finished "peer" 0 [] 7 _ demo_finished_reach Hp Hf Hd Hc)
    as [H _].
  exact H.
Defined.

Lemma ended_conversation_reopens_witness :
  exists l' y, rtc (lstep demo_write) demo_left l' /\
    conns l' !! 1%nat = Some ("peer"%string, y) /\ GetConv (co y) = 7 /\ chAccepts l' = [0%nat; 1%nat].
Proof.
  assert (exists x, conns demo_left !! 0%nat = Some ("peer"%string, x) /\ GetConv (co x) = 7)
    as (x & Hx & Hc)
    by (unfold demo_left; rewrite left_conns; destruct demo_finished_conn as (x & Hx & _ & _ & Hc);
        exists x; split; [exact Hx|exact Hc]).
  assert (spc demo_left = SSelect) as Hp by (vm_compute; reflexivity).
  assert (chDeadConns demo_left = [0%nat]) as Hd by (vm_compute; reflexivity).
  assert (sessions demo_left !! "peer"%string = Some 0%nat) as Hs by (vm_compute; reflexivity).
  assert (len (chAccepts demo_left) < chanLimit) as Hr by (vm_compute; reflexivity).
  assert (24 <= len (demo_pkt IKCP_CMD_PUSH 0 []) <= 2048) as Hl by (vm_compute; split; discriminate).
  assert (conv_of (demo_pkt IKCP_CMD_PUSH 0 []) = Some (GetConv (co x))) as Hcv
    by (rewrite Hc; vm_compute; reflexivity).
  destruct (ended_conversation_reopens demo_write demo_left 0 [] "peer" x _ demo_left_reach Hp Hd Hx Hs Hr Hl Hcv)
    as (l' & y & R & _ & _ & Hy & Ey & _ & Ea).
  exists l', y. split; [exact R|].
  assert (next demo_left = 1%nat) as En by (vm_compute; reflexivity).
  assert (chAccepts demo_left = [0%nat]) as Ec by (vm_compute; reflexivity).
  rewrite En in Hy, Ea. rewrite Ec in Ea. split; [exact Hy|]. split; [by rewrite Ey|exact Ea].
Defined.
End Witnesses.
