(* ===== verification/Server.v ===== *)
(** * The server and the goroutine that reads its socket ([kcpconn.go], [Listener.server])

    [server] starts a goroutine that reads the socket and hands the datagrams over in the
    channel [chPacket], which it closes when a read fails. Here the two run side by side; the
    loop of [server] is that of [Listener.v], which lets any datagram arrive at any time. *)
From S2P Require Import Prelude GoInt Stats Wire Kcp Serial Send Recv Ack Input Flush Flushed Timer Session Buffer Conn Calls Threads Listener.

(** ** Definitions *)

(** The type [packet]. *)
Record packet := mkPacket { pfrom : string; pdata : list byte }.

(** Where the goroutine stands: in [ReadFrom], about to send a packet to [chPacket], past its
    end. The channel is closed exactly in the last case. *)
Inductive readpc := RRead | RSend (p : packet) | RDone.

Section Server.
Context `{BufPool} {Q : Type} `{ByteQueue Q} {Sock : Type} (WriteTo : Sock -> list byte -> Sock * bool).

Record server := mkServer {
  ln : Listener (Q := Q) (Sock := Sock);
  chPacket : list packet;
  rpc : readpc;
  counters : KcpGlobalStats;
}.
#[global] Instance eta_server : Eta server := fun s =>
  mkServer (ln s) (chPacket s) (rpc s) (counters s).

(** [go l.server()], right after [ServeConn]. *)
Definition serve (c : Sock) : server := mkServer (ServeConn c) [] RRead Stats0.

(** [ReadFrom] returns a packet, or an error. *)
Definition read_packet (r : option packet) (s : server) : option server :=
  match rpc s with
  | RRead => Some match r with
                  | Some p => s<|rpc := RSend p|>
                  | None => s<|counters := add_int64 CErrorRead 1 (counters s)|><|rpc := RDone|>
                  end
  | _ => None
  end.

(** [chPacket <- p]: waits while the channel is full. *)
Definition send_packet (s : server) : option server :=
  match rpc s with
  | RSend p => if len (chPacket s) <? rxQueueLimit
               then Some (s<|chPacket := chPacket s ++ [p]|><|rpc := RRead|>) else None
  | _ => None
  end.

(** [p := <-chPacket]: the next packet, or the zero value when the channel is closed and empty.
    The address of the zero value is [nil] and is not looked at since it has no data. *)
Definition recv_packet (s : server) : option (packet * server) :=
  match chPacket s with
  | p :: rest => Some (p, s<|chPacket := rest|>)
  | [] => match rpc s with RDone => Some (mkPacket "" [], s) | _ => None end
  end.

(** The case of [chPacket] in the [select] of [server]; [None] while it is not ready. *)
Definition packet_case (s : server) : res (option server) :=
  match spc (ln s) with
  | SSelect => match recv_packet s with
               | Some (p, s) => l ← server_packet (pfrom p) (pdata p) (ln s); Ok (Some (s<|ln := l|>))
               | None => Ok None
               end
  | _ => Ok None
  end.

Inductive sstep : server -> server -> Prop :=
  | s_read r s s' :
      (if r is Some p then len (pdata p) <= udpPacketSizeLimit else True) ->
      read_packet r s = Some s' -> sstep s s'
  | s_send s s' : send_packet s = Some s' -> sstep s s'
  | s_packet s s' : packet_case s = Ok (Some s') -> sstep s s'
  | s_own s l : lown WriteTo (ln s) l -> sstep s (s<|ln := l|>).

Inductive sreach : server -> Prop :=
  | sr_start c : sreach (serve c)
  | sr_step s s' : sreach s -> sstep s s' -> sreach s'.

(** ** Invariant *)

Definition fits_pool (p : packet) : Prop := len (pdata p) <= udpPacketSizeLimit.

Record sinv (s : server) : Prop := {
  sv_reach : lreach WriteTo (ln s);
  sv_sizes : Forall fits_pool (chPacket s);
  sv_pending : if rpc s is RSend p then fits_pool p else True;
  sv_room : len (chPacket s) <= rxQueueLimit;
}.

(** ** Lemmas *)

Lemma recv_packet_ok s p s' :
  sinv s -> recv_packet s = Some (p, s') ->
  fits_pool p /\ sinv s' /\ ln s' = ln s /\ rpc s' = rpc s /\
  (chPacket s = p :: chPacket s' \/ chPacket s = [] /\ rpc s = RDone /\ s' = s /\ pdata p = []).
Proof.
  intros [H1 H2 H3 H4] E. unfold recv_packet in E.
  destruct (chPacket s) as [|p0 rest] eqn:Eq.
  - destruct (rpc s) eqn:Er; try done. injection E as <- <-.
    split; [done|]. split; [by split; rewrite ?Eq, ?Er|]. split; [done|]. split; [done|]. by right.
  - injection E as <- <-. rewrite ?Eq in H2, H4. apply Forall_cons in H2 as [Hp H2]. split; [done|].
    split; [split; simpl in *; try done; lia|].
    split; [done|]. split; [done|]. by left.
Qed.

(** The case never panics, and what it does is a step of the listener. *)
Lemma packet_case_ok s :
  sinv s ->
  (packet_case s = Ok None /\ (spc (ln s) <> SSelect \/ chPacket s = [] /\ rpc s <> RDone)) \/
  (exists p s1 l, spc (ln s) = SSelect /\ recv_packet s = Some (p, s1) /\
    server_packet (pfrom p) (pdata p) (ln s) = Ok l /\ lstep WriteTo (ln s) l /\
    packet_case s = Ok (Some (s1<|ln := l|>))).
Proof.
  intros Hi. unfold packet_case.
  destruct (spc (ln s)) eqn:Epc; try (left; split; [done|by left]).
  destruct (recv_packet s) as [[p s1]|] eqn:E.
  - right. destruct (recv_packet_ok s p s1 Hi E) as (Hp & _ & Eln & _).
    destruct (server_packet_total WriteTo (pfrom p) (pdata p) (ln s) (sv_reach _ Hi)) as [l El].
    exists p, s1, l. rewrite Eln, El. split_and!; try done. by apply (l_packet _ (pfrom p) (pdata p)).
  - left. split; [done|]. right. unfold recv_packet in E. destruct (chPacket s); [|done].
    split; [done|]. intros Er. by rewrite Er in E.
Qed.

Lemma sinv_step s s' : sinv s -> sstep s s' -> sinv s'.
Proof.
  intros Hi Hs. pose proof Hi as [H1 H2 H3 H4]. destruct Hs as [r s s' Hr E|s s' E|s s' E|s l Hl].
  - unfold read_packet in E. destruct (rpc s); try done. injection E as <-.
    destruct r as [p|]; by split.
  - unfold send_packet in E. destruct (rpc s) as [|p|] eqn:Er; try done.
    destruct (Z.ltb_spec (len (chPacket s)) rxQueueLimit); [|done]. injection E as <-.
    split; simpl; try done.
    + apply Forall_app. split; [done|]. by constructor.
    + rewrite length_app. simpl. lia.
  - destruct (packet_case_ok s Hi) as [[E0 _]|(p & s1 & l & _ & Er & _ & Hl & E0)]; rewrite E0 in E; [done|].
    injection E as <-. destruct (recv_packet_ok _ _ _ Hi Er) as (_ & [K1 K2 K3 K4] & _).
    split; try done. exact (lr_step _ _ _ H1 Hl).
  - split; try done. simpl. eapply lr_step; [done|]. by apply l_own.
Qed.

Lemma sreach_inv s : sreach s -> sinv s.
Proof.
  induction 1 as [c|s s' _ IH Hs]; [|by eapply sinv_step].
  split; simpl; try done. apply lr_start.
Qed.

(** *** After a read error *)

(** No connection is made but for a packet. *)
Lemma lown_next l l' : lown WriteTo l l' -> next l' = next l.
Proof.
  intros [l0 l1 Hm|id addr x x' lb l0 _ _ _]; [|done]. by destruct (lmain_conns l0 l1 Hm).
Qed.

(** An empty packet is dropped at once. *)
Lemma empty_packet from (l : Listener (Q := Q) (Sock := Sock)) : server_packet from [] l = Ok l.
Proof. done. Qed.

Lemma closed_step s s' :
  sinv s -> rpc s = RDone -> sstep s s' ->
  rpc s' = RDone /\ chPacket s' `suffix_of` chPacket s /\
  (chPacket s = [] -> next (ln s') = next (ln s)).
Proof.
  intros Hi Hd Hs. destruct Hs as [r s s' Hr E|s s' E|s s' E|s l Hl].
  - unfold read_packet in E. by rewrite Hd in E.
  - unfold send_packet in E. by rewrite Hd in E.
  - destruct (packet_case_ok s Hi) as [[E0 _]|(p & s1 & l & _ & Er & Ep & _ & E0)]; rewrite E0 in E; [done|].
    injection E as <-. destruct (recv_packet_ok _ _ _ Hi Er) as (_ & _ & _ & Epc & Hq). simpl.
    split; [congruence|]. destruct Hq as [->|(Hn & _ & -> & Hz)].
    + split; [by exists [p]|done].
    + split; [done|]. intros _. rewrite Hz, empty_packet in Ep. by injection Ep as <-.
  - split; [done|]. split; [done|]. intros _. by apply lown_next.
Qed.

(** ** Properties *)

(** The server with its reader is the listener of [Listener.v]: every state the two reach
    has a listener that receiving arbitrary datagrams reaches, every step is one of the
    listener or leaves it alone; and the case of [chPacket] never panics and is ready when
    the [select] is reached and a packet is there. *)
Theorem server_implements s (Hs : sreach s) :
  lreach WriteTo (ln s) /\ len (chPacket s) <= rxQueueLimit /\
  (forall s', sstep s s' -> ln s' = ln s \/ lstep WriteTo (ln s) (ln s')) /\
  exists o, packet_case s = Ok o /\
    (is_Some o <-> spc (ln s) = SSelect /\ (chPacket s <> [] \/ rpc s = RDone)).
Proof.
  pose proof (sreach_inv s Hs) as Hi. pose proof Hi as [H1 _ _ H4]. split; [done|]. split; [done|]. split.
  - intros s' Hst. destruct Hst as [r s s' Hr E|s s' E|s s' E|s l Hl].
    + left. unfold read_packet in E. destruct (rpc s); try done. injection E as <-. by destruct r.
    + left. unfold send_packet in E. destruct (rpc s); try done. destruct (_ <? _); [|done]. by injection E as <-.
    + right. destruct (packet_case_ok s Hi) as [[E0 _]|(p & s1 & l & _ & _ & _ & Hl & E0)];
        rewrite E0 in E; [done|]. by injection E as <-.
    + right. by apply l_own.
  - destruct (packet_case_ok s Hi) as [[-> Hn]|(p & s1 & l & Hpc & Er & _ & _ & ->)]; eexists; (split; [done|]).
    + split; [by intros [? ?]|]. intros [? [?|?]]; destruct Hn as [?|[? ?]]; done.
    + split; [|by eexists]. intros _. split; [done|].
      destruct (recv_packet_ok _ _ _ Hi Er) as (_ & _ & _ & _ & [->|(_ & ? & _)]); [by left|by right].
Qed.

(** After a read error the server accepts what is still in [chPacket] and then nothing more:
    no later step starts the reader again or makes a connection once the channel is empty; and
    whenever the [select] is reached then, the case of [chPacket] is ready and changes
    nothing: the loop spins. *)
Theorem read_error_spins s s' (Hs : sreach s) (Hd : rpc s = RDone) (Hr : rtc sstep s s') :
  rpc s' = RDone /\ chPacket s' `suffix_of` chPacket s /\
  (chPacket s = [] -> next (ln s') = next (ln s)) /\
  (chPacket s' = [] -> spc (ln s') = SSelect -> packet_case s' = Ok (Some s') /\ sstep s' s').
Proof.
  assert (sreach s' /\ rpc s' = RDone /\ chPacket s' `suffix_of` chPacket s /\
    (chPacket s = [] -> next (ln s') = next (ln s))) as (Hs' & Hd' & Hq & Hn).
  { induction Hr as [s|s s1 s2 H1 _ IH]; [done|].
    destruct (closed_step s s1 (sreach_inv _ Hs) Hd H1) as (D1 & Q1 & N1).
    destruct IH as (R2 & D2 & Q2 & N2); [by eapply sr_step|done|]. split; [done|]. split; [done|].
    split; [by etrans|]. intros E. rewrite E in Q1. apply suffix_nil_inv in Q1. rewrite N2, N1; done. }
  split; [done|]. split; [done|]. split; [done|]. intros E Hpc.
  assert (packet_case s' = Ok (Some s')) as Ec.
  { unfold packet_case, recv_packet. rewrite Hpc, E, Hd'. cbn [pfrom pdata].
    rewrite empty_packet. cbn [mbind res_bind]. by destruct s'. }
  split; [done|]. by apply s_packet.
Qed.
End Server.

(** *** Witnesses *)

Section Witnesses.
#[local] Existing Instance zero_pool.
#[local] Abbreviation server := (server (Q := Buffer) (Sock := list (list byte))).

Definition go_server (f : server -> option server) (s : server) : server := default s (f s).

(** A packet arrives and is in the channel; after it a read fails. *)
Definition demo_received : server :=
  go_server send_packet (go_server
    (read_packet (Some (mkPacket "peer" (demo_pkt IKCP_CMD_CONNECT 0 [])))) (serve [])).
Definition demo_deaf : server := go_server (read_packet None) (serve []).

Lemma demo_received_reach : sreach demo_write demo_received.
Proof.
  eapply sr_step; [eapply sr_step; [apply sr_start|]|].
  - eapply (s_read _ (Some (mkPacket "peer" (demo_pkt IKCP_CMD_CONNECT 0 [])))); [apply Z.leb_le; vm_compute; reflexivity|reflexivity].
  - apply s_send. vm_compute. reflexivity.
Qed.

Lemma demo_deaf_reach : sreach demo_write demo_deaf.
Proof. eapply sr_step; [apply sr_start|]. by eapply (s_read _ None). Qed.

Lemma server_implements_witness :
  lreach demo_write (ln demo_received) /\ exists s', packet_case demo_received = Ok (Some s').
Proof.
  destruct (server_implements demo_write demo_received demo_received_reach) as (H1 & _ & _ & o & E & Ho).
  split; [exact H1|]. assert (is_Some o) as [s' ->]; [|by exists s'].
  apply Ho. split; [vm_compute; reflexivity|]. left. vm_compute. discriminate.
Defined.

Lemma read_error_spins_witness :
  packet_case demo_deaf = Ok (Some demo_deaf) /\ sstep demo_write demo_deaf demo_deaf.
Proof.
  assert (rpc demo_deaf = RDone) as Hd by reflexivity.
  destruct (read_error_spins demo_write demo_deaf demo_deaf demo_deaf_reach Hd (rtc_refl _ _))
    as (_ & _ & _ & H). apply H; reflexivity.
Defined.
End Witnesses.
