(* ===== verification/Served.v ===== *)
(** * A server and its clients ([kcpconn.go])

    The guarantee of [Deliver.v] for the whole program: a server with all its threads, and any
    number of clients. Every datagram carries the conversation number of its sender
    ([flush_conv]); the server hands each to the connection of its address and conversation or
    makes one for it ([server_packet_routed]); a thread of a connection makes calls
    ([tstep_explained]). So each client and the connection of its conversation are the two ends of
    a network of [Deliver.v] ([paired]), to which all that the others send is foreign. *)
From S2P Require Import Prelude GoInt Stats Wire Kcp Serial Send Recv Ack Input Flush Flushed Timer Session Protocol Buffer Conn Calls Deliver Threads Listener.

(** ** Lemmas: every datagram carries the conversation number of its sender *)

Definition own_conv (k : KCP) : Prop := Forall (fun s => seg_conv s = conv k) (snd_buf k).

(** The first field of the datagram is [cv]. *)
Definition of_conv (cv : Z) (pkt : list byte) : Prop := exists rest, ikcp_decode32u pkt = Ok (cv, rest).

Section Origin.
Context `{BufPool}.

Lemma own_conv_sub k k' :
  own_conv k -> conv k' = conv k -> (forall s, s ∈ snd_buf k' -> s ∈ snd_buf k) -> own_conv k'.
Proof.
  unfold own_conv. rewrite !Forall_forall. intros Ho -> Hs s Hin. by apply Ho, Hs.
Qed.

Lemma own_conv_same k k' : own_conv k -> conv k' = conv k -> snd_buf k' = snd_buf k -> own_conv k'.
Proof. intros Ho Hc Hb. eapply own_conv_sub; [done|done|]. by rewrite Hb. Qed.

Lemma control_conv t k s : s ∈ control_segments t k -> seg_conv s = conv k.
Proof.
  destruct (probe_header_fields k) as (_ & _ & _ & Hp).
  unfold control_segments, probe_segments. rewrite !elem_of_app. intros [Hs|[Hs|Hs]].
  - pose proof (ack_segments_header (rcv_nxt k) (acklist k) (flush_header k)) as Hh.
    rewrite Forall_forall in Hh. by destruct (Hh s Hs) as (_ & _ & -> & _).
  - destruct (negb _); [|by apply elem_of_nil in Hs]. by apply list_elem_of_singleton in Hs as ->.
  - destruct (negb _); [|by apply elem_of_nil in Hs]. by apply list_elem_of_singleton in Hs as ->.
Qed.

Lemma fates_conv t k s :
  own_conv k -> s ∈ map fst (flush_fates t k) -> seg_conv s = conv k.
Proof.
  intros Ho Hs. apply (list_elem_of_fmap_2 sig) in Hs.
  assert (sig s ∈ map sig (snd_buf (admitted t k))) as (s0 & E & Hs0)%list_elem_of_fmap
    by (rewrite <- flush_fates_sig; exact Hs).
  assert (seg_conv s = seg_conv s0) as -> by (unfold sig in E; congruence).
  change (s0 ∈ snd_buf k ++ admit_segments k (u32 (wnd_unused k)) t (snd_nxt k)
    (take (admitted_count k) (snd_queue k))) in Hs0.
  apply elem_of_app in Hs0 as [Hs0|Hs0].
  - unfold own_conv in Ho. rewrite Forall_forall in Ho. by apply Ho.
  - revert Hs0. generalize (snd_nxt k), (take (admitted_count k) (snd_queue k)). intros nxt q.
    revert nxt. induction q as [|x q IH]; intros nxt; simpl; [by intros ?%elem_of_nil|].
    intros [->|Hin]%elem_of_cons; [done|by eapply IH].
Qed.

Lemma stream_conv s g : of_conv (u32 (seg_conv s)) (seg_stream (s :: g)).
Proof.
  eexists. change (seg_stream (s :: g)) with ((header_bytes s ++ seg_data s) ++ seg_stream g).
  rewrite <- app_assoc. apply decode_conv_wire.
Qed.

Lemma flush_conv k t k' tr :
  wf k -> own_conv k -> flush k t = Ok (k', tr) ->
  conv k' = conv k /\ own_conv k' /\ (is_u32 (conv k) -> Forall (of_conv (conv k)) (packets_of tr)).
Proof.
  intros Hw Ho E. destruct (wf_flush k t Hw) as (x & st & b & tr' & gs & E' & _ & Hp & Hg & Hf).
  rewrite E in E'. injection E' as -> ->.
  pose proof (flushed_settings t k x st b) as Hset. apply settings_eq in Hset as (Hc & _).
  destruct (flushed_snd_side t k x st b) as (_ & _ & _ & Hb).
  split; [done|]. split.
  - unfold own_conv. rewrite Hb, Hc. apply Forall_forall. intros s. by apply fates_conv.
  - intros Hu. rewrite Hp. apply Forall_fmap, Forall_forall. intros g Hin.
    rewrite Forall_forall in Hf. destruct (Hf g Hin) as [Hne _].
    destruct g as [|s g]; [done|]. assert (seg_conv s = conv k) as Hs.
    { assert (s ∈ concat gs) as Hsg by (eapply elem_of_concat; [exact Hin|by left]).
      rewrite Hg in Hsg. apply elem_of_app in Hsg as [Hsg|Hsg]; [by eapply control_conv|].
      unfold sent_segments in Hsg. apply list_elem_of_omap in Hsg as ([s1 kind] & H1 & H2).
      simpl in H2. destruct (needsend kind); [|done]. injection H2 as <-.
      eapply fates_conv; [done|]. exact (list_elem_of_fmap_2 fst _ _ H1). }
    rewrite <- Hs, <- (u32_id (seg_conv s)) by by rewrite Hs. apply stream_conv.
Qed.

Lemma input_cwnd_stats una k k' : input_cwnd una k = Ok k' -> stats k' = stats k.
Proof.
  unfold input_cwnd. destruct (_ && _); [|by intros [= <-]]. intros E.
  apply bind_Ok_inv in E as (k1 & E1 & E). assert (stats k1 = stats k) as <-.
  { destruct (_ <? _); [by injection E1 as <-|]. destruct (incr k <? _);
      apply bind_Ok_inv in E1 as (u & _ & E1); destruct (_ <=? _); by injection E1 as <-. }
  by destruct (cwnd k1 >? _); injection E as <-.
Qed.

Lemma input_keeps_conv k t pkt upd k' code :
  wf k -> own_conv k -> len pkt <= 2048 -> input k t pkt upd = Ok (k', code) ->
  conv k' = conv k /\ own_conv k'.
Proof.
  intros Hw Ho Hl E.
  assert ((conv k' = conv k /\ own_conv k') /\ snd_inv k' /\ has_stats k') as [? _]; [|done].
  revert E. apply (input_ind (fun x => (conv x = conv k /\ own_conv x) /\ snd_inv x /\ has_stats x)); [..|done].
  - intros x a h d x' r [[Hc Hx] [Hi Hst]] Hh Hcv Hk Hd Hle E.
    destruct Hh as (_ & _ & _ & _ & _ & Hsn & _).
    destruct (input_segment_ok x a h d Hst Hd Hle Hk) as (x2 & a2 & E2 & Hset & Hst2).
    rewrite E in E2. injection E2 as <- _. apply settings_eq in Hset as (Hc2 & _).
    destruct (input_segment_rest _ _ _ _ _ _ Hd Hle Hi Hsn E) as (_ & _ & _ & Hb).
    destruct (input_ack_part_rest x h) as (_ & _ & _ & Hb0).
    split; [split; [congruence|]|split; [by eapply input_segment_snd_inv|done]].
    eapply own_conv_sub; [exact Hx|done|]. intros s. rewrite Hb, Hb0.
    destruct (_ =? _); [intros [_ Hin]%list_elem_of_filter|intros Hin]; by eapply elem_of_drop.
  - intros x sn [[Hc Hx] [Hi Hst]]. unfold parse_fastack. destruct (_ || _) eqn:Eb; [by split_and!|].
    split; [split; [done|]|split; [|done]].
    + unfold own_conv in *. simpl. rewrite Forall_forall in Hx |- *. intros s Hs.
      apply (list_elem_of_fmap_2 sig) in Hs.
      change (sig s ∈ map sig (bump_fastack (snd_buf x) sn)) in Hs. rewrite bump_fastack_sig in Hs.
      apply list_elem_of_fmap in Hs as (s0 & E0 & Hs0). unfold sig in E0.
      assert (seg_conv s = seg_conv s0) as -> by congruence. by apply Hx.
    + pose proof (parse_fastack_inv sn x Hi) as Hi'. unfold parse_fastack in Hi'. by rewrite Eb in Hi'.
  - intros x rtt [[Hc Hx] [Hi Hst]]. destruct (update_ack_frame rtt x) as (Hset & _ & Hs & Est).
    pose proof (snd_side_eq _ _ Hs) as (_ & _ & _ & Eb). apply settings_eq in Hset as (Ec & _).
    split; [split; [congruence|by eapply own_conv_same]|]. split; [by apply (snd_inv_side x)|].
    unfold has_stats. by rewrite Est.
  - intros x una x' [[Hc Hx] [Hi Hst]] E1. destruct (input_cwnd_sides _ _ _ E1) as [Hs _].
    destruct (input_cwnd_acks _ _ _ E1) as (Hset & _).
    pose proof (snd_side_eq _ _ Hs) as (_ & _ & _ & Eb). apply settings_eq in Hset as (Ec & _).
    split; [split; [congruence|by eapply own_conv_same]|]. split; [by apply (snd_inv_side x)|].
    pose proof (input_cwnd_stats _ _ _ E1) as Est. unfold has_stats. by rewrite Est.
  - split; [done|]. split; [apply (fr_inv _ (wf_ready _ Hw))|apply (fr_stats _ (wf_ready _ Hw))].
Qed.

(** Each operation. *)
Lemma perform_conv o k x :
  wf k -> op_ok k o -> own_conv k -> perform o k = Ok x ->
  conv (o_kcp x) = conv k /\ own_conv (o_kcp x) /\
  (is_u32 (conv k) -> Forall (of_conv (conv k)) (packets_of (o_events x))).
Proof.
  intros Hw Ho Hc E.
  assert (Hquiet : forall k' w r, conv k' = conv k -> snd_buf k' = snd_buf k ->
    x = mkOutcome k' [] w r -> conv (o_kcp x) = conv k /\ own_conv (o_kcp x) /\
    (is_u32 (conv k) -> Forall (of_conv (conv k)) (packets_of (o_events x)))).
  { intros k' w r Ec Eb ->. split; [done|]. split; [by eapply own_conv_same|]. intros _. constructor. }
  assert (Hflush : forall k1 t k' tr, wf k1 -> conv k1 = conv k -> snd_buf k1 = snd_buf k ->
    flush k1 t = Ok (k', tr) -> x = mkOutcome k' tr [] [] -> conv (o_kcp x) = conv k /\ own_conv (o_kcp x) /\
    (is_u32 (conv k) -> Forall (of_conv (conv k)) (packets_of (o_events x)))).
  { intros k1 t k' tr Hw1 Ec Eb E1 ->. simpl. rewrite <- Ec. apply (flush_conv k1 t); [done| |done].
    by eapply own_conv_same. }
  destruct o as [b| |t pkt|t|t|t|t|sw rw|nd itv re nc|m|e]; cbn [perform op_ok] in *.
  - destruct (wf_send k b Hw Ho) as (k' & c & E' & _ & Hk & _). rewrite E' in E. injection E as <-.
    eapply Hquiet; [| |done]; by rewrite Hk.
  - destruct (read_round_run k) as (k' & b & E' & Hset & _ & _ & Hs & _). rewrite E' in E. injection E as <-.
    apply snd_side_eq in Hs as (_ & _ & _ & Eb). apply settings_eq in Hset as (Ec & _).
    by eapply Hquiet.
  - apply bind_Ok_inv in E as ([k' c] & E1 & E). injection E as <-. simpl.
    destruct (input_keeps_conv k t pkt true k' c Hw Hc (proj2 Ho) E1). split; [done|]. split; [done|].
    intros _. constructor.
  - apply bind_Ok_inv in E as ([k' tr] & E1 & E). injection E as <-.
    destruct (wf_update k t Hw Ho) as [(k1 & Hk1 & Hs & _ & Hset & _ & E2)|E2]; rewrite E2 in E1.
    + apply snd_side_eq in Hs as (_ & _ & _ & Eb). apply settings_eq in Hset as (Ec & _).
      by eapply Hflush.
    + injection E1 as <- <-. by eapply Hquiet.
  - apply bind_Ok_inv in E as ([k' tr] & E1 & E). injection E as <-. by eapply Hflush.
  - apply bind_Ok_inv in E as ([k' tr] & E1 & E). injection E as <-. rewrite sendConnectFlush_eq in E1.
    destruct (_ && _); [|injection E1 as <- <-; by eapply Hquiet].
    by eapply (Hflush _ t k' tr (wf_connecting k Hw)).
  - apply bind_Ok_inv in E as ([k' tr] & E1 & E). injection E as <-.
    destruct (isStateConnected k && negb (isStateLocalClosed k)) eqn:Hcl.
    + rewrite sendCloseFlush_eq in E1 by done. by eapply (Hflush _ t k' tr (wf_closing k Hw)).
    + unfold sendCloseFlush in E1. rewrite Hcl in E1. injection E1 as <- <-. by eapply Hquiet.
  - injection E as <-. destruct (setWndSize_state sw rw k) as (_ & _ & Ec).
    eapply Hquiet; [exact Ec| |done]. unfold setWndSize. simpl. by destruct (sw >? 0), (rw >? 0).
  - injection E as <-. destruct (setNoDelay_sides nd itv re nc k) as (Hs & _ & Ec & _).
    apply snd_side_eq in Hs as (_ & _ & _ & Eb). by eapply Hquiet.
  - destruct (wf_settings_mtu k m Hw Ho) as (k' & c & E' & _ & Hs & _ & Ec & _).
    rewrite E' in E. injection E as <-. apply snd_side_eq in Hs as (_ & _ & _ & Eb). by eapply Hquiet.
  - injection E as <-. eapply Hquiet; [| |reflexivity]; done.
Qed.

(** And each call. *)
Lemma kruns_conv net k m k' w r p :
  wf k -> own_conv k -> kruns net k m k' w r p ->
  conv k' = conv k /\ own_conv k' /\ (is_u32 (conv k) -> Forall (of_conv (conv k)) p).
Proof.
  intros Hw Ho. induction 1 as [|m k1 k2 w r p Hr IH Hf|m k1 o x w r p Hr IH Hop Hin E].
  - split; [done|]. split; [done|]. constructor.
  - destruct IH as (I1 & I2 & I3). destruct (frame_fields _ _ Hf) as (Ec & Es & _).
    apply snd_side_eq in Es as (_ & _ & _ & Eb). split; [congruence|]. split; [|done].
    by eapply own_conv_same.
  - destruct IH as (I1 & I2 & I3).
    destruct (perform_conv o k1 x (kruns_wf _ _ _ _ _ _ _ Hw Hr) Hop I2 E) as (P1 & P2 & P3).
    split; [congruence|]. split; [done|]. intros Hu. apply Forall_app. split; [by apply I3|].
    rewrite <- I1. apply P3. by rewrite I1.
Qed.
End Origin.

(** ** Lemmas: the threads of a connection make calls *)

Section Steps.
Context `{BufPool} {Q : Type} `{ByteQueue Q} {Sock : Type} (WriteTo : Sock -> list byte -> Sock * bool).
#[local] Abbreviation KCPConn := (KCPConn (Q := Q) (Sock := Sock)).
#[local] Abbreviation threads := (threads (Q := Q) (Sock := Sock)).
Implicit Types (s : KCPConn) (x : threads).

(** What a step of a thread has written, read and sent: nothing, or what one call has, made when
    at most the events and the queue had changed, with a datagram of the queue. *)
Definition explained (x x' : threads) (w d : list byte) (p : list (list byte)) : Prop :=
  quiet (co x) (co x') /\ w = [] /\ d = [] /\ p = [] \/
  exists c s tr, quiet (co x) s /\ call_ok s c /\
    (forall now now' pkt, c = KInput now now' pkt -> pkt ∈ chUdpInput (co x)) /\
    perform_call WriteTo c s = Ok (co x', tr, d) /\ w = wrote_by c s /\ p = packets_of tr.

Lemma quiet_id s : is_Some (conn s) -> quiet s s.
Proof. intros Hs. by repeat split. Qed.

Lemma explained_quiet x s p r wr : quiet (co x) s -> exists w' d p', explained x (mkThreads s p r wr) w' d p'.
Proof. intros Hq. exists [], [], []. by left. Qed.

(** A call that is not the processing of a datagram. *)
Lemma explained_call x c s tr d p r wr :
  is_Some (conn (co x)) -> call_ok (co x) c -> (forall now now' pkt, c <> KInput now now' pkt) ->
  perform_call WriteTo c (co x) = Ok (s, tr, d) -> exists w' d' p', explained x (mkThreads s p r wr) w' d' p'.
Proof.
  intros Hc Hok Hn E. exists (wrote_by c (co x)), d, (packets_of tr). right. exists c, (co x), tr.
  split; [by apply quiet_id|]. split; [done|]. split; [by intros t t' pkt ->; destruct (Hn t t' pkt)|]. done.
Qed.

Lemma take_explained x now now' s tr p r wr :
  tinv x -> take_input WriteTo now now' (co x) = Ok (Some (s, tr)) ->
  explained x (mkThreads s p r wr) [] [] (packets_of tr).
Proof.
  intros [Hc Hi _ _] E. unfold take_input in E. destruct (chUdpInput (co x)) as [|pkt rest] eqn:Eq; [done|].
  apply Forall_cons in Hi as [Hl _]. apply bind_Ok_inv in E as ([s1 tr1] & E & [= <- <-]).
  right. exists (KInput now now' pkt), ((co x)<|chUdpInput := rest|>), tr1.
  split; [repeat split; apply (ok_conn _ Hc)|]. split; [done|].
  split; [intros t t' q [= _ _ <-]; rewrite Eq; by left|]. split; [|done].
  cbn [perform_call]. by rewrite E.
Qed.

Lemma explained_input x now now' s tr p r wr :
  tinv x -> take_input WriteTo now now' (co x) = Ok (Some (s, tr)) ->
  exists w' d' p', explained x (mkThreads s p r wr) w' d' p'.
Proof. intros Hi E. exists [], [], (packets_of tr). by eapply take_explained. Qed.

Lemma tstep_explained lb x x' : tinv x -> tstep WriteTo lb x x' -> exists w d p, explained x x' w d p.
Proof.
  intros Hi Hs. pose proof (ok_conn _ (ti_conn _ Hi)) as Hc.
  assert (Hq : quiet (co x) (co x)) by by apply quiet_id.
  destruct Hs as [now d fl x s p tr Epc E|now now' d x s tr Epc E|d x Epc E|d x Epc|d x Epc E|
    now start x s tr Epc E|now now' start dg x s p tr Epc E|now now' start d dg x s tr Epc E|
    start d dg x Epc|n x Er|now n x s tr d err Er Hcl E|now n x s tr dl Er Hcl E|
    n dl x Er E|n t x Er|n dl x Er E|b x Ew|now b x s tr k err Ew Hcl E|
    now b x s tr dl Ew Hcl E|b dl x Ew E|b t x Ew|b dl x Ew E|pkt x Hle Hn|
    c x s tr d Ha Hcl E]; try (by apply explained_quiet).
  - unfold main_head in E. destruct (isAllOpen (kcp (co x))).
    + apply bind_Ok_inv in E as ([s1 tr1] & E & [= <- <- <-]).
      eapply (explained_call x (KMain now fl)); [done|done|done|]. cbn [perform_call]. by rewrite E.
    + injection E as <- <- <-. by apply explained_quiet.
  - by eapply explained_input.
  - eapply (explained_call x (KClosing now)); [done|done|done|]. cbn [perform_call]. by rewrite E.
  - unfold close_head in E. apply bind_Ok_inv in E as ([[[s1 tr1] dd] wt] & E & [= <- <- <-]).
    eapply (explained_call x (KCloseLoop now)); [done|done|done|]. cbn [perform_call]. by rewrite E.
  - by eapply explained_input.
  - eapply (explained_call x (KRead now n)); [done|done|done|]. cbn [perform_call]. by rewrite E.
  - eapply (explained_call x (KRead now n)); [done|done|done|]. cbn [perform_call]. by rewrite E.
  - eapply (explained_call x (KWrite now b)); [done|done|done|]. cbn [perform_call]. by rewrite E.
  - eapply (explained_call x (KWrite now b)); [done|done|done|]. cbn [perform_call]. by rewrite E.
  - eapply (explained_call x c); [done|done| |exact E]. by destruct c.
Qed.

(** The conversation number of a connection and of what it sends. *)
Lemma explained_conv x x' w d p :
  tinv x -> own_conv (kcp (co x)) -> explained x x' w d p ->
  conv (kcp (co x')) = conv (kcp (co x)) /\ own_conv (kcp (co x')) /\
  (is_u32 (conv (kcp (co x))) -> Forall (of_conv (conv (kcp (co x)))) p).
Proof.
  intros Hi Ho [((Ek & _) & _ & _ & ->)|(c & s & tr & (Ek & Eb & Ed & Ec) & Hcl & _ & E & _ & ->)].
  - rewrite Ek. split; [done|]. split; [done|]. constructor.
  - assert (conn_ok s) as Hok by (destruct (ti_conn _ Hi); split; by rewrite ?Ek, ?Eb, ?Ed).
    set (net := match c with KInput _ _ pkt => [pkt] | _ => [] end).
    destruct (perform_call_tracks WriteTo net c s (co x') tr d Hok Hcl) as (m & b & p & _ & Hr & Hp & _);
      [intros t t' pkt ->; left; by left|done|].
    rewrite Ek in Hr. destruct (kruns_conv net _ m _ _ _ _ (ok_wf _ (ti_conn _ Hi)) Ho Hr) as (K1 & K2 & K3).
    split; [done|]. split; [done|]. intros Hu. specialize (K3 Hu). rewrite Forall_forall in K3.
    apply Forall_forall. intros q Hin. by apply K3, Hp.
Qed.
End Steps.

(** ** The system *)

Section Served.
Context `{BufPool} {Q : Type} `{ByteQueue Q} {Sock : Type}.
Context (WriteTo : bool -> Sock -> list byte -> Sock * bool).
#[local] Abbreviation KCPConn := (KCPConn (Q := Q) (Sock := Sock)).
#[local] Abbreviation threads := (threads (Q := Q) (Sock := Sock)).
#[local] Abbreviation Listener := (Listener (Q := Q) (Sock := Sock)).
#[local] Abbreviation endpoint := (endpoint (Q := Q) (Sock := Sock)).
Implicit Types (s : KCPConn) (x : threads) (l : Listener) (e : endpoint).

(** What a connection of the server has been given by [Write], has returned from [Read], has sent
    and has numbered so far. *)
Record ledger := mkLedger {
  g_wrote : list byte; g_read : list byte; g_sent : list (list byte); g_numbered : Z }.
Definition ledger0 : ledger := mkLedger [] [] [] 0.

(** Clients with the address and the conversation number of each, the listener, and the ledgers
    of its connections. *)
Record world := mkWorld {
  clients : list (string * Z * endpoint);
  server : Listener;
  books : gmap nat ledger;
}.
#[global] Instance eta_world : Eta world := fun w => mkWorld (clients w) (server w) (books w).

(** A connection of the server as an end of the network of [Deliver.v]. *)
Definition end_of x (b : ledger) : endpoint :=
  mkEnd (co x) (g_wrote b) (g_read b) (g_sent b) (g_numbered b).

Definition enter x x' (w d : list byte) (p : list (list byte)) (b : ledger) : ledger :=
  mkLedger (g_wrote b ++ w) (g_read b ++ d) (g_sent b ++ p)
    (g_numbered b + dist (snd_nxt (kcp (co x))) (snd_nxt (kcp (co x')))).

(** The datagram has been sent by a connection of the server to [addr]. *)
Definition sent_to (w : world) (addr : string) (pkt : list byte) : Prop :=
  exists id x b, conns (server w) !! id = Some (addr, x) /\ books w !! id = Some b /\ pkt ∈ g_sent b.

(** Nobody but the client sends datagrams of its conversation from its address. *)
Definition genuine (w : world) (addr : string) (pkt : list byte) : Prop :=
  forall i cv e, clients w !! i = Some (addr, cv, e) -> conv_of pkt = Some cv -> pkt ∈ e_sent e.

(** A step: a client makes a call, to which what the server has sent to its address may arrive, and
    what is foreign; a datagram arrives at the server; a thread of a connection of the server
    moves; or the server itself. *)
Inductive wstep : world -> world -> Prop :=
  | w_client i addr cv e e' net w :
      clients w !! i = Some (addr, cv, e) -> (forall pkt, pkt ∈ net -> sent_to w addr pkt) ->
      estep WriteTo true net e e' ->
      wstep w (w<|clients := <[i := (addr, cv, e')]> (clients w)|>)
  | w_packet from data l' w :
      spc (server w) = SSelect -> len data <= udpPacketSizeLimit -> genuine w from data ->
      server_packet from data (server w) = Ok l' ->
      wstep w (mkWorld (clients w) l'
        (if (next (server w) <? next l')%nat then <[next (server w) := ledger0]> (books w) else books w))
  | w_thread id addr x x' lb wr d p b w :
      conns (server w) !! id = Some (addr, x) -> lb <> LNet -> tstep (WriteTo false) lb x x' ->
      explained (WriteTo false) x x' wr d p -> books w !! id = Some b ->
      wstep w (mkWorld (clients w) ((server w)<|conns := <[id := (addr, x')]> (conns (server w))|>)
        (<[id := enter x x' wr d p b]> (books w)))
  | w_main l' w : lmain (server w) l' -> wstep w (w<|server := l'|>).

(** Clients that have just connected, each address with a conversation number once. *)
Definition just_connected (cs : list (string * Z * endpoint)) : Prop :=
  NoDup (map fst cs) /\
  forall i addr cv e, cs !! i = Some (addr, cv, e) ->
    is_u32 cv /\ exists s, opened cv s /\ e = mkEnd s [] [] [] 0.

Inductive wreach : world -> Prop :=
  | wr_start cs c : just_connected cs -> wreach (mkWorld cs (ServeConn c) ∅)
  | wr_step w w' : wreach w -> wstep w w' -> wreach w'.

(** No conversation has been given two connections. *)
Definition once_each (w : world) : Prop :=
  forall id1 id2 addr x1 x2, conns (server w) !! id1 = Some (addr, x1) ->
    conns (server w) !! id2 = Some (addr, x2) -> GetConv (co x1) = GetConv (co x2) -> id1 = id2.

(** ** Invariant *)

Record served (w : world) : Prop := {
  sv_listener : lreach (WriteTo false) (server w);
  sv_books : forall id, is_Some (books w !! id) <-> is_Some (conns (server w) !! id);
  (* what a connection of the server sends is of its conversation *)
  sv_own : forall id addr x, conns (server w) !! id = Some (addr, x) ->
    own_conv (kcp (co x)) /\ is_u32 (conv (kcp (co x))) /\
    forall b, books w !! id = Some b -> Forall (of_conv (conv (kcp (co x)))) (g_sent b);
  (* what waits for it is from the client, if it is of the client's conversation *)
  sv_queue : forall id addr x data, conns (server w) !! id = Some (addr, x) ->
    data ∈ chUdpInput (co x) \/ pending (server w) id data -> genuine w addr data;
  sv_keys : NoDup (map fst (clients w));
  sv_client : forall i addr cv e, clients w !! i = Some (addr, cv, e) ->
    is_u32 cv /\ conn_ok (e_conn e) /\ conv (kcp (e_conn e)) = cv;
}.

(** Each client and the connection of its conversation are ends of a network; so are the client
    and a connection yet to be made. *)
Definition paired (w : world) : Prop :=
  forall i addr cv e, clients w !! i = Some (addr, cv, e) ->
    (forall id x b, conns (server w) !! id = Some (addr, x) -> GetConv (co x) = cv ->
       books w !! id = Some b -> ereach WriteTo cv e (end_of x b)) /\
    ((forall id x, conns (server w) !! id = Some (addr, x) -> GetConv (co x) <> cv) ->
       forall s, opened cv s -> ereach WriteTo cv e (mkEnd s [] [] [] 0)).

(** ** Lemmas *)

Lemma of_conv_conv_of cv pkt : of_conv cv pkt -> conv_of pkt = Some cv.
Proof. intros [rest E]. unfold conv_of. by rewrite E. Qed.

Lemma of_conv_foreign cv cv' pkt : of_conv cv' pkt -> cv' <> cv -> foreign cv pkt.
Proof. intros [rest E] Hne. right. by exists cv', rest. Qed.

Lemma estep_net side net net' e e' :
  (forall pkt, pkt ∈ net -> pkt ∈ net' \/ foreign (conv (kcp (e_conn e))) pkt) ->
  estep WriteTo side net e e' -> estep WriteTo side net' e e'.
Proof.
  intros Hn [c s tr d Hc Hi E|s Hq]; [|by apply estep_quiet]. apply estep_call; [done| |done].
  intros t t' pkt Ec. destruct (Hi t t' pkt Ec) as [Hin|Hf]; [by apply Hn|by right].
Qed.

Lemma estep_sent side net e e' pkt : estep WriteTo side net e e' -> pkt ∈ e_sent e -> pkt ∈ e_sent e'.
Proof. intros [c s tr d _ _ _|s _] Hp; [|done]. simpl. apply elem_of_app. by left. Qed.

Lemma estep_ok side net e e' :
  conn_ok (e_conn e) -> estep WriteTo side net e e' ->
  conn_ok (e_conn e') /\ conv (kcp (e_conn e')) = conv (kcp (e_conn e)).
Proof.
  intros Hok [c s tr d Hc Hi E|s (Ek & Eb & Ed & Ec)]; simpl.
  - destruct (perform_call_ok (WriteTo side) (e_conn e) c Hok Hc) as (s' & tr' & d' & E' & Hok' & Hf & _).
    rewrite E in E'. injection E' as <- <- <-. split; [done|apply Hf].
  - split; [destruct Hok; split; by rewrite ?Ek, ?Eb, ?Ed|by rewrite Ek].
Qed.

(** *** A datagram at the server *)

Lemma decode_u32 data cv rest : ikcp_decode32u data = Ok (cv, rest) -> is_u32 cv.
Proof. intros [Hr _]%decode_le_range. exact Hr. Qed.

Lemma opened_conv cv s : opened cv s -> kcp s = fresh cv.
Proof. intros Ho. destruct (opened_peer cv s Ho) as [_ Hp]. symmetry. exact (ip_kcp _ _ Hp). Qed.

Lemma opened_own cv s : opened cv s -> own_conv (kcp s) /\ conv (kcp s) = cv.
Proof.
  intros ->%opened_conv. assert (snd_buf (fresh cv) = []) as Hb by (vm_compute; reflexivity).
  split; [unfold own_conv; rewrite Hb; constructor|]. vm_compute. reflexivity.
Qed.

(** The datagram is handed to a connection of its address or dropped, or makes a connection. *)
Definition routed (from : string) (data : list byte) l l' : Prop :=
  conns l' = conns l /\ next l' = next l /\
    (forall id d, pending l' id d -> d = data /\ exists x, conns l !! id = Some (from, x)) \/
  exists cv x, conv_of data = Some cv /\ is_u32 cv /\ opened cv (co x) /\ chUdpInput (co x) = [] /\
    conns l !! next l = None /\ conns l' = <[next l := (from, x)]> (conns l) /\ next l' = S (next l) /\
    (forall id d, pending l' id d -> id = next l /\ d = data).

Lemma new_connection_routed from cv data rest l0 l l' :
  linv (WriteTo false) l -> conns l0 = conns l -> next l0 = next l ->
  ikcp_decode32u data = Ok (cv, rest) -> new_connection from cv data l0 = Ok l' -> routed from data l l'.
Proof.
  intros Hi Ec En Ed E. right. unfold new_connection in E.
  destruct newKCPConn as [s| |] eqn:Es; [|done..]. cbn [mbind res_bind] in E. injection E as <-.
  eexists cv, (mkThreads _ _ _ _). unfold conv_of. rewrite Ed. split; [done|].
  split; [by eapply decode_u32|]. split; [exists s, (lconn l0); split; [done|by left]|].
  assert (chUdpInput s = []) as Hq
    by (unfold newKCPConn in Es; rewrite new_session_eq in Es; by injection Es as <-).
  split; [exact Hq|]. split.
  { destruct (conns l !! next l) eqn:Hx; [|done]. assert (next l < next l)%nat; [|lia].
    apply (li_next _ _ Hi). by rewrite Hx. }
  simpl. rewrite Ec, En. split; [done|]. split; [done|].
  by intros id d [[= <- <-]|?].
Qed.

Lemma server_packet_routed from data l l' :
  linv (WriteTo false) l -> spc l = SSelect -> server_packet from data l = Ok l' -> routed from data l l'.
Proof.
  intros Hi Hpc E.
  assert (Hsame : routed from data l l).
  { left. do 2 (split; [done|]). intros id d. unfold pending. rewrite Hpc. by intros [?|?]. }
  unfold server_packet in E. destruct (len data <? IKCP_OVERHEAD); [by injection E as <-|].
  destruct (ikcp_decode32u data) as [[cv rest]| |] eqn:Ed; [|done..]. cbn [mbind res_bind] in E.
  destruct (sessions l !! from) as [id|] eqn:Es; [|by eapply new_connection_routed].
  destruct (li_table _ _ Hi _ _ Es) as [x Hx]. rewrite Hx in E.
  destruct (negb (GetConv _ =? _)).
  - destruct (negb _); [|by injection E as <-].
    by eapply (new_connection_routed from cv data rest (l<|sessions := delete from (sessions l)|>)).
  - injection E as <-. left. do 2 (split; [done|]). intros i d [?|[= <- <-]]; [done|]. split; [done|by exists x].
Qed.

(** *** The invariant *)

Lemma genuine_client w i a cv e e' addr data :
  clients w !! i = Some (a, cv, e) -> (forall p, p ∈ e_sent e -> p ∈ e_sent e') ->
  genuine w addr data -> genuine (w<|clients := <[i := (a, cv, e')]> (clients w)|>) addr data.
Proof.
  intros Hc Hm Hg j cv' e2. simpl. destruct (decide (j = i)) as [->|Hne].
  - rewrite list_lookup_insert_eq by (by eapply lookup_lt_Some). intros [= -> <- <-] Hd.
    apply Hm. by eapply Hg.
  - rewrite list_lookup_insert_ne by done. apply Hg.
Qed.

Lemma clients_keys w i a cv (e e' : endpoint) :
  clients w !! i = Some (a, cv, e) -> map fst (<[i := (a, cv, e')]> (clients w)) = map fst (clients w).
Proof. intros Hc. rewrite list_fmap_insert. apply list_insert_id. by rewrite list_lookup_fmap, Hc. Qed.

Lemma served_start cs c : just_connected cs -> served (mkWorld cs (ServeConn c) ∅).
Proof.
  intros [Hk Hc]. split; simpl; try done.
  - apply lr_start.
  - intros id. by rewrite !lookup_empty.
  - intros i addr cv e Hx. destruct (Hc i addr cv e Hx) as (Hu & s & Ho & ->). split; [done|]. simpl.
    destruct (opened_peer cv s Ho) as [Hok _]. split; [done|]. by apply opened_own.
Qed.

Lemma served_client i addr cv e e' net w :
  served w -> clients w !! i = Some (addr, cv, e) -> estep WriteTo true net e e' ->
  served (w<|clients := <[i := (addr, cv, e')]> (clients w)|>).
Proof.
  intros [H1 H2 H3 H4 H5 H6] Hc Hs. split; simpl; try done.
  - intros id a x d Hx Hd. apply (genuine_client w i addr cv e e'); [done| |by eapply H4].
    intros p. by apply (estep_sent _ _ _ _ _ Hs).
  - erewrite clients_keys by done. done.
  - intros j a c e2. destruct (decide (j = i)) as [->|Hne].
    + rewrite list_lookup_insert_eq by (by eapply lookup_lt_Some). intros [= <- <- <-].
      destruct (H6 _ _ _ _ Hc) as (Hu & Hok & Ec). destruct (estep_ok _ _ _ _ Hok Hs) as [Hok' Ec'].
      split; [done|]. split; [done|]. congruence.
    + rewrite list_lookup_insert_ne by done. apply H6.
Qed.

Lemma served_packet from data l' w :
  served w -> spc (server w) = SSelect -> len data <= udpPacketSizeLimit -> genuine w from data ->
  server_packet from data (server w) = Ok l' ->
  served (mkWorld (clients w) l'
    (if (next (server w) <? next l')%nat then <[next (server w) := ledger0]> (books w) else books w)).
Proof.
  intros [H1 H2 H3 H4 H5 H6] Hpc Hl Hg E.
  destruct (server_packet_routed from data (server w) l' (lreach_inv _ _ H1) Hpc E)
    as [(Ec & En & Hp)|(cv & x & Hcv & Hu & Ho & Hq & Hn & Ec & En & Hp)]; rewrite En.
  - rewrite Nat.ltb_irrefl. split; simpl; rewrite ?Ec; try done.
    + eapply lr_step; [exact H1|]. by eapply l_packet.
    + intros id a x d Hx [Hd|Hd]; [apply (H4 id a x d Hx); by left|].
      destruct (Hp _ _ Hd) as (-> & y & Hy). rewrite Hx in Hy. by injection Hy as -> _.
  - rewrite (proj2 (Nat.ltb_lt _ _)) by lia. split; simpl; rewrite ?Ec; try done.
    + eapply lr_step; [exact H1|]. by eapply l_packet.
    + intros id. destruct (decide (id = next (server w))) as [->|Hne].
      * rewrite !lookup_insert_eq. split; eauto.
      * by rewrite !lookup_insert_ne.
    + intros id a y. rewrite lookup_insert_Some. intros [(<- & [= <- <-])|[Hne Hy]].
      * destruct (opened_own cv (co x) Ho) as [Ho1 Ho2]. split; [exact Ho1|]. rewrite Ho2. split; [exact Hu|].
        intros b. rewrite lookup_insert_eq. intros [= <-]. constructor.
      * rewrite lookup_insert_ne by done. eauto.
    + intros id a y d. rewrite lookup_insert_Some. intros [(<- & [= <- <-])|[Hne Hy]].
      * rewrite Hq. intros [Hd|Hd]; [by apply elem_of_nil in Hd|]. by destruct (Hp _ _ Hd) as [_ ->].
      * intros [Hd|Hd]; [apply (H4 id a y d Hy); by left|]. destruct (Hp _ _ Hd) as [-> _]. done.
Qed.

Lemma served_thread id addr x x' lb wr d p b w :
  served w -> conns (server w) !! id = Some (addr, x) -> lb <> LNet -> tstep (WriteTo false) lb x x' ->
  explained (WriteTo false) x x' wr d p -> books w !! id = Some b ->
  served (mkWorld (clients w) ((server w)<|conns := <[id := (addr, x')]> (conns (server w))|>)
    (<[id := enter x x' wr d p b]> (books w))).
Proof.
  intros [H1 H2 H3 H4 H5 H6] Hx Hlb Hst Hex Hb.
  pose proof (treach_inv _ _ (li_reach _ _ (lreach_inv _ _ H1) _ _ _ Hx)) as Hi.
  destruct (H3 _ _ _ Hx) as (Ho & Hu & Hs).
  destruct (explained_conv (WriteTo false) x x' wr d p Hi Ho Hex) as (Ec & Ho' & Hp).
  split; simpl; try done.
  - eapply lr_step; [exact H1|]. apply l_own. by eapply l_thread.
  - intros id'. destruct (decide (id' = id)) as [->|Hne]; [|by rewrite !lookup_insert_ne].
    rewrite !lookup_insert_eq. split; eauto.
  - intros id' a y. rewrite lookup_insert_Some. intros [(<- & [= <- <-])|[Hne Hy]].
    + rewrite Ec. split; [done|]. split; [done|]. intros b'. rewrite lookup_insert_eq. intros [= <-].
      simpl. apply Forall_app. split; [by apply Hs|by apply Hp].
    + rewrite lookup_insert_ne by done. eauto.
  - intros id' a y pkt. rewrite lookup_insert_Some. intros [(<- & [= <- <-])|[Hne Hy]] Hd.
    + apply (H4 id addr x pkt Hx). destruct Hd as [Hd|Hd]; [left|by right].
      destruct (qs_queue _ _ (tstep_queue _ _ _ _ Hi Hst Hlb)) as (pre & Eq & _).
      rewrite Eq. apply elem_of_app. by right.
    + by apply (H4 id' a y pkt Hy).
Qed.

Lemma served_main l' w : served w -> lmain (server w) l' -> served (w<|server := l'|>).
Proof.
  intros [H1 H2 H3 H4 H5 H6] Hm.
  assert (lreach (WriteTo false) l') as H1' by (eapply lr_step; [exact H1|]; by apply l_own, l_main).
  destruct (lmain_conns _ _ Hm) as [_ [[Ec Hp]|(id & addr & x & data & Epc & Hx & Ec & Epc')]];
    split; simpl; rewrite ?Ec; try done.
  - intros i a y pkt Hy [Hd|Hd]; apply (H4 i a y pkt Hy); [by left|right; by apply Hp].
  - intros i. rewrite H2. destruct (decide (i = id)) as [->|Hne].
    + rewrite lookup_insert_eq, Hx. split; eauto.
    + by rewrite lookup_insert_ne.
  - intros i a y. rewrite lookup_insert_Some.
    intros [(<- & [= <- <-])|[Hne Hy]]; [exact (H3 _ _ _ Hx)|exact (H3 _ _ _ Hy)].
  - assert (Hno : forall i pkt, ~ pending l' i pkt) by (intros i pkt; unfold pending; rewrite Epc'; by intros [?|?]).
    intros i a y pkt. rewrite lookup_insert_Some.
    intros [(<- & [= <- <-])|[Hne Hy]] [Hd|Hd]; try by destruct (Hno _ _ Hd).
    + simpl in Hd. apply elem_of_app in Hd as [Hd|Hd]; apply (H4 id addr x pkt Hx); [by left|right].
      apply list_elem_of_singleton in Hd as ->. by right.
    + apply (H4 i a y pkt Hy). by left.
Qed.

Lemma served_step w w' : served w -> wstep w w' -> served w'.
Proof.
  intros Hs Hst. destruct Hst as [i addr cv e e' net w0 Hc _ He|from data l' w0 Hpc Hl Hg E|
    id addr x x' lb wr d p b w0 Hx Hlb Hst Hex Hb|l' w0 Hm].
  - eapply served_client; [done|exact Hc|exact He].
  - by apply (served_packet from data).
  - by eapply served_thread.
  - by apply served_main.
Qed.

Lemma wreach_served w : wreach w -> served w.
Proof. induction 1 as [cs c Hc|w w' _ IH Hs]; [by apply served_start|by eapply served_step]. Qed.

(** A connection stays, with its address and its conversation. *)
Lemma conns_kept w w' id addr x :
  served w -> wstep w w' -> conns (server w) !! id = Some (addr, x) ->
  exists x', conns (server w') !! id = Some (addr, x') /\ GetConv (co x') = GetConv (co x).
Proof.
  intros Hs Hst Hx. pose proof Hs as [H1 _ _ _ _ _].
  destruct Hst as [i a cv e e' net w0 Hc _ He|from data l' w0 Hpc Hl Hg E|
    id' a y y' lb wr d p b w0 Hy Hlb Hst Hex Hb|l' w0 Hm]; simpl.
  - by exists x.
  - exists x. destruct (server_packet_routed from data _ l' (lreach_inv _ _ H1) Hpc E)
      as [(-> & _)|(cv & y & _ & _ & _ & _ & Hn & -> & _)]; [done|].
    rewrite lookup_insert_ne; [done|]. intros <-. by rewrite Hn in Hx.
  - destruct (decide (id = id')) as [->|Hne]; [|exists x; by rewrite lookup_insert_ne].
    rewrite Hx in Hy. injection Hy as <- <-. exists y'. rewrite lookup_insert_eq. split; [done|].
    apply (qs_conv x y'). apply (tstep_queue (WriteTo false) lb); [|done..].
    by eapply treach_inv, (li_reach _ _ (lreach_inv _ _ H1)).
  - destruct (lmain_conns _ _ Hm) as [_ [[-> _]|(id' & a & y & data & _ & Hy & -> & _)]]; [by exists x|].
    destruct (decide (id = id')) as [->|Hne]; [|exists x; by rewrite lookup_insert_ne].
    rewrite Hx in Hy. injection Hy as <- <-. eexists. by rewrite lookup_insert_eq.
Qed.

Lemma once_each_back w w' : served w -> wstep w w' -> once_each w' -> once_each w.
Proof.
  intros Hs Hst Ho id1 id2 addr x1 x2 H1 H2 E.
  destruct (conns_kept w w' id1 addr x1 Hs Hst H1) as (y1 & K1 & C1).
  destruct (conns_kept w w' id2 addr x2 Hs Hst H2) as (y2 & K2 & C2).
  apply (Ho id1 id2 addr y1 y2 K1 K2). congruence.
Qed.

(** *** The pairs *)

(** The client of an address and a conversation is one. *)
Lemma client_unique w i j addr cv e e' :
  served w -> clients w !! i = Some (addr, cv, e) -> clients w !! j = Some (addr, cv, e') -> i = j.
Proof.
  intros Hs Hi Hj. eapply (NoDup_lookup (map fst (clients w))); [apply Hs| |];
    rewrite list_lookup_fmap; [by rewrite Hi|by rewrite Hj].
Qed.

(** What a client receives is of the connection of its conversation, or foreign. *)
Lemma client_net w addr cv pkt :
  served w -> sent_to w addr pkt ->
  (exists id x b, conns (server w) !! id = Some (addr, x) /\ GetConv (co x) = cv /\
     books w !! id = Some b /\ pkt ∈ g_sent b) \/ foreign cv pkt.
Proof.
  intros Hs (id & x & b & Hx & Hb & Hp). destruct (sv_own _ Hs _ _ _ Hx) as (_ & _ & Ho).
  specialize (Ho b Hb). rewrite Forall_forall in Ho. specialize (Ho pkt Hp).
  destruct (decide (GetConv (co x) = cv)) as [Hc|Hc]; [left; by exists id, x, b|].
  right. by eapply of_conv_foreign.
Qed.

Lemma paired_client i addr cv e e' net w :
  served w -> once_each w -> clients w !! i = Some (addr, cv, e) ->
  (forall pkt, pkt ∈ net -> sent_to w addr pkt) -> estep WriteTo true net e e' -> paired w ->
  paired (w<|clients := <[i := (addr, cv, e')]> (clients w)|>).
Proof.
  intros Hs Ho Hc Hn He Hp j a c e2. simpl. destruct (decide (j = i)) as [->|Hne].
  2:{ rewrite list_lookup_insert_ne by done. apply Hp. }
  rewrite list_lookup_insert_eq by (by eapply lookup_lt_Some). intros [= <- <- <-].
  destruct (Hp _ _ _ _ Hc) as [P1 P2]. destruct (sv_client _ Hs _ _ _ _ Hc) as (_ & _ & Ecv). split.
  - intros id x b Hx Ex Hb. eapply er_left; [by eapply P1|]. eapply estep_net; [|exact He].
    intros pkt Hin. rewrite Ecv.
    destruct (client_net w addr cv pkt Hs (Hn pkt Hin)) as [(id' & y & b' & Hy & Ey & Hb' & Hpk)|Hf]; [|by right].
    left. assert (id' = id) as -> by (eapply Ho; [exact Hy|exact Hx|congruence]).
    rewrite Hb in Hb'. by injection Hb' as <-.
  - intros Hnone s Hop. eapply er_left; [by apply P2|]. eapply estep_net; [|exact He].
    intros pkt Hin. rewrite Ecv.
    destruct (client_net w addr cv pkt Hs (Hn pkt Hin)) as [(id' & y & b' & Hy & Ey & _)|Hf]; [|by right].
    by destruct (Hnone id' y Hy).
Qed.

Lemma paired_packet from data l' w :
  served w -> spc (server w) = SSelect -> server_packet from data (server w) = Ok l' ->
  (forall id1 id2 addr x1 x2, conns l' !! id1 = Some (addr, x1) -> conns l' !! id2 = Some (addr, x2) ->
     GetConv (co x1) = GetConv (co x2) -> id1 = id2) -> paired w ->
  paired (mkWorld (clients w) l'
    (if (next (server w) <? next l')%nat then <[next (server w) := ledger0]> (books w) else books w)).
Proof.
  intros Hs Hpc E Honce Hp i addr cv e Hc. simpl in Hc. destruct (Hp _ _ _ _ Hc) as [P1 P2]. simpl.
  destruct (server_packet_routed from data _ l' (lreach_inv _ _ (sv_listener _ Hs)) Hpc E)
    as [(Ec & En & _)|(c & y & Hcv & Hu & Ho & Hq & Hn & Ec & En & _)]; rewrite En, Ec.
  - rewrite Nat.ltb_irrefl. split; [exact P1|exact P2].
  - rewrite (proj2 (Nat.ltb_lt _ _)) by lia. split.
    + intros id x b. rewrite lookup_insert_Some. intros [(<- & [= <- <-])|[Hne Hx]] Ex.
      * rewrite lookup_insert_eq. intros [= <-].
        destruct (opened_own c (co y) Ho) as [_ Ecy]. unfold GetConv in Ex. rewrite Ecy in Ex. subst c.
        apply P2; [|exact Ho]. intros id x Hx Ex. assert (next (server w) = id) as <-; [|by rewrite Hn in Hx].
        rewrite Ec in Honce. apply (Honce _ id from y x); [apply lookup_insert_eq| |by rewrite Ex].
        rewrite lookup_insert_ne; [done|]. intros <-. by rewrite Hn in Hx.
      * rewrite lookup_insert_ne by done. by apply P1.
    + intros Hnone. apply P2. intros id x Hx. apply (Hnone id x). rewrite lookup_insert_ne; [done|].
      intros <-. by rewrite Hn in Hx.
Qed.

(** A thread of the server is an end of its pair. *)
Lemma explained_reach cv e x x' wr d p b :
  explained (WriteTo false) x x' wr d p ->
  (forall pkt, pkt ∈ chUdpInput (co x) -> pkt ∈ e_sent e) ->
  ereach WriteTo cv e (end_of x b) -> ereach WriteTo cv e (end_of x' (enter x x' wr d p b)).
Proof.
  intros [(Hq & -> & -> & ->)|(c & s & tr & Hq & Hcl & Hin & E & -> & ->)] Hn Hr.
  - unfold end_of, enter. simpl. pose proof (proj1 Hq) as ->. rewrite dist_self, Z.add_0_r, !app_nil_r.
    eapply er_right; [exact Hr|]. by apply (estep_quiet _ _ _ (end_of x b)).
  - assert (ereach WriteTo cv e (mkEnd s (g_wrote b) (g_read b) (g_sent b) (g_numbered b))) as Hr1
      by (eapply er_right; [exact Hr|]; by apply (estep_quiet _ _ _ (end_of x b))).
    eapply er_right; [exact Hr1|]. unfold end_of, enter. cbn [g_wrote g_read g_sent g_numbered]. pose proof (proj1 Hq) as <-.
    apply (estep_call _ false (e_sent e) (mkEnd s (g_wrote b) (g_read b) (g_sent b) (g_numbered b)) c (co x'));
      [done| |done].
    intros t t' pkt Ec. left. by eapply Hn, Hin.
Qed.

Lemma paired_thread id addr x x' lb wr d p b w :
  served w -> conns (server w) !! id = Some (addr, x) -> lb <> LNet -> tstep (WriteTo false) lb x x' ->
  explained (WriteTo false) x x' wr d p -> books w !! id = Some b -> paired w ->
  paired (mkWorld (clients w) ((server w)<|conns := <[id := (addr, x')]> (conns (server w))|>)
    (<[id := enter x x' wr d p b]> (books w))).
Proof.
  intros Hs Hx Hlb Hst Hex Hb Hp i a cv e Hc. simpl in Hc. destruct (Hp _ _ _ _ Hc) as [P1 P2].
  pose proof (lreach_inv _ _ (sv_listener _ Hs)) as Hl.
  pose proof (qs_conv _ _ (tstep_queue _ _ _ _ (treach_inv _ _ (li_reach _ _ Hl _ _ _ Hx)) Hst Hlb)) as Ec.
  simpl. split.
  - intros id' y b'. rewrite lookup_insert_Some. intros [(<- & [= <- <-])|[Hne Hy]] Ey.
    2:{ rewrite lookup_insert_ne by done. by apply P1. }
    rewrite lookup_insert_eq. intros [= <-]. rewrite Ec in Ey.
    apply (explained_reach cv e x); [done| |by apply (P1 id)].
    intros pkt Hin. eapply (sv_queue _ Hs id addr x); [done|by left|exact Hc|].
    pose proof (li_right _ _ Hl _ _ _ Hx) as Hr. rewrite Forall_forall in Hr.
    destruct (Hr pkt Hin) as [_ ->]. by rewrite Ey.
  - intros Hnone. apply P2. intros id' y Hy. destruct (decide (id' = id)) as [->|Hne].
    + rewrite Hx in Hy. injection Hy as <- <-. rewrite <- Ec. apply (Hnone id). apply lookup_insert_eq.
    + apply (Hnone id'). by rewrite lookup_insert_ne.
Qed.

Lemma paired_main l' w : served w -> lmain (server w) l' -> paired w -> paired (w<|server := l'|>).
Proof.
  intros Hs Hm Hp i a cv e Hc. simpl in Hc. destruct (Hp _ _ _ _ Hc) as [P1 P2]. simpl.
  destruct (lmain_conns _ _ Hm) as [_ [[-> _]|(id & addr & x & data & _ & Hx & -> & _)]]; [done|]. split.
  - intros id' y b'. rewrite lookup_insert_Some. intros [(<- & [= <- <-])|[Hne Hy]] Ey; [|by apply P1].
    intros Hb. eapply er_right; [by apply (P1 id)|].
    apply (estep_quiet _ _ _ (end_of x b')). repeat split.
    apply (ok_conn _ (ti_conn _ (treach_inv _ _ (li_reach _ _ (lreach_inv _ _ (sv_listener _ Hs)) _ _ _ Hx)))).
  - intros Hnone. apply P2. intros id' y Hy. destruct (decide (id' = id)) as [->|Hne].
    + rewrite Hx in Hy. injection Hy as <- <-. intros Ey.
      eapply (Hnone id); [apply lookup_insert_eq|exact Ey].
    + apply (Hnone id'). by rewrite lookup_insert_ne.
Qed.

Lemma paired_step w w' : served w -> wstep w w' -> once_each w' -> paired w -> paired w'.
Proof.
  intros Hs Hst Ho Hp. pose proof (once_each_back _ _ Hs Hst Ho) as Hb.
  destruct Hst as [i addr cv e e' net w0 Hc Hn He|from data l' w0 Hpc Hl Hg E|
    id addr x x' lb wr d p b w0 Hx Hlb Hst Hex Hbk|l' w0 Hm].
  - by eapply paired_client.
  - by apply (paired_packet from data).
  - by eapply paired_thread.
  - by apply paired_main.
Qed.

Lemma wreach_paired w : wreach w -> once_each w -> paired w.
Proof.
  induction 1 as [cs c [_ Hc]|w w' Hr IH Hs]; intros Ho.
  - intros i addr cv e Hi. simpl in *. destruct (Hc i addr cv e Hi) as (_ & s & Hs & ->). split.
    + intros id x b Hx. by rewrite lookup_empty in Hx.
    + intros _ s' Hs'. by apply er_new.
  - pose proof (wreach_served w Hr) as Hsv. eapply paired_step; try done. apply IH. by eapply once_each_back.
Qed.

(** ** Properties *)

(** C2. Delivery over a server: any number of clients, one server whose loop, [AcceptKCP] and
    [Close] and the threads of whose connections run in any order, over a network that loses,
    delays, duplicates and reorders the datagrams of both sides and carries others besides; nobody
    but a client sends datagrams of its conversation from its address, and no conversation is given
    two connections. Then the connection that the server makes for a client is the other end of
    that client's stream and of no other: its reader has got a prefix of what this client has
    written, the client's reader a prefix of what is written at that connection, and each has or
    stores all of it once the other has nothing more to send. *)
Theorem server_delivers w i addr cv e id x b (Hw : wreach w) (Ho : once_each w)
    (Hc : clients w !! i = Some (addr, cv, e)) (Hx : conns (server w) !! id = Some (addr, x))
    (Hcv : GetConv (co x) = cv) (Hb : books w !! id = Some b)
    (H1 : e_numbered e < 2147483648) (H2 : g_numbered b < 2147483648) :
  g_read b `prefix_of` e_wrote e /\ e_read e `prefix_of` g_wrote b /\
  (waitSnd (kcp (e_conn e)) = 0 -> g_read b ++ stored (co x) = e_wrote e) /\
  (waitSnd (kcp (co x)) = 0 -> e_read e ++ stored (e_conn e) = g_wrote b).
Proof.
  destruct (wreach_paired w Hw Ho i addr cv e Hc) as [Hp _]. specialize (Hp id x b Hx Hcv Hb).
  destruct (sv_client w (wreach_served w Hw) i addr cv e Hc) as [Hu _].
  pose proof (ereach_einv WriteTo cv e (end_of x b) Hu Hp H1 H2) as Hi.
  destruct (einv_delivers cv e (end_of x b) Hi H1) as (D1 & D2 & D3).
  destruct (einv_delivers cv (end_of x b) e (einv_sym _ _ _ Hi) H2) as (_ & _ & D4). done.
Qed.
End Served.

(** *** A run: a client opens a connection, writes two bytes, and the server's reader gets them *)

Section Demo.
#[local] Existing Instance zero_pool.
#[local] Abbreviation threads := (threads (Q := Buffer) (Sock := list (list byte))).
#[local] Abbreviation world := (world (Q := Buffer) (Sock := list (list byte))).
Implicit Types (x : threads) (w : world).

(** Steps of the threads with what they return and send, computed. *)
Definition out : Type := threads * list byte * list (list byte).
Definition do_main (now : Z) x : option out :=
  match pc x with
  | PMain d fl => match main_head demo_write now d fl (co x) with
                  | Ok (s, p, tr) => Some (x<|co := s|><|pc := p|>, [], packets_of tr) | _ => None end
  | _ => None
  end.
Definition do_take x : option out :=
  match pc x with
  | PSelect d => match take_input demo_write 0 0 (co x) with
                 | Ok (Some (s, tr)) => Some (x<|co := s|><|pc := PMain (Z.quot d 2) false|>, [], packets_of tr)
                 | _ => None end
  | _ => None
  end.
Definition do_read_call (n : nat) x : option out :=
  match reader x with Idle => Some (x<|reader := Round n|>, [], []) | _ => None end.
Definition do_read (now : Z) x : option out :=
  match reader x with
  | Round n => if open_flags (kcp (co x)) && (len (stored (co x)) <=? memory) then
                 match Read demo_write now n (co x) with
                 | Ok (s, tr, Return d _) => Some (x<|co := s|><|reader := Idle|>, d, packets_of tr)
                 | _ => None
                 end
               else None
  | _ => None
  end.

Definition moves (f : threads -> option out) : Prop := forall x x' d p, tinv x -> f x = Some (x', d, p) ->
  exists lb, lb <> LNet /\ tstep demo_write lb x x' /\ explained demo_write x x' [] d p.

Lemma do_main_moves now : moves (do_main now).
Proof.
  intros x x' d p Hi E. unfold do_main in E. destruct (pc x) as [d0 fl| | | | |] eqn:Ep; try done.
  destruct (main_head demo_write now d0 fl (co x)) as [[[s q] tr]| |] eqn:Em; [|done..]. injection E as <- <- <-.
  exists LRun. split; [done|]. split; [by eapply t_main|]. unfold main_head in Em.
  pose proof (ok_conn _ (ti_conn _ Hi)) as Hc. destruct (isAllOpen (kcp (co x))).
  - apply bind_Ok_inv in Em as ([s1 tr1] & Em & [= <- <- <-]). right. exists (KMain now fl), (co x), tr1.
    split; [by apply quiet_id|]. split; [done|]. split; [done|]. cbn [perform_call]. by rewrite Em.
  - injection Em as <- <- <-. left. split; [by apply quiet_id|done].
Qed.

Lemma do_take_moves : moves do_take.
Proof.
  intros x x' d p Hi E. unfold do_take in E. destruct (pc x) as [|d0| | | |] eqn:Ep; try done.
  destruct (take_input demo_write 0 0 (co x)) as [[[s tr]|]| |] eqn:Et; [|done..]. injection E as <- <- <-.
  exists LRun. split; [done|]. split; [by eapply (t_select_input _ 0 0)|].
  by eapply take_explained.
Qed.

Lemma do_read_call_moves n : moves (do_read_call n).
Proof.
  intros x x' d p Hi E. unfold do_read_call in E. destruct (reader x) eqn:Er; try done. injection E as <- <- <-.
  exists LReader. split; [done|]. split; [by apply t_read_call|]. left.
  split; [apply quiet_id, (ok_conn _ (ti_conn _ Hi))|done].
Qed.

Lemma do_read_moves now : moves (do_read now).
Proof.
  intros x x' d p Hi E. unfold do_read in E. destruct (reader x) as [|n|] eqn:Er; try done.
  destruct (open_flags _) eqn:Ec; [|done]. destruct (Z.leb_spec (len (stored (co x))) memory) as [Hm|]; [|done].
  cbn [andb] in E. destruct (Read demo_write now n (co x)) as [[[s tr] [d0 err|]]| |] eqn:Ed; try done.
  injection E as <- <- <-. assert (call_ok (co x) (KRead now n)) as Hcl by (split; [by left|done]).
  exists LReader. split; [done|]. split; [by eapply t_read_return|]. right. exists (KRead now n), (co x), tr.
  split; [apply quiet_id, (ok_conn _ (ti_conn _ Hi))|]. split; [done|]. split; [done|].
  cbn [perform_call]. by rewrite Ed.
Qed.

(** A step of the first connection of the server, of the listener, of the one client, the arrival
    of a datagram at the server and at the client, computed. *)
Definition on_thread (f : threads -> option out) w : world :=
  match conns (server w) !! 0%nat, books w !! 0%nat with
  | Some (a, x), Some b =>
      match f x with
      | Some (x', d, p) => mkWorld (clients w) ((server w)<|conns := <[0%nat := (a, x')]> (conns (server w))|>)
                             (<[0%nat := enter x x' [] d p b]> (books w))
      | None => w
      end
  | _, _ => w
  end.
Definition on_accept w : world :=
  match send_accept (server w) with Some l => w<|server := l|> | None => w end.
Definition on_deliver w : world :=
  match send_data (server w) with Some l => w<|server := l|> | None => w end.
Definition on_client (c : call) w : world :=
  match clients w with [(a, cv, e)] => w<|clients := [(a, cv, do_call c e)]|> | _ => w end.
Definition on_arrive (n : nat) w : world :=
  match clients w, spc (server w) with
  | [(a, _, e)], SSelect =>
      match e_sent e !! n with
      | Some data =>
          if len data <=? udpPacketSizeLimit then
            match server_packet a data (server w) with
            | Ok l' => mkWorld (clients w) l'
                (if (next (server w) <? next l')%nat then <[next (server w) := ledger0]> (books w) else books w)
            | _ => w
            end
          else w
      | None => w
      end
  | _, _ => w
  end.
Definition on_input (now : Z) (n : nat) w : world :=
  match clients w, conns (server w) !! 0%nat, books w !! 0%nat with
  | [(a, cv, e)], Some (a', _), Some b =>
      match g_sent b !! n with
      | Some pkt => if (a =? a')%string && (len pkt <=? udpPacketSizeLimit)
                    then w<|clients := [(a, cv, do_call (KInput now now pkt) e)]|> else w
      | None => w
      end
  | _, _, _ => w
  end.

Lemma on_thread_reach f w : moves f -> wreach demo_sockets w -> wreach demo_sockets (on_thread f w).
Proof.
  intros Hf Hw. unfold on_thread. destruct (conns (server w) !! 0%nat) as [[a x]|] eqn:Hx; [|done].
  destruct (books w !! 0%nat) as [b|] eqn:Hb; [|done]. destruct (f x) as [[[x' d] p]|] eqn:E; [|done].
  pose proof (lreach_inv _ _ (sv_listener _ _ (wreach_served _ w Hw))) as Hl.
  destruct (Hf x x' d p (treach_inv _ _ (li_reach _ _ Hl _ _ _ Hx)) E) as (lb & Hlb & Ht & He).
  eapply wr_step; [exact Hw|]. by eapply w_thread.
Qed.

Lemma on_accept_reach w : wreach demo_sockets w -> wreach demo_sockets (on_accept w).
Proof.
  intros Hw. unfold on_accept. destruct (send_accept (server w)) eqn:E; [|done].
  eapply wr_step; [exact Hw|]. by apply w_main, l_accept.
Qed.

Lemma on_deliver_reach w : wreach demo_sockets w -> wreach demo_sockets (on_deliver w).
Proof.
  intros Hw. unfold on_deliver. destruct (send_data (server w)) eqn:E; [|done].
  eapply wr_step; [exact Hw|]. by apply w_main, l_deliver.
Qed.

Lemma client_call_reach (net : list (list byte)) c a cv e w :
  wreach demo_sockets w -> clients w = [(a, cv, e)] -> call_ok (e_conn e) c ->
  (forall pkt, pkt ∈ net -> sent_to w a pkt) -> (forall now now' pkt, c = KInput now now' pkt -> pkt ∈ net) ->
  wreach demo_sockets (w<|clients := [(a, cv, do_call c e)]|>).
Proof.
  intros Hw Hc Hok Hn Hi. unfold do_call.
  destruct (perform_call demo_write c (e_conn e)) as [[[s tr] d]| |] eqn:E;
    [|rewrite <- Hc; by destruct w..].
  pose proof (w_client demo_sockets 0 a cv e (mkEnd s (e_wrote e ++ wrote_by c (e_conn e)) (e_read e ++ d)
    (e_sent e ++ packets_of tr) (e_numbered e + dist (snd_nxt (kcp (e_conn e))) (snd_nxt (kcp s)))) net w) as Hs.
  rewrite Hc in Hs. eapply wr_step; [exact Hw|]. apply Hs; [done|done|].
  apply (estep_call _ true net e c s tr d); [done| |done]. intros t t' pkt Ec. left. by eapply Hi.
Qed.

Lemma on_client_reach c w :
  wreach demo_sockets w -> match clients w with [(_, _, e)] => call_ok (e_conn e) c | _ => True end ->
  (forall now now' pkt, c <> KInput now now' pkt) -> wreach demo_sockets (on_client c w).
Proof.
  intros Hw Hok Hn. unfold on_client. destruct (clients w) as [|[[a cv] e] [|]] eqn:Hc; [done| |done].
  apply (client_call_reach []); [done|done|done|by intros pkt ?%elem_of_nil|].
  intros t t' pkt ->. by destruct (Hn t t' pkt).
Qed.

Lemma on_input_reach now n w : wreach demo_sockets w -> wreach demo_sockets (on_input now n w).
Proof.
  intros Hw. unfold on_input. destruct (clients w) as [|[[a cv] e] [|]] eqn:Hc; [done| |done].
  destruct (conns (server w) !! 0%nat) as [[a' x]|] eqn:Hx; [|done].
  destruct (books w !! 0%nat) as [b|] eqn:Hb; [|done]. destruct (g_sent b !! n) as [pkt|] eqn:Hp; [|done].
  destruct (String.eqb_spec a a') as [->|]; [|done].
  destruct (Z.leb_spec (len pkt) udpPacketSizeLimit); [|done]. cbn [andb].
  apply (client_call_reach [pkt]); [done|done|done| |].
  - intros q ->%list_elem_of_singleton. exists 0%nat, x, b. split; [done|]. split; [done|].
    by eapply list_elem_of_lookup_2.
  - intros t t' q [= _ _ <-]. by left.
Qed.

Lemma on_arrive_reach n w : wreach demo_sockets w -> wreach demo_sockets (on_arrive n w).
Proof.
  intros Hw. unfold on_arrive. destruct (clients w) as [|[[a cv] e] [|]] eqn:Hc; [done| |done].
  destruct (spc (server w)) eqn:Hp; try done. destruct (e_sent e !! n) as [data|] eqn:Hd; [|done].
  destruct (Z.leb_spec (len data) udpPacketSizeLimit); [|done].
  destruct (server_packet a data (server w)) as [l'| |] eqn:E; [|done..].
  eapply wr_step; [exact Hw|]. rewrite <- Hc. apply (w_packet _ a data); [done|done| |done].
  intros i cv' e'. rewrite Hc. destruct i as [|i]; [|done]. intros [= <- <-] _.
  by eapply list_elem_of_lookup_2.
Qed.

Definition demo_world0 : world := mkWorld [("peer"%string, 7, demo_client0)] (ServeConn []) ∅.
Definition demo_world1 : world :=
  on_thread (do_main 35000000) (on_thread do_take (on_thread (do_main 0) (on_deliver (on_accept (on_arrive 0
    (on_client (KMain 20000000 true) (on_client (KConnect 0) demo_world0))))))).
Definition demo_world2 : world :=
  on_client (KMain 60000000 true) (on_client (KWrite 50000000 [Byte.x68; Byte.x69])
    (on_input 40000000 0 demo_world1)).
Definition demo_world3 : world :=
  on_thread (do_read 80000000) (on_thread (do_read_call 10) (
    on_thread do_take (on_deliver (on_arrive 1 demo_world2)))).

Lemma demo_world_reach : wreach demo_sockets demo_world3.
Proof.
  assert (wreach demo_sockets demo_world0) as H0.
  { apply wr_start. split; [apply NoDup_singleton|]. intros [|i] a cv e; [|done]. intros [= <- <- <-].
    split; [split; [discriminate|reflexivity]|]. exists (connect 7 [] demo_new).1. split; [|reflexivity].
    exists demo_new, []. split; [apply demo_new_eq|by right]. }
  assert (wreach demo_sockets demo_world1) as H1.
  { do 3 (apply on_thread_reach; [first [apply do_main_moves|apply do_take_moves]|]).
    apply on_deliver_reach, on_accept_reach, on_arrive_reach.
    apply on_client_reach; [|exact I|discriminate]. by apply on_client_reach; [|exact I|discriminate]. }
  assert (wreach demo_sockets demo_world2) as H2.
  { apply on_client_reach; [|vm_compute; exact I|discriminate].
    apply on_client_reach; [by apply on_input_reach| |discriminate].
    vm_compute. repeat split; discriminate. }
  do 3 (apply on_thread_reach; [first [apply do_read_moves|apply do_read_call_moves|apply do_take_moves]|]).
  by apply on_deliver_reach, on_arrive_reach.
Qed.

Lemma demo_world_once : once_each demo_world3.
Proof.
  pose proof (lreach_inv _ _ (sv_listener _ _ (wreach_served _ _ demo_world_reach))) as Hl.
  assert (next (server demo_world3) = 1%nat) as Hn by (vm_compute; reflexivity).
  assert (Hz : forall id a x, conns (server demo_world3) !! id = Some (a, x) -> id = 0%nat).
  { intros id a x Hx. assert (id < next (server demo_world3))%nat as Hi by (apply (li_next _ _ Hl); by rewrite Hx).
    rewrite Hn in Hi. lia. }
  intros id1 id2 a x1 x2 H1 H2 _. rewrite (Hz _ _ _ H1). symmetry. by apply (Hz _ _ _ H2).
Qed.

Lemma server_delivers_witness :
  exists e b, clients demo_world3 = [("peer"%string, 7, e)] /\ books demo_world3 !! 0%nat = Some b /\
    e_wrote e = [Byte.x68; Byte.x69] /\ g_read b = [Byte.x68; Byte.x69] /\ g_read b `prefix_of` e_wrote e.
Proof.
  destruct (clients demo_world3) as [|[[a cv] e] [|]] eqn:Hc; [exfalso; revert Hc; vm_compute; discriminate| |
    exfalso; revert Hc; vm_compute; discriminate].
  destruct (books demo_world3 !! 0%nat) as [b|] eqn:Hb; [|exfalso; revert Hb; vm_compute; discriminate].
  destruct (conns (server demo_world3) !! 0%nat) as [[a' x]|] eqn:Hx; [|exfalso; revert Hx; vm_compute; discriminate].
  assert (map (fun c => (c.1, e_wrote c.2, e_numbered c.2)) (clients demo_world3) =
    [("peer"%string, 7, [Byte.x68; Byte.x69], 2)]) as E1 by (vm_compute; reflexivity).
  assert (fmap (fun b => (g_read b, g_numbered b)) (books demo_world3 !! 0%nat) =
    Some ([Byte.x68; Byte.x69], 1)) as E2 by (vm_compute; reflexivity).
  assert (fmap (fun r => (r.1, GetConv (co r.2))) (conns (server demo_world3) !! 0%nat) = Some ("peer"%string, 7))
    as E3 by (vm_compute; reflexivity).
  rewrite Hc in E1. rewrite Hb in E2. rewrite Hx in E3. cbn [map fmap option_fmap option_map fst snd] in E1, E2, E3.
  injection E1 as -> -> Ew En. injection E2 as Er Eg. injection E3 as -> Ec.
  assert (clients demo_world3 !! 0%nat = Some ("peer"%string, 7, e)) as Hc0 by (rewrite Hc; reflexivity).
  assert (e_numbered e < 2147483648) as N1 by (rewrite En; reflexivity).
  assert (g_numbered b < 2147483648) as N2 by (rewrite Eg; reflexivity).
  destruct (server_delivers demo_sockets demo_world3 0 "peer" 7 e 0 x b demo_world_reach demo_world_once
    Hc0 Hx Ec Hb N1 N2) as (H & _).
  exists e, b. split; [reflexivity|]. split; [reflexivity|]. split; [exact Ew|]. split; [exact Er|exact H].
Defined.
End Demo.
