(* ===== verification/Gauge.v ===== *)
(** * The gauges of open connections ([kcpconn.go], [run] and [stats.go])

    At its start and at its end [run] updates the process-wide counters of connections with
    atomic operations, one after the other, while the other connections do the same. *)
From S2P Require Import Prelude GoInt Stats.

(** ** Definitions *)

(** Where a goroutine of [run] stands between its atomic operations: before the first, after
    adding to [ConnCurrent] with what that returned, after loading [ConnMax], in the main loop,
    in the closing loop, and after each of the last operations. *)
Inductive gpc :=
  | GStart
  | GAdded (connCurrent : Z)
  | GLoaded (connCurrent connMax : Z)
  | GOpen
  | GClosing
  | GLeft
  | GUncounted
  | GClosed (dangling : bool)
  | GEnd (dangling : bool).

(** [atomic.CompareAndSwapInt64(&Stats.ConnMax, old, new)] *)
Definition cas_ConnMax (old new : Z) (g : KcpGlobalStats) : KcpGlobalStats :=
  if gConnMax g =? old then g<|gConnMax := new|> else g.

(** The operations at the start of [run]. *)
Definition enter_count (p : gpc) (g : KcpGlobalStats) : gpc * KcpGlobalStats :=
  match p with
  | GStart => let g := add_int64 CConnCurrent 1 g in (GAdded (gConnCurrent g), g)
  | GAdded connCurrent => (GLoaded connCurrent (gConnMax g), g)
  | GLoaded connCurrent connMax =>
      (GOpen, if connCurrent >? connMax then cas_ConnMax connMax connCurrent g else g)
  | _ => (p, g)
  end.

(** Those at its end; [dangling] is the value of that variable then. *)
Definition leave_count (dangling : bool) (p : gpc) (g : KcpGlobalStats) : gpc * KcpGlobalStats :=
  match p with
  | GClosing => (GLeft, add_int64 CConnCurrent (-1) g)
  | GLeft => (GUncounted, add_int64 CConnClosing (-1) g)
  | GUncounted => (GClosed dangling, add_int64 CTotalClose 1 g)
  | GClosed dangling => (GEnd dangling, if dangling then add_int64 CTotalCloseDangling 1 g else g)
  | _ => (p, g)
  end.

(** The next atomic operation of a goroutine, the one between its loops included. *)
Definition run_count (dangling : bool) (p : gpc) (g : KcpGlobalStats) : gpc * KcpGlobalStats :=
  match p with
  | GStart | GAdded _ | GLoaded _ _ => enter_count p g
  | GOpen => (GClosing, add_int64 CConnClosing 1 g)
  | _ => leave_count dangling p g
  end.

(** The goroutines and the counters; goroutines start at any time. *)
Inductive gstep : list gpc * KcpGlobalStats -> list gpc * KcpGlobalStats -> Prop :=
  | gs_go ps g : gstep (ps, g) (ps ++ [GStart], g)
  | gs_count ps g i p dangling :
      ps !! i = Some p ->
      gstep (ps, g) (<[i := (run_count dangling p g).1]> ps, (run_count dangling p g).2).

(** The largest number of connections that were counted at one time. *)
Inductive greach : Z -> list gpc * KcpGlobalStats -> Prop :=
  | gr_start : greach 0 ([], Stats0)
  | gr_step peak x y :
      greach peak x -> gstep x y -> greach (Z.max peak (gConnCurrent y.2)) y.

(** The goroutines that have counted themselves and not yet finished with [ConnMax]. *)
Definition entering (p : gpc) : bool := match p with GAdded _ | GLoaded _ _ => true | _ => false end.

(** The goroutines of which [P] holds. *)
Definition tally (P : gpc -> bool) (ps : list gpc) : Z := len (List.filter P ps).

(** The runs in which the connections enter one after the other: none adds itself before the one
    that did so last has finished with [ConnMax]. *)
Inductive one_by_one : Z -> list gpc * KcpGlobalStats -> Prop :=
  | ob_start : one_by_one 0 ([], Stats0)
  | ob_step peak x y :
      one_by_one peak x -> gstep x y -> tally entering y.1 <= 1 ->
      one_by_one (Z.max peak (gConnCurrent y.2)) y.

(** ** Lemmas *)

Definition in_current (p : gpc) : bool :=
  match p with GAdded _ | GLoaded _ _ | GOpen | GClosing => true | _ => false end.
Definition in_closing (p : gpc) : bool := match p with GClosing | GLeft => true | _ => false end.
Definition in_closed (p : gpc) : bool := match p with GClosed _ | GEnd _ => true | _ => false end.
Definition in_dangling (p : gpc) : bool := match p with GEnd b => b | _ => false end.

Lemma tally_app P l1 l2 : tally P (l1 ++ l2) = tally P l1 + tally P l2.
Proof. unfold tally. rewrite List.filter_app, length_app. lia. Qed.

Lemma tally_cons P p l : tally P (p :: l) = Z.b2z (P p) + tally P l.
Proof. unfold tally. simpl. destruct (P p); simpl length; simpl Z.b2z; lia. Qed.

Lemma tally_insert P ps i p p' :
  ps !! i = Some p -> tally P (<[i := p']> ps) = tally P ps + Z.b2z (P p') - Z.b2z (P p).
Proof.
  intros Hi. rewrite insert_take_drop by (by eapply lookup_lt_Some).
  rewrite <- (take_drop_middle ps i p Hi) at 3. rewrite !tally_app, !tally_cons. lia.
Qed.

Lemma tally_bound P ps : 0 <= tally P ps <= len ps.
Proof. unfold tally. pose proof (List.filter_length_le P ps). lia. Qed.

Lemma gstep_length x y : gstep x y -> len x.1 <= len y.1.
Proof. intros [ps g|ps g i p b _]; simpl; [rewrite length_app|rewrite length_insert]; simpl; lia. Qed.

Lemma tally_lookup P ps i p : ps !! i = Some p -> Z.b2z (P p) <= tally P ps.
Proof.
  intros Hi. rewrite <- (take_drop_middle ps i p Hi), tally_app, tally_cons.
  pose proof (tally_bound P (take i ps)). pose proof (tally_bound P (drop (S i) ps)). lia.
Qed.

(** Two goroutines of a tally of at most one are the same. *)
Lemma tally_one P ps i j p q :
  P GStart = false -> tally P ps <= 1 -> ps !! i = Some p -> ps !! j = Some q ->
  P p = true -> P q = true -> i = j.
Proof.
  intros H0 Ht Hi Hj Hp Hq. destruct (decide (i = j)) as [|Hne]; [done|].
  pose proof (tally_insert P ps i p GStart Hi) as E1.
  assert (<[i := GStart]> ps !! j = Some q) as Hj' by by rewrite list_lookup_insert_ne.
  pose proof (tally_lookup P _ _ _ Hj') as E2. rewrite Hp, H0 in E1. rewrite Hq in E2. simpl in *. lia.
Qed.

(** The values that a goroutine has read and not yet used are within the peak. *)
Definition within (peak : Z) (p : gpc) : Prop :=
  match p with GAdded c => c <= peak | GLoaded c _ => c <= peak | _ => True end.

Lemma within_le peak peak' ps :
  peak <= peak' -> Forall (within peak) ps -> Forall (within peak') ps.
Proof.
  intros Hle Hf. eapply Forall_impl; [exact Hf|]. intros [] Hp; simpl in *; try done; lia.
Qed.

Record ginv (peak : Z) (ps : list gpc) (g : KcpGlobalStats) : Prop := {
  gi_current : gConnCurrent g = tally in_current ps;
  gi_closing : gConnClosing g = tally in_closing ps;
  gi_closed : gTotalClose g = tally in_closed ps;
  gi_dangling : gTotalCloseDangling g = tally in_dangling ps;
  gi_max : 0 <= gConnMax g <= peak;
  gi_peak : gConnCurrent g <= peak;
  gi_within : Forall (within peak) ps;
}.

(** One goroutine makes its step: the counters change by as much as the tallies. *)
Lemma ginv_count peak ps g i p b :
  ginv peak ps g -> ps !! i = Some p -> len ps < 2 ^ 62 ->
  let p' := (run_count b p g).1 in let g' := (run_count b p g).2 in
  ginv (Z.max peak (gConnCurrent g')) (<[i := p']> ps) g'.
Proof.
  intros [I1 I2 I3 I4 I5 I6 I7] Hi Hl p' g'.
  assert (Hw : forall P z, -1 <= z <= 1 -> i64 (tally P ps + z) = tally P ps + z).
  { intros P z Hz. apply i64_id. pose proof (tally_bound P ps). unfold is_i64. lia. }
  assert (within peak p) as Hp by (rewrite Forall_lookup in I7; by eapply I7).
  pose proof (tally_bound in_current ps) as B.
  assert (within (Z.max peak (gConnCurrent g')) p' /\ 0 <= gConnMax g' <= Z.max peak (gConnCurrent g') /\
    gConnCurrent g' = tally in_current ps + Z.b2z (in_current p') - Z.b2z (in_current p) /\
    gConnClosing g' = tally in_closing ps + Z.b2z (in_closing p') - Z.b2z (in_closing p) /\
    gTotalClose g' = tally in_closed ps + Z.b2z (in_closed p') - Z.b2z (in_closed p) /\
    gTotalCloseDangling g' = tally in_dangling ps + Z.b2z (in_dangling p') - Z.b2z (in_dangling p))
    as (H1 & H2 & H3 & H4 & H5 & H6).
  { subst p' g'. destruct p as [|c|c m| | | | |b'|b']; simpl in *.
    - rewrite I1, Hw by lia. split_and!; lia.
    - split_and!; lia.
    - unfold cas_ConnMax. destruct (Z.gtb_spec c m); [destruct (Z.eqb_spec (gConnMax g) m)|];
        simpl; split_and!; lia || done.
    - rewrite I2, Hw by lia. split_and!; lia || done.
    - rewrite I1, Hw by lia. split_and!; lia || done.
    - rewrite I2, Hw by lia. split_and!; lia || done.
    - rewrite I3, Hw by lia. split_and!; lia || done.
    - destruct b'; simpl; [rewrite I4, Hw by lia|]; split_and!; lia || done.
    - split_and!; lia || done. }
  split; rewrite ?(tally_insert _ ps i p p' Hi); try done; [lia|].
  apply Forall_insert; [|done]. apply (within_le peak); [lia|done].
Qed.

Lemma ginv_step peak x y :
  gstep x y -> len y.1 < 2 ^ 62 -> ginv peak x.1 x.2 -> ginv (Z.max peak (gConnCurrent y.2)) y.1 y.2.
Proof.
  intros [ps g|ps g i p b Hi] Hl Hg; simpl in *.
  - destruct Hg as [I1 I2 I3 I4 I5 I6 I7].
    assert (forall P, P GStart = false -> tally P (ps ++ [GStart]) = tally P ps) as Ht.
    { intros P HP. rewrite tally_app, tally_cons, HP. unfold tally. simpl. lia. }
    split; rewrite ?Ht by done; try done; try lia.
    apply Forall_app. split; [|by repeat constructor]. apply (within_le peak); [lia|done].
  - rewrite length_insert in Hl. by apply ginv_count.
Qed.

Lemma greach_inv peak x : greach peak x -> len x.1 < 2 ^ 62 -> ginv peak x.1 x.2.
Proof.
  induction 1 as [|peak x y _ IH Hs]; intros Hl.
  - split; simpl; try done; lia.
  - apply ginv_step with x; [done|done|]. apply IH. pose proof (gstep_length _ _ Hs). lia.
Qed.

(** Each compare-and-swap leaves [ConnMax] at least at what its goroutine counted, or finds that it
    has been raised since the goroutine loaded it. *)
Lemma cas_raises c m g :
  m <= gConnMax g -> let g' := (enter_count (GLoaded c m) g).2 in
  c <= gConnMax g' \/ m < gConnMax g.
Proof.
  intros Hm. simpl. unfold cas_ConnMax.
  destruct (Z.gtb_spec c m); [destruct (Z.eqb_spec (gConnMax g) m)|]; simpl; lia.
Qed.

Lemma gstep_ConnMax x y : gstep x y -> gConnMax x.2 <= gConnMax y.2.
Proof.
  intros [ps g|ps g i p b Hi]; simpl; [lia|]. destruct p as [|c|c m| | | | |b'|b']; simpl; try lia.
  - unfold cas_ConnMax. destruct (Z.gtb_spec c m); [destruct (Z.eqb_spec (gConnMax g) m)|]; simpl; lia.
  - destruct b'; simpl; lia.
Qed.

(** What a goroutine has loaded was the maximum. *)
Definition loaded (top : Z) (p : gpc) : Prop := match p with GLoaded _ m => m <= top | _ => True end.

Lemma greach_loaded peak x : greach peak x -> Forall (loaded (gConnMax x.2)) x.1.
Proof.
  induction 1 as [|peak x y _ IH Hs]; [by constructor|]. pose proof (gstep_ConnMax _ _ Hs) as Hm.
  assert (Forall (loaded (gConnMax y.2)) x.1) as IH'
    by (eapply Forall_impl; [exact IH|]; intros [] Hp; simpl in *; try done; lia).
  destruct Hs as [ps g|ps g i p b Hi]; simpl in *.
  - apply Forall_app. split; [done|by repeat constructor].
  - apply Forall_insert; [done|]. destruct p; simpl; try done; lia.
Qed.

(** In an orderly run the maximum is the peak, but for what the one that enters still has to do. *)
Definition up_to_date (peak : Z) (g : KcpGlobalStats) (p : gpc) : Prop :=
  match p with
  | GAdded c => peak = Z.max (gConnMax g) c
  | GLoaded c m => m = gConnMax g /\ peak = Z.max (gConnMax g) c
  | _ => True
  end.

Definition settled (peak : Z) (ps : list gpc) (g : KcpGlobalStats) : Prop :=
  gConnCurrent g <= peak /\ Forall (up_to_date peak g) ps /\ (tally entering ps = 0 -> gConnMax g = peak).

Lemma up_to_date_alone peak g ps i p :
  tally entering ps <= 1 -> ps !! i = Some p -> entering p = true -> up_to_date peak g p ->
  Forall (up_to_date peak g) ps.
Proof.
  intros Ht Hi Hp Hu. apply Forall_lookup. intros j q Hj. destruct (entering q) eqn:Eq; [|by destruct q].
  assert (i = j) as <- by by apply (tally_one entering ps i j p q). congruence.
Qed.

Lemma up_to_date_quiet peak g ps : tally entering ps = 0 -> Forall (up_to_date peak g) ps.
Proof.
  intros Ht. apply Forall_lookup. intros j q Hj. pose proof (tally_lookup entering ps j q Hj) as H.
  destruct q; simpl in *; done || lia.
Qed.

Lemma up_to_date_same peak g g' ps :
  gConnMax g' = gConnMax g -> Forall (up_to_date peak g) ps -> Forall (up_to_date peak g') ps.
Proof. intros E Hf. eapply Forall_impl; [exact Hf|]. intros [] Hp; simpl in *; rewrite ?E; done. Qed.

Lemma settled_count peak ps g i p b :
  settled peak ps g -> gConnCurrent g = tally in_current ps -> len ps < 2 ^ 62 ->
  ps !! i = Some p -> tally entering ps <= 1 ->
  let p' := (run_count b p g).1 in let g' := (run_count b p g).2 in
  tally entering (<[i := p']> ps) <= 1 ->
  settled (Z.max peak (gConnCurrent g')) (<[i := p']> ps) g'.
Proof.
  intros (S1 & S2 & S3) HC Hl Hi H1 p' g' H1'.
  pose proof (tally_insert entering ps i p p' Hi) as Et. pose proof (tally_bound in_current ps) as B.
  pose proof (tally_bound entering ps) as B2. pose proof (tally_lookup in_current ps i p Hi) as B3.
  assert (<[i := p']> ps !! i = Some p') as Hi' by (rewrite list_lookup_insert; by rewrite decide_True by (split; [done|by eapply lookup_lt_Some])).
  assert (up_to_date peak g p) as Hp by (rewrite Forall_lookup in S2; by eapply S2).
  assert (Hrest : entering p = false -> entering p' = false -> gConnMax g' = gConnMax g ->
    gConnCurrent g' <= peak -> settled (Z.max peak (gConnCurrent g')) (<[i := p']> ps) g').
  { intros Ep Ep' EM HC'. rewrite Z.max_l by done. split; [done|]. rewrite Ep, Ep' in Et. simpl in Et. split.
    - apply (up_to_date_same _ g); [done|]. apply Forall_insert; [done|]. by destruct p'.
    - intros E0. rewrite EM. apply S3. lia. }
  subst p' g'. destruct p as [|c|c m| | | | |b'|b']; simpl in *;
    try (apply Hrest; [done|done|done|rewrite ?HC, ?i64_id by (unfold is_i64; lia); lia]);
    try (destruct b'; apply Hrest; done || (simpl; lia)).
  - split; [simpl; lia|]. split; [|lia]. eapply up_to_date_alone; [done|exact Hi'|done|].
    simpl. rewrite S3 by lia. done.
  - split; [lia|]. split; [|lia]. eapply up_to_date_alone; [done|exact Hi'|done|]. simpl. lia.
  - destruct Hp as [-> Hp].
    assert (gConnMax (if c >? gConnMax g then cas_ConnMax (gConnMax g) c g else g) = peak /\
      gConnCurrent (if c >? gConnMax g then cas_ConnMax (gConnMax g) c g else g) = gConnCurrent g) as [E1 E2].
    { unfold cas_ConnMax. rewrite Z.eqb_refl. destruct (Z.gtb_spec c (gConnMax g)); simpl; lia. }
    rewrite E2, Z.max_l by done. split; [by rewrite E2|]. split; [|done].
    pose proof (tally_bound entering (<[i := GOpen]> ps)). apply up_to_date_quiet. lia.
Qed.

Lemma one_by_one_reach peak x : one_by_one peak x -> greach peak x /\ tally entering x.1 <= 1.
Proof.
  induction 1 as [|peak x y _ [IH _] Hs Ht]; [split; [constructor|done]|].
  split; [by apply (gr_step _ x)|done].
Qed.

Lemma one_by_one_settled peak x : one_by_one peak x -> len x.1 < 2 ^ 62 -> settled peak x.1 x.2.
Proof.
  induction 1 as [|peak x y Hx IH Hs Ht]; intros Hl; [split; [done|split; [by constructor|done]]|].
  pose proof (gstep_length _ _ Hs) as Hle. destruct (one_by_one_reach _ _ Hx) as [Hr H1].
  destruct (greach_inv _ _ Hr) as [HC _ _ _ _ _ _]; [lia|]. specialize (IH ltac:(lia)).
  destruct Hs as [ps g|ps g i p b Hi]; simpl in *.
  - destruct IH as (S1 & S2 & S3). rewrite Z.max_l by done. split; [done|].
    rewrite tally_app in *. split; [apply Forall_app; split; [done|by repeat constructor]|].
    intros E. apply S3. unfold tally in E at 2. simpl in E. lia.
  - apply settled_count; try done. rewrite length_insert in Hl. lia.
Qed.

(** ** Properties *)

(** C39. The counters of connections under every interleaving of their goroutines. At every
    moment [ConnCurrent], [ConnClosing], [TotalClose] and [TotalCloseDangling] are the numbers of
    goroutines that stand between the operations that count them. [ConnMax] never goes down and
    never exceeds the largest number that were current at one time, [peak]; the compare-and-swap
    of a goroutine that counted [c] leaves it at [c] or more, unless another goroutine has raised
    it since this one loaded it (then it can stay below [c]: [conn_max_missed]). And it is that
    largest number exactly, whenever no goroutine is between counting itself and the
    compare-and-swap, in the runs in which connections enter one after the other. *)
Theorem gauges_right peak ps g (Hr : greach peak (ps, g)) (Hl : len ps < 2 ^ 62) :
  gConnCurrent g = tally in_current ps /\ gConnClosing g = tally in_closing ps /\
  gTotalClose g = tally in_closed ps /\ gTotalCloseDangling g = tally in_dangling ps /\
  0 <= gConnMax g <= peak /\
  (forall y, gstep (ps, g) y -> gConnMax g <= gConnMax y.2) /\
  (forall i c m b, ps !! i = Some (GLoaded c m) ->
    let g' := (run_count b (GLoaded c m) g).2 in
    m <= gConnMax g /\ (c <= gConnMax g' \/ m < gConnMax g)) /\
  (forall top, one_by_one top (ps, g) -> tally entering ps = 0 -> gConnMax g = top).
Proof.
  destruct (greach_inv peak (ps, g) Hr Hl) as [HC HL2 HT HD HM _ _]. do 5 (split; [done|]).
  split; [|split].
  - intros y. by apply gstep_ConnMax.
  - intros i c m b Hi g'. pose proof (greach_loaded _ _ Hr) as HL. rewrite Forall_lookup in HL.
    pose proof (HL i _ Hi) as Hm. simpl in Hm. split; [done|]. by apply cas_raises.
  - intros top Ho. by apply (one_by_one_settled _ _ Ho).
Qed.

(** But [ConnMax] can miss it: two connections that start together both load the old maximum, and
    the compare-and-swap of the one that counted more fails. *)
Theorem conn_max_missed :
  exists g, greach 2 ([GOpen; GOpen], g) /\ gConnCurrent g = 2 /\ gConnMax g = 1.
Proof.
  assert (Hgo : forall peak ps g, greach peak (ps, g) -> greach (Z.max peak (gConnCurrent g)) (ps ++ [GStart], g))
    by (intros peak ps g Hr; apply (gr_step peak (ps, g) (ps ++ [GStart], g)); [done|apply gs_go]).
  assert (Hc : forall peak ps g i p, greach peak (ps, g) -> ps !! i = Some p ->
    greach (Z.max peak (gConnCurrent (run_count false p g).2))
      (<[i := (run_count false p g).1]> ps, (run_count false p g).2))
    by (intros peak ps g i p Hr Hi; apply (gr_step peak (ps, g) (<[i := (run_count false p g).1]> ps,
      (run_count false p g).2)); [done|by apply gs_count]).
  pose proof (Hgo _ _ _ (Hgo _ _ _ gr_start)) as H. simpl in H.
  pose proof (Hc _ _ _ 0%nat GStart H eq_refl) as H'; clear H; rename H' into H; simpl in H.
  pose proof (Hc _ _ _ 1%nat GStart H eq_refl) as H'; clear H; rename H' into H; simpl in H.
  pose proof (Hc _ _ _ 0%nat (GAdded 1) H eq_refl) as H'; clear H; rename H' into H; simpl in H.
  pose proof (Hc _ _ _ 1%nat (GAdded 2) H eq_refl) as H'; clear H; rename H' into H; simpl in H.
  pose proof (Hc _ _ _ 0%nat (GLoaded 1 0) H eq_refl) as H'; clear H; rename H' into H; simpl in H.
  pose proof (Hc _ _ _ 1%nat (GLoaded 2 0) H eq_refl) as H'; clear H; rename H' into H; simpl in H.
  eexists. split; [exact H|]. vm_compute. split; reflexivity.
Qed.

(** *** Witnesses *)

(** One connection has entered; the second one has counted itself and holds the old maximum. *)
Lemma gauges_right_witness :
  (exists g, greach 2 ([GOpen; GLoaded 2 1], g) /\ gConnCurrent g = 2 /\
    gConnMax (run_count false (GLoaded 2 1) g).2 = 2) /\
  (exists g, one_by_one 1 ([GOpen], g) /\ gConnMax g = 1).
Proof.
  pose proof (ob_step _ _ _ ob_start (gs_go [] Stats0) ltac:(vm_compute; discriminate)) as H0.
  pose proof (ob_step _ _ _ H0 (gs_count [GStart] _ 0 GStart false eq_refl) ltac:(vm_compute; discriminate)) as H1.
  pose proof (ob_step _ _ _ H1 (gs_count [GAdded 1] _ 0 (GAdded 1) false eq_refl) ltac:(vm_compute; discriminate)) as H2.
  pose proof (ob_step _ _ _ H2 (gs_count [GLoaded 1 0] _ 0 (GLoaded 1 0) false eq_refl) ltac:(vm_compute; discriminate)) as H3.
  pose proof (ob_step _ _ _ H3 (gs_go [GOpen] _) ltac:(vm_compute; discriminate)) as H4.
  pose proof (ob_step _ _ _ H4 (gs_count [GOpen; GStart] _ 1 GStart false eq_refl) ltac:(vm_compute; discriminate)) as H5.
  pose proof (ob_step _ _ _ H5 (gs_count [GOpen; GAdded 2] _ 1 (GAdded 2) false eq_refl) ltac:(vm_compute; discriminate)) as H6.
  simpl in H3, H6. pose proof (proj1 (one_by_one_reach _ _ H6)) as R6.
  pose proof (proj1 (one_by_one_reach _ _ H3)) as R3. split.
  - eexists. split; [exact R6|].
    destruct (gauges_right _ _ _ R6) as (E & _ & _ & _ & _ & _ & Hc & _); [reflexivity|].
    split; [exact E|]. destruct (Hc 1%nat 2 1 false eq_refl) as [_ [H|H]]; vm_compute in H |- *; congruence.
  - eexists. split; [exact H3|].
    destruct (gauges_right _ _ _ R3) as (_ & _ & _ & _ & _ & _ & _ & Ho); [reflexivity|].
    apply (Ho _ H3). reflexivity.
Defined.
