(* ===== verification/Lossy.v ===== *)
(** * The lossy channel ([lossychan.go]) and the pair of connections over it ([lossyconn.go])

    A network for tests: a goroutine takes items from a channel, loses some at random, drops
    those above a rate, and holds the others back in a ring of time slots of a millisecond
    each. What the random generator and the clock give, and how long a full channel makes a
    sender wait, are arguments of the steps. *)
From S2P Require Import Prelude GoInt.

(** ** Definitions *)

(** [len(q)] *)
Definition slots : Z := 5000.

Definition milli (now : Z) : Z := Z.quot now 1000000.

(** Items are of any type, [nil] being [None]; [as_bytes] is the type assertion
    [v.([]byte)]. *)
Section Channel.
Context {V : Type} (as_bytes : V -> option (list byte)).

(** The variables of [LossyChannel]; [ch] says whether the variable [ch] is not [nil]. *)
Record lossy := mkLossy {
  q : list (list V);
  n : Z;
  curMs : Z;
  curIdx : Z;
  ch : bool;
  total : Z; loss : Z; dropSpeed : Z; dropOut : Z;
  speedLimit : option Z;
}.
#[global] Instance eta_lossy : Eta lossy := fun s =>
  mkLossy (q s) (n s) (curMs s) (curIdx s) (ch s) (total s) (loss s) (dropSpeed s) (dropOut s)
    (speedLimit s).

Definition LossyChannel (now : Z) : lossy :=
  mkLossy (replicate (Z.to_nat slots) []) 0 (milli now) 0 true 0 0 0 0 None.

(** The condition of the loop. *)
Definition running (s : lossy) : bool := ch s || negb (n s =? 0).

Definition item_size (v : V) : Z := match as_bytes v with Some b => len b | None => 1 end.

(** The rate limit: the new [speedLimit] and whether the item passes. *)
Definition limiter (limitPerSec now sz : Z) (lim : option Z) : option Z * bool :=
  if negb (limitPerSec =? 0) then
    let lim := match lim with None => now | Some t => t end in
    if now <? lim then (Some lim, false)
    else (Some (lim + Z.quot (i64 (sz * 1000000000)) limitPerSec), true)
  else (lim, true).

(** [q[idx]] for an index of type [int] *)
Definition slot_at (idx : Z) (l : list (list V)) : res (list V) :=
  if idx <? 0 then Panic PIndex
  else match l !! Z.to_nat idx with Some x => Ok x | None => Panic PIndex end.

Definition set_slot (idx : Z) (x : list V) (l : list (list V)) : list (list V) :=
  <[Z.to_nat idx := x]> l.

(** The first case of the [select]: [lost] is [rand.Float64() < nt.LossRatio()]. *)
Definition take_item (lost : bool) (limitPerSec d now : Z) (v : option V) (s : lossy) : res lossy :=
  match v with
  | None => Ok (s<|ch := false|>)
  | Some v =>
      let s := s<|total := i64 (total s + 1)|> in
      if lost then Ok (s<|loss := i64 (loss s + 1)|>)
      else
        let '(lim, pass) := limiter limitPerSec now (item_size v) (speedLimit s) in
        let s := s<|speedLimit := lim|> in
        if negb pass then Ok (s<|dropSpeed := i64 (dropSpeed s + 1)|>)
        else
          let idx := Z.rem (i64 (curIdx s + d)) slots in
          x ← slot_at idx (q s);
          let s := s<|q := set_slot idx (x ++ [v]) (q s)|> in
          Ok (s<|n := i64 (n s + 1)|>)
  end.

(** The items of a slot are sent in order; after [k] of them a send times out. *)
Fixpoint send_slot (k : nat) (x : list V) (s : lossy) {struct x} : lossy * list V :=
  match x with
  | [] => (s, [])
  | v :: x' =>
      match k with
      | O => let r := len x in
             (s<|n := i64 (n s - r)|><|dropOut := i64 (dropOut s + r)|>, [])
      | S k => let s := s<|n := i64 (n s - 1)|> in
               let '(s, o) := send_slot k x' s in (s, v :: o)
      end
  end.

(** [for i := 0; i <= d; i++], with [count] slots to go; [sent i] is how many items of the
    slot are sent before a send times out. *)
Fixpoint visit (sent : Z -> nat) (i : Z) (count : nat) (s : lossy) : res (lossy * list V) :=
  match count with
  | O => Ok (s, [])
  | S count =>
      let idx := Z.rem (i64 (curIdx s + i)) slots in
      x ← slot_at idx (q s);
      let '(s, o) := send_slot (sent i) x s in
      let s := s<|q := set_slot idx [] (q s)|> in
      '(s, o') ← visit sent (i + 1) count s;
      Ok (s, o ++ o')
  end.

(** The second case: a tick of the timer. *)
Definition tick (sent : Z -> nat) (now : Z) (s : lossy) : res (lossy * list V) :=
  let nowMs := milli now in
  let d := i64 (nowMs - curMs s) in
  '(s, o) ← visit sent 0 (Z.to_nat (d + 1)) s;
  Ok (s<|curIdx := i64 (curIdx s + d)|><|curMs := nowMs|>, o).

(** What the goroutine meets: a receive from [ch], which a [nil] channel never gives, or a
    tick. The result is the state, the items taken and the items sent. *)
Inductive chan_event :=
  | CTake (lost : bool) (limitPerSec d now : Z) (v : option V)
  | CTick (sent : Z -> nat) (now : Z).

Definition chan_step (e : chan_event) (s : lossy) : res (lossy * list V * list V) :=
  if running s then
    match e with
    | CTake lost limitPerSec d now v =>
        if ch s then s ← take_item lost limitPerSec d now v s; Ok (s, option_list v, [])
        else Ok (s, [], [])
    | CTick sent now => '(s, o) ← tick sent now s; Ok (s, [], o)
    end
  else Ok (s, [], []).

Fixpoint chan_run (es : list chan_event) (s : lossy) : res (lossy * list V * list V) :=
  match es with
  | [] => Ok (s, [], [])
  | e :: es =>
      '(s, g, o) ← chan_step e s; '(s, g', o') ← chan_run es s; Ok (s, g ++ g', o ++ o')
  end.

(** ** Specification

    A calendar: each item held back has the millisecond at which it is due; a tick sends
    what is due by then, by the time it is due and in the order of arrival. *)
Record calendar := mkCalendar { pending : list (Z * V); clock : Z; limit : option Z; open : bool }.
#[global] Instance eta_calendar : Eta calendar := fun c =>
  mkCalendar (pending c) (clock c) (limit c) (open c).

Definition due (t : Z) (p : list (Z * V)) : list V := (filter (fun e => e.1 = t) p).*2.

Definition cal_step (e : chan_event) (c : calendar) : calendar * list V :=
  if negb (open c) && (if pending c is [] then true else false) then (c, [])
  else match e with
  | CTake lost limitPerSec d now v =>
      if negb (open c) then (c, [])
      else match v with
      | None => (c<|open := false|>, [])
      | Some v =>
          if lost then (c, [])
          else let '(lim, pass) := limiter limitPerSec now (item_size v) (limit c) in
               if pass : bool then (c<|limit := lim|><|pending := pending c ++ [(clock c + d, v)]|>, [])
               else (c<|limit := lim|>, [])
      end
  | CTick sent now =>
      let t := milli now in
      (c<|pending := filter (fun e => t < e.1) (pending c)|><|clock := t|>,
       concat (map (fun i => take (sent i) (due (clock c + i) (pending c)))
                 (seqZ 0 (t - clock c + 1))))
  end.

Fixpoint cal_run (es : list chan_event) (c : calendar) : calendar * list V :=
  match es with
  | [] => (c, [])
  | e :: es => let '(c, o) := cal_step e c in let '(c, o') := cal_run es c in (c, o ++ o')
  end.

(** Events with delays shorter than the ring and a clock that does not go back. *)
Fixpoint timely (t : Z) (es : list chan_event) : Prop :=
  match es with
  | [] => True
  | CTake _ _ d _ _ :: es => 0 <= d < slots /\ timely t es
  | CTick _ now :: es => (t <= milli now /\ is_i64 now) /\ timely (milli now) es
  end.

(** ** Lemmas: conservation *)

Lemma i64_is a : is_i64 (i64 a).
Proof. unfold is_i64. word_lia. Qed.

Lemma i64_wrap a b : i64 (i64 a + b) = i64 (a + b).
Proof. word_lia. Qed.

Lemma i64_wrap_sub a b : i64 (i64 a - b) = i64 (a - b).
Proof. word_lia. Qed.

Lemma slot_at_Ok idx l x :
  slot_at idx l = Ok x -> 0 <= idx /\ l !! Z.to_nat idx = Some x.
Proof.
  unfold slot_at. destruct (Z.ltb_spec idx 0); [done|].
  destruct (l !! Z.to_nat idx); [|done]. by intros [= ->].
Qed.

(** The slots, one of them replaced. *)
Lemma concat_set_slot idx x y l :
  l !! Z.to_nat idx = Some x -> exists r, concat l ≡ₚ x ++ r /\ concat (set_slot idx y l) ≡ₚ y ++ r.
Proof.
  intros Hx. unfold set_slot. exists (concat (delete (Z.to_nat idx) l)).
  pose proof (lookup_lt_Some _ _ _ Hx) as Hlt.
  rewrite insert_take_drop, delete_take_drop by done.
  assert (concat l = concat (take (Z.to_nat idx) l) ++ x ++ concat (drop (S (Z.to_nat idx)) l)) as ->.
  { rewrite <- (take_drop_middle l _ x Hx) at 1. by rewrite concat_app. }
  rewrite !concat_app. simpl. split; apply Permutation_app_swap_app.
Qed.

(** What has been taken is what has been sent, what is held back, and what is gone; and the
    counters say how many. *)
Record accounts (s : lossy) (g o gone : list V) : Prop := {
  ac_items : g ≡ₚ o ++ concat (q s) ++ gone;
  ac_total : total s = i64 (len g);
  ac_gone : i64 (loss s + dropSpeed s + dropOut s) = i64 (len gone);
  ac_n : n s = i64 (len (concat (q s)));
}.

Lemma accounts_start now : accounts (LossyChannel now) [] [] [].
Proof.
  by split.
Qed.

Lemma take_accounts lost lps d now v s s' g o gone :
  accounts s g o gone -> take_item lost lps d now v s = Ok s' ->
  exists gone', accounts s' (g ++ option_list v) o gone'.
Proof.
  intros [H1 H2 H3 H4] E. unfold take_item in E. destruct v as [v|]; simpl option_list.
  2:{ injection E as <-. exists gone. rewrite app_nil_r. by split. }
  assert (total' : i64 (total s + 1) = i64 (len (g ++ [v]))).
  { rewrite H2, i64_wrap, length_app. f_equal. simpl. lia. }
  assert (forall a b, i64 a = i64 (len gone) -> b = a + 1 -> i64 b = i64 (len (gone ++ [v]))) as Hlen.
  { intros a b Ha ->. rewrite length_app. rewrite <- i64_wrap, Ha, i64_wrap. f_equal. simpl. lia. }
  assert (g ++ [v] ≡ₚ o ++ concat (q s) ++ gone ++ [v]) as Hp by (by rewrite H1, !app_assoc).
  destruct lost.
  { injection E as <-. exists (gone ++ [v]). split; simpl; try done.
    rewrite <- Z.add_assoc, i64_wrap. apply (Hlen _ _ H3). lia. }
  destruct (limiter _ _ _ _) as [lim [|]]; cbn [negb] in E.
  2:{ injection E as <-. exists (gone ++ [v]). split; simpl; try done.
      replace (loss s + i64 (dropSpeed s + 1) + dropOut s) with
        (i64 (dropSpeed s + 1) + (loss s + dropOut s)) by lia.
      rewrite i64_wrap. apply (Hlen _ _ H3). lia. }
  apply bind_Ok_inv in E as (x & Ex & E). injection E as <-.
  apply slot_at_Ok in Ex as [_ Ex]. simpl in *.
  destruct (concat_set_slot _ x (x ++ [v]) _ Ex) as (r & Hr1 & Hr2).
  exists gone. split; simpl; try done.
  - rewrite H1, Hr1, Hr2, <- !app_assoc. do 2 apply Permutation_app_head.
    rewrite (app_assoc r). apply (Permutation_app_comm (r ++ gone) [v]).
  - rewrite H4, i64_wrap, Hr1, Hr2, !length_app. f_equal. simpl. lia.
Qed.

Lemma send_slot_ok k x s :
  exists m dr, send_slot k x s = (s<|n := m|><|dropOut := dr|>, take k x) /\
    (is_i64 (n s) -> m = i64 (n s - len x)) /\ i64 dr = i64 (dropOut s + len (drop k x)).
Proof.
  revert k s. induction x as [|v x IH]; intros k s; simpl.
  - exists (n s), (dropOut s). rewrite take_nil, drop_nil. split; [by destruct s|].
    split; [|by rewrite Z.add_0_r]. rewrite Z.sub_0_r. intros Hi. symmetry. by apply i64_id.
  - destruct k as [|k].
    + do 2 eexists. split; [done|]. split; [done|]. simpl. by rewrite i64_id by apply i64_is.
    + destruct (IH k (s<|n := i64 (n s - 1)|>)) as (m & dr & -> & Hm & Hdr).
      exists m, dr. split; [done|]. split; [|done].
      intros Hi. rewrite Hm by apply i64_is. simpl. rewrite i64_wrap_sub. f_equal. simpl. lia.
Qed.

Lemma visit_accounts sent i count s s' g o gone out :
  accounts s g o gone -> visit sent i count s = Ok (s', out) ->
  exists gone', accounts s' g (o ++ out) gone' /\ ch s' = ch s.
Proof.
  revert i s o gone out. induction count as [|count IH]; intros i s o gone out Ha E; simpl in E.
  { injection E as <- <-. exists gone. by rewrite app_nil_r. }
  apply bind_Ok_inv in E as (x & Ex & E). apply slot_at_Ok in Ex as [_ Ex].
  set (idx := Z.rem _ _) in *.
  destruct (send_slot_ok (sent i) x s) as (m & dr & Es & Hm & Hdr). rewrite Es in E.
  apply bind_Ok_inv in E as ([s2 o2] & E2 & E). injection E as <- <-.
  destruct Ha as [H1 H2 H3 H4]. rewrite H4 in Hm. specialize (Hm (i64_is _)).
  simpl in *. destruct (concat_set_slot _ x [] _ Ex) as (r & Hr1 & Hr2).
  assert (accounts (s<|n := m|><|dropOut := dr|><|q := set_slot idx [] (q s)|>) g
    (o ++ take (sent i) x) (gone ++ drop (sent i) x)) as Ha1.
  { split; simpl; try done.
    - rewrite H1, Hr1, Hr2. simpl. rewrite <- (take_drop (sent i) x) at 1. rewrite <- !app_assoc.
      do 2 apply Permutation_app_head. rewrite (app_assoc r).
      apply (Permutation_app_comm _ (r ++ gone)).
    - rewrite length_app, Nat2Z.inj_add, <- (i64_wrap (len gone)), <- H3, i64_wrap.
      replace (loss s + dropSpeed s + dr) with (dr + (loss s + dropSpeed s)) by lia.
      rewrite <- (i64_wrap dr), Hdr, i64_wrap. f_equal. lia.
    - rewrite Hm, i64_wrap_sub, Hr1, Hr2, length_app. f_equal. simpl. lia. }
  destruct (IH _ _ _ _ _ Ha1 E2) as (gone' & Ha' & Hch). exists gone'. by rewrite app_assoc.
Qed.

Lemma chan_step_accounts e s s' g o gone g' o' :
  accounts s g o gone -> chan_step e s = Ok (s', g', o') ->
  exists gone', accounts s' (g ++ g') (o ++ o') gone'.
Proof.
  intros Ha E. unfold chan_step in E.
  assert (Hid : forall x, Ok (s, [], []) = Ok (x, g', o') ->
    exists gone', accounts x (g ++ g') (o ++ o') gone').
  { intros x [= <- <- <-]. exists gone. by rewrite !app_nil_r. }
  destruct (running s); [|by apply Hid].
  destruct e as [lost lps d now v|sent now].
  - destruct (ch s); [|by apply Hid]. apply bind_Ok_inv in E as (s1 & E1 & E). injection E as <- <- <-.
    rewrite app_nil_r. by eapply take_accounts.
  - apply bind_Ok_inv in E as ([s1 o1] & E1 & E). injection E as <- <- <-. rewrite app_nil_r.
    unfold tick in E1. apply bind_Ok_inv in E1 as ([s2 o2] & E2 & E1). injection E1 as <- <-.
    destruct (visit_accounts _ _ _ _ _ g o gone o2 Ha E2) as (gone' & [] & _). exists gone'. by split.
Qed.

Lemma chan_run_accounts es : forall s s' g o gone g' o',
  accounts s g o gone -> chan_run es s = Ok (s', g', o') ->
  exists gone', accounts s' (g ++ g') (o ++ o') gone'.
Proof.
  induction es as [|e es IH]; intros s s' g o gone g' o' Ha E; simpl in E.
  { injection E as <- <- <-. exists gone. by rewrite !app_nil_r. }
  apply bind_Ok_inv in E as ([[s1 g1] o1] & E1 & E). apply bind_Ok_inv in E as ([[s2 g2] o2] & E2 & E).
  injection E as <- <- <-. destruct (chan_step_accounts _ _ _ _ _ _ _ _ Ha E1) as [gone1 Ha1].
  rewrite !app_assoc. by eapply IH.
Qed.

(** ** Lemmas: the ring is a calendar *)

Lemma due_filter (P : Z * V -> Prop) `{!forall e, Decision (P e)} t p :
  (forall v, P (t, v)) -> due t (filter P p) = due t p.
Proof.
  intros HP. unfold due. rewrite list_filter_filter. f_equal. apply list_filter_iff.
  intros [t' v]. simpl. split; [by intros [? _]|]. by intros ->.
Qed.

Lemma due_none t p : (forall e, e ∈ p -> e.1 <> t) -> due t p = [].
Proof. intros Hp. unfold due. by rewrite filter_none. Qed.

Lemma due_app t p1 p2 : due t (p1 ++ p2) = due t p1 ++ due t p2.
Proof. unfold due. by rewrite filter_app, fmap_app. Qed.

(** What is due first, and the rest. *)
Lemma due_split t p :
  (forall e, e ∈ p -> t <= e.1) ->
  len p = len (due t p) + len (filter (fun e => t + 1 <= e.1) p).
Proof.
  induction p as [|[t' v] p IH]; intros Hp; [done|].
  assert (t <= t') as Ht by (apply (Hp (t', v)); by left).
  assert (forall e, e ∈ p -> t <= e.1) as Hp' by (intros e He; apply Hp; by right).
  specialize (IH Hp'). unfold due in *. rewrite length_fmap in *. rewrite !filter_cons. simpl.
  repeat case_decide; simpl in *; lia.
Qed.

(** The slot of the ring for what is due in [k] milliseconds. *)
Definition ring_slot (s : lossy) (k : Z) : nat := Z.to_nat ((curIdx s + k) mod slots).

Lemma slot_index s k :
  0 <= curIdx s < 2 ^ 62 -> 0 <= k < 2 ^ 62 ->
  Z.rem (i64 (curIdx s + k)) slots = (curIdx s + k) mod slots /\
  (Z.to_nat (Z.rem (i64 (curIdx s + k)) slots)) = ring_slot s k.
Proof.
  intros H1 H2. rewrite i64_id by (unfold is_i64; lia). unfold ring_slot.
  by rewrite Z.rem_mod_nonneg by (unfold slots; lia).
Qed.

Lemma ring_slot_inj s k k' :
  0 <= k < slots -> 0 <= k' < slots -> ring_slot s k = ring_slot s k' -> k = k'.
Proof.
  unfold ring_slot, slots. intros H1 H2 E.
  pose proof (Z.mod_pos_bound (curIdx s + k) 5000). pose proof (Z.mod_pos_bound (curIdx s + k') 5000).
  assert ((curIdx s + k) mod 5000 = (curIdx s + k') mod 5000) as E' by lia.
  clear E. Z.div_mod_to_equations. lia.
Qed.

Record sim (ms0 : Z) (s : lossy) (c : calendar) : Prop := {
  sm_len : length (q s) = Z.to_nat slots;
  sm_time : curMs s = clock c /\ curIdx s = clock c - ms0 /\ 0 <= ms0 <= clock c /\ clock c < 2 ^ 61;
  sm_slot : forall k, 0 <= k < slots -> q s !! ring_slot s k = Some (due (clock c + k) (pending c));
  sm_range : forall e, e ∈ pending c -> clock c <= e.1 < clock c + slots;
  sm_n : n s = len (pending c) /\ len (pending c) < 2 ^ 62;
  sm_open : ch s = open c;
  sm_limit : speedLimit s = limit c;
}.

Lemma sim_start now :
  0 <= now -> is_i64 now ->
  sim (milli now) (LossyChannel now) (mkCalendar [] (milli now) None true).
Proof.
  intros H1 H2. assert (0 <= milli now < 2 ^ 61) as Hm.
  { unfold milli, is_i64 in *. Z.to_euclidean_division_equations. lia. }
  split; try exact eq_refl.
  - split; [done|]. cbn [curIdx LossyChannel clock]. lia.
  - intros k Hk. change (q _) with (replicate (Z.to_nat slots) (@nil V)).
    apply lookup_replicate_2. unfold ring_slot, slots.
    pose proof (Z.mod_pos_bound (curIdx (LossyChannel now) + k) 5000). lia.
  - intros e He. by apply elem_of_nil in He.
  - done.
Qed.

(** One slot visited: what is due [i] milliseconds on is taken out of the calendar. *)
Lemma sim_visit_slot ms0 s c i m dr :
  sim ms0 s c -> 0 <= i < 2 ^ 62 -> (forall e, e ∈ pending c -> clock c + i <= e.1) ->
  let x := due (clock c + i) (pending c) in
  slot_at (Z.rem (i64 (curIdx s + i)) slots) (q s) = Ok x /\
  (m = i64 (n s - len x) ->
   sim ms0 (s<|n := m|><|dropOut := dr|><|q := set_slot (Z.rem (i64 (curIdx s + i)) slots) [] (q s)|>)
     (c<|pending := filter (fun e => clock c + i + 1 <= e.1) (pending c)|>)).
Proof.
  intros [Hl (Ht1 & Ht2 & Ht3 & Ht4) Hs Hr [Hn Hb] Ho Hli] Hi Hp x.
  assert (0 <= curIdx s < 2 ^ 62) as Hc by lia.
  destruct (slot_index s i Hc Hi) as [Ei Ej].
  set (k := i mod slots). assert (0 <= k < slots) as Hk by (apply Z.mod_pos_bound; done).
  assert (ring_slot s i = ring_slot s k) as Ek.
  { unfold ring_slot, k. by rewrite Z.add_mod_idemp_r by done. }
  assert (x = due (clock c + k) (pending c)) as Hx.
  { destruct (Z.ltb_spec i slots) as [Hlt|Hge]; [unfold k; by rewrite Z.mod_small by lia|].
    unfold x. rewrite !due_none; [done|..]; intros e He; pose proof (Hr e He); pose proof (Hp e He); lia. }
  split.
  { unfold slot_at. rewrite (proj2 (Z.ltb_ge _ _)) by (rewrite Ei; by apply Z.mod_pos_bound).
    by rewrite Ej, Ek, (Hs k Hk), Hx. }
  intros ->. pose proof (due_split (clock c + i) (pending c) (fun e He => Hp e He)) as Hlen.
  split; simpl; try done.
  - unfold set_slot. by rewrite length_insert.
  - intros j Hj. unfold set_slot. rewrite Ej, Ek.
    change (ring_slot _ j) with (ring_slot s j). destruct (decide (j = k)) as [->|Hne].
    + rewrite list_lookup_insert_eq by (rewrite Hl; unfold ring_slot, slots;
        pose proof (Z.mod_pos_bound (curIdx s + k) 5000); lia).
      f_equal. symmetry. apply due_none. intros e [H1 H2]%list_elem_of_filter.
      destruct (Z.ltb_spec i slots) as [Hlt|Hge]; [unfold k; rewrite Z.mod_small by lia; lia|].
      pose proof (Hr e H2). lia.
    + rewrite list_lookup_insert_ne by (intros E; apply Hne; symmetry; by eapply ring_slot_inj).
      rewrite Hs by done. f_equal. destruct (Z.ltb_spec i j) as [Hlt|Hge].
      { symmetry. apply due_filter. simpl. lia. }
      rewrite !due_none; [done|..].
      * intros e [H1 H2]%list_elem_of_filter. lia.
      * intros e He. pose proof (Hp e He). assert (i <> j); [|lia].
        intros ->. apply Hne. unfold k. by rewrite Z.mod_small by lia.
  - intros e [H1 H2]%list_elem_of_filter. by apply Hr.
  - rewrite Hn. fold x in Hlen. rewrite i64_id by (unfold is_i64; lia). lia.
Qed.

Lemma sim_filter_id ms0 s c (P : Z * V -> Prop) `{!forall e, Decision (P e)} :
  (forall e, e ∈ pending c -> P e) -> sim ms0 s c -> sim ms0 s (c<|pending := filter P (pending c)|>).
Proof. intros HP Hs. rewrite filter_all by done. by destruct c. Qed.

(** The loop over the slots. *)
Lemma sim_visit ms0 sent count : forall i s c,
  sim ms0 s c -> 0 <= i -> i + Z.of_nat count < 2 ^ 62 ->
  (forall e, e ∈ pending c -> clock c + i <= e.1) ->
  exists s', visit sent i count s =
      Ok (s', concat (map (fun j => take (sent j) (due (clock c + j) (pending c)))
                 (seqZ i (Z.of_nat count)))) /\
    sim ms0 s' (c<|pending := filter (fun e => clock c + i + Z.of_nat count <= e.1) (pending c)|>).
Proof.
  induction count as [|count IH]; intros i s c Hs Hi Hb Hp.
  { exists s. split; [done|]. apply sim_filter_id; [|done]. intros e He. specialize (Hp e He). lia. }
  cbn [visit]. destruct (sim_visit_slot ms0 s c i 0 0 Hs) as [Ex _]; [lia|done|].
  rewrite Ex. cbn [mbind res_bind]. set (x := due (clock c + i) (pending c)).
  destruct (send_slot_ok (sent i) x s) as (m & dr & -> & Hm & _).
  destruct (sim_visit_slot ms0 s c i m dr Hs) as [_ Hs1]; [lia|done|].
  cbv zeta in Hs1. fold x in Hs1.
  assert (is_i64 (n s)) as Hn by (destruct (sm_n _ _ _ Hs) as [-> ?]; unfold is_i64; lia).
  specialize (Hs1 (Hm Hn)). clear Hm Hn.
  destruct (IH (i + 1) _ _ Hs1) as (s' & E & Hs'); [lia|lia| |].
  { intros e [H1 _]%list_elem_of_filter. simpl. lia. }
  change (curIdx (s<|n := m|><|dropOut := dr|>)) with (curIdx s).
  change (q (s<|n := m|><|dropOut := dr|>)) with (q s).
  change (clock (c<|pending := _|>)) with (clock c) in E, Hs'.
  rewrite E. cbn [mbind res_bind]. exists s'. split.
  - f_equal. f_equal. replace (Z.of_nat (S count)) with (Z.of_nat count + 1) by lia.
    rewrite (seqZ_cons i) by lia. simpl. f_equal.
    replace (Z.pred (Z.of_nat count + 1)) with (Z.of_nat count) by lia.
    replace (Z.succ i) with (i + 1) by lia.
    f_equal. apply list_fmap_ext. intros _ j Hj%list_elem_of_lookup_2%elem_of_seqZ. simpl.
    rewrite due_filter; [done|]. simpl. lia.
  - replace (clock c + i + Z.of_nat (S count)) with (clock c + (i + 1) + Z.of_nat count) by lia.
    replace (filter (fun e => clock c + (i + 1) + Z.of_nat count <= e.1) (pending c)) with
      (filter (fun e => clock c + (i + 1) + Z.of_nat count <= e.1)
         (filter (fun e => clock c + i + 1 <= e.1) (pending c))); [exact Hs'|].
    rewrite list_filter_filter. apply list_filter_iff. intros e. lia.
Qed.

(** A tick, the clock having gone on by [d] milliseconds. *)
Lemma sim_advance ms0 s c d :
  sim ms0 s c -> 0 <= d -> clock c + d < 2 ^ 61 -> (forall e, e ∈ pending c -> clock c + d < e.1) ->
  sim ms0 (s<|curIdx := curIdx s + d|><|curMs := clock c + d|>) (c<|clock := clock c + d|>).
Proof.
  intros [Hl (Ht1 & Ht2 & Ht3 & Ht4) Hs Hr Hn Ho Hli] Hd Hb Hp.
  split; simpl; try done; [lia| |intros e He; pose proof (Hp e He); pose proof (Hr e He); lia].
  intros k Hk. set (k' := (d + k) mod slots).
  assert (0 <= k' < slots) as Hk' by (by apply Z.mod_pos_bound).
  assert (ring_slot (s<|curIdx := curIdx s + d|><|curMs := clock c + d|>) k = ring_slot s k') as ->.
  { unfold ring_slot, k'. simpl. by rewrite Z.add_mod_idemp_r, Z.add_assoc by done. }
  rewrite Hs by done. f_equal. destruct (Z.ltb_spec (d + k) slots) as [Hlt|Hge].
  { unfold k'. rewrite Z.mod_small by lia. f_equal. lia. }
  rewrite !due_none; [done|..]; intros e He; pose proof (Hp e He); pose proof (Hr e He); [lia|].
  assert (k' <= d); [|lia]. unfold k', slots in *. Z.div_mod_to_equations. lia.
Qed.

Lemma milli_range now : is_i64 now -> milli now < 2 ^ 61.
Proof. unfold milli, is_i64. Z.to_euclidean_division_equations. lia. Qed.

Lemma sim_tick ms0 s c sent now :
  sim ms0 s c -> clock c <= milli now -> is_i64 now ->
  exists s', tick sent now s = Ok (s', concat (map (fun i => take (sent i) (due (clock c + i) (pending c)))
                 (seqZ 0 (milli now - clock c + 1)))) /\
    sim ms0 s' (c<|pending := filter (fun e => milli now < e.1) (pending c)|><|clock := milli now|>).
Proof.
  intros Hs Hle Hnow. pose proof (milli_range now Hnow) as Hm.
  pose proof (sm_time _ _ _ Hs) as (Ht1 & Ht2 & Ht3 & Ht4).
  set (d := milli now - clock c). unfold tick.
  assert (i64 (milli now - curMs s) = d) as ->.
  { rewrite Ht1. apply i64_id. unfold is_i64. lia. }
  destruct (sim_visit ms0 sent (Z.to_nat (d + 1)) 0 s c Hs) as (s' & E & Hs'); [lia|lia| |].
  { intros e He. pose proof (sm_range _ _ _ Hs e He). lia. }
  rewrite E. cbn [mbind res_bind]. rewrite Z2Nat.id in * by lia.
  pose proof (sm_time _ _ _ Hs') as (_ & Hc & _). simpl in Hc.
  eexists. split; [reflexivity|]. rewrite i64_id by (unfold is_i64; lia).
  assert (milli now = clock c + d) as -> by lia.
  replace (filter (fun e => clock c + d < e.1) (pending c)) with
    (filter (fun e => clock c + 0 + (d + 1) <= e.1) (pending c))
    by (apply list_filter_iff; intros e; lia).
  apply (sim_advance ms0 s' _ d Hs'); simpl; [lia|lia|].
  intros e [H1 _]%list_elem_of_filter. lia.
Qed.

Lemma sim_take ms0 s c lost lps d now v :
  sim ms0 s c -> open c = true -> 0 <= d < slots -> len (pending c) + 1 < 2 ^ 62 ->
  exists s' c', take_item lost lps d now v s = Ok s' /\
    cal_step (CTake lost lps d now v) c = (c', []) /\ sim ms0 s' c' /\ clock c' = clock c /\
    len (pending c') <= len (pending c) + 1.
Proof.
  intros Hs Hop Hd Hb. pose proof Hs as [Hl (Ht1 & Ht2 & Ht3 & Ht4) Hsl Hr [Hn Hn'] Ho Hli].
  unfold take_item, cal_step. rewrite Hop. cbn [negb andb].
  destruct v as [v|].
  2:{ do 2 eexists. split; [done|]. split; [done|]. split; [by split|]. simpl. split; [done|lia]. }
  destruct lost.
  { do 2 eexists. split; [done|]. split; [done|]. split; [by split|]. split; [done|lia]. }
  cbn [speedLimit]. rewrite <- Hli.
  change (speedLimit (s<|total := i64 (total s + 1)|>)) with (speedLimit s).
  destruct (limiter _ _ _ _) as [lim [|]]; cbn [negb].
  2:{ do 2 eexists. split; [done|]. split; [done|]. split; [by split|]. simpl. split; [done|lia]. }
  simpl curIdx. simpl q. destruct (slot_index s d) as [Ei Ej]; [lia|unfold slots in *; lia|].
  set (idx := Z.rem _ _) in *.
  assert (slot_at idx (q s) = Ok (due (clock c + d) (pending c))) as ->.
  { unfold slot_at. rewrite (proj2 (Z.ltb_ge _ _)) by (rewrite Ei; by apply Z.mod_pos_bound).
    by rewrite Ej, Hsl. }
  cbn [mbind res_bind]. do 2 eexists. split; [done|]. split; [done|].
  split; [|simpl; rewrite length_app; simpl; split; [done|lia]].
  split; simpl; try done.
  - unfold set_slot. by rewrite length_insert.
  - intros k Hk. unfold set_slot. rewrite Ej. change (ring_slot _ k) with (ring_slot s k).
    rewrite due_app. destruct (decide (k = d)) as [->|Hne].
    + rewrite list_lookup_insert_eq by (by eapply lookup_lt_Some, Hsl).
      do 2 f_equal. unfold due. rewrite filter_cons_True by done. done.
    + rewrite list_lookup_insert_ne by (intros E; apply Hne; symmetry; by eapply ring_slot_inj).
      rewrite Hsl by done. unfold due at 3. rewrite filter_cons_False by (simpl; lia).
      by rewrite app_nil_r.
  - intros e [He|He%list_elem_of_singleton]%elem_of_app; [by apply Hr|]. subst e. simpl. lia.
  - rewrite length_app, Hn, i64_id by (unfold is_i64; lia). simpl. lia.
Qed.

(** Whether the goroutine still runs can be seen in the calendar. *)
Lemma sim_running ms0 s c :
  sim ms0 s c ->
  negb (open c) && (if pending c is [] then true else false) = negb (running s).
Proof.
  intros Hs. destruct (sm_n _ _ _ Hs) as [Hn _]. unfold running. rewrite (sm_open _ _ _ Hs), Hn.
  destruct (open c), (pending c); done.
Qed.

Lemma timely_le es : forall t t', t' <= t -> timely t es -> timely t' es.
Proof.
  induction es as [|[lost lps d now v|sent now] es IH]; intros t t' Ht; simpl; [done|..].
  - intros [? ?]. split; [done|]. by eapply IH.
  - intros [[? ?] ?]. split; [|done]. split; [lia|done].
Qed.

Lemma sim_step ms0 s c e es :
  sim ms0 s c -> timely (clock c) (e :: es) -> len (pending c) + 1 < 2 ^ 62 ->
  exists s' g c' o, chan_step e s = Ok (s', g, o) /\ cal_step e c = (c', o) /\
    sim ms0 s' c' /\ timely (clock c') es /\ len (pending c') <= len (pending c) + 1.
Proof.
  intros Hs Ht Hb. pose proof (sim_running _ _ _ Hs) as Hrun. unfold chan_step.
  destruct (running s); cbn [negb] in Hrun.
  2:{ exists s, [], c, []. split; [done|]. unfold cal_step. rewrite Hrun. split; [done|].
      split; [done|]. split; [|lia]. destruct e; simpl in Ht; [apply Ht|].
      destruct Ht as [[? _] ?]. by eapply timely_le. }
  destruct e as [lost lps d now v|sent now]; destruct Ht as [Hd Ht].
  - rewrite (sm_open _ _ _ Hs). destruct (open c) eqn:Hop.
    + destruct (sim_take ms0 s c lost lps d now v Hs Hop Hd Hb) as (s' & c' & -> & E2 & Hs' & Hc & Hl).
      exists s', (option_list v), c', []. by rewrite Hc.
    + exists s, [], c, []. split; [done|]. unfold cal_step. rewrite Hop. cbn [negb andb].
      split; [by destruct (pending c)|]. split; [done|]. split; [done|lia].
  - destruct Hd as [Hle Hnow]. destruct (sim_tick ms0 s c sent now Hs Hle Hnow) as (s' & -> & Hs').
    do 4 eexists. split; [done|]. unfold cal_step. rewrite Hrun. split; [done|]. split; [done|].
    split; [done|]. simpl. pose proof (length_filter (fun e : Z * V => milli now < e.1) (pending c)). lia.
Qed.

Lemma sim_run ms0 es : forall s c,
  sim ms0 s c -> timely (clock c) es -> len (pending c) + len es < 2 ^ 62 ->
  exists s' g c' o, chan_run es s = Ok (s', g, o) /\ cal_run es c = (c', o) /\ sim ms0 s' c'.
Proof.
  induction es as [|e es IH]; intros s c Hs Ht Hb.
  { by exists s, [], c, []. }
  simpl length in Hb. destruct (sim_step ms0 s c e es Hs Ht) as (s1 & g1 & c1 & o1 & E1 & E2 & Hs1 & Ht1 & Hl1); [lia|].
  destruct (IH s1 c1 Hs1 Ht1) as (s2 & g2 & c2 & o2 & E3 & E4 & Hs2); [lia|].
  cbn [chan_run cal_run]. rewrite E1, E2. cbn [mbind res_bind]. rewrite E3, E4.
  by do 4 eexists.
Qed.

(** ** Lemmas: the rate *)

(** Offers, each a time and a size, and those that pass. *)
Fixpoint admit_all (limitPerSec : Z) (offers a : list (Z * Z)) (lim : option Z) :
    list (Z * Z) * option Z :=
  match offers with
  | [] => (a, lim)
  | (now, sz) :: offers =>
      let '(lim, pass) := limiter limitPerSec now sz lim in
      admit_all limitPerSec offers (if pass : bool then a ++ [(now, sz)] else a) lim
  end.

(** The time that the items take at the rate, and how much they are. *)
Definition cost (limitPerSec : Z) (a : list (Z * Z)) : Z :=
  foldr (fun e acc => Z.quot (i64 (e.2 * 1000000000)) limitPerSec + acc) 0 a.
Definition volume (a : list (Z * Z)) : Z := foldr (fun e acc => e.2 + acc) 0 a.
Definition budget (limitPerSec : Z) (a : list (Z * Z)) : option Z :=
  match a with [] => None | (t0, _) :: _ => Some (t0 + cost limitPerSec a) end.

(** The last item to pass came when the ones before it had taken their time. *)
Definition paced (limitPerSec : Z) (a : list (Z * Z)) : Prop :=
  forall t0 sz0 r a' t sz, a = (t0, sz0) :: r -> a = a' ++ [(t, sz)] -> t0 + cost limitPerSec a' <= t.

Lemma cost_app L a1 a2 : cost L (a1 ++ a2) = cost L a1 + cost L a2.
Proof. unfold cost. induction a1 as [|e a1 IH]; simpl; lia. Qed.

Lemma cost_volume L a :
  0 < L -> Forall (fun e => 0 <= e.2 < 2 ^ 32) a -> volume a * 1000000000 <= L * (cost L a + len a).
Proof.
  intros HL. unfold cost, volume. induction 1 as [|[t sz] a Hsz _ IH]; simpl; [lia|]. simpl in Hsz.
  rewrite i64_id by (unfold is_i64; lia).
  assert (sz * 1000000000 <= L * (Z.quot (sz * 1000000000) L + 1)).
  { Z.to_euclidean_division_equations. nia. }
  nia.
Qed.

Lemma limiter_budget L now sz a lim pass :
  L <> 0 -> paced L a -> limiter L now sz (budget L a) = (lim, pass) ->
  (if pass then lim = budget L (a ++ [(now, sz)]) /\ paced L (a ++ [(now, sz)])
   else lim = budget L a).
Proof.
  intros HL Hp. unfold limiter. rewrite (proj2 (Z.eqb_neq _ _) HL). cbn [negb].
  destruct a as [|[t0 sz0] r]; cbn [budget].
  - rewrite Z.ltb_irrefl. intros [= <- <-]. split; [unfold cost; simpl; f_equal; lia|].
    intros t1 sz1 r1 a' t sz' E1 E2. injection E1 as <- <- <-.
    destruct a' as [|? [|? ?]]; simplify_eq/=. unfold cost. simpl. lia.
  - destruct (Z.ltb_spec now (t0 + cost L ((t0, sz0) :: r))) as [|Hge]; intros [= <- <-]; [done|].
    split.
    + simpl app. cbn [budget]. rewrite (app_comm_cons r), cost_app. f_equal. unfold cost at 3. simpl. lia.
    + intros t1 sz1 r1 a' t sz' E1 E2. injection E1 as <- <- _. apply app_inj_tail in E2 as [<- E2].
      injection E2 as <- <-. done.
Qed.

Lemma admit_all_budget L offers : forall a,
  L <> 0 -> paced L a ->
  let '(a', lim) := admit_all L offers a (budget L a) in
  lim = budget L a' /\ paced L a' /\
  forall P : Z * Z -> Prop, Forall P a -> Forall P offers -> Forall P a'.
Proof.
  induction offers as [|[now sz] offers IH]; intros a HL Hp; simpl; [done|].
  destruct (limiter L now sz (budget L a)) as [lim pass] eqn:E.
  pose proof (limiter_budget L now sz a lim pass HL Hp E) as Hl.
  destruct pass.
  - destruct Hl as [-> Hp']. specialize (IH (a ++ [(now, sz)]) HL Hp').
    destruct (admit_all _ _ _ _) as [a' lim']. destruct IH as (-> & ? & HP). split; [done|]. split; [done|].
    intros P Ha [Ho1 Ho2]%Forall_cons. apply HP; [|done]. by apply Forall_app_2; [|constructor].
  - subst lim. specialize (IH a HL Hp). destruct (admit_all _ _ _ _) as [a' lim'].
    destruct IH as (-> & ? & HP). split; [done|]. split; [done|].
    intros P Ha [Ho1 Ho2]%Forall_cons. by apply HP.
Qed.

(** ** Properties *)

(** C35. The ring of time slots is a calendar as long as every delay is at least 0 and less than
    the 5000 milliseconds of the ring, and the clock of the ticks does not go back ([timely]):
    then, from any start and over any sequence of items taken and ticks, the channel does not
    panic, sends at each tick exactly what the calendar says is due, in the order in which it is
    due and for the same time in the order of arrival, and goes on exactly while the channel is
    open or something is held back. Both conditions are needed: the source enforces neither,
    [take_panics] says exactly when an item that comes in breaks the index of the ring, which a
    clock that has gone back leads to, and a delay of 5000 or more is taken modulo the ring. *)
Theorem lossy_calendar now es (H0 : 0 <= now) (H1 : is_i64 now) (Ht : timely (milli now) es)
    (Hn : len es < 2 ^ 62) :
  exists s g c o, chan_run es (LossyChannel now) = Ok (s, g, o) /\
    cal_run es (mkCalendar [] (milli now) None true) = (c, o) /\
    n s = len (pending c) /\ running s = open c || negb (len (pending c) =? 0).
Proof.
  destruct (sim_run (milli now) es _ _ (sim_start now H0 H1) Ht) as (s & g & c & o & E1 & E2 & Hs); [done|].
  exists s, g, c, o. split; [done|]. split; [done|]. destruct (sm_n _ _ _ Hs) as [En _]. split; [done|].
  unfold running. by rewrite En, (sm_open _ _ _ Hs).
Qed.

(** Nothing is duplicated or invented, and the counters tell the truth: after any run, what
    was taken is what was sent, what is held back in the ring, and as many others as the
    counters of losses and drops say; and when the goroutine ends nothing is held back. *)
Theorem lossy_conserves now es s g o (E : chan_run es (LossyChannel now) = Ok (s, g, o))
    (Hg : len g < 2 ^ 62) :
  exists gone, g ≡ₚ o ++ concat (q s) ++ gone /\
    total s = len g /\ i64 (loss s + dropSpeed s + dropOut s) = len gone /\
    n s = len (concat (q s)) /\ (running s = false -> concat (q s) = []).
Proof.
  destruct (chan_run_accounts es _ _ [] [] [] _ _ (accounts_start now) E) as [gone [H1 H2 H3 H4]].
  simpl in H1, H2. exists gone. split; [done|].
  apply Permutation_length in H1 as Hl. rewrite !length_app in Hl.
  assert (Hw : forall k, (k <= length g)%nat -> i64 (Z.of_nat k) = Z.of_nat k).
  { intros k Hk. apply i64_id. unfold is_i64. lia. }
  rewrite Hw in H2 by lia. rewrite Hw in H3, H4 by lia.
  split; [done|]. split; [done|]. split; [done|].
  unfold running. rewrite H4. intros [_ Hz]%orb_false_iff. apply negb_false_iff, Z.eqb_eq in Hz.
  apply nil_length_inv. lia.
Qed.

(** C37. The rate limit: an item passes exactly when the items that passed before it have had the
    time they take at the rate, counted from the first of them; so the bytes before the last
    item that passed are within the rate, but an idle time may be made up for at once. *)
Theorem rate_limited L offers (HL : 0 < L) (Hsz : Forall (fun e => 0 <= e.2 < 2 ^ 32) offers) :
  let '(a, lim) := admit_all L offers [] None in
  (forall now sz, (limiter L now sz lim).2 =
     match a with [] => true | (t0, _) :: _ => t0 + cost L a <=? now end) /\
  (forall t0 sz0 r a' t sz, a = (t0, sz0) :: r -> a = a' ++ [(t, sz)] ->
     volume a' * 1000000000 <= L * (t - t0 + len a')).
Proof.
  assert (paced L []) as Hp by done.
  assert (L <> 0) as HL' by lia.
  pose proof (admit_all_budget L offers [] HL' Hp) as Ha. cbn [budget] in Ha.
  destruct (admit_all L offers [] None) as [a lim]. destruct Ha as (-> & Hpa & HP). split.
  - intros now sz. unfold limiter. rewrite (proj2 (Z.eqb_neq _ _) HL'). cbn [negb].
    destruct a as [|[t0 sz0] r]; cbn [budget]; [by rewrite Z.ltb_irrefl|].
    destruct (Z.ltb_spec now (t0 + cost L ((t0, sz0) :: r))), (Z.leb_spec (t0 + cost L ((t0, sz0) :: r)) now);
      done || lia.
  - intros t0 sz0 r a' t sz E1 E2. pose proof (Hpa _ _ _ _ _ _ E1 E2) as Hc.
    assert (Forall (fun e => 0 <= e.2 < 2 ^ 32) a') as Hf.
    { apply (Forall_app _ a' [(t, sz)]). rewrite <- E2. by apply HP. }
    pose proof (cost_volume L a' HL Hf). nia.
Qed.

(** The only panic: an item that passes with a delay that, after the clock has gone back or
    because the delay is negative, puts it before the start of the ring. *)
Theorem take_panics lps d now v s (Hs : length (q s) = Z.to_nat slots)
    (Hp : (limiter lps now (item_size v) (speedLimit s)).2 = true) :
  (take_item false lps d now (Some v) s = Panic PIndex <-> Z.rem (i64 (curIdx s + d)) slots < 0) /\
  (0 <= Z.rem (i64 (curIdx s + d)) slots -> exists s', take_item false lps d now (Some v) s = Ok s').
Proof.
  unfold take_item. change (speedLimit (s<|total := i64 (total s + 1)|>)) with (speedLimit s).
  destruct (limiter _ _ _ _) as [lim pass]. simpl in Hp. subst pass. cbn [negb].
  change (curIdx (s<|total := i64 (total s + 1)|><|speedLimit := lim|>)) with (curIdx s).
  change (q (s<|total := i64 (total s + 1)|><|speedLimit := lim|>)) with (q s).
  set (idx := Z.rem _ slots). unfold slot_at. destruct (Z.ltb_spec idx 0) as [Hlt|Hge]; [split; [done|lia]|].
  destruct (lookup_lt_is_Some_2 (q s) (Z.to_nat idx)) as [x ->].
  { rewrite Hs. assert (idx < 5000); [|unfold slots; lia].
    unfold idx, slots in *. Z.to_euclidean_division_equations. lia. }
  cbn [mbind res_bind]. split; [|by eexists]. split; [done|lia].
Qed.
End Channel.

(** *** Witnesses *)

Section Witnesses.
#[local] Abbreviation strip := (fun b : list byte => Some b).

(** Two items with delays of three milliseconds and one, and ticks after two and four. *)
Definition demo_chan : list chan_event :=
  [CTake false 0 3 0 (Some [Byte.x61]); CTake false 0 1 0 (Some [Byte.x62]);
   CTick (fun _ => 9%nat) 2000000; CTake false 0 0 0 None; CTick (fun _ => 9%nat) 4000000].

Lemma demo_timely : timely 0 demo_chan.
Proof. vm_compute. repeat split; discriminate. Qed.

Lemma lossy_calendar_witness :
  exists s g, chan_run strip demo_chan (LossyChannel 0) = Ok (s, g, [[Byte.x62]; [Byte.x61]]) /\
    running s = false.
Proof.
  assert (len demo_chan < 2 ^ 62) as Hn by reflexivity.
  assert (0 <= 0) as H0 by discriminate.
  assert (is_i64 0) as H1 by (split; [discriminate|reflexivity]).
  destruct (lossy_calendar strip 0 demo_chan H0 H1 demo_timely Hn) as (s & g & c & o & E1 & E2 & _ & Hr).
  assert (cal_run strip demo_chan (mkCalendar [] (milli 0) None true) =
    (mkCalendar [] 4 None false, [[Byte.x62]; [Byte.x61]])) as E by (vm_compute; reflexivity).
  rewrite E in E2. injection E2 as <- <-. exists s, g. split; [exact E1|exact Hr].
Defined.

Lemma lossy_conserves_witness :
  exists s g o gone, chan_run strip demo_chan (LossyChannel 0) = Ok (s, g, o) /\
    g ≡ₚ o ++ concat (q s) ++ gone /\ g = [[Byte.x61]; [Byte.x62]].
Proof.
  destruct (chan_run strip demo_chan (LossyChannel 0)) as [[[s g] o]| |] eqn:E;
    [|exfalso; revert E; vm_compute; discriminate..].
  assert (res_fmap _ _ (fun r => r.1.2) (chan_run strip demo_chan (LossyChannel 0)) =
    Ok [[Byte.x61]; [Byte.x62]]) as E' by (vm_compute; reflexivity).
  rewrite E in E'. injection E' as Eg. cbn in Eg. subst g.
  assert (len [[Byte.x61]; [Byte.x62]] < 2 ^ 62) as Hg by reflexivity.
  destruct (lossy_conserves strip 0 demo_chan s _ o E Hg) as (gone & H & _).
  exists s, [[Byte.x61]; [Byte.x62]], o, gone. split; [reflexivity|]. split; [exact H|reflexivity].
Defined.

(** Fifty bytes a second: of three items of ten bytes the second comes too early. *)
Lemma rate_limited_witness :
  admit_all 50 [(0, 10); (100000000, 10); (200000000, 10)] [] None =
    ([(0, 10); (200000000, 10)], Some 400000000) /\
  volume [(0, 10)] * 1000000000 <= 50 * (200000000 - 0 + 1).
Proof.
  assert (0 < 50) as HL by reflexivity.
  assert (Forall (fun e => 0 <= e.2 < 2 ^ 32) [(0, 10); (100000000, 10); (200000000, 10)]) as Hf
    by (repeat constructor; simpl; discriminate).
  pose proof (rate_limited 50 _ HL Hf) as H.
  assert (admit_all 50 [(0, 10); (100000000, 10); (200000000, 10)] [] None =
    ([(0, 10); (200000000, 10)], Some 400000000)) as E by (vm_compute; reflexivity).
  split; [exact E|]. rewrite E in H. destruct H as [_ H].
  apply (H 0 10 [(200000000, 10)] [(0, 10)] 200000000 10); reflexivity.
Defined.

(** The clock goes back by five milliseconds. *)
Lemma take_panics_witness :
  exists s, tick (fun _ => 0%nat) 0 (LossyChannel 5000000) = Ok (s, []) /\
    take_item strip false 0 2 0 (Some [Byte.x61]) s = Panic PIndex.
Proof.
  destruct (tick (fun _ => 0%nat) 0 (LossyChannel (V := list byte) 5000000)) as [[s o]| |] eqn:E;
    [|exfalso; revert E; vm_compute; discriminate..].
  assert (s = (LossyChannel 5000000)<|curMs := 0|><|curIdx := -5|> /\ o = []) as [Es ->].
  { assert (tick (fun _ => 0%nat) 0 (LossyChannel (V := list byte) 5000000) =
      Ok ((LossyChannel 5000000)<|curMs := 0|><|curIdx := -5|>, [])) as E' by (vm_compute; reflexivity).
    rewrite E in E'. injection E' as -> ->. split; reflexivity. }
  exists s. split; [reflexivity|]. subst s. apply take_panics; vm_compute; reflexivity.
Defined.
End Witnesses.
