(* ===== verification/LossyConn.v ===== *)
(** * Connections over the lossy channel ([lossyconn.go])

    The pair of connections, each direction a lossy channel between two Go channels, and the
    wrapper of a packet connection. The wrapped connection is a parameter. *)
From S2P Require Import Prelude GoInt Lossy.

(** ** Definitions *)

Inductive neterr := NEOF | NTimeout | NShortWrite.

(** *** One direction of the pair *)

#[local] Abbreviation bytes_item := (fun b : list byte => Some b).

(** The channel [chWrite] of one end with its contents and whether it is closed, the
    goroutine, and the channel [out] that is [chRead] of the other end. [out] is closed when
    the goroutine has ended. *)
Record wire := mkWire {
  win : list (list byte);
  wclosed : bool;
  wchan : lossy (V := list byte);
  wout : list (list byte);
}.
#[export] Instance eta_wire : Eta wire := fun w => mkWire (win w) (wclosed w) (wchan w) (wout w).

(** [NewLossyPairConn]: two of these, crossed. *)
Definition newWire (now : Z) : wire := mkWire [] false (LossyChannel now) [].

Record lossyPairConn := mkPair { wire12 : wire; wire21 : wire }.
Definition NewLossyPairConn (now : Z) : lossyPairConn := mkPair (newWire now) (newWire now).

(** [WriteTo(b)]: never waits. [sz] is the capacity, at least one. *)
Definition WriteTo (sz : Z) (b : list byte) (w : wire) : res (wire * Z * option neterr) :=
  if wclosed w then Panic PSend
  else
    let p := go_copy (replicate (length b) Byte.x00) b in
    if len (win w) <? sz then Ok (w<|win := win w ++ [p]|>, len p, None)
    else Ok (w, 0, Some NShortWrite).

(** [ReadFrom(b)]: the contents of [b], the result and the error; [None] while it waits. *)
Definition ReadFrom (b : list byte) (w : wire) : res (option (wire * list byte * Z * option neterr)) :=
  match wout w with
  | p :: rest =>
      if len b <? len p then Panic (PUser "buffer too small")
      else Ok (Some (w<|wout := rest|>, go_copy b p, len p, None))
  | [] => if running (wchan w) then Ok None else Ok (Some (w, b, 0, Some NEOF))
  end.

Definition Close (w : wire) : res wire :=
  if wclosed w then Panic PClosed else Ok (w<|wclosed := true|>).

(** The goroutine: a receive gives the next packet, [nil] when the channel is closed and empty,
    and waits otherwise. *)
Definition receive (w : wire) : option (option (list byte) * wire) :=
  match win w with
  | p :: rest => Some (Some p, w<|win := rest|>)
  | [] => if wclosed w then Some (None, w) else None
  end.

(** What happens on the wire, with the packets accepted from the writer and those given to the
    reader so far. *)
Inductive wire_reach (sz now0 : Z) : list (list byte) -> list (list byte) -> wire -> Prop :=
  | wr_new : wire_reach sz now0 [] [] (newWire now0)
  | wr_write ws rs w w' b k err :
      wire_reach sz now0 ws rs w -> WriteTo sz b w = Ok (w', k, err) ->
      wire_reach sz now0 (match err with None => ws ++ [b] | Some _ => ws end) rs w'
  | wr_read ws rs w w' b b' k err :
      wire_reach sz now0 ws rs w -> ReadFrom b w = Ok (Some (w', b', k, err)) ->
      wire_reach sz now0 ws (match err with None => rs ++ [take (Z.to_nat k) b'] | Some _ => rs end) w'
  | wr_close ws rs w w' :
      wire_reach sz now0 ws rs w -> Close w = Ok w' -> wire_reach sz now0 ws rs w'
  | wr_take ws rs w w' lost lps d now v s g o :
      wire_reach sz now0 ws rs w -> ch (wchan w) = true -> receive w = Some (v, w') ->
      chan_step bytes_item (CTake lost lps d now v) (wchan w) = Ok (s, g, o) ->
      wire_reach sz now0 ws rs (w'<|wchan := s|>)
  | wr_tick ws rs w sent now s g o :
      wire_reach sz now0 ws rs w ->
      chan_step bytes_item (CTick sent now) (wchan w) = Ok (s, g, o) ->
      wire_reach sz now0 ws rs (w<|wchan := s|><|wout := wout w ++ o|>).

(** *** The wrapper *)

Record lossyPacket := mkPacket { data : list byte; addr : string }.

(** A pass of the goroutine of [NewLossyConn] that reads: [d] is what [ReadFrom] stored in the
    buffer of four kilobytes. *)
Inductive read_pass := RContinue | RBreak | RPacket (p : lossyPacket).

Definition pump_read (d : list byte) (from : string) (timeout failed : bool) : read_pass :=
  let b := go_copy (replicate 4096 Byte.x00) d in
  if timeout then RContinue
  else if (len d =? 0) || failed then RBreak
  else RPacket (mkPacket b from).

(** The fields of [lossyPacketConn] that its methods use; [chWrite] is [None] when the variable
    is [nil]. *)
Record lossyPacketConn := mkLossyConn {
  chWrite : option (list lossyPacket);
  deadlineRead : option Z;
  deadlineWrite : option Z;
  die : bool;
}.
#[export] Instance eta_lossyPacketConn : Eta lossyPacketConn := fun c =>
  mkLossyConn (chWrite c) (deadlineRead c) (deadlineWrite c) (die c).

Definition NewLossyConn : lossyPacketConn := mkLossyConn (Some []) None None false.

(** What a [select] on a channel and a timer does: receive, or see the timer fire. *)
Inductive selected := SReceive (v : option lossyPacket) | STimer.

(** [ReadFrom(b)] of the wrapper; a timer that is not set does not fire. *)
Definition PacketReadFrom (now : Z) (b : list byte) (ev : selected) (c : lossyPacketConn) :
    res (option (list byte * Z * option string * option neterr)) :=
  if (if deadlineRead c is Some t then t - now <=? 0 else false)
  then Ok (Some (b, 0, None, Some NTimeout))
  else match ev with
       | SReceive None => Ok (Some (b, 0, None, Some NEOF))
       | SReceive (Some p) =>
           if len b <? len (data p) then Panic (PUser "buffer too small")
           else Ok (Some (go_copy b (data p), len (data p), Some (addr p), None))
       | STimer => if deadlineRead c is Some _ then Ok (Some (b, 0, None, Some NTimeout))
                   else Ok None
       end.

(** [WriteTo(b, addr)] of the wrapper: [None] while it waits, which on a [nil] channel is until
    the timer fires. *)
Definition PacketWriteTo (sz now : Z) (b : list byte) (to : string) (timer : bool) (c : lossyPacketConn) :
    option (lossyPacketConn * Z * option neterr) :=
  if (if deadlineWrite c is Some t then t - now <=? 0 else false)
  then Some (c, 0, Some NTimeout)
  else
    let p := mkPacket (go_copy (replicate (length b) Byte.x00) b) to in
    if timer && (if deadlineWrite c is Some _ then true else false) then Some (c, 0, Some NTimeout)
    else match chWrite c with
         | Some l => if len l <? sz then Some (c<|chWrite := Some (l ++ [p])|>, len b, None) else None
         | None => None
         end.

(** [Close] and the setters also close the wrapped connection and set its deadlines. *)
Definition PacketClose (c : lossyPacketConn) : res lossyPacketConn :=
  if die c then Panic PClosed
  else Ok (c<|die := true|><|chWrite := None|>).

Definition SetDeadline (t : option Z) (c : lossyPacketConn) : lossyPacketConn :=
  c<|deadlineRead := t|><|deadlineWrite := t|>.
Definition SetReadDeadline (t : option Z) (c : lossyPacketConn) : lossyPacketConn :=
  c<|deadlineRead := t|>.
Definition SetWriteDeadline (t : option Z) (c : lossyPacketConn) : lossyPacketConn :=
  c<|deadlineWrite := t|>.

(** ** Lemmas *)

Lemma copy_of_all (b : list byte) : go_copy (replicate (length b) Byte.x00) b = b.
Proof. apply go_copy_all. by rewrite length_replicate. Qed.

Lemma copy_prefix (b p : list byte) :
  len p <= len b -> take (Z.to_nat (len p)) (go_copy b p) = p.
Proof.
  intros Hl. unfold go_copy. rewrite (take_ge p) by lia. rewrite Nat2Z.id. apply take_app_length.
Qed.

(** What is where on the wire. *)
Record wire_inv (w : wire) (ws rs : list (list byte)) (g gone : list (list byte)) : Prop := {
  wi_accounts : accounts (wchan w) g (rs ++ wout w) gone;
  wi_written : ws = g ++ win w;
  wi_ended : ch (wchan w) = false -> wclosed w = true /\ win w = [];
}.

Lemma take_item_ch lost lps d now v (s s' : lossy (V := list byte)) :
  take_item bytes_item lost lps d now v s = Ok s' ->
  ch s' = match v with None => false | Some _ => ch s end.
Proof.
  unfold take_item. destruct v as [v|]; [|by intros [= <-]].
  destruct lost; [by intros [= <-]|]. destruct (limiter _ _ _ _) as [lim [|]]; cbn [negb].
  - intros E. apply bind_Ok_inv in E as (x & _ & E). by injection E as <-.
  - by intros [= <-].
Qed.

Lemma wire_reach_inv sz now0 ws rs w :
  wire_reach sz now0 ws rs w -> exists g gone, wire_inv w ws rs g gone.
Proof.
  induction 1 as [|ws rs w w' b k err _ (g & gone & [Ha Hw He]) E|
    ws rs w w' b b' k err _ (g & gone & [Ha Hw He]) E|ws rs w w' _ (g & gone & [Ha Hw He]) E|
    ws rs w w' lost lps d now v s g' o _ (g & gone & [Ha Hw He]) Hch Er E|
    ws rs w sent now s g' o _ (g & gone & [Ha Hw He]) E].
  - exists [], []. split; [apply accounts_start|done|done].
  - exists g, gone. unfold WriteTo in E. destruct (wclosed w) eqn:Ec; [done|]. rewrite copy_of_all in E.
    destruct (_ <? _); injection E as <- <- <-; [|by split; simpl; rewrite ?Ec].
    split; simpl; [done|by rewrite Hw, app_assoc|]. intros Hf. by destruct (He Hf).
  - exists g, gone. unfold ReadFrom in E. destruct (wout w) as [|p rest] eqn:Eo.
    + destruct (running (wchan w)); [done|]. injection E as <- <- <- <-. rewrite <- Eo in Ha. by split.
    + destruct (Z.ltb_spec (len b) (len p)); [done|]. injection E as <- <- <- <-.
      split; simpl; try done. by rewrite copy_prefix, <- app_assoc by done.
  - exists g, gone. unfold Close in E. destruct (wclosed w) eqn:Ec; [done|]. injection E as <-.
    split; simpl; try done. intros Hf. by destruct (He Hf).
  - destruct (chan_step_accounts _ _ _ _ _ _ _ _ _ Ha E) as [gone' Ha'].
    unfold chan_step in E. unfold running in E. rewrite Hch in E. cbn [orb] in E.
    apply bind_Ok_inv in E as (s1 & E1 & E). injection E as <- <- <-. rewrite app_nil_r in Ha'.
    pose proof (take_item_ch _ _ _ _ _ _ _ E1) as Hc.
    exists (g ++ option_list v), gone'. unfold receive in Er. destruct (win w) as [|p rest] eqn:Ew.
    + destruct (wclosed w) eqn:Ec; [|done]. injection Er as <- <-. split; simpl; [done| |done].
      by rewrite Hw, Ew, !app_nil_r.
    + injection Er as <- <-. split; simpl; [done| |].
      * by rewrite Hw, <- app_assoc.
      * intros Hf. rewrite Hc, Hch in Hf. done.
  - destruct (chan_step_accounts _ _ _ _ _ _ _ _ _ Ha E) as [gone' Ha'].
    assert (g' = [] /\ ch s = ch (wchan w)) as [-> Hc].
    { unfold chan_step in E. destruct (running _); [|by injection E as <- <- _].
      apply bind_Ok_inv in E as ([s1 o1] & E1 & E). injection E as <- <- _. split; [done|].
      unfold tick in E1. apply bind_Ok_inv in E1 as ([s2 o2] & E2 & E1). injection E1 as <- _.
      by destruct (visit_accounts _ _ _ _ _ _ _ _ _ Ha E2) as (? & _ & ?). }
    rewrite app_nil_r in Ha'. exists g, gone'. split; simpl; [by rewrite app_assoc|done|].
    rewrite Hc. exact He.
Qed.

(** ** Properties *)

(** C36. The pair of connections is a faithful network: at every moment, over any sequence of
    writes, reads, closes and runs of the goroutine, the packets accepted from the writer are,
    byte for byte and each once, those given to the reader, those waiting for it, those held
    back, those lost or dropped, of which the counters tell the number, and those not yet
    taken; and when the reader is told the end of the file, every packet has been read or is
    among the lost. *)
Theorem wire_faithful sz now0 ws rs w (Hr : wire_reach sz now0 ws rs w) :
  exists gone, ws ≡ₚ rs ++ wout w ++ concat (q (wchan w)) ++ gone ++ win w /\
    i64 (loss (wchan w) + dropSpeed (wchan w) + dropOut (wchan w)) = i64 (len gone) /\
    forall b w' b' k, ReadFrom b w = Ok (Some (w', b', k, Some NEOF)) -> len ws < 2 ^ 62 ->
      ws ≡ₚ rs ++ gone /\ w' = w.
Proof.
  destruct (wire_reach_inv _ _ _ _ _ Hr) as (g & gone & [[H1 H2 H3 H4] Hw He]).
  assert (ws ≡ₚ rs ++ wout w ++ concat (q (wchan w)) ++ gone ++ win w) as Hp
    by by rewrite Hw, H1, <- !app_assoc.
  exists gone. split; [exact Hp|]. split; [done|]. intros b w' b' k E Hl.
  unfold ReadFrom in E. destruct (wout w) as [|p rest] eqn:Eo; [|by destruct (_ <? _)].
  unfold running in E. destruct (ch (wchan w)) eqn:Ec; [done|].
  destruct (Z.eqb_spec (n (wchan w)) 0) as [Hn|]; [|done]. injection E as <- _ _.
  destruct (He eq_refl) as [_ Ei]. rewrite Ei in Hp, Hw. split; [|done].
  assert (concat (q (wchan w)) = []) as Eq.
  { apply Permutation_length in H1. rewrite !length_app in H1. rewrite app_nil_r in Hw. subst g.
    rewrite H4, i64_id in Hn by (unfold is_i64; lia). apply nil_length_inv. lia. }
  by rewrite Eq, app_nil_r in Hp.
Qed.

(** What is read through the wrapper is always four kilobytes: whatever the length of the
    datagram, a reader with a shorter buffer panics, as a connection does whose packets have at
    most [udpPacketSizeLimit] = 2048 bytes, and a reader with a longer one is told 4096 bytes,
    the datagram and then zeros. *)
Theorem wrapper_pads now d from b c (Hd : 0 < len d <= 4096) (Hc : deadlineRead c = None) :
  exists p, pump_read d from false false = RPacket p /\
    (len b < 4096 -> PacketReadFrom now b (SReceive (Some p)) c = Panic (PUser "buffer too small")) /\
    (4096 <= len b -> exists b', PacketReadFrom now b (SReceive (Some p)) c =
       Ok (Some (b', 4096, Some from, None)) /\
       take 4096 b' = d ++ replicate (4096 - length d) Byte.x00).
Proof.
  unfold pump_read. rewrite (proj2 (Z.eqb_neq _ _)) by lia. cbn [orb]. eexists. split; [done|].
  set (x := go_copy _ d). assert (length x = 4096%nat) as Hx.
  { unfold x. rewrite go_copy_length. apply length_replicate. }
  unfold PacketReadFrom. rewrite Hc. cbn [data addr]. rewrite Hx. split.
  - intros Hl. by rewrite (proj2 (Z.ltb_lt _ _)) by lia.
  - intros Hl. rewrite (proj2 (Z.ltb_ge _ _)) by lia. eexists. split; [done|].
    replace 4096%nat with (Z.to_nat (len x)) at 1 by lia. rewrite copy_prefix by lia.
    unfold x, go_copy. rewrite length_replicate, take_ge, drop_replicate by lia. done.
Qed.

(** A wrapper that is closed: a write without a deadline waits for ever, and a second [Close]
    panics. *)
Theorem closed_wrapper sz now b to timer c c' (E : PacketClose c = Ok c')
    (Hd : deadlineWrite c = None) :
  PacketWriteTo sz now b to timer c' = None /\ PacketClose c' = Panic PClosed.
Proof.
  unfold PacketClose in E. destruct (die c); [done|]. injection E as <-.
  unfold PacketWriteTo. simpl. rewrite Hd. by rewrite andb_false_r.
Qed.

(** *** Witnesses *)

(** A packet written and closed behind, taken without loss, held back for a millisecond, sent,
    and read. *)
Lemma demo_wire :
  exists w, wire_reach 1 0 [[Byte.x61]] [[Byte.x61]] w /\ running (wchan w) = false /\ wout w = [].
Proof.
  eexists. split.
  - eapply (wr_read 1 0 [[Byte.x61]] [] _ _ [Byte.x00; Byte.x00] [Byte.x61; Byte.x00] 1 None).
    { eapply (wr_tick 1 0 _ _ _ (fun _ => 9%nat) 1000000).
      { eapply (wr_take 1 0 _ _ _ _ false 0 0 0).
        { eapply (wr_take 1 0 _ _ _ _ false 0 1 0).
          { eapply wr_close.
            { eapply (wr_write 1 0 [] [] _ _ [Byte.x61] 1 None); [apply wr_new|].
              vm_compute. reflexivity. }
            vm_compute. reflexivity. }
          all: vm_compute; reflexivity. }
        all: vm_compute; reflexivity. }
      vm_compute. reflexivity. }
    vm_compute. reflexivity.
  - vm_compute. split; reflexivity.
Qed.

Lemma wire_faithful_witness :
  exists w gone, wire_reach 1 0 [[Byte.x61]] [[Byte.x61]] w /\
    [[Byte.x61]] ≡ₚ [[Byte.x61]] ++ gone /\ ReadFrom [] w = Ok (Some (w, [], 0, Some NEOF)).
Proof.
  destruct demo_wire as (w & Hw & Hrun & Ho).
  assert (ReadFrom [] w = Ok (Some (w, [], 0, Some NEOF))) as Er.
  { unfold ReadFrom. rewrite Ho, Hrun. reflexivity. }
  destruct (wire_faithful 1 0 _ _ w Hw) as (gone & _ & _ & He).
  exists w, gone. split; [exact Hw|]. split; [|exact Er].
  destruct (He _ _ _ _ Er) as [H _]; [reflexivity|exact H].
Defined.

Lemma wrapper_pads_witness :
  exists p, pump_read [Byte.x61] "peer" false false = RPacket p /\
    PacketReadFrom 0 (replicate 2048 Byte.x00) (SReceive (Some p)) NewLossyConn =
      Panic (PUser "buffer too small").
Proof.
  assert (0 < len [Byte.x61] <= 4096) as Hd by (split; [reflexivity|discriminate]).
  assert (deadlineRead NewLossyConn = None) as Hc by reflexivity.
  destruct (wrapper_pads 0 [Byte.x61] "peer" (replicate 2048 Byte.x00) NewLossyConn Hd Hc)
    as (p & Ep & Hs & _).
  exists p. split; [exact Ep|]. apply Hs. rewrite length_replicate. reflexivity.
Defined.
