(* ===== verification/Testbed.v ===== *)
(** * Connections over the lossy pair ([kcpconn.go] over [lossyconn.go])

    The test bed of the program: two connections whose sockets are the two ends of a
    [lossyPairConn]. The socket of an end is the wire it writes to; the goroutine of the wire
    holds back, reorders and loses what is on it, and what the other end receives is read from
    it. The system implements the network of [Deliver.v], where anything that was sent may
    arrive at any time, and the records of the two agree: what the socket of a connection has
    taken is what was written to the wire, and a datagram arrives byte for byte, once. *)
From S2P Require Import Prelude GoInt Stats Wire Kcp Serial Send Recv Ack Input Flush Flushed Timer Session Protocol Lossy LossyConn Buffer Conn Calls Deliver Sockets.

(** ** Definitions *)

Section Bed.
Context `{BufPool} {Q : Type} `{ByteQueue Q}.
#[local] Abbreviation endpoint := (endpoint (Q := Q) (Sock := wire)).

(** The capacity of the channels and the time at which they are made. *)
Context (sz now0 : Z).

(** The socket: [WriteTo] of the pair succeeds when it gives no error. *)
Definition write_wire (w : wire) (b : list byte) : wire * bool :=
  match LossyConn.WriteTo sz b w with
  | Ok (w', _, None) => (w', true)
  | Ok (w', _, Some _) => (w', false)
  | _ => (w, false)
  end.

(** What the goroutine of a wire and the closing of its end do to it. *)
Inductive wire_moves (w : wire) : wire -> Prop :=
  | wm_take w' lost lps d now v s g o :
      ch (wchan w) = true -> receive w = Some (v, w') ->
      chan_step (fun b : list byte => Some b) (CTake lost lps d now v) (wchan w) = Ok (s, g, o) ->
      wire_moves w (w'<|wchan := s|>)
  | wm_tick sent now s g o :
      chan_step (fun b : list byte => Some b) (CTick sent now) (wchan w) = Ok (s, g, o) ->
      wire_moves w (w<|wchan := s|><|wout := wout w ++ o|>)
  | wm_close w' : LossyConn.Close w = Ok w' -> wire_moves w w'.

Definition with_wire (e : endpoint) (w : wire) : endpoint :=
  mkEnd ((e_conn e)<|conn := Some w|>) (e_wrote e) (e_read e) (e_sent e) (e_numbered e).

(** An end after a call. *)
Definition called (e : endpoint) (c : call) s (tr : list event) (d : list byte) : endpoint :=
  mkEnd s (e_wrote e ++ wrote_by c (e_conn e)) (e_read e ++ d) (e_sent e ++ packets_of tr)
    (e_numbered e + dist (snd_nxt (kcp (e_conn e))) (snd_nxt (kcp s))).

(** A step of the first end: a call while its socket is open; its receiver reads a packet of the
    other wire into a buffer of the pool and [doKcpInput] takes it; its wire moves. *)
Inductive bstep : endpoint * endpoint -> endpoint * endpoint -> Prop :=
  | b_call e1 e2 w c s tr d :
      conn (e_conn e1) = Some w -> wclosed w = false -> call_ok (e_conn e1) c ->
      (forall now now' pkt, c <> KInput now now' pkt) ->
      perform_call write_wire c (e_conn e1) = Ok (s, tr, d) ->
      bstep (e1, e2) (called e1 c s tr d, e2)
  | b_receive e1 e2 w w2 buf now now' w2' b k s tr d (c := KInput now now' (take (Z.to_nat k) b)) :
      conn (e_conn e1) = Some w -> wclosed w = false -> conn (e_conn e2) = Some w2 ->
      length buf = Z.to_nat udpPacketSizeLimit ->
      LossyConn.ReadFrom buf w2 = Ok (Some (w2', b, k, None)) ->
      perform_call write_wire c (e_conn e1) = Ok (s, tr, d) ->
      bstep (e1, e2) (called e1 c s tr d, with_wire e2 w2')
  | b_wire e1 e2 w w' :
      conn (e_conn e1) = Some w -> wire_moves w w' -> bstep (e1, e2) (with_wire e1 w', e2).

Inductive breach (cv : Z) : endpoint -> endpoint -> Prop :=
  | br_new s1 s2 :
      opened cv s1 -> opened cv s2 ->
      conn s1 = Some (newWire now0) -> conn s2 = Some (newWire now0) ->
      breach cv (mkEnd s1 [] [] [] 0) (mkEnd s2 [] [] [] 0)
  | br_left e1 e2 e1' e2' : breach cv e1 e2 -> bstep (e1, e2) (e1', e2') -> breach cv e1' e2'
  | br_right e1 e2 e1' e2' : breach cv e1 e2 -> bstep (e2, e1) (e2', e1') -> breach cv e1' e2'.

(** ** Lemmas *)

(** The wire of an end: what has been written to it is what the connection has sent, [got] is
    what the other end has received. *)
Definition on_wire (e : endpoint) (got : list (list byte)) : Prop :=
  exists w, conn (e_conn e) = Some w /\ wire_reach sz now0 (e_sent e) got w.

Lemma takes_wire c ps c' : takes write_wire c ps c' ->
  forall w ws rs, c = Some w -> wclosed w = false -> wire_reach sz now0 ws rs w ->
  exists w', c' = Some w' /\ wire_reach sz now0 (ws ++ ps) rs w'.
Proof.
  induction 1 as [c|c c1 c2 p ok ps E _ IH]; intros w ws rs Ec Ho Hr.
  - exists w. by rewrite app_nil_r.
  - injection Ec as ->. unfold write_wire in E. rewrite app_assoc. unfold LossyConn.WriteTo in E.
    rewrite Ho in E. destruct (len (win w) <? sz) eqn:Hl; injection E as <- <-; apply (IH _ _ _ eq_refl Ho).
    + eapply (wr_write sz now0 ws rs w _ p _ None); [done|]. unfold LossyConn.WriteTo. by rewrite Ho, Hl.
    + by rewrite app_nil_r.
Qed.

Lemma called_wire e c w s tr d got :
  conn (e_conn e) = Some w -> wclosed w = false ->
  perform_call write_wire c (e_conn e) = Ok (s, tr, d) -> on_wire e got ->
  on_wire (called e c s tr d) got.
Proof.
  intros Ec Ho E (w0 & E0 & Hr). rewrite Ec in E0. injection E0 as <-.
  exact (takes_wire _ _ _ (perform_call_socket write_wire c _ _ _ _ E) w _ _ Ec Ho Hr).
Qed.

Lemma moves_wire ws rs w w' : wire_reach sz now0 ws rs w -> wire_moves w w' -> wire_reach sz now0 ws rs w'.
Proof. intros Hr [w1 lost lps d now v s g o H1 H2 H3|sent now s g o H1|w1 H1]; 
  [by eapply wr_take|by eapply wr_tick|by eapply wr_close]. Qed.

(** What is read from a wire has been written to it. *)
Lemma read_wire ws rs w buf w' b k :
  wire_reach sz now0 ws rs w -> LossyConn.ReadFrom buf w = Ok (Some (w', b, k, None)) ->
  wire_reach sz now0 ws (rs ++ [take (Z.to_nat k) b]) w' /\ take (Z.to_nat k) b ∈ ws /\ k <= len buf.
Proof.
  intros Hr E. pose proof (wr_read sz now0 ws rs w w' buf b k None Hr E) as Hr'. split; [done|].
  destruct (wire_reach_inv _ _ _ _ _ Hr') as (g & gone & [[Hp _ _ _] -> _]). split.
  - apply elem_of_app. left. rewrite Hp, !elem_of_app. do 2 left. right. by left.
  - unfold LossyConn.ReadFrom in E. destruct (wout w) as [|p q]; [by destruct (running _)|].
    destruct (Z.ltb_spec (len buf) (len p)); [done|]. by injection E as _ _ <-.
Qed.

Lemma on_wire_sent e got : on_wire e got -> got ⊆ e_sent e.
Proof.
  intros (w & _ & Hr). destruct (wire_reach_inv _ _ _ _ _ Hr) as (g & gone & [[Hp _ _ _] -> _]).
  intros x Hx. apply elem_of_app. left. rewrite Hp, !elem_of_app. left. by left.
Qed.

(** What the test bed keeps: its ends are ends of the network of [Deliver.v], with the records of
    the wires. *)
Definition refines (cv : Z) (e1 e2 : endpoint) : Prop :=
  ereach (fun _ => write_wire) cv e1 e2 /\ exists got1 got2, on_wire e1 got2 /\ on_wire e2 got1.

Lemma refines_sym cv e1 e2 : refines cv e1 e2 -> refines cv e2 e1.
Proof. intros [Hr (g1 & g2 & H1 & H2)]. split; [by apply ereach_sym|]. by exists g2, g1. Qed.

Lemma with_wire_step side net e w : estep (fun _ => write_wire) side net e (with_wire e w).
Proof. apply estep_quiet. split_and!; [done..|by eexists]. Qed.

Lemma pair_step_refines cv e1 e2 e1' e2' :
  refines cv e1 e2 -> bstep (e1, e2) (e1', e2') -> refines cv e1' e2'.
Proof.
  intros [Hr (got1 & got2 & H1 & H2)] Hs.
  inversion Hs as [x1 x2 w c s tr d Ec Ho Hc Hn E|x1 x2 w w2 buf now now' w2' b k s tr d c Ec Ho Ec2 Hl Erd E|
    x1 x2 w w' Ec Hm]; subst.
  - split; [|exists got1, got2; split; [by eapply called_wire|done]].
    eapply er_left; [exact Hr|]. apply estep_call; try done.
    intros now now' pkt ->. by destruct (Hn now now' pkt).
  - destruct H2 as (w0 & E0 & Hw2). rewrite Ec2 in E0. injection E0 as <-.
    destruct (read_wire _ _ _ _ _ _ _ Hw2 Erd) as (Hw2' & Hin & Hk).
    assert (call_ok (e_conn e1) c) as Hc.
    { cbn [call_ok c]. rewrite length_take. rewrite Hl in Hk. vm_compute (Z.to_nat udpPacketSizeLimit) in Hk. lia. }
    split.
    + eapply er_right; [|apply with_wire_step]. eapply er_left; [exact Hr|]. apply estep_call; try done.
      intros t t' pkt [= _ _ <-]. by left.
    + exists (got1 ++ [take (Z.to_nat k) b]), got2. split; [by eapply called_wire|]. by exists w2'.
  - destruct H1 as (w0 & E0 & Hw). rewrite Ec in E0. injection E0 as <-.
    split; [eapply er_left; [exact Hr|apply with_wire_step]|].
    exists got1, got2. split; [|done]. exists w'. split; [done|]. by eapply moves_wire.
Qed.

Lemma breach_refines cv e1 e2 : breach cv e1 e2 -> refines cv e1 e2.
Proof.
  induction 1 as [s1 s2 O1 O2 C1 C2|e1 e2 e1' e2' _ IH Hs|e1 e2 e1' e2' _ IH Hs].
  - split; [by apply er_new|]. exists [], []. split; (eexists; split; [eassumption|apply wr_new]).
  - by eapply pair_step_refines.
  - apply refines_sym. eapply pair_step_refines; [by apply refines_sym|done].
Qed.

(** ** Properties *)

(** C40. The test bed implements the network that delivery assumes, and delivers: over any run of
    two connections on a lossy pair, with any draws of loss and delay, the two connections are
    ends of the network of [connections_deliver]; the wire of each end is in a state in which
    exactly the datagrams counted as sent were written to it; and what is read at each end is a
    prefix of what was written at the other, all of it once nothing waits to be sent. *)
Theorem pair_delivers cv e1 e2 (Hcv : is_u32 cv) (Hr : breach cv e1 e2)
    (H1 : e_numbered e1 < 2147483648) (H2 : e_numbered e2 < 2147483648) :
  ereach (fun _ => write_wire) cv e1 e2 /\
  (exists got1 got2, on_wire e1 got2 /\ on_wire e2 got1 /\ got2 ⊆ e_sent e1 /\ got1 ⊆ e_sent e2) /\
  e_read e2 `prefix_of` e_wrote e1 /\ e_read e1 `prefix_of` e_wrote e2 /\
  (waitSnd (kcp (e_conn e1)) = 0 -> e_read e2 ++ stored (e_conn e2) = e_wrote e1).
Proof.
  destruct (breach_refines cv e1 e2 Hr) as [He (g1 & g2 & W1 & W2)]. split; [exact He|]. split.
  - exists g1, g2. split; [done|]. split; [done|]. split; by apply on_wire_sent.
  - apply (einv_delivers cv e1 e2); [|exact H1]. by apply (ereach_einv (fun _ => write_wire)).
Qed.
End Bed.

(** *** A run: the opening of both ends, two bytes written, carried and read *)

Section Demo.
#[local] Existing Instance zero_pool.
#[local] Abbreviation endpoint := (endpoint (Q := Buffer) (Sock := wire)).
Implicit Types e : endpoint.

Definition bed_new : KCPConn (Q := Buffer) (Sock := wire) :=
  match newKCPConn with Ok s => s | _ => mkKCPConn KCP0 false false None None None q_empty false false false false [] end.

Lemma bed_new_eq : newKCPConn = Ok bed_new.
Proof. vm_compute. reflexivity. Qed.

(** The steps of a run, computed: a call of the first end, the next packet of the other wire
    arriving, and the wire of the first end taking a packet that it sends a millisecond later,
    at the time [t] in milliseconds. *)
Definition on_open (e : endpoint) : bool :=
  match conn (e_conn e) with Some w => negb (wclosed w) | None => false end.
Definition bed_call (c : call) e : endpoint :=
  match perform_call (write_wire 8) c (e_conn e) with Ok (s, tr, d) => called e c s tr d | _ => e end.
Definition bed_take (t : Z) e : endpoint :=
  match conn (e_conn e) with
  | Some w =>
      match receive w with
      | Some (v, w') =>
          match chan_step (fun b : list byte => Some b) (CTake false 0 1 t v) (wchan w) with
          | Ok (s, _, _) => if ch (wchan w) then with_wire e (w'<|wchan := s|>) else e
          | _ => e
          end
      | None => e
      end
  | None => e
  end.
Definition bed_tick (t : Z) e : endpoint :=
  match conn (e_conn e) with
  | Some w =>
      match chan_step (fun b : list byte => Some b) (CTick (fun _ => 9%nat) t) (wchan w) with
      | Ok (s, _, o) => with_wire e (w<|wchan := s|><|wout := wout w ++ o|>)
      | _ => e
      end
  | None => e
  end.
Definition bed_receive (now : Z) (w : endpoint * endpoint) : endpoint * endpoint :=
  let (e1, e2) := w in
  match conn (e_conn e2) with
  | Some w2 =>
      match LossyConn.ReadFrom (replicate (Z.to_nat udpPacketSizeLimit) Byte.x00) w2 with
      | Ok (Some (w2', b, k, None)) =>
          match perform_call (write_wire 8) (KInput now now (take (Z.to_nat k) b)) (e_conn e1) with
          | Ok (s, tr, d) => (called e1 (KInput now now (take (Z.to_nat k) b)) s tr d, with_wire e2 w2')
          | _ => (e1, e2)
          end
      | _ => (e1, e2)
      end
  | None => (e1, e2)
  end.

#[local] Abbreviation bed := (breach 8 0 7).

Lemma bed_sym e1 e2 : bed e1 e2 -> bed e2 e1.
Proof.
  induction 1 as [s1 s2 O1 O2 C1 C2|e1 e2 e1' e2' _ IH Hs|e1 e2 e1' e2' _ IH Hs].
  - by apply br_new.
  - by eapply br_right.
  - by eapply br_left.
Qed.

Lemma bed_call_left c e1 e2 :
  bed e1 e2 -> on_open e1 = true -> call_ok (e_conn e1) c ->
  (forall now now' pkt, c <> KInput now now' pkt) -> bed (bed_call c e1) e2.
Proof.
  intros Hb Ho Hc Hn. unfold on_open in Ho. destruct (conn (e_conn e1)) as [w|] eqn:Ec; [|done].
  apply negb_true_iff in Ho. unfold bed_call.
  destruct (perform_call _ c (e_conn e1)) as [[[s tr] d]| |] eqn:E; [|exact Hb..].
  eapply br_left; [exact Hb|]. by eapply b_call.
Qed.

Lemma bed_wire_left w' e1 e2 :
  bed e1 e2 -> (exists w, conn (e_conn e1) = Some w /\ wire_moves w w') -> bed (with_wire e1 w') e2.
Proof. intros Hb (w & Ec & Hm). eapply br_left; [exact Hb|]. by eapply b_wire. Qed.

Lemma bed_take_left t e1 e2 : bed e1 e2 -> bed (bed_take t e1) e2.
Proof.
  intros Hb. unfold bed_take. destruct (conn (e_conn e1)) as [w|] eqn:Ec; [|done].
  destruct (receive w) as [[v w']|] eqn:Er; [|done].
  destruct (chan_step _ _ _) as [[[s g] o]| |] eqn:E; [|done..].
  destruct (ch (wchan w)) eqn:Eh; [|done]. apply bed_wire_left; [done|]. exists w. split; [done|].
  by eapply wm_take.
Qed.

Lemma bed_tick_left t e1 e2 : bed e1 e2 -> bed (bed_tick t e1) e2.
Proof.
  intros Hb. unfold bed_tick. destruct (conn (e_conn e1)) as [w|] eqn:Ec; [|done].
  destruct (chan_step _ _ _) as [[[s g] o]| |] eqn:E; [|done..].
  apply bed_wire_left; [done|]. exists w. split; [done|]. by eapply wm_tick.
Qed.

Lemma bed_receive_left now e1 e2 :
  bed e1 e2 -> on_open e1 = true ->
  bed (bed_receive now (e1, e2)).1 (bed_receive now (e1, e2)).2.
Proof.
  intros Hb Ho. unfold on_open in Ho. destruct (conn (e_conn e1)) as [w|] eqn:Ec; [|done].
  apply negb_true_iff in Ho. unfold bed_receive. destruct (conn (e_conn e2)) as [w2|] eqn:Ec2; [|done].
  destruct (LossyConn.ReadFrom _ w2) as [[[[[w2' b] k] [err|]]|]| |] eqn:Er; try exact Hb.
  destruct (perform_call _ _ _) as [[[s tr] d]| |] eqn:E; [|exact Hb..].
  eapply br_left; [exact Hb|]. eapply b_receive; try done. apply length_replicate.
Qed.

Definition ms (t : Z) : Z := 1000000 * t.
Definition bed_c0 : endpoint := mkEnd (connect 7 (newWire 0) bed_new).1 [] [] [] 0.
Definition bed_s0 : endpoint := mkEnd (accept 7 (newWire 0) bed_new).1 [] [] [] 0.
(** The client sends CONNECT; the server answers in two datagrams; ... *)
Definition bed_c1 : endpoint :=
  bed_tick (ms 3) (bed_take (ms 1) (bed_call (KMain (ms 20) true) (bed_call (KConnect 0) bed_c0))).
Definition bed_x1 := bed_receive (ms 30) (bed_s0, bed_c1).
Definition bed_s1 : endpoint :=
  bed_tick (ms 6) (bed_take (ms 4) (bed_take (ms 4) (bed_call (KMain (ms 35) true) bed_x1.1))).
Definition bed_x2 := bed_receive (ms 40) (bed_x1.2, bed_s1).
Definition bed_x3 := bed_receive (ms 41) bed_x2.
(** ... the client writes, and the server reads. *)
Definition bed_c2 : endpoint :=
  bed_tick (ms 9) (bed_take (ms 7) (bed_call (KMain (ms 60) true)
    (bed_call (KWrite (ms 50) [Byte.x68; Byte.x69]) bed_x3.1))).
Definition bed_x4 := bed_receive (ms 80) (bed_x3.2, bed_c2).
Definition bed_s2 : endpoint := bed_call (KRead (ms 80) 10) bed_x4.1.

Lemma bed_receive_pair now w :
  bed w.1 w.2 -> on_open w.1 = true -> bed (bed_receive now w).1 (bed_receive now w).2.
Proof. destruct w as [e1 e2]. apply bed_receive_left. Qed.

Lemma bed_run : bed bed_x4.2 bed_s2.
Proof.
  assert (bed bed_c0 bed_s0) as B0.
  { apply br_new; [exists bed_new, (newWire 0); split; [exact bed_new_eq|by right]
                  |exists bed_new, (newWire 0); split; [exact bed_new_eq|by left]|done|done]. }
  assert (bed bed_s0 bed_c1) as B1.
  { apply bed_sym, bed_tick_left, bed_take_left. do 2 (apply bed_call_left; [|vm_compute; reflexivity|exact I|discriminate]).
    exact B0. }
  assert (bed bed_x1.1 bed_x1.2) as B2 by (unfold bed_x1; apply bed_receive_left; [exact B1|vm_compute; reflexivity]).
  assert (bed bed_x1.2 bed_s1) as B3.
  { apply bed_sym, bed_tick_left. do 2 apply bed_take_left.
    apply bed_call_left; [exact B2|vm_compute; reflexivity|exact I|discriminate]. }
  assert (bed bed_x2.1 bed_x2.2) as B4 by (unfold bed_x2; apply bed_receive_left; [exact B3|vm_compute; reflexivity]).
  assert (bed bed_x3.1 bed_x3.2) as B5
    by (unfold bed_x3; apply bed_receive_pair; [exact B4|vm_compute; reflexivity]).
  assert (bed bed_x3.2 bed_c2) as B6.
  { apply bed_sym, bed_tick_left, bed_take_left.
    apply bed_call_left; [|vm_compute; reflexivity|exact I|discriminate].
    apply bed_call_left; [exact B5|vm_compute; reflexivity| |discriminate].
    split; [reflexivity|]. split; [discriminate|vm_compute; discriminate]. }
  assert (bed bed_x4.1 bed_x4.2) as B7 by (unfold bed_x4; apply bed_receive_left; [exact B6|vm_compute; reflexivity]).
  apply bed_sym, bed_call_left; [exact B7|vm_compute; reflexivity| |discriminate].
  split; [left; vm_compute; reflexivity|vm_compute; discriminate].
Qed.

Lemma pair_delivers_witness :
  e_wrote bed_x4.2 = [Byte.x68; Byte.x69] /\ e_read bed_s2 = [Byte.x68; Byte.x69] /\
  e_read bed_s2 `prefix_of` e_wrote bed_x4.2.
Proof.
  assert (is_u32 7) as Hcv by (split; [discriminate|reflexivity]).
  assert (e_numbered bed_x4.2 < 2147483648) as H1 by (vm_compute; reflexivity).
  assert (e_numbered bed_s2 < 2147483648) as H2 by (vm_compute; reflexivity).
  split; [vm_compute; reflexivity|]. split; [vm_compute; reflexivity|].
  destruct (pair_delivers 8 0 7 bed_x4.2 bed_s2 Hcv bed_run H1 H2) as (_ & _ & H & _). exact H.
Defined.
End Demo.
